(* ===== verification/_CoqProject ===== *)
-Q . S2P
Prelude.v
GoFmt.v
GoNet.v
NetFacts.v
HwAddr.v
CidrPool.v
Types.v
Sql.v
Store.v
History.v
Database.v
LeaseFacts.v
LeaseController.v
LeaseSafety.v
Concurrency.v
LeaseWitnesses.v
Http.v
HttpFacts.v
FullStack.v
TestSupport.v
Planner.v
Netlink.v
Converger.v
ConvergerFacts.v
Adapters.v
Vtep.v
Daemon.v
DaemonFacts.v
Datastore.v
Metrics.v
Config.v
ControllerMain.v
DaemonMain.v
GoPath.v
TestHelpers.v
CniConfig.v
CniLib.v
CniPlugin.v
CniMain.v
CniKernel.v
CniLibFacts.v
CniPairFacts.v
CniConfigFacts.v
CniFleet.v
CniFacts.v
CniSim.v
Overlay.v
CycleStack.v
StartStack.v
Liveness.v
Doubles.v
Fakes.v
FakesNetlink.v
FakesController.v
FakesDaemon.v
FakesCni.v
