(* ===== verification/Prelude.v ===== *)
(** * A verification library for silk

    Silk is the container network of Cloud Foundry. [silk-controller] hands out
    leases on subnets of one overlay network, through an HTTP API, and keeps them
    in a SQL table. [silk-daemon] runs on every cell: it acquires a lease, creates
    a VXLAN device for it, renews it, and keeps the kernel's routes in step with
    the leases of the other cells. [silk-cni] connects containers to the network.
    This library models the Go code under src/ and proves what makes it correct.

    ** How code is modelled

    A pure function is a function. A function that calls the outside world is a
    [prog E A]: a tree of calls of the interface [E], the Go interface the code is
    written against (one constructor per method). Interfaces are layered as in the
    program: the HTTP handlers use [apiE], implemented by the lease controller over
    [storeE], implemented by the database handler over [dbE]; the daemon uses
    [plannerE], [netlinkE], [netE], [clientE]; the datastore uses [fileE]; the CNI
    plugin uses [pluginE], which holds [hostE] and [linkE], and the mains have an
    interface each ([controllerE], [daemonMainE], [cniMainE]). [run]
    executes a program against an implementation, [interp] replaces an interface by
    its implementation, [wp step p w Q] says what holds after [p] for every
    answer the contract [step] of the interface allows, and [exec step p w w' a]
    that [p] can end in [w'] with [a]: an implementation under the contract of its
    own interface is in this way a contract for the interface above. What is outside the
    repository (the SQL server, the kernel, encoding/json, the disk) is a parameter
    with its contract stated ([sql_spec], [netlink_spec], [JsonLaws], [file_step]),
    and an instance in memory shows that the contract can be kept. Errors are
    values of [error]; integers are [Z], wrapped to their width where the code can
    leave it. Log lines are left out throughout.

    ** Files

    - Prelude: integers, errors, programs, [run], [interp], [wp], [exec], their
      tactics.
    - GoFmt, GoNet: the parts of Go's fmt, strconv and net the program uses;
      NetFacts: their lemmas (printing and parsing addresses, masks, networks).
    - HwAddr: src/lib/hwaddr, the generators of src/controller/leaser and
      src/cni/config.
    - CidrPool: src/controller/leaser/cidrpool.go with the vendored netaddr. The
      loops take fuel; [pool_fuel] iterations are enough for every valid
      configuration, and the theorems prove that the pool is then returned.
    - Types: the values exchanged (src/controller/client.go, src/daemon).
    - Sql: the statements, the laws of the server, a server in memory. The rows the
      server refuses are read off the UNIQUE clauses of [createSubnetTable]'s text.
    - Store: the contract of the interface databaseHandler, the table's invariant.
    - History: the table with the states it has been in, so that the theorems on
      programs that share it speak of moments of the run.
    - Database: src/controller/database; it refines Store on every lawful server.
    - LeaseFacts, LeaseController, LeaseSafety: src/controller/leaser; acquire,
      renew, release and list, proved against Store only.
    - Concurrency: any number of requests and controllers interleaved at the
      granularity of database calls, as a step relation with its invariant. Requests
      to renew may name any lease: the invariant has the set [R] of those they name.
    - LeaseWitnesses: those theorems at concrete inputs.
    - Http, HttpFacts, FullStack: src/controller/handlers, the client
      src/controller/client.go, the routes and wiring of src/cmd/silk-controller;
      requests followed from the daemon down to SQL and back.
    - Planner: src/daemon/planner and src/daemon/poller; the loop takes fuel, one
      unit per poll, and returns with fuel for every poll before the signal.
    - Netlink, Converger, ConvergerFacts: src/daemon/vtep/converger.go.
    - Adapters: src/lib/adapter, src/cni/adapter, migrate_adapter.go.
    - Vtep, Daemon, DaemonFacts: src/daemon/vtep, the start of
      src/cmd/silk-daemon and src/cmd/silk-teardown.
    - Datastore: src/lib/datastore and src/lib/serial. The JSON codec is a parameter;
      it reads back what it wrote for the containers in its set [stable], because
      encoding/json does not keep every value of Go's types.
    - Metrics: src/controller/server_metrics.
    - Config: src/controller/config and src/client/config: the structs with their
      validate tags, reading, validating and writing.
    - ControllerMain: the main of src/cmd/silk-controller, from the configuration to
      the servers. The pool takes the fuel of CidrPool.
    - DaemonMain: the mains of src/cmd/silk-daemon and src/cmd/silk-teardown.
    - GoPath, CniConfig: src/cni/config and src/cni/netinfo (with path.Clean and
      fmt's %q).
    - CniLib: src/cni/lib, the programs that configure a veth pair; a call that may
      panic has an [outcome].
    - CniPlugin, CniMain: src/cmd/silk-cni.
    - CniKernel: the contract of the kernel's devices in namespaces; CniLibFacts,
      CniPairFacts: the programs of CniLib against it; CniConfigFacts: the names,
      addresses and flannel's file; CniFacts: the plugin; CniFleet: containers of
      all cells; CniSim: a kernel in memory that keeps the contract, and the
      theorems at concrete inputs.
    - Overlay: what the kernel does with a packet ([forward]) once the converger has
      set its tables.
    - CycleStack: one cycle and the loop of the daemon composed of all of these, with
      the wiring of src/cmd/silk-daemon ([main_planner]): the HTTP client, a network
      that loses requests and responses, the handlers, the lease controller whose
      statements interleave with those of others, the converger and the kernel. The
      cell's state has a ghost field, the time of the last renewal confirmed to it.
    - StartStack: the start of the daemon and silk-teardown composed in the same way
      ([main_daemon]), down to the lease table, the VXLAN device ([device_spec]) and
      the file of the containers, which silk-cni uses at the same time.
    - Liveness: the same compositions where nothing fails; the daemon's loop runs while
      others use the table, the first start with the controller to itself.
    - Doubles: the scheme of the generated fakes, for any set of methods; Fakes,
      FakesNetlink, FakesController, FakesDaemon, FakesCni: every one of them.
    - TestSupport: the fake controller of src/testsupport and the fake daemon of
      src/cni/integration. TestHelpers: src/controller/integration/helpers; polling
      takes fuel, one unit per poll, and ends with one more than the clock needs.

    ** What is proved

    - Allocation: members of the pool never overlap, the pool has the expected
      size, the draw is a free member; leases in the table overlap, under any
      interleaving and any failures, only where a renewal named a subnet outside the
      pool, and never share a hardware address or an underlay IP; a lease granted is
      in the table and of the pool; live leases are never taken by an acquisition
      alone; an acquisition succeeds whenever there is room and the prefix length is
      below 32; renewal, release and listing on every path.
    - Storage: the SQL implements the contract, failures of the connection
      included; uniqueness is preserved; the migration loop ends; the datastore of
      the containers is a map.
    - The network: after a cycle that reports success the daemon's lease has been
      renewed, the leases have been listed later, and packets to every other lease
      leave for the underlay address of its cell; the daemon stops with an error only
      when its lease was gone or the grace period had passed since the last renewal
      it was told of. A start that succeeds has a lease that was in the table during
      it and that the device shows; unless the device showed a lease outside the pool
      before, the lease is of the network and the cell is as the theorems on the cycle
      ask for; a restart of a cell with containers keeps lease and device; a teardown
      releases the one and removes the other. When nothing fails, the first start
      succeeds if there is room, and the daemon runs until it is signalled as long as
      others leave its lease in the table.
    - The daemon: what it receives for every answer of the controller; when its
      loop gives up; that its start never deletes the device of a cell in use; that
      after a successful convergence the kernel agrees with the leases, field by field.
    - Containers: a connected container has the veth pair, addresses, routes and
      record its result describes, and nothing else is touched; disconnecting undoes
      it, or leaves the devices alone when its calls fail; connecting succeeds with a
      kernel that does and free device names; containers of cells whose leases do not
      overlap never collide; configuration and flannel's file on every input.
    - The programs as a whole: accepted configurations satisfy their tags and
      survive a round trip; the controller serves only on a migrated database with
      the pool of its network; the daemon serves only a lease the controller has
      granted or renewed since it started.
    - Test doubles: code under test sees the arranged answers and every call is
      recorded.
    - Theorems that show a defect: the controller that never serves for prefix
      lengths above 32, which its validation accepts; blocks of one address that are
      never reclaimed; the race of a reclaim with a renewal; the lease of a single
      IP that a restart loses, and that comes back as a block over the leases of
      others when its row is gone; the device without an address, left by a failed
      creation, that blocks every start; the store a full disk empties; the metric that
      hides an error; the record of a container that a deletion without its namespace
      leaves; the panic when a device disappears during its set-up.

    ** What is not modelled

    Loggers and the emission of metrics. Command line flags: the path of the
    configuration is an argument of the mains. Libraries are calls with a contract
    (TLS, the connection pool, ifrit's process group, the CNI library's dispatch).
    The lists of imports for the build (src/modules, src/tools), which do nothing. *)

From Stdlib Require Import ZArith Lia Ascii.
From stdpp Require Export base numbers list strings gmap.

Declare Scope silk_scope.
Delimit Scope silk_scope with silk.
Open Scope silk_scope.
Open Scope Z_scope.

(** ** Machine integers

    Go's [int] and [int64] are 64 bits wide, [int32] 32 bits, [byte] 8 bits.
    A value of such a type is a [Z]; an operation that can leave the range of
    its type is followed by the wrap of its width. *)

Definition wrapu (w z : Z) : Z := z mod 2 ^ w.

Definition wraps (w z : Z) : Z := (z + 2 ^ (w - 1)) mod 2 ^ w - 2 ^ (w - 1).

(** [1 << n] on [int] with an unsigned [n]: a count of 64 or more gives 0. *)
Definition int_shl1 (n : Z) : Z := if n <? 64 then wraps 64 (2 ^ n) else 0.

Definition is_byte (b : Z) : Prop := 0 <= b < 256.
Global Instance is_byte_dec b : Decision (is_byte b).
Proof. unfold is_byte. apply _. Defined.

(** ** Errors and results

    [error] is Go's [error] as this program uses it: a message built by
    [errors.New] or [fmt.Errorf], and the sentinel values and error types the
    code tests for. *)

Inductive error : Type :=
| Errorf (msg : string)
| RecordNotAffectedError
| ErrNoRows
| NonRetriableError (msg : string)
| FatalError (msg : string)
| HttpResponseCodeError (StatusCode : Z) (Message : string)
| TypesError (Code : Z) (Msg Details : string).

Global Instance error_eq_dec : EqDecision error.
Proof. solve_decision. Defined.

Inductive result (A : Type) : Type :=
| Ok (a : A)
| Err (e : error).
Arguments Ok {A} a.
Arguments Err {A} e.

(** How a call that can panic, or loop for ever, ends. [OutOfFuel n] iterations
    were not enough. *)
Inductive outcome (A : Type) : Type :=
| Returns (a : A)
| Panics (msg : string)
| OutOfFuel.
Arguments Returns {A} a.
Arguments Panics {A} msg.
Arguments OutOfFuel {A}.

Definition is_Ok {A} (r : result A) : bool :=
  match r with Ok _ => true | Err _ => false end.

(** ** Effectful code

    A function of the source that calls the outside world (a SQL connection,
    the kernel through netlink, a file, the clock) is a [prog E A]: a tree of
    calls [e : E X], each waiting for its answer. [E] is the interface the Go
    code is written against, with one constructor per method. [run] executes a
    program against a handler, an implementation of the interface on a state;
    [interp] replaces an interface by an implementation in another one. *)

Inductive prog (E : Type -> Type) (A : Type) : Type :=
| Ret (a : A)
| Vis (X : Type) (e : E X) (k : X -> prog E A).
Arguments Ret {E A} a.
Arguments Vis {E A} X e k.

Definition handler (E : Type -> Type) (S : Type) : Type :=
  forall X : Type, E X -> S -> S * X.

Fixpoint bind {E A B} (p : prog E A) (f : A -> prog E B) : prog E B :=
  match p with
  | Ret a => f a
  | Vis X e k => Vis X e (fun x => bind (k x) f)
  end.

Definition trigger {E X} (e : E X) : prog E X := Vis X e Ret.

Fixpoint run {E S A} (h : handler E S) (p : prog E A) (s : S) : S * A :=
  match p with
  | Ret a => (s, a)
  | Vis X e k => let '(s', x) := h X e s in run h (k x) s'
  end.

Fixpoint interp {E F A} (h : forall X, E X -> prog F X) (p : prog E A) : prog F A :=
  match p with
  | Ret a => Ret a
  | Vis X e k => bind (h X e) (fun x => interp h (k x))
  end.

(** [try x <- p catch w ;; k] is Go's
    [x, err := p; if err != nil { return w(err) }; k]. *)
Definition bind_err {E A B} (p : prog E (result A)) (w : error -> error)
    (k : A -> prog E (result B)) : prog E (result B) :=
  bind p (fun r => match r with Ok x => k x | Err e => Ret (Err (w e)) end).

Notation "x <- p ;; k" := (bind p (fun x => k))
  (at level 100, p at next level, right associativity) : silk_scope.
Notation "'try' x <- p 'catch' w ;; k" := (bind_err p w (fun x => k))
  (at level 100, x pattern, p at next level, w at next level, right associativity) : silk_scope.

Lemma run_bind {E S A B} (h : handler E S) (p : prog E A) (f : A -> prog E B) s :
  run h (bind p f) s = let '(s', a) := run h p s in run h (f a) s'.
Proof.
  revert s. induction p as [a|X e k IH]; intros s; simpl; [done|].
  destruct (h X e s) as [s' x]. apply IH.
Qed.

Lemma run_interp {E F S A} (hF : handler F S) (h : forall X, E X -> prog F X) (p : prog E A) s :
  run hF (interp h p) s = run (fun X e => run hF (h X e)) p s.
Proof.
  revert s. induction p as [a|X e k IH]; intros s; simpl; [done|].
  rewrite run_bind. destruct (run hF (h X e) s) as [s' x]. apply IH.
Qed.

Lemma run_bind_err {E S A B} (h : handler E S) (p : prog E (result A)) w
    (k : A -> prog E (result B)) s :
  run h (bind_err p w k) s =
  match run h p s with
  | (s', Ok x) => run h (k x) s'
  | (s', Err e) => (s', Err (w e))
  end.
Proof.
  unfold bind_err. rewrite run_bind.
  destruct (run h p s) as [s' [x|e]]; done.
Qed.

Lemma run_trigger {E S X} (h : handler E S) (e : E X) s : run h (trigger e) s = h X e s.
Proof. simpl. by destruct (h X e s). Qed.

Create HintDb silk.
Create Rewrite HintDb run.
#[export] Hint Rewrite @run_bind @run_bind_err @run_trigger : run.

(** Executes the program at the head of the goal (or of a hypothesis) one call further. *)
Ltac step_run := autorewrite with run; cbn [run].
Ltac step_run_in H := autorewrite with run in H; cbn [run] in H.

(** ** What holds after a program

    [wp step p w Q]: whatever the outside world answers within the contract
    [step], the program [p] started in world [w] ends in a world and with a
    result that satisfy [Q]. *)

Section Wp.
Context {E : Type -> Type} {W : Type}.
Variable step : forall X : Type, E X -> W -> W -> X -> Prop.

Fixpoint wp {A} (p : prog E A) (w : W) (Q : W -> A -> Prop) : Prop :=
  match p with
  | Ret a => Q w a
  | Vis X e k => forall w' x, step X e w w' x -> wp (k x) w' Q
  end.

Lemma wp_mono {A} (p : prog E A) w (Q Q' : W -> A -> Prop) :
  wp p w Q -> (forall w a, Q w a -> Q' w a) -> wp p w Q'.
Proof.
  revert w. induction p as [a|X e k IH]; intros w; simpl; [auto|].
  intros H HQ w' x Hs. eapply IH; eauto.
Qed.

Lemma wp_true {A} (p : prog E A) w : wp p w (fun _ _ => True).
Proof. revert w. induction p as [a|X e k IH]; intros w; simpl; auto. Qed.

Lemma wp_and {A} (p : prog E A) w (Q Q' : W -> A -> Prop) :
  wp p w Q -> wp p w Q' -> wp p w (fun w a => Q w a /\ Q' w a).
Proof.
  revert w. induction p as [a|X e k IH]; intros w; simpl; [done|]. eauto.
Qed.

(** A fact about the world that every step may use. *)
Lemma wp_impl {A} (H : Prop) (p : prog E A) w (Q : W -> A -> Prop) :
  (H -> wp p w Q) -> wp p w (fun w a => H -> Q w a).
Proof.
  revert w. induction p as [a|X e k IH]; intros w; simpl; [done|].
  intros Hp w' x Hs. apply IH. intros Hh. by apply Hp.
Qed.

Lemma wp_forall {A B} (p : prog E A) w (Q : B -> W -> A -> Prop) :
  (forall b, wp p w (Q b)) -> wp p w (fun w a => forall b, Q b w a).
Proof.
  revert w. induction p as [a|X e k IH]; intros w; simpl; [done|].
  intros Hp w' x Hs. apply IH. intros b. by apply Hp.
Qed.

Lemma wp_bind {A B} (p : prog E A) (f : A -> prog E B) w Q :
  wp p w (fun w' a => wp (f a) w' Q) -> wp (bind p f) w Q.
Proof.
  revert w. induction p as [a|X e k IH]; intros w; simpl; [done|].
  intros H w' x Hs. apply IH. by apply H.
Qed.

Lemma wp_bind_err {A B} (p : prog E (result A)) g (k : A -> prog E (result B)) w Q :
  wp p w (fun w' r => match r with Ok x => wp (k x) w' Q | Err e => Q w' (Err (g e)) end) ->
  wp (bind_err p g k) w Q.
Proof.
  intros H. apply wp_bind. eapply wp_mono; [exact H|]. by intros w' [x|e].
Qed.

Lemma wp_trigger {X} (e : E X) w Q :
  (forall w' x, step X e w w' x -> Q w' x) -> wp (trigger e) w Q.
Proof. intros H w' x Hs. by apply H. Qed.

(** A handler whose calls keep the contract, on the states [Inv] holds of. *)
Lemma wp_sound {S A} (h : handler E S) (Inv : S -> Prop) (abs : S -> W) (p : prog E A) s Q :
  (forall X (e : E X) s, Inv s ->
     Inv (fst (h X e s)) /\ step X e (abs s) (abs (fst (h X e s))) (snd (h X e s))) ->
  Inv s -> wp p (abs s) Q -> Q (abs (fst (run h p s))) (snd (run h p s)) /\ Inv (fst (run h p s)).
Proof.
  intros Hh. revert s. induction p as [a|X e k IH]; intros s Hs; simpl; [done|].
  intros H. destruct (Hh X e s Hs) as [Hs' Hstep].
  destruct (h X e s) as [s' x]. simpl in *. by apply IH, H.
Qed.

End Wp.

(** A contract that is at most as permissive proves at least as much. *)
Lemma wp_step_mono {E W A} (step step' : forall X, E X -> W -> W -> X -> Prop)
    (p : prog E A) w Q :
  (forall X (e : E X) w w' x, step' X e w w' x -> step X e w w' x) ->
  wp step p w Q -> wp step' p w Q.
Proof.
  intros Hs. revert w. induction p as [a|X e k IH]; intros w; simpl; [done|]. eauto.
Qed.

(** [exec step p w w' a]: within the contract [step], [p] started in [w] can end in
    [w'] with the result [a]. It makes a contract out of a program. *)
Fixpoint exec {E W A} (step : forall X, E X -> W -> W -> X -> Prop) (p : prog E A) (w w' : W) (a : A)
    : Prop :=
  match p with
  | Ret a0 => w' = w /\ a = a0
  | Vis X e k => exists w1 x, step X e w w1 x /\ exec step (k x) w1 w' a
  end.

Lemma wp_exec {E W A} (step : forall X, E X -> W -> W -> X -> Prop) (p : prog E A) w w' a Q :
  wp step p w Q -> exec step p w w' a -> Q w' a.
Proof.
  revert w. induction p as [a0|X e k IH]; intros w; simpl; [by intros H [-> ->]|].
  intros H (w1 & x & Hs & He). eapply IH; [by apply H|done].
Qed.

Lemma exec_trigger {E W X} (step : forall X, E X -> W -> W -> X -> Prop) (e : E X) w w' x :
  exec step (trigger e) w w' x -> step X e w w' x.
Proof. by intros (? & ? & ? & -> & ->). Qed.

(** A program over an interface that another program implements. *)
Lemma wp_interp {E F W A} (step : forall X, F X -> W -> W -> X -> Prop)
    (h : forall X, E X -> prog F X) (p : prog E A) w Q :
  wp (fun X e => exec step (h X e)) p w Q -> wp step (interp h p) w Q.
Proof.
  revert w. induction p as [a|X e k IH]; intros w; simpl; [done|]. intros H. apply wp_bind.
  assert (forall w' x, exec step (h X e) w w' x -> wp step (interp h (k x)) w' Q) as Hk by auto.
  clear H IH. revert w Hk. generalize (h X e). intros q. induction q as [x|Y f g IHq]; intros w Hk.
  - apply Hk. done.
  - intros w1 y Hy. apply IHq. intros w' x Hx. apply Hk. exists w1, y. done.
Qed.

Lemma exec_sound {E W S A} (step : forall X, E X -> W -> W -> X -> Prop) (h : handler E S)
    (Inv : S -> Prop) (abs : S -> W) (p : prog E A) s :
  (forall X (e : E X) s, Inv s ->
     Inv (fst (h X e s)) /\ step X e (abs s) (abs (fst (h X e s))) (snd (h X e s))) ->
  Inv s -> exec step p (abs s) (abs (fst (run h p s))) (snd (run h p s)).
Proof.
  intros Hh. revert s. induction p as [a|X e k IH]; intros s Hs; simpl; [done|].
  destruct (Hh X e s Hs) as [Hs' Hstep]. destruct (h X e s) as [s' x]. simpl in *.
  exists (abs s'), x. split; [done|]. by apply IH.
Qed.

(** ** Calls that may panic

    [call x <- p or w ;; k] is Go's [x, err := p; if err != nil { return w(err) }; k]
    where [p] may panic. *)

Definition bind_out {E A B} (p : prog E (outcome (result A))) (w : error -> error)
    (k : A -> prog E (outcome (result B))) : prog E (outcome (result B)) :=
  bind p (fun o =>
    match o with
    | Returns (Ok x) => k x
    | Returns (Err e) => Ret (Returns (Err (w e)))
    | Panics m => Ret (Panics m)
    | OutOfFuel => Ret OutOfFuel
    end).

Notation "'call' x <- p 'or' w ;; k" := (bind_out p w (fun x => k))
  (at level 100, x pattern, p at next level, w at next level, right associativity) : silk_scope.

(** A program that does not panic. *)
Definition returning {E A} (p : prog E A) : prog E (outcome A) := x <- p ;; Ret (Returns x).

(** ** Programs that may panic, and programs of another interface *)

Section WpCalls.
Context {E : Type -> Type} {W : Type} (step : forall X : Type, E X -> W -> W -> X -> Prop).

Lemma wp_bind_out {A B} (p : prog E (outcome (result A))) g (f : A -> prog E (outcome (result B))) w Q :
  wp step p w (fun w' o =>
    match o with
    | Returns (Ok x) => wp step (f x) w' Q
    | Returns (Err e) => Q w' (Returns (Err (g e)))
    | Panics m => Q w' (Panics m)
    | OutOfFuel => Q w' OutOfFuel
    end) -> wp step (bind_out p g f) w Q.
Proof.
  intros H. apply wp_bind. eapply wp_mono; [exact H|]. by intros w' [[x|e]|m|].
Qed.

Lemma wp_returning {A} (p : prog E A) w Q :
  wp step p w (fun w' x => Q w' (Returns x)) -> wp step (returning p) w Q.
Proof. intros H. by apply wp_bind. Qed.

(** An interface inside a larger one, with the same contract. *)
Lemma wp_embed {F A} (stepF : forall X, F X -> W -> W -> X -> Prop) (inj : forall X, F X -> E X)
    (p : prog F A) w Q :
  (forall X (e : F X) w w' x, step X (inj X e) w w' x -> stepF X e w w' x) ->
  wp stepF p w Q -> wp step (interp (fun X e => trigger (inj X e)) p) w Q.
Proof.
  intros Hs. revert w. induction p as [a|X e k IH]; intros w H; [done|].
  intros w' x Hstep. by apply IH, H, Hs.
Qed.

(** An interface inside a larger one, whose contract speaks of a part of a world. *)
Lemma wp_zoom {F V A} (stepF : forall X, F X -> V -> V -> X -> Prop) (inj : forall X, F X -> E X)
    (get : W -> V) (put : V -> W -> W) (p : prog F A) w Q :
  (forall X (e : F X) w w' x, step X (inj X e) w w' x ->
     stepF X e (get w) (get w') x /\ w' = put (get w') w) ->
  (forall v v' w, put v' (put v w) = put v' w) -> (forall w, put (get w) w = w) ->
  wp stepF p (get w) (fun v a => Q (put v w) a) ->
  wp step (interp (fun X e => trigger (inj X e)) p) w Q.
Proof.
  intros Hs Hpp Hpg. revert w. induction p as [a|X e k IH]; intros w H.
  - simpl in *. by rewrite Hpg in H.
  - intros w' x Hstep. destruct (Hs _ _ _ _ _ Hstep) as [Hf Hw']. apply IH.
    eapply wp_mono; [by apply H|]. intros v a Ha. by rewrite Hw', Hpp.
Qed.

End WpCalls.

(** A world whose steps are steps of what it shows. *)
Lemma wp_abs {E W V A} (stepW : forall X, E X -> W -> W -> X -> Prop)
    (stepV : forall X, E X -> V -> V -> X -> Prop) (f : W -> V) (p : prog E A) w Q :
  (forall X (e : E X) w w' x, stepW X e w w' x -> stepV X e (f w) (f w') x) ->
  wp stepV p (f w) Q -> wp stepW p w (fun w' a => Q (f w') a).
Proof.
  intros Hs. revert w. induction p as [a|X e k IH]; intros w H; [done|].
  intros w' x Hstep. by apply IH, H, Hs.
Qed.

(** Two worlds that see the same calls. *)
Definition pair_step {E : Type -> Type} {W V : Type} (stepW : forall X, E X -> W -> W -> X -> Prop)
    (stepV : forall X, E X -> V -> V -> X -> Prop) (X : Type) (e : E X) (w w' : W * V) (x : X) : Prop :=
  stepW X e (fst w) (fst w') x /\ stepV X e (snd w) (snd w') x.

Lemma wp_pair {E W V A} stepW stepV (p : prog E A) (w : W * V) Q Q' :
  wp stepW p (fst w) Q -> wp stepV p (snd w) Q' ->
  wp (pair_step stepW stepV) p w (fun w' a => Q (fst w') a /\ Q' (snd w') a).
Proof.
  revert w. induction p as [a|X e k IH]; intros w H H'; [done|].
  intros w' x [Hw Hv]. apply IH; [by apply H|by apply H'].
Qed.

(** A call in a Go function, in any of its three forms. *)
Ltac wp_call :=
  first [ apply wp_bind_err, wp_trigger | apply wp_bind_out, wp_returning, wp_trigger
        | apply wp_bind, wp_trigger | apply wp_trigger ].
