(* ===== verification/GoFmt.v ===== *)
(** * Strings and number formatting of the Go standard library

    A Go string is a sequence of bytes, here a [string]. This file has what the
    program uses of [fmt] ([%d], [%03d], [%x] and [%02x]), the number scanners
    of package [net] ([dtoi], [xtoi], [xtoi2]), and the lemmas that relate
    printing and scanning. *)

From Stdlib Require Import ZArith Lia Ascii.
From S2P Require Import Prelude.

Global Arguments String.append : simpl nomatch.

(** ** Characters *)

Definition code (c : ascii) : Z := Z.of_N (N_of_ascii c).
Definition chr (n : Z) : ascii := ascii_of_N (Z.to_N n).

Lemma code_chr n : is_byte n -> code (chr n) = n.
Proof.
  unfold code, chr, is_byte. intros H.
  rewrite N_ascii_embedding; lia.
Qed.

Lemma chr_code c : chr (code c) = c.
Proof. unfold chr, code. rewrite N2Z.id. apply ascii_N_embedding. Qed.

Lemma code_inj c d : code c = code d -> c = d.
Proof. intros H. by rewrite <- (chr_code c), H, chr_code. Qed.

Lemma code_byte c : is_byte (code c).
Proof. unfold code, is_byte. pose proof (N_ascii_bounded c). lia. Qed.

Definition is_digit (c : ascii) : bool := (48 <=? code c) && (code c <=? 57).

(** ** Strings *)

Lemma str_app_assoc (a b c : string) : (a +:+ b) +:+ c = a +:+ (b +:+ c).
Proof. induction a as [|x a IH]; [done|]. cbn. by f_equal. Qed.

Lemma str_app_nil_r (a : string) : a +:+ "" = a.
Proof. induction a as [|x a IH]; [done|]. cbn. by f_equal. Qed.

Lemma str_length_app (a b : string) :
  String.length (a +:+ b) = (String.length a + String.length b)%nat.
Proof. induction a as [|x a IH]; cbn; [done|]. by f_equal. Qed.

Lemma str_app_inv_l (a b c : string) : a +:+ b = a +:+ c -> b = c.
Proof. induction a as [|x a IH]; cbn; [done|]. intros [= H]. auto. Qed.

Fixpoint str_drop (n : nat) (s : string) : string :=
  match n, s with
  | O, _ => s
  | S n', String _ s' => str_drop n' s'
  | S _, EmptyString => EmptyString
  end.

Lemma str_drop_app (a b : string) : str_drop (String.length a) (a +:+ b) = b.
Proof. induction a as [|x a IH]; [by destruct b|]. apply IH. Qed.

(** Every character of the string satisfies [f]. *)
Fixpoint str_all (f : ascii -> bool) (s : string) : bool :=
  match s with
  | EmptyString => true
  | String c s' => f c && str_all f s'
  end.

Lemma str_all_app f (a b : string) : str_all f (a +:+ b) = str_all f a && str_all f b.
Proof. induction a as [|x a IH]; cbn; [done|]. by rewrite IH, andb_assoc. Qed.

(** [strings.IndexByte] with the two slices around the byte found. *)
Fixpoint cut (c : ascii) (s : string) : option (string * string) :=
  match s with
  | EmptyString => None
  | String d s' =>
      if Ascii.eqb d c then Some (EmptyString, s')
      else match cut c s' with
           | Some (a, b) => Some (String d a, b)
           | None => None
           end
  end.

Lemma cut_app c (a b : string) :
  str_all (fun d => negb (Ascii.eqb d c)) a = true -> cut c (a +:+ String c b) = Some (a, b).
Proof.
  induction a as [|x a IH]; cbn; [by rewrite Ascii.eqb_refl|].
  intros [Hx Ha]%andb_prop. apply negb_true_iff in Hx. rewrite Hx. by rewrite (IH Ha).
Qed.

(** ** Decimal printing: the verbs [%d] and [%03d] *)

Definition digit (n : Z) : ascii := chr (48 + n).

Fixpoint digits (fuel : nat) (n : Z) (acc : string) : string :=
  match fuel with
  | O => acc
  | S fuel' =>
      let acc' := String (digit (n mod 10)) acc in
      if n <? 10 then acc' else digits fuel' (n / 10) acc'
  end.

Definition utoa (n : Z) : string := digits (S (Z.to_nat (Z.log2 n))) n EmptyString.

Global Arguments utoa : simpl never.

Definition itoa (n : Z) : string :=
  if n <? 0 then "-" +:+ utoa (- n) else utoa n.

Fixpoint pad_left (c : ascii) (k : nat) (s : string) : string :=
  match k with
  | O => s
  | S k' => String c (pad_left c k' s)
  end.

(** [%03d] of a byte. *)
Definition itoa03 (n : Z) : string :=
  let s := utoa n in pad_left "0" (3 - String.length s) s.

(** ** Errors as text *)

(** The [Error] method: the text of an error. *)
Definition Error (e : error) : string :=
  match e with
  | Errorf msg => msg
  | RecordNotAffectedError => "record not affected"
  | ErrNoRows => "sql: no rows in result set"
  | NonRetriableError msg => msg
  | FatalError msg => "fatal: " +:+ msg
  | HttpResponseCodeError code msg => "http status " +:+ itoa code +:+ ": " +:+ msg
  | TypesError _ msg details => msg +:+ (if decide (details <> "") then "; " +:+ details else "")
  end.

(** [fmt.Errorf("<prefix>: %s", err)]. *)
Definition wrap (prefix : string) (e : error) : error := Errorf (prefix +:+ ": " +:+ Error e).

(** ** Hexadecimal printing: [%x] and [%02x] *)

Definition hex_digit (n : Z) : ascii := if n <? 10 then chr (48 + n) else chr (87 + n).

Definition hex2 (b : Z) : string :=
  String (hex_digit (b / 16)) (String (hex_digit (b mod 16)) EmptyString).

(** ** Scanners of package [net]: [dtoi], [xtoi], [xtoi2] *)

Definition big : Z := 16777215.

Fixpoint dtoi_loop (s : string) (n : Z) (i : nat) : option (Z * nat) :=
  match s with
  | String c s' =>
      if is_digit c then
        let n' := n * 10 + (code c - 48) in
        if big <=? n' then None else dtoi_loop s' n' (S i)
      else Some (n, i)
  | EmptyString => Some (n, i)
  end.

(** The number at the start of [s] and how many bytes it takes; [None] when
    there is none or it is too big. *)
Definition dtoi (s : string) : option (Z * nat) :=
  match dtoi_loop s 0 0 with
  | Some (_, O) => None
  | r => r
  end.

Definition hex_val (c : ascii) : option Z :=
  let x := code c in
  if (48 <=? x) && (x <=? 57) then Some (x - 48)
  else if (97 <=? x) && (x <=? 102) then Some (x - 87)
  else if (65 <=? x) && (x <=? 70) then Some (x - 55)
  else None.

Fixpoint xtoi_loop (s : string) (n : Z) (i : nat) : option (Z * nat) :=
  match s with
  | String c s' =>
      match hex_val c with
      | Some d =>
          let n' := n * 16 + d in
          if big <=? n' then None else xtoi_loop s' n' (S i)
      | None => Some (n, i)
      end
  | EmptyString => Some (n, i)
  end.

Definition xtoi (s : string) : option (Z * nat) :=
  match xtoi_loop s 0 0 with
  | Some (_, O) => None
  | r => r
  end.

(** The byte written as the first two characters of [s]; a third character must be [e]. *)
Definition xtoi2 (s : string) (e : option ascii) : option Z :=
  match s with
  | String a (String b rest) =>
      let sep_ok := match rest with
                    | EmptyString => true
                    | String c _ => match e with Some e' => Ascii.eqb c e' | None => false end
                    end in
      if sep_ok then
        match xtoi (String a (String b EmptyString)) with
        | Some (n, 2%nat) => Some (wrapu 8 n)
        | _ => None
        end
      else None
  | _ => None
  end.

(** ** Lemmas: printing then scanning *)

(** The number a string of digits denotes, read with accumulator [n]. *)
Fixpoint dec_value (s : string) (n : Z) : Z :=
  match s with
  | EmptyString => n
  | String c s' => dec_value s' (n * 10 + (code c - 48))
  end.

Lemma code_digit n : 0 <= n < 10 -> code (digit n) = 48 + n.
Proof. intros H. unfold digit. apply code_chr. unfold is_byte. lia. Qed.

Lemma is_digit_digit n : 0 <= n < 10 -> is_digit (digit n) = true.
Proof. intros H. unfold is_digit. rewrite code_digit; lia. Qed.

Lemma digits_app fuel n acc : digits fuel n acc = digits fuel n EmptyString +:+ acc.
Proof.
  revert n acc. induction fuel as [|fuel IH]; intros n acc; simpl; [done|].
  destruct (n <? 10); [done|].
  rewrite IH, (IH _ (String _ EmptyString)), str_app_assoc. done.
Qed.

Lemma dec_value_app a b n : dec_value (a +:+ b) n = dec_value b (dec_value a n).
Proof. revert n. induction a as [|x a IH]; intros n; simpl; auto. Qed.

(** A fuel of [log2 n + 1] iterations prints every digit of [n]. *)
Lemma digits_value fuel n :
  0 <= n < 2 ^ Z.of_nat fuel -> dec_value (digits fuel n EmptyString) 0 = n.
Proof.
  revert n. induction fuel as [|fuel IH]; intros n Hn; [simpl in *; lia|].
  cbn [digits]. destruct (Z.ltb_spec n 10).
  - simpl. rewrite Z.mod_small by lia. rewrite code_digit; lia.
  - rewrite digits_app, dec_value_app, IH.
    + simpl. rewrite code_digit by (apply Z.mod_pos_bound; lia).
      pose proof (Z.div_mod n 10 ltac:(lia)). lia.
    + rewrite Nat2Z.inj_succ, Z.pow_succ_r in Hn by lia.
      split; [apply Z.div_pos; lia|]. apply Z.div_lt_upper_bound; lia.
Qed.

Lemma utoa_value n : 0 <= n -> dec_value (utoa n) 0 = n.
Proof.
  intros Hn. unfold utoa. apply digits_value. split; [done|].
  rewrite Nat2Z.inj_succ, Z2Nat.id by apply Z.log2_nonneg.
  destruct (decide (n = 0)) as [->|]; [done|].
  pose proof (Z.log2_spec n ltac:(lia)). lia.
Qed.

Lemma utoa_inj n m : 0 <= n -> 0 <= m -> utoa n = utoa m -> n = m.
Proof. intros Hn Hm H. rewrite <- (utoa_value n), <- (utoa_value m) by done. by rewrite H. Qed.

Lemma digits_all_digits fuel n acc :
  0 <= n -> str_all is_digit acc = true -> str_all is_digit (digits fuel n acc) = true.
Proof.
  revert n acc. induction fuel as [|fuel IH]; intros n acc Hn Ha; simpl; [done|].
  assert (str_all is_digit (String (digit (n mod 10)) acc) = true).
  { simpl. rewrite is_digit_digit by (apply Z.mod_pos_bound; lia). done. }
  destruct (n <? 10); [done|]. apply IH; [|done]. apply Z.div_pos; lia.
Qed.

Lemma utoa_all_digits n : 0 <= n -> str_all is_digit (utoa n) = true.
Proof. intros Hn. by apply digits_all_digits. Qed.

Lemma digits_nonempty fuel n acc : acc <> EmptyString -> digits fuel n acc <> EmptyString.
Proof.
  revert n acc. induction fuel as [|fuel IH]; intros n acc Ha; simpl; [done|].
  destruct (n <? 10); [done|]. by apply IH.
Qed.

Lemma utoa_nonempty n : utoa n <> EmptyString.
Proof.
  unfold utoa. cbn [digits]. destruct (n <? 10); [done|]. by apply digits_nonempty.
Qed.

(** The text that follows a number does not go on with a digit. *)
Definition no_digit_first (s : string) : Prop :=
  match s with EmptyString => True | String c _ => is_digit c = false end.

Lemma dec_value_mono s n m :
  str_all is_digit s = true -> 0 <= n <= m -> n <= dec_value s n /\ dec_value s n <= dec_value s m.
Proof.
  revert n m. induction s as [|c s IH]; simpl; intros n m Hd Hnm; [lia|].
  apply andb_prop in Hd as [Hc Hd]. unfold is_digit in Hc. apply andb_prop in Hc as [H1 H2].
  destruct (IH (n * 10 + (code c - 48)) (m * 10 + (code c - 48)) Hd); lia.
Qed.

Lemma dtoi_loop_digits s rest n i :
  str_all is_digit s = true -> no_digit_first rest -> 0 <= n -> dec_value s n < big ->
  dtoi_loop (s +:+ rest) n i = Some (dec_value s n, (i + String.length s)%nat).
Proof.
  revert n i. induction s as [|c s IH]; simpl; intros n i Hd Hr Hn Hb.
  - rewrite Nat.add_0_r. destruct rest as [|c r]; simpl in *; [done|]. by rewrite Hr.
  - apply andb_prop in Hd as [Hc Hd]. rewrite Hc.
    unfold is_digit in Hc. apply andb_prop in Hc as [H1 H2].
    destruct (dec_value_mono s (n * 10 + (code c - 48)) (n * 10 + (code c - 48)) Hd ltac:(lia)).
    destruct (Z.leb_spec big (n * 10 + (code c - 48))); [lia|].
    rewrite IH by (done || lia). do 2 f_equal. lia.
Qed.

(** [dtoi] scans back what [utoa] printed, whatever non-digit follows. *)
Lemma dtoi_utoa n rest :
  0 <= n < big -> no_digit_first rest ->
  dtoi (utoa n +:+ rest) = Some (n, String.length (utoa n)).
Proof.
  intros Hn Hr. unfold dtoi.
  rewrite dtoi_loop_digits; rewrite ?utoa_value by lia;
    [|apply utoa_all_digits; lia|done|lia|lia].
  simpl. destruct (utoa n) eqn:E; [by apply utoa_nonempty in E|done].
Qed.

Lemma str_all_weaken (f g : ascii -> bool) s :
  (forall c, f c = true -> g c = true) -> str_all f s = true -> str_all g s = true.
Proof.
  intros Hfg. induction s as [|c s IH]; simpl; [done|].
  intros [Hc Hs]%andb_prop. by rewrite Hfg, IH.
Qed.

(** A decimal number contains neither dots nor slashes. *)
Lemma utoa_free n c : 0 <= n -> is_digit c = false ->
  str_all (fun d => negb (Ascii.eqb d c)) (utoa n) = true.
Proof.
  intros Hn Hc. eapply str_all_weaken; [|by apply utoa_all_digits].
  intros d Hd. destruct (Ascii.eqb_spec d c); [congruence|done].
Qed.

(** A number below [10 ^ k] has at most [k] digits. *)
Lemma digits_length fuel n k :
  0 <= n < 10 ^ Z.of_nat (S k) -> (String.length (digits fuel n EmptyString) <= S k)%nat.
Proof.
  revert n k. induction fuel as [|fuel IH]; intros n k Hn; cbn [digits]; [simpl; lia|].
  destruct (Z.ltb_spec n 10) as [|Hge]; [simpl; lia|]. rewrite digits_app, str_length_app.
  destruct k as [|k]; [lia|]. specialize (IH (n / 10) k). cbn [String.length].
  rewrite (Nat2Z.inj_succ (S k)), Z.pow_succ_r in Hn by lia.
  assert (0 <= n / 10 < 10 ^ Z.of_nat (S k)); [|specialize (IH ltac:(done)); lia].
  split; [apply Z.div_pos; lia|apply Z.div_lt_upper_bound; lia].
Qed.

Lemma utoa_length n k : 0 <= n < 10 ^ Z.of_nat (S k) -> (String.length (utoa n) <= S k)%nat.
Proof. apply digits_length. Qed.

Lemma dec_value_bound s n :
  str_all is_digit s = true -> 0 <= n ->
  0 <= dec_value s n < (n + 1) * 10 ^ Z.of_nat (String.length s).
Proof.
  revert n. induction s as [|c s IH]; intros n; cbn [str_all dec_value String.length].
  - change (10 ^ Z.of_nat 0) with 1. lia.
  - intros [Hc Hs]%andb_prop Hn. unfold is_digit in Hc. apply andb_prop in Hc as [H1 H2].
    rewrite Nat2Z.inj_succ, Z.pow_succ_r by lia.
    specialize (IH (n * 10 + (code c - 48)) Hs ltac:(lia)).
    pose proof (Z.pow_pos_nonneg 10 (Z.of_nat (String.length s))). nia.
Qed.
