(* ===== verification/GoNet.v ===== *)
(** * Package [net] of the Go standard library

    Addresses, masks, networks and hardware addresses, with the parsers and
    printers the program calls: [ParseIP], [ParseCIDR], [ParseMAC],
    [CIDRMask], [IP.To4], [IP.Mask], [IP.String], [IPMask.Size],
    [IPNet.Contains], [IPNet.String] and [HardwareAddr.String]. A Go byte slice
    is a list of bytes, and [nil] is the empty list: the library functions test
    addresses by their length only. *)

From Stdlib Require Import ZArith Lia Ascii.
From S2P Require Import Prelude GoFmt.

(** ** Types *)

Abbreviation IP := (list Z) (only parsing).
Abbreviation IPMask := (list Z) (only parsing).
Abbreviation HardwareAddr := (list Z) (only parsing).

Record IPNet := { IPNet_IP : IP; IPNet_Mask : IPMask }.

Global Instance IPNet_eq_dec : EqDecision IPNet.
Proof. solve_decision. Defined.

(** ** Addresses and masks *)

Definition v4InV6Prefix : list Z := [0;0;0;0;0;0;0;0;0;0;255;255].

Definition IPv4 (a b c d : Z) : IP := v4InV6Prefix ++ [a; b; c; d].

Definition To4 (ip : IP) : IP :=
  if decide (length ip = 4%nat) then ip
  else if decide (length ip = 16%nat /\ take 12 ip = v4InV6Prefix) then drop 12 ip
  else [].

(** [^byte(0xff >> n)] for [n < 8]. *)
Definition mask_byte (n : Z) : Z := 255 - Z.shiftr 255 n.

Fixpoint CIDRMask_loop (l : nat) (n : Z) : IPMask :=
  match l with
  | O => []
  | S l' => if 8 <=? n then 255 :: CIDRMask_loop l' (n - 8)
            else mask_byte n :: CIDRMask_loop l' 0
  end.

Definition CIDRMask (ones bits : Z) : IPMask :=
  if negb ((bits =? 32) || (bits =? 128)) then []
  else if (ones <? 0) || (bits <? ones) then []
  else CIDRMask_loop (Z.to_nat (bits / 8)) ones.

Definition land_bytes (a m : list Z) : list Z := zip_with Z.land a m.

Definition IP_Mask (ip : IP) (mask : IPMask) : IP :=
  let mask := if decide (length mask = 16%nat /\ length ip = 4%nat /\ take 12 mask = replicate 12 255)
              then drop 12 mask else mask in
  let ip := if decide (length mask = 4%nat /\ length ip = 16%nat /\ take 12 ip = v4InV6Prefix)
            then drop 12 ip else ip in
  if decide (length ip = length mask) then land_bytes ip mask else [].

(** Leading ones of a byte followed by zeros only; [None] for another byte. *)
Definition byte_ones (b : Z) : option Z :=
  list_find (fun k => mask_byte k = b) [0;1;2;3;4;5;6;7] ≫= fun p => Some (snd p).

(** [simpleMaskLength]: the prefix length of a mask, [-1] if it is not one. *)
Fixpoint simpleMaskLength (m : IPMask) : Z :=
  match m with
  | [] => 0
  | v :: m' =>
      if v =? 255 then
        (let r := simpleMaskLength m' in if r =? -1 then -1 else 8 + r)
      else match byte_ones v with
           | Some k => if forallb (fun b => b =? 0) m' then k else -1
           | None => -1
           end
  end.

Definition Mask_Size (m : IPMask) : Z * Z :=
  let ones := simpleMaskLength m in
  if ones =? -1 then (0, 0) else (ones, 8 * Z.of_nat (length m)).

(** ** Printing *)

Definition dotted (b : list Z) : string :=
  match b with
  | [b0; b1; b2; b3] => utoa b0 +:+ "." +:+ utoa b1 +:+ "." +:+ utoa b2 +:+ "." +:+ utoa b3
  | _ => ""
  end.

(** [appendHex]: no leading zeros. *)
Fixpoint hex_digits (fuel : nat) (n : Z) (acc : string) : string :=
  match fuel with
  | O => acc
  | S fuel' =>
      let acc' := String (hex_digit (n mod 16)) acc in
      if n <? 16 then acc' else hex_digits fuel' (n / 16) acc'
  end.

Fixpoint ip6_groups (b : list Z) : list Z :=
  match b with
  | hi :: lo :: b' => hi * 256 + lo :: ip6_groups b'
  | _ => []
  end.

Fixpoint leading_zeros (g : list Z) : nat :=
  match g with
  | 0 :: g' => S (leading_zeros g')
  | _ => O
  end.

(** The first longest run of zero groups: where it starts and its length. *)
Fixpoint zero_run (fuel : nat) (g : list Z) (i : nat) (best : nat * nat) : nat * nat :=
  match fuel with
  | O => best
  | S fuel' =>
      match g with
      | [] => best
      | _ :: g' =>
          let n := leading_zeros g in
          if (snd best <? n)%nat then zero_run fuel' (drop (S n) g) (i + S n) (i, n)
          else zero_run fuel' g' (S i) best
      end
  end.

Fixpoint join_hex (g : list Z) : string :=
  match g with
  | [] => ""
  | [x] => hex_digits 4 x ""
  | x :: g' => hex_digits 4 x "" +:+ ":" +:+ join_hex g'
  end.

Definition ip6_string (b : list Z) : string :=
  let g := ip6_groups b in
  let '(i, n) := zero_run 8 g 0 (0%nat, 0%nat) in
  if (n <=? 1)%nat then join_hex g
  else join_hex (take i g) +:+ "::" +:+ join_hex (drop (i + n) g).

Definition hex_string (b : list Z) : string := foldr (fun x s => hex2 x +:+ s) "" b.

Definition IP_String (ip : IP) : string :=
  if decide (ip = []) then "<nil>"
  else if decide (length (To4 ip) = 4%nat) then dotted (To4 ip)
  else if decide (length ip = 16%nat) then ip6_string ip
  else "?" +:+ hex_string ip.

(** [networkNumberAndMask]; [None] stands for the pair of nils. *)
Definition networkNumberAndMask (n : IPNet) : option (IP * IPMask) :=
  let ip := if decide (To4 (IPNet_IP n) = []) then IPNet_IP n else To4 (IPNet_IP n) in
  if decide (length ip = 4%nat \/ length ip = 16%nat) then
    let m := IPNet_Mask n in
    if decide (length m = 4%nat) then
      if decide (length ip = 4%nat) then Some (ip, m) else None
    else if decide (length m = 16%nat) then
      if decide (length ip = 4%nat) then Some (ip, drop 12 m) else Some (ip, m)
    else None
  else None.

Definition Contains (n : IPNet) (ip : IP) : bool :=
  let '(nn, m) := default ([], []) (networkNumberAndMask n) in
  let ip := if decide (To4 ip = []) then ip else To4 ip in
  bool_decide (length ip = length nn) &&
  bool_decide (land_bytes nn m = land_bytes ip m).

Definition IPNet_String (n : IPNet) : string :=
  match networkNumberAndMask n with
  | None => "<nil>"
  | Some (nn, m) =>
      let l := simpleMaskLength m in
      if l =? -1 then IP_String nn +:+ "/" +:+ hex_string m
      else IP_String nn +:+ "/" +:+ utoa l
  end.

Fixpoint HardwareAddr_String (a : HardwareAddr) : string :=
  match a with
  | [] => ""
  | [b] => hex2 b
  | b :: a' => hex2 b +:+ ":" +:+ HardwareAddr_String a'
  end.

(** ** Parsing *)

(** One octet: no leading zero, at most 255. *)
Definition parse_octet (s : string) : option (Z * string) :=
  match dtoi s with
  | Some (n, c) =>
      let zero_first := match s with String z _ => Ascii.eqb z "0" | _ => false end in
      if (255 <? n) || ((1 <? c)%nat && zero_first) then None
      else Some (n, str_drop c s)
  | None => None
  end.

Global Arguments parse_octet : simpl never.

Fixpoint parse_octets (k : nat) (s : string) : option (list Z) :=
  match parse_octet s with
  | None => None
  | Some (n, rest) =>
      match k with
      | O => if decide (rest = "") then Some [n] else None
      | S k' =>
          match rest with
          | String "." rest' => cons n <$> parse_octets k' rest'
          | _ => None
          end
      end
  end.

(** [parseIPv4]: the address in its 16-byte form, [[]] for nil. *)
Definition parseIPv4 (s : string) : IP :=
  match parse_octets 3 s with
  | Some b => v4InV6Prefix ++ b
  | None => []
  end.

(** The groups of an IPv6 address read so far, where the ellipsis stood, and
    whether the text is used up. *)
Fixpoint parse6_loop (fuel : nat) (s : string) (acc : list Z) (ellipsis : option nat)
    : option (list Z * option nat) :=
  match fuel with
  | O => if decide (s = "") then Some (acc, ellipsis) else None
  | S fuel' =>
      if (16 <=? length acc)%nat then (if decide (s = "") then Some (acc, ellipsis) else None)
      else
      match xtoi s with
      | None => None
      | Some (n, c) =>
          if 65535 <? n then None else
          match str_drop c s with
          | String "." _ =>
              if decide (ellipsis = None /\ length acc <> 12%nat) then None
              else if (16 <? length acc + 4)%nat then None
              else match parse_octets 3 s with
                   | None => None
                   | Some b => Some (acc ++ b, ellipsis)
                   end
          | rest =>
              let acc' := acc ++ [n / 256; n mod 256] in
              match rest with
              | "" => Some (acc', ellipsis)
              | String ":" "" => None
              | String ":" (String ":" rest') =>
                  match ellipsis with
                  | Some _ => None
                  | None =>
                      if decide (rest' = "") then Some (acc', Some (length acc'))
                      else parse6_loop fuel' rest' acc' (Some (length acc'))
                  end
              | String ":" rest' => parse6_loop fuel' rest' acc' ellipsis
              | _ => None
              end
          end
      end
  end.

Definition parseIPv6 (s : string) : IP :=
  let '(s', ellipsis) := match s with
                         | String ":" (String ":" r) => (r, Some O)
                         | _ => (s, None)
                         end in
  if decide (ellipsis = Some O /\ s' = "") then replicate 16 0
  else match parse6_loop 9 s' [] ellipsis with
       | None => []
       | Some (b, ell) =>
           if (length b <? 16)%nat then
             match ell with
             | None => []
             | Some e => take e b ++ replicate (16 - length b) 0 ++ drop e b
             end
           else match ell with Some _ => [] | None => b end
       end.

Fixpoint ParseIP_scan (s0 s : string) : IP :=
  match s with
  | EmptyString => []
  | String c s' =>
      if Ascii.eqb c "." then parseIPv4 s0
      else if Ascii.eqb c ":" then parseIPv6 s0
      else ParseIP_scan s0 s'
  end.

(** [ParseIP]: 16 bytes, or [[]] for nil. *)
Definition ParseIP (s : string) : IP := ParseIP_scan s s.

Definition ParseError (typ text : string) : error :=
  Errorf ("invalid " +:+ typ +:+ ": " +:+ text).

Definition ParseCIDR (s : string) : result (IP * IPNet) :=
  let bad := Err (ParseError "CIDR address" s) in
  match cut "/" s with
  | None => bad
  | Some (addr, mask) =>
      let ip4 := parseIPv4 addr in
      let iplen := if decide (ip4 = []) then 16 else 4 in
      let ip := if decide (ip4 = []) then parseIPv6 addr else ip4 in
      match dtoi mask with
      | Some (n, i) =>
          if decide (ip = [] \/ i <> String.length mask) then bad
          else if 8 * iplen <? n then bad
          else let m := CIDRMask n (8 * iplen) in
               Ok (ip, {| IPNet_IP := IP_Mask ip m; IPNet_Mask := m |})
      | None => bad
      end
  end.

(** The pairs of hexadecimal digits of a hardware address, [sep] between them. *)
Fixpoint parse_mac_pairs (n : nat) (s : string) (sep : ascii) : option (list Z) :=
  match n with
  | O => Some []
  | S n' =>
      match xtoi2 s (Some sep) with
      | None => None
      | Some b => cons b <$> parse_mac_pairs n' (str_drop 3 s) sep
      end
  end.

(** The same for groups of four digits separated by dots. *)
Fixpoint parse_mac_dots (n : nat) (s : string) : option (list Z) :=
  match n with
  | O => Some []
  | S n' =>
      match s with
      | String a (String b s') =>
          match xtoi2 (String a (String b EmptyString)) None, xtoi2 s' (Some "."%char) with
          | Some x, Some y => (fun l => x :: y :: l) <$> parse_mac_dots n' (str_drop 3 s')
          | _, _ => None
          end
      | _ => None
      end
  end.

Definition mac_size (n : nat) : bool :=
  bool_decide (n = 6%nat) || bool_decide (n = 8%nat) || bool_decide (n = 20%nat).

Definition ParseMAC (s : string) : result HardwareAddr :=
  let bad := Err (Errorf ("address " +:+ s +:+ ": invalid MAC address")) in
  let len := String.length s in
  if (len <? 14)%nat then bad
  else
    match String.get 2 s, String.get 4 s with
    | Some c2, Some c4 =>
        if Ascii.eqb c2 ":" || Ascii.eqb c2 "-" then
          if negb ((S len mod 3 =? 0)%nat && mac_size (S len / 3)) then bad
          else match parse_mac_pairs (S len / 3) s c2 with Some hw => Ok hw | None => bad end
        else if Ascii.eqb c4 "." then
          if negb ((S len mod 5 =? 0)%nat && mac_size (2 * S len / 5)) then bad
          else match parse_mac_dots (S len / 5) s with Some hw => Ok hw | None => bad end
        else bad
    | _, _ => bad
    end.

Example ParseIP_v4 : IP_String (ParseIP "10.255.30.4") = "10.255.30.4".
Proof. reflexivity. Qed.
Example ParseIP_v6 : IP_String (ParseIP "2001:db8::68") = "2001:db8::68".
Proof. reflexivity. Qed.
Example ParseIP_v6_mapped : IP_String (ParseIP "::ffff:10.0.0.1") = "10.0.0.1".
Proof. reflexivity. Qed.
Example ParseIP_lead_zero : ParseIP "10.0.0.01" = [].
Proof. reflexivity. Qed.
Example ParseCIDR_ex : ParseCIDR "10.255.30.4/16" =
  Ok (IPv4 10 255 30 4, {| IPNet_IP := [10;255;0;0]; IPNet_Mask := [255;255;0;0] |}).
Proof. reflexivity. Qed.
Example ParseMAC_ex : ParseMAC "ee:ee:0a:ff:1e:04" = Ok [238;238;10;255;30;4].
Proof. reflexivity. Qed.
Example ParseMAC_dots_ex : ParseMAC "eeee.0aff.1e04" = Ok [238;238;10;255;30;4].
Proof. reflexivity. Qed.
Example ParseIP_v6_loop : map (fun s => IP_String (ParseIP s)) ["::"; "::1"; "1::"; "fe80::1:0:0:2"; "1:2:3:4:5:6:7:8"; "1:0:0:2:0:0:0:3"; "1::2::3"; "::ffff:1.2.3"; "1:2:3:4:5:6:7"; "0:1::" ]
  = ["::"; "::1"; "1::"; "fe80::1:0:0:2"; "1:2:3:4:5:6:7:8"; "1:0:0:2::3"; "<nil>"; "<nil>"; "<nil>"; "0:1::"].
Proof. vm_compute. reflexivity. Qed.
