(* ===== verification/NetFacts.v ===== *)
(** * Facts about addresses, networks and their texts

    Round trips of the parsers and printers of [GoNet], and the reading of IPv4
    addresses and networks as numbers and ranges of numbers: a prefix of length
    [n] holds the addresses that agree with it after division by [2^(32-n)]. *)

From Stdlib Require Import ZArith Lia Ascii.
From S2P Require Import Prelude GoFmt GoNet.

(** ** Enumerating bytes *)

Lemma byte_forall (P : Z -> bool) :
  forallb P (seqZ 0 256) = true -> forall b, is_byte b -> P b = true.
Proof.
  intros H b Hb. rewrite forallb_forall in H. apply H.
  apply list_elem_of_In, elem_of_seqZ. unfold is_byte in Hb. lia.
Qed.

Definition utoa_byte_ok (b : Z) : bool :=
  match utoa b with
  | String z (String _ _) => negb (Ascii.eqb z "0")
  | String _ EmptyString => true
  | EmptyString => false
  end && (String.length (utoa b) <=? 3)%nat.

Lemma utoa_byte_spec b : is_byte b -> utoa_byte_ok b = true.
Proof. apply byte_forall. vm_compute. reflexivity. Qed.

Lemma utoa_byte_length b : is_byte b -> (1 <= String.length (utoa b) <= 3)%nat.
Proof.
  intros Hb. pose proof (utoa_byte_spec b Hb) as H. unfold utoa_byte_ok in H.
  apply andb_prop in H as [_ H%Nat.leb_le].
  pose proof (utoa_nonempty b) as Hn. destruct (utoa b); [done|]. simpl in *. lia.
Qed.

(** ** Parsing what was printed *)

Lemma parse_octet_utoa b rest :
  is_byte b -> no_digit_first rest -> parse_octet (utoa b +:+ rest) = Some (b, rest).
Proof.
  intros Hb Hr. unfold parse_octet, is_byte in *.
  rewrite dtoi_utoa by (unfold big; (lia || done)).
  rewrite str_drop_app.
  pose proof (utoa_byte_spec b Hb) as H. unfold utoa_byte_ok in H.
  apply andb_prop in H as [H _].
  destruct (utoa b) as [|z [|z' s]] eqn:E; [done| |]; simpl.
  - destruct (Z.ltb_spec 255 b); [lia|]. done.
  - destruct (Z.ltb_spec 255 b); [lia|]. apply negb_true_iff in H. by rewrite H.
Qed.

Lemma parse_octets_dotted a b c d :
  Forall is_byte [a; b; c; d] -> parse_octets 3 (dotted [a; b; c; d]) = Some [a; b; c; d].
Proof.
  rewrite !Forall_cons. intros (Ha & Hb & Hc & Hd & _).
  cbn [dotted parse_octets].
  rewrite parse_octet_utoa by done. cbn. rewrite parse_octet_utoa by done. cbn.
  rewrite parse_octet_utoa by done. cbn.
  rewrite <- (str_app_nil_r (utoa d)), parse_octet_utoa by done. reflexivity.
Qed.

(** Four bytes: the form of an IPv4 address after [To4]. *)
Definition v4 (b : list Z) : Prop := length b = 4%nat /\ Forall is_byte b.

Lemma v4_inv b : v4 b -> exists a b' c d, b = [a; b'; c; d] /\ Forall is_byte [a; b'; c; d].
Proof.
  intros [Hl Hf]. destruct b as [|a [|b' [|c [|d [|]]]]]; try discriminate. eauto 8.
Qed.

Lemma parseIPv4_dotted b : v4 b -> parseIPv4 (dotted b) = v4InV6Prefix ++ b.
Proof.
  intros (a & b' & c & d & -> & Hf)%v4_inv. unfold parseIPv4.
  by rewrite parse_octets_dotted.
Qed.

Lemma ParseIP_scan_digits s0 p rest :
  str_all is_digit p = true -> ParseIP_scan s0 (p +:+ String "." rest) = parseIPv4 s0.
Proof.
  induction p as [|c p IH]; [done|]. cbn. intros [Hc Hp]%andb_prop.
  destruct (Ascii.eqb_spec c "."); [by subst|]. destruct (Ascii.eqb_spec c ":"); [by subst|]. auto.
Qed.

Lemma ParseIP_dotted b : v4 b -> ParseIP (dotted b) = v4InV6Prefix ++ b.
Proof.
  intros Hb. rewrite <- parseIPv4_dotted by done. unfold ParseIP. generalize (dotted b) at 1 3 as s0.
  intros s0. destruct (v4_inv b Hb) as (a & b' & c & d & -> & Hf). cbn [dotted String.append].
  apply ParseIP_scan_digits, utoa_all_digits. rewrite Forall_cons in Hf. unfold is_byte in Hf. lia.
Qed.

Lemma To4_prefix b : length b = 4%nat -> To4 (v4InV6Prefix ++ b) = b.
Proof. intros H. destruct b as [|? [|? [|? [|? [|]]]]]; try discriminate. reflexivity. Qed.

Lemma To4_v4 b : length b = 4%nat -> To4 b = b.
Proof. intros H. unfold To4. by rewrite decide_True. Qed.

Lemma To4_length ip : To4 ip = [] \/ length (To4 ip) = 4%nat.
Proof.
  unfold To4. repeat case_decide; auto.
  right. rewrite length_drop. destruct_and!. lia.
Qed.

Lemma IP_String_v4 ip : length (To4 ip) = 4%nat -> IP_String ip = dotted (To4 ip).
Proof.
  intros H. unfold IP_String. rewrite decide_False, decide_True; [done..|].
  intros ->. by vm_compute in H.
Qed.

Lemma dotted_free b c : v4 b -> is_digit c = false -> c <> "."%char ->
  str_all (fun d => negb (Ascii.eqb d c)) (dotted b) = true.
Proof.
  intros (x & y & z & w & -> & Hf)%v4_inv Hc Hdot.
  rewrite !Forall_cons in Hf. destruct Hf as (Hx & Hy & Hz & Hw & _). unfold is_byte in *.
  cbn [dotted]. rewrite !str_all_app, !utoa_free by (done || lia).
  cbn [str_all]. destruct (Ascii.eqb_spec "." c); [congruence|done].
Qed.

Lemma CIDRMask_loop_length l n : length (CIDRMask_loop l n) = l.
Proof. revert n. induction l as [|l IH]; intros n; simpl; [done|]. case_match; simpl; auto. Qed.

Lemma CIDRMask_length32 n : 0 <= n <= 32 -> length (CIDRMask n 32) = 4%nat.
Proof.
  intros Hn. unfold CIDRMask.
  destruct (Z.ltb_spec n 0), (Z.ltb_spec 32 n); try lia. apply CIDRMask_loop_length.
Qed.

Ltac destruct_v4 b := destruct b as [|? [|? [|? [|? [|]]]]]; try discriminate.

Lemma IP_Mask_mapped b m :
  length b = 4%nat -> length m = 4%nat -> IP_Mask (v4InV6Prefix ++ b) m = land_bytes b m.
Proof. intros Hb Hm. destruct_v4 b. by destruct_v4 m. Qed.

(** The text of an IPv4 network. *)
Definition cidr_text (b : list Z) (n : Z) : string := dotted b +:+ "/" +:+ utoa n.

Lemma ParseCIDR_text b n :
  v4 b -> 0 <= n <= 32 ->
  ParseCIDR (cidr_text b n) =
  Ok (v4InV6Prefix ++ b,
      {| IPNet_IP := land_bytes b (CIDRMask n 32); IPNet_Mask := CIDRMask n 32 |}).
Proof.
  intros Hb Hn. unfold ParseCIDR, cidr_text. cbn [String.append].
  rewrite cut_app by (apply dotted_free; done).
  rewrite parseIPv4_dotted by done.
  rewrite <- (str_app_nil_r (utoa n)), dtoi_utoa by (unfold big; done || lia).
  rewrite str_app_nil_r.
  destruct Hb as [Hl Hf].
  assert (v4InV6Prefix ++ b <> []) by done.
  rewrite !decide_False by (done || intros [?|?]; done).
  replace (8 * 4 <? n) with false by lia.
  change (8 * 4) with 32. by rewrite IP_Mask_mapped by auto using CIDRMask_length32.
Qed.

Lemma land_bytes_length a m : length a = length m -> length (land_bytes a m) = length a.
Proof. intros H. unfold land_bytes. rewrite length_zip_with_l; [done|lia]. Qed.

(** A text determines the address and the prefix length it shows. *)
Lemma cidr_text_inj b n b' n' :
  v4 b -> v4 b' -> 0 <= n <= 32 -> 0 <= n' <= 32 ->
  cidr_text b n = cidr_text b' n' -> b = b' /\ n = n'.
Proof.
  intros Hb Hb' Hn Hn' H. split.
  - pose proof (ParseCIDR_text b n Hb Hn) as E. rewrite H, ParseCIDR_text in E by done.
    by injection E.
  - unfold cidr_text in H.
    pose proof (cut_app "/" (dotted b) (utoa n)) as E.
    pose proof (cut_app "/" (dotted b') (utoa n')) as E'.
    cbn [String.append] in *. rewrite H, E' in E by (apply dotted_free; done).
    specialize (E ltac:(apply dotted_free; done)). injection E as _ E.
    apply utoa_inj; [lia..|congruence].
Qed.

(** ** IPv4 addresses as numbers *)

Fixpoint be_value (l : list Z) : Z :=
  match l with
  | [] => 0
  | b :: l' => b * 2 ^ (8 * Z.of_nat (length l')) + be_value l'
  end.

Definition be_bytes4 (a : Z) : list Z :=
  [wrapu 8 (Z.shiftr a 24); wrapu 8 (Z.shiftr a 16); wrapu 8 (Z.shiftr a 8); wrapu 8 a].

Lemma be_value_bound l : Forall is_byte l -> 0 <= be_value l < 2 ^ (8 * Z.of_nat (length l)).
Proof.
  induction 1 as [|b l Hb Hl IH]; [simpl; lia|].
  cbn [be_value length]. unfold is_byte in Hb.
  replace (8 * Z.of_nat (S (length l))) with (8 * Z.of_nat (length l) + 8) by lia.
  rewrite Z.pow_add_r by lia. nia.
Qed.

Lemma be_value_inj l l' :
  Forall is_byte l -> Forall is_byte l' -> length l = length l' ->
  be_value l = be_value l' -> l = l'.
Proof.
  intros H. revert l'. induction H as [|b l Hb Hl IH]; intros [|b' l'] Hf Hlen Hv; try done.
  apply Forall_cons in Hf as [Hb' Hl']. injection Hlen as Hlen.
  cbn [be_value] in Hv. rewrite Hlen in Hv.
  pose proof (be_value_bound l Hl) as B. pose proof (be_value_bound l' Hl') as B'.
  rewrite Hlen in B. unfold is_byte in *. set (M := 2 ^ _) in *.
  assert (b = b') by nia. subst b'. f_equal. apply IH; [done..|lia].
Qed.

Lemma be_bytes4_v4 a : v4 (be_bytes4 a).
Proof.
  split; [done|]. unfold be_bytes4, wrapu, is_byte. repeat constructor; apply Z.mod_pos_bound; lia.
Qed.

Lemma be_bytes4_value a : be_value (be_bytes4 a) = a mod 2 ^ 32.
Proof.
  unfold be_bytes4, wrapu. rewrite !Z.shiftr_div_pow2 by lia. cbn [be_value length].
  change (2 ^ (8 * Z.of_nat 3)) with 16777216. change (2 ^ (8 * Z.of_nat 2)) with 65536.
  change (2 ^ (8 * Z.of_nat 1)) with 256. change (2 ^ (8 * Z.of_nat 0)) with 1.
  change (2 ^ 24) with 16777216. change (2 ^ 16) with 65536. change (2 ^ 8) with 256.
  change (2 ^ 32) with 4294967296. Z.div_mod_to_equations. lia.
Qed.

Lemma be_value_bytes4 b : v4 b -> be_bytes4 (be_value b) = b.
Proof.
  intros [Hl Hf]. destruct (be_bytes4_v4 (be_value b)) as [Hl' Hf'].
  apply be_value_inj; [done..|congruence|].
  rewrite be_bytes4_value. apply Z.mod_small.
  pose proof (be_value_bound b Hf) as B. by rewrite Hl in B.
Qed.

(** Masking a number bytewise masks its value. *)
Lemma land_split k h t h' t' :
  0 <= k -> 0 <= t < 2 ^ k -> 0 <= t' < 2 ^ k ->
  Z.land (h * 2 ^ k + t) (h' * 2 ^ k + t') = Z.land h h' * 2 ^ k + Z.land t t'.
Proof.
  intros Hk Ht Ht'. pose proof (Z.pow_pos_nonneg 2 k ltac:(lia) Hk) as Hp.
  set (L := Z.land _ _).
  assert (L / 2 ^ k = Z.land h h') as Hdiv.
  { unfold L. rewrite <- !Z.shiftr_div_pow2, Z.shiftr_land, !Z.shiftr_div_pow2 by done.
    rewrite !Z.div_add_l, !(Z.div_small _ (2 ^ k)) by lia. by rewrite !Z.add_0_r. }
  assert (L mod 2 ^ k = Z.land t t') as Hmod.
  { assert (Hm : forall x y, 0 <= y < 2 ^ k -> (x * 2 ^ k + y) mod 2 ^ k = y).
    { intros x y Hy. rewrite Z.add_comm, Z.mod_add, Z.mod_small by lia. done. }
    rewrite <- (Hm h t) at 1 by done. rewrite <- (Hm h' t') at 1 by done.
    apply Z.bits_inj'. intros i _. unfold L.
    rewrite Z.land_spec, !Z.testbit_mod_pow2, Z.land_spec by done. by destruct (i <? k). }
  pose proof (Z.div_mod L (2 ^ k) ltac:(lia)). lia.
Qed.

Lemma land_byte a m : is_byte a -> is_byte m -> is_byte (Z.land a m).
Proof.
  unfold is_byte. intros Ha Hm. split; [apply Z.land_nonneg; lia|].
  change 256 with (2 ^ 8) in *. destruct (decide (Z.land a m = 0)) as [->|]; [lia|].
  pose proof (Z.land_nonneg a m) as Hn. apply Z.log2_lt_pow2; [lia|].
  eapply Z.le_lt_trans; [apply Z.log2_land; lia|].
  destruct (decide (a = 0)) as [->|]; [done|].
  pose proof (Z.log2_lt_pow2 a 8 ltac:(lia)). lia.
Qed.

Lemma land_bytes_byte a m :
  Forall is_byte a -> Forall is_byte m -> Forall is_byte (land_bytes a m).
Proof.
  intros Ha. revert m. induction Ha as [|b a Hb Ha IH]; intros [|x m] Hm; constructor.
  - apply Forall_cons in Hm as [? ?]. by apply land_byte.
  - apply Forall_cons in Hm as [? ?]. by apply IH.
Qed.

Lemma be_value_land a m :
  Forall is_byte a -> Forall is_byte m -> length a = length m ->
  be_value (land_bytes a m) = Z.land (be_value a) (be_value m).
Proof.
  intros Ha. revert m. induction Ha as [|b a Hb Ha IH]; intros [|x m] Hm Hl; try done.
  apply Forall_cons in Hm as [Hx Hm]. injection Hl as Hl.
  change (land_bytes (b :: a) (x :: m)) with (Z.land b x :: land_bytes a m).
  cbn [be_value]. rewrite land_bytes_length by done. rewrite <- Hl, (IH m Hm Hl).
  rewrite land_split; [done|lia|by apply be_value_bound|].
  rewrite Hl. by apply be_value_bound.
Qed.

(** ** Prefixes *)

Lemma prefix_forall (P : Z -> bool) :
  forallb P (seqZ 0 33) = true -> forall n, 0 <= n <= 32 -> P n = true.
Proof.
  intros H n Hn. rewrite forallb_forall in H. apply H.
  apply list_elem_of_In, elem_of_seqZ. lia.
Qed.

Definition mask_ok (n : Z) : bool :=
  bool_decide (be_value (CIDRMask n 32) = 2 ^ 32 - 2 ^ (32 - n)) &&
  bool_decide (Forall is_byte (CIDRMask n 32)) &&
  bool_decide (simpleMaskLength (CIDRMask n 32) = n).

Lemma mask_spec n : 0 <= n <= 32 ->
  be_value (CIDRMask n 32) = 2 ^ 32 - 2 ^ (32 - n) /\ Forall is_byte (CIDRMask n 32) /\ simpleMaskLength (CIDRMask n 32) = n.
Proof.
  intros Hn. assert (mask_ok n = true) as H by (revert n Hn; by apply prefix_forall).
  unfold mask_ok in H. rewrite !andb_true_iff, !bool_decide_eq_true in H. tauto.
Qed.

Lemma land_high k a : 0 <= k <= 32 -> 0 <= a < 2 ^ 32 ->
  Z.land a (2 ^ 32 - 2 ^ k) = a / 2 ^ k * 2 ^ k.
Proof.
  intros Hk Ha.
  assert (2 ^ 32 = 2 ^ (32 - k) * 2 ^ k) as Hpow by (rewrite <- Z.pow_add_r by lia; f_equal; lia).
  pose proof (Z.pow_pos_nonneg 2 k ltac:(lia) ltac:(lia)) as Hp.
  replace (2 ^ 32 - 2 ^ k) with ((2 ^ (32 - k) - 1) * 2 ^ k + 0) by lia.
  rewrite (Z.div_mod a (2 ^ k)) at 1 by lia. rewrite (Z.mul_comm (2 ^ k)).
  rewrite land_split by (lia || apply Z.mod_pos_bound; lia).
  rewrite Z.land_0_r, Z.add_0_r. f_equal.
  replace (2 ^ (32 - k) - 1) with (Z.ones (32 - k)) by (rewrite Z.ones_equiv; lia).
  rewrite Z.land_ones by lia. apply Z.mod_small.
  split; [apply Z.div_pos; lia|]. apply Z.div_lt_upper_bound; lia.
Qed.

Lemma be_value_masked b n : v4 b -> 0 <= n <= 32 ->
  be_value (land_bytes b (CIDRMask n 32)) = be_value b / 2 ^ (32 - n) * 2 ^ (32 - n).
Proof.
  intros [Hl Hf] Hn. destruct (mask_spec n Hn) as (Hm & Hmf & _).
  rewrite be_value_land by (done || rewrite CIDRMask_length32; done).
  rewrite Hm. apply land_high; [lia|].
  pose proof (be_value_bound b Hf) as B. by rewrite Hl in B.
Qed.

Lemma networkNumberAndMask_v4 b m :
  length b = 4%nat -> length m = 4%nat ->
  networkNumberAndMask {| IPNet_IP := b; IPNet_Mask := m |} = Some (b, m).
Proof. intros Hb Hm. destruct_v4 b. by destruct_v4 m. Qed.

(** The network a CIDR text denotes contains the addresses that agree with it
    above the prefix. *)
Lemma Contains_prefix b n x :
  v4 b -> v4 x -> 0 <= n <= 32 ->
  Contains {| IPNet_IP := land_bytes b (CIDRMask n 32); IPNet_Mask := CIDRMask n 32 |} x
  = bool_decide (be_value b / 2 ^ (32 - n) = be_value x / 2 ^ (32 - n)).
Proof.
  intros Hb Hx Hn. pose proof (CIDRMask_length32 n Hn) as Hml.
  destruct (mask_spec n Hn) as (Hm & Hmf & _).
  assert (v4 (land_bytes b (CIDRMask n 32))) as Hlb.
  { destruct Hb. split; [rewrite land_bytes_length; congruence|by apply land_bytes_byte]. }
  destruct Hb as [Hbl Hbf], Hx as [Hxl Hxf], Hlb as [Hll Hlf].
  unfold Contains. rewrite networkNumberAndMask_v4 by done. cbn [from_option id].
  rewrite (To4_v4 x) by done. rewrite decide_False by (intros ->; done).
  rewrite (bool_decide_eq_true_2 (length x = _)) by congruence. cbn [andb].
  pose proof (Z.pow_pos_nonneg 2 (32 - n) ltac:(lia) ltac:(lia)) as Hp.
  apply bool_decide_ext. split.
  - intros H%(f_equal be_value). rewrite be_value_masked in H by done.
    rewrite !be_value_masked in H by done.
    rewrite Z.div_mul in H by lia. nia.
  - intros H. apply be_value_inj; [by apply land_bytes_byte..| |].
    + rewrite !land_bytes_length; congruence.
    + rewrite be_value_masked by done. rewrite !be_value_masked by done.
      rewrite Z.div_mul by lia. by rewrite H.
Qed.

(** ** What a successful parse gives *)

Lemma dtoi_loop_nonneg s n i m c : 0 <= n -> dtoi_loop s n i = Some (m, c) -> 0 <= m.
Proof.
  revert n i. induction s as [|x s IH]; intros n i Hn; simpl; [by intros [= <- <-]|].
  destruct (is_digit x) eqn:E; [|by intros [= <- <-]].
  destruct (big <=? _); [done|]. apply IH.
  unfold is_digit in E. apply andb_prop in E as [E1 E2]. lia.
Qed.

Lemma dtoi_nonneg s n c : dtoi s = Some (n, c) -> 0 <= n.
Proof.
  unfold dtoi. destruct (dtoi_loop s 0 0) as [[m [|k]]|] eqn:E; try done.
  intros [= <- <-]. by eapply dtoi_loop_nonneg.
Qed.

Lemma parse_octets_bytes k s l :
  parse_octets k s = Some l -> length l = S k /\ Forall is_byte l.
Proof.
  revert s l. induction k as [|k IH]; intros s l; cbn [parse_octets];
    unfold parse_octet; destruct (dtoi s) as [[n c]|] eqn:E; try done;
    pose proof (dtoi_nonneg _ _ _ E);
    destruct (Z.ltb_spec 255 n); try done; destruct ((1 <? c)%nat && _); try done; cbn [orb].
  - case_decide; [|done]. intros [= <-]. split; [done|]. repeat constructor; lia.
  - destruct (str_drop c s) as [|[[] [] [] [] [] [] [] []] rest]; try done.
    destruct (parse_octets k rest) as [l'|] eqn:E'; [|done]. intros [= <-].
    destruct (IH _ _ E'). simpl. split; [lia|]. constructor; [unfold is_byte; lia|done].
Qed.

Lemma parseIPv4_inv s : parseIPv4 s <> [] -> exists b, v4 b /\ parseIPv4 s = v4InV6Prefix ++ b.
Proof.
  unfold parseIPv4. destruct (parse_octets 3 s) as [b|] eqn:E; [|done].
  intros _. exists b. apply parse_octets_bytes in E. done.
Qed.

Lemma Mask_Size_32 m c : Mask_Size m = (c, 32) -> length m = 4%nat.
Proof. unfold Mask_Size. destruct (_ =? -1); [done|]. intros [= _ H]. lia. Qed.

Lemma Mask_Size_CIDRMask n : 0 <= n <= 32 -> Mask_Size (CIDRMask n 32) = (n, 32).
Proof.
  intros Hn. unfold Mask_Size. destruct (mask_spec n Hn) as (_ & _ & ->).
  rewrite CIDRMask_length32 by done. by replace (n =? -1) with false by lia.
Qed.

(** An IPv4 network that [ParseCIDR] returns. *)
Lemma ParseCIDR_v4_inv s ip net :
  ParseCIDR s = Ok (ip, net) -> length (IPNet_Mask net) = 4%nat ->
  exists b n, v4 b /\ 0 <= n <= 32 /\ ip = v4InV6Prefix ++ b /\
    net = {| IPNet_IP := land_bytes b (CIDRMask n 32); IPNet_Mask := CIDRMask n 32 |}.
Proof.
  unfold ParseCIDR. destruct (cut "/" s) as [[addr mask]|]; [|done].
  destruct (dtoi mask) as [[n i]|] eqn:E; [|done].
  apply dtoi_nonneg in E.
  destruct (decide (parseIPv4 addr = [])) as [E4|E4].
  - case_decide; [done|]. destruct (Z.ltb_spec (8 * 16) n); [done|].
    intros [= <- <-]. cbn [IPNet_Mask]. intros Hl.
    change (8 * 16) with 128 in *. unfold CIDRMask in Hl. cbn in Hl.
    destruct (Z.ltb_spec n 0), (Z.ltb_spec 128 n); try lia. cbn -[CIDRMask_loop] in Hl.
    by rewrite CIDRMask_loop_length in Hl.
  - destruct (parseIPv4_inv addr E4) as (b & Hb & Eb).
    case_decide; [done|]. destruct (Z.ltb_spec (8 * 4) n); [done|].
    intros [= <- <-] _. exists b, n. change (8 * 4) with 32.
    split_and!; [done|lia|lia|done|]. f_equal. rewrite Eb.
    apply IP_Mask_mapped; [apply Hb|apply CIDRMask_length32; lia].
Qed.

Lemma masked_network b n : v4 b -> 0 <= n <= 32 ->
  let ip := land_bytes b (CIDRMask n 32) in
  v4 ip /\ be_value ip mod 2 ^ (32 - n) = 0 /\ 0 <= be_value ip /\
  be_value ip + 2 ^ (32 - n) <= 2 ^ 32.
Proof.
  intros Hb Hn ip. pose proof (be_value_masked b n Hb Hn) as Hv. fold ip in Hv.
  pose proof (Z.pow_pos_nonneg 2 (32 - n) ltac:(lia) ltac:(lia)) as Hp.
  assert (2 ^ 32 = 2 ^ n * 2 ^ (32 - n)) as Hpow by (rewrite <- Z.pow_add_r by lia; f_equal; lia).
  destruct Hb as [Hl Hf]. pose proof (be_value_bound b Hf) as B. rewrite Hl in B.
  change (2 ^ (8 * Z.of_nat 4)) with (2 ^ 32) in B.
  pose proof (Z.div_lt_upper_bound (be_value b) (2 ^ (32 - n)) (2 ^ n) Hp ltac:(lia)) as Hq.
  pose proof (Z.div_pos (be_value b) (2 ^ (32 - n)) ltac:(lia) Hp) as Hq0.
  split_and!.
  - split; [unfold ip; rewrite land_bytes_length; rewrite ?CIDRMask_length32; done|].
    apply land_bytes_byte; [done|]. by destruct (mask_spec n Hn) as (_ & ? & _).
  - rewrite Hv. by apply Z.mod_mul; lia.
  - rewrite Hv. nia.
  - rewrite Hv, Hpow. nia.
Qed.

(** ** Networks printed from an address in either form *)

Lemma networkNumberAndMask_To4 ip m :
  length (To4 ip) = 4%nat -> length m = 4%nat ->
  networkNumberAndMask {| IPNet_IP := ip; IPNet_Mask := m |} = Some (To4 ip, m).
Proof.
  intros Hip Hm. unfold networkNumberAndMask. cbn [IPNet_IP IPNet_Mask].
  rewrite (decide_False (P := To4 ip = [])) by (intros E; by rewrite E in Hip).
  rewrite decide_True by auto. rewrite decide_True by done. by rewrite decide_True.
Qed.

Lemma IPNet_String_v4 ip n :
  length (To4 ip) = 4%nat -> 0 <= n <= 32 ->
  IPNet_String {| IPNet_IP := ip; IPNet_Mask := CIDRMask n 32 |} = cidr_text (To4 ip) n.
Proof.
  intros Hip Hn. unfold IPNet_String.
  rewrite networkNumberAndMask_To4 by auto using CIDRMask_length32.
  destruct (mask_spec n Hn) as (_ & _ & ->). destruct (Z.eqb_spec n (-1)); [lia|].
  rewrite IP_String_v4 by (rewrite To4_v4; done). by rewrite To4_v4.
Qed.

Lemma Contains_To4 n ip : To4 ip <> [] -> Contains n ip = Contains n (To4 ip).
Proof.
  intros Hne. assert (length (To4 ip) = 4%nat) as Hl by by destruct (To4_length ip).
  unfold Contains. by rewrite (To4_v4 (To4 ip)), !decide_False by done.
Qed.
