(* ===== verification/HwAddr.v ===== *)
(** * Hardware addresses and device names derived from an overlay address

    Models src/lib/hwaddr/hwaddr.go, the two hardware address generators
    (src/controller/leaser/hardware_address_generator.go for the VTEP and
    src/cni/config/hardware_address_generator.go for the ends of a veth pair)
    and src/cni/config/device_name_generator.go. *)

From Stdlib Require Import ZArith Lia Ascii.
From S2P Require Import Prelude GoFmt GoNet NetFacts.

(** ** lib/hwaddr *)

Definition GenerateHardwareAddr4 (ip : IP) (prefix : list Z) : result HardwareAddr :=
  if decide (To4 ip = []) then
    Err (Errorf (IP_String ip +:+ " is not an IPv4 address"))
  else if decide (length prefix <> 2%nat) then
    Err (Errorf ("Prefix length should be 2 bytes, but received "
                 +:+ itoa (Z.of_nat (length prefix)) +:+ " bytes"))
  else
    let ipByteLen := length ip in
    Ok (prefix ++ drop (ipByteLen - 4) ip).

(** ** controller/leaser.HardwareAddressGenerator *)

Definition GenerateForVTEP (containerIP : IP) : result HardwareAddr :=
  GenerateHardwareAddr4 containerIP [238; 238].

(** ** cni/config.HardwareAddressGenerator and cni/config.DeviceNameGenerator *)

Module Cni.

Definition GenerateForContainer (containerIP : IP) : result HardwareAddr :=
  GenerateHardwareAddr4 containerIP [238; 238].

Definition GenerateForHost (containerIP : IP) : result HardwareAddr :=
  GenerateHardwareAddr4 containerIP [170; 170].

End Cni.

Module DeviceName.

Definition generate (prefix : string) (containerIP : IP) : result string :=
  match To4 containerIP with
  | [i0; i1; i2; i3] =>
      Ok (prefix +:+ "-" +:+ itoa03 i0 +:+ itoa03 i1 +:+ itoa03 i2 +:+ itoa03 i3)
  | _ => Err (Errorf "generating device name: expecting valid IPv4 address")
  end.

Definition GenerateForHost (containerIP : IP) : result string :=
  generate "s" containerIP.

Definition GenerateTemporaryForContainer (containerIP : IP) : result string :=
  generate "c" containerIP.

Definition GenerateForHostIFB (containerIP : IP) : result string :=
  generate "i" containerIP.

End DeviceName.

(** ** Hardware addresses: what is generated *)

(** An address in one of the two forms an IPv4 address has. *)
Definition is_ipv4 (ip : IP) : Prop := v4 (To4 ip).

Lemma is_ipv4_prefix b : v4 b -> is_ipv4 (v4InV6Prefix ++ b).
Proof. intros Hb. unfold is_ipv4. rewrite To4_prefix; [done|apply Hb]. Qed.

Lemma is_ipv4_last4 ip : is_ipv4 ip -> drop (length ip - 4) ip = To4 ip.
Proof.
  intros [Hl _]. unfold To4 in *. repeat case_decide; simpl in *; try done.
  - by replace (length ip - 4)%nat with 0%nat by lia.
  - destruct_and!. by replace (length ip - 4)%nat with 12%nat by lia.
Qed.

Lemma GenerateHardwareAddr4_ok ip p0 p1 :
  is_ipv4 ip -> GenerateHardwareAddr4 ip [p0; p1] = Ok ([p0; p1] ++ To4 ip).
Proof.
  intros Hip. unfold GenerateHardwareAddr4.
  rewrite decide_False by (by intros E; destruct Hip as [Hl _]; rewrite E in Hl).
  rewrite decide_False by auto. by rewrite is_ipv4_last4.
Qed.

Lemma hex2_byte_spec b : is_byte b ->
  match hex2 b with
  | String x (String y EmptyString) =>
      xtoi (String x (String y EmptyString)) = Some (b, 2%nat) /\ Ascii.eqb x ":" = false
  | _ => False
  end.
Proof.
  intros Hb.
  assert ((match hex2 b with
           | String x (String y EmptyString) =>
             bool_decide (xtoi (String x (String y EmptyString)) = Some (b, 2%nat))
             && negb (Ascii.eqb x ":")
           | _ => false end) = true) as H.
  { revert b Hb. apply byte_forall. vm_compute. reflexivity. }
  destruct (hex2 b) as [|x [|y [|]]]; try done.
  apply andb_prop in H as [H1%bool_decide_eq_true H2%negb_true_iff]. done.
Qed.

Lemma xtoi2_hex2 b rest sep :
  is_byte b -> match rest with EmptyString => True | String c _ => c = sep end ->
  xtoi2 (hex2 b +:+ rest) (Some sep) = Some b.
Proof.
  intros Hb Hr. pose proof (hex2_byte_spec b Hb) as H.
  destruct (hex2 b) as [|x [|y [|]]]; try done. destruct H as [H _].
  cbn [String.append xtoi2]. rewrite H.
  replace (match rest with EmptyString => true | String c _ => Ascii.eqb c sep end) with true
    by (destruct rest as [|c r]; [done|]; subst c; by rewrite Ascii.eqb_refl).
  unfold wrapu. rewrite Z.mod_small; [done|apply Hb].
Qed.

Lemma parse_mac_pairs_String hw :
  Forall is_byte hw -> parse_mac_pairs (length hw) (HardwareAddr_String hw) ":" = Some hw.
Proof.
  induction 1 as [|b hw Hb Hhw IH]; [done|].
  cbn [length parse_mac_pairs]. destruct hw as [|b' hw].
  - cbn [HardwareAddr_String]. rewrite <- (str_app_nil_r (hex2 b)), xtoi2_hex2 by done. done.
  - change (HardwareAddr_String (b :: b' :: hw))
      with (hex2 b +:+ String ":" (HardwareAddr_String (b' :: hw))).
    rewrite xtoi2_hex2 by done.
    change (str_drop 3 _) with (HardwareAddr_String (b' :: hw)). by rewrite IH.
Qed.

(** A MAC address printed by [HardwareAddr.String] is read back by [ParseMAC]. *)
Lemma ParseMAC_String hw :
  length hw = 6%nat -> Forall is_byte hw -> ParseMAC (HardwareAddr_String hw) = Ok hw.
Proof.
  intros Hl Hf. pose proof (parse_mac_pairs_String hw Hf) as Hp. rewrite Hl in Hp.
  destruct hw as [|b0 [|b1 [|b2 [|b3 [|b4 [|b5 [|]]]]]]]; try discriminate.
  unfold ParseMAC.
  change (String.length (HardwareAddr_String _)) with 17%nat.
  change (String.get 2 _) with (Some ":"%char).
  destruct (String.get 4 _) eqn:E4; [|discriminate].
  cbn -[parse_mac_pairs HardwareAddr_String]. by rewrite Hp.
Qed.

Lemma HardwareAddr_String_inj hw hw' :
  length hw = 6%nat -> length hw' = 6%nat -> Forall is_byte hw -> Forall is_byte hw' ->
  HardwareAddr_String hw = HardwareAddr_String hw' -> hw = hw'.
Proof.
  intros Hl Hl' Hf Hf' E.
  pose proof (ParseMAC_String hw Hl Hf) as H. rewrite E, ParseMAC_String in H by done. congruence.
Qed.

(** The hardware address the controller hands out for a VTEP is injective on
    overlay addresses: its text is read back by [net.ParseMAC] as [ee:ee]
    followed by the four bytes of the address, and equal texts come from the
    same address. *)
Theorem GenerateForVTEP_roundtrip ip :
  is_ipv4 ip ->
  exists hw, GenerateForVTEP ip = Ok hw /\
    ParseMAC (HardwareAddr_String hw) = Ok (238 :: 238 :: To4 ip) /\
    (forall ip' hw', is_ipv4 ip' -> GenerateForVTEP ip' = Ok hw' ->
       HardwareAddr_String hw = HardwareAddr_String hw' -> To4 ip = To4 ip').
Proof.
  assert (forall ip, is_ipv4 ip -> length (238 :: 238 :: To4 ip) = 6%nat /\
                     Forall is_byte (238 :: 238 :: To4 ip)) as Hwf.
  { intros x [Hl Hf]. split; [simpl; lia|]. repeat constructor; unfold is_byte; lia || done. }
  intros Hip. exists (238 :: 238 :: To4 ip).
  unfold GenerateForVTEP. rewrite GenerateHardwareAddr4_ok by done.
  destruct (Hwf ip Hip) as [Hl Hf]. split_and!; [done|by apply ParseMAC_String|].
  intros ip' hw' Hip' E. rewrite GenerateHardwareAddr4_ok in E by done.
  injection E as <-. destruct (Hwf ip' Hip') as [Hl' Hf'].
  intros E%HardwareAddr_String_inj; [congruence|done..].
Qed.

(** ** Device names *)

Definition itoa03_ok (b : Z) : bool :=
  bool_decide (dec_value (itoa03 b) 0 = b) && bool_decide (String.length (itoa03 b) = 3%nat).

Lemma itoa03_spec b : is_byte b -> dec_value (itoa03 b) 0 = b /\ String.length (itoa03 b) = 3%nat.
Proof.
  intros Hb. assert (itoa03_ok b = true) as H.
  { revert b Hb. apply byte_forall. vm_compute. reflexivity. }
  unfold itoa03_ok in H. rewrite andb_true_iff, !bool_decide_eq_true in H. done.
Qed.

Lemma itoa03_length b : is_byte b -> String.length (itoa03 b) = 3%nat.
Proof. intros Hb. by apply itoa03_spec. Qed.

Lemma str_app_inj_len (a a' b b' : string) :
  String.length a = String.length a' -> a +:+ b = a' +:+ b' -> a = a' /\ b = b'.
Proof.
  revert a'. induction a as [|c a IH]; intros [|c' a'] Hl; try done; simpl in *.
  intros [= -> E]. injection Hl as Hl. destruct (IH a' Hl E). by subst.
Qed.

Lemma itoa03_app_inj b b' s s' :
  is_byte b -> is_byte b' -> itoa03 b +:+ s = itoa03 b' +:+ s' -> b = b' /\ s = s'.
Proof.
  intros Hb Hb' E. destruct (itoa03_spec b Hb) as [Hv Hl], (itoa03_spec b' Hb') as [Hv' Hl'].
  apply str_app_inj_len in E as [E ->]; [|congruence]. split; [congruence|done].
Qed.

Lemma device_name_form prefix ip :
  is_ipv4 ip -> exists a b c d, To4 ip = [a; b; c; d] /\ Forall is_byte [a; b; c; d] /\
    DeviceName.generate prefix ip =
      Ok (prefix +:+ "-" +:+ itoa03 a +:+ itoa03 b +:+ itoa03 c +:+ itoa03 d).
Proof.
  intros (a & b & c & d & E & Hf)%v4_inv. exists a, b, c, d.
  unfold DeviceName.generate. rewrite E. done.
Qed.

Lemma device_name_inj prefix ip ip' :
  is_ipv4 ip -> is_ipv4 ip' -> DeviceName.generate prefix ip = DeviceName.generate prefix ip' ->
  To4 ip = To4 ip'.
Proof.
  intros Hip Hip'. destruct (device_name_form prefix ip Hip) as (a & b & c & d & E & Hf & ->).
  destruct (device_name_form prefix ip' Hip') as (a' & b' & c' & d' & E' & Hf' & ->).
  rewrite !Forall_cons in Hf, Hf'. destruct Hf as (Ha & Hb & Hc & Hd & _), Hf' as (Ha' & Hb' & Hc' & Hd' & _).
  intros [= Hn%str_app_inv_l]. injection Hn as Hn.
  repeat (apply itoa03_app_inj in Hn as [-> Hn]; [|done..]).
  rewrite <- (str_app_nil_r (itoa03 d)), <- (str_app_nil_r (itoa03 d')) in Hn.
  apply itoa03_app_inj in Hn as [-> _]; [|done..]. congruence.
Qed.

(** C33. Names of the devices silk creates on the host: for an IPv4 address the
    generator always succeeds, the three names it gives to the host end, the
    container end and the IFB device are 14 bytes long, so they fit the kernel's
    limit of 15, and two addresses with the same name are the same address. *)
Theorem device_name_fits_and_injective ip :
  is_ipv4 ip ->
  (forall gen, gen ∈ [DeviceName.GenerateForHost; DeviceName.GenerateTemporaryForContainer;
                      DeviceName.GenerateForHostIFB] ->
     exists name, gen ip = Ok name /\ String.length name = 14%nat /\
       forall ip', is_ipv4 ip' -> gen ip' = Ok name -> To4 ip = To4 ip').
Proof.
  intros Hip gen Hgen.
  assert (exists p, String.length p = 1%nat /\ gen = DeviceName.generate p) as (p & Hp & ->).
  { unfold DeviceName.GenerateForHost, DeviceName.GenerateTemporaryForContainer,
      DeviceName.GenerateForHostIFB in Hgen.
    rewrite !elem_of_cons in Hgen.
    destruct Hgen as [->|[->|[->|H]]];
      [by exists "s" | by exists "c" | by exists "i" | by apply not_elem_of_nil in H]. }
  pose proof (device_name_inj p ip) as Hinj.
  destruct (device_name_form p ip Hip) as (a & b & c & d & E & Hf & Hname). rewrite Hname in *.
  eexists. split; [done|]. rewrite !Forall_cons in Hf. destruct Hf as (Ha & Hb & Hc & Hd & _).
  split; [by rewrite !str_length_app, Hp, !itoa03_length|]. intros ip' Hip' Hn. by apply Hinj.
Qed.

(** ** At concrete inputs *)

Lemma is_ipv4_example : is_ipv4 [10; 255; 3; 0].
Proof. split; [reflexivity|]. repeat constructor; discriminate. Qed.

Lemma GenerateForVTEP_roundtrip_witness :
  exists hw, GenerateForVTEP [10; 255; 3; 0] = Ok hw /\
    HardwareAddr_String hw = "ee:ee:0a:ff:03:00" /\
    ParseMAC (HardwareAddr_String hw) = Ok [238; 238; 10; 255; 3; 0].
Proof.
  destruct (GenerateForVTEP_roundtrip [10; 255; 3; 0] is_ipv4_example) as (hw & Hg & Hp & _).
  exists hw. split; [exact Hg|]. split; [|exact Hp].
  vm_compute in Hg. injection Hg as <-. vm_compute. reflexivity.
Defined.

Lemma device_name_fits_and_injective_witness :
  exists name, DeviceName.GenerateForHost [10; 255; 3; 0] = Ok name /\ String.length name = 14%nat.
Proof.
  destruct (device_name_fits_and_injective [10; 255; 3; 0] is_ipv4_example
    DeviceName.GenerateForHost (list_elem_of_here _ _)) as (name & Hn & Hl & _).
  exists name. split; [exact Hn|exact Hl].
Defined.
