(* ===== verification/CidrPool.v ===== *)
(** * The pool of subnets

    Models src/controller/leaser/cidrpool.go and the address arithmetic it uses,
    src/vendor/github.com/ziutek/utils/netaddr/ip.go. The overlay network is cut
    into blocks of prefix length [subnetMask]; block 0 is kept for single
    addresses, the other blocks are the block pool. *)

From Stdlib Require Import ZArith Lia Ascii.
From S2P Require Import Prelude GoFmt GoNet NetFacts.

(** ** netaddr: adding an offset to an address *)

Definition isZeros (p : IP) : bool := forallb (fun b => b =? 0) p.

Definition IsIPv4 (ip : IP) : bool :=
  bool_decide (length ip = 4%nat) ||
  (isZeros (take 10 ip) && (nth 10 ip 0 =? 255) && (nth 11 ip 0 =? 255)).

Definition ipToI32 (ip : IP) : Z :=
  let ip := To4 ip in
  Z.lor (Z.lor (Z.lor (wraps 32 (Z.shiftl (nth 0 ip 0) 24)) (wraps 32 (Z.shiftl (nth 1 ip 0) 16)))
               (wraps 32 (Z.shiftl (nth 2 ip 0) 8)))
        (nth 3 ip 0).

Definition i32ToIP (a : Z) : IP :=
  IPv4 (wrapu 8 (Z.shiftr a 24)) (wrapu 8 (Z.shiftr a 16)) (wrapu 8 (Z.shiftr a 8)) (wrapu 8 a).

Definition ipToU64 (ip : IP) : Z :=
  foldl (fun acc i => Z.lor acc (wrapu 64 (Z.shiftl (nth i ip 0) (8 * (7 - Z.of_nat i)))))
        0 [0; 1; 2; 3; 4; 5; 6; 7]%nat.

Definition u64ToIP (a : Z) : IP :=
  map (fun i => wrapu 8 (Z.shiftr a i)) [56; 48; 40; 32; 24; 16; 8; 0].

Definition MaxUint64 : Z := 2 ^ 64 - 1.

Definition IPAdd (ip : IP) (offset : Z) : IP :=
  if IsIPv4 ip then
    let a := ipToI32 (drop (length ip - 4) ip) in
    i32ToIP (wraps 32 (wraps 64 (a + offset)))
  else
    let a := ipToU64 (take 8 ip) in
    let b := ipToU64 (drop 8 ip) in
    let o := wrapu 64 offset in
    let a := if MaxUint64 - b <? o then wrapu 64 (a + 1) else a in
    let b := wrapu 64 (b + o) in
    let a := if offset <? 0 then wrapu 64 (a + MaxUint64) else a in
    u64ToIP a ++ u64ToIP b.

(** ** The pool

    A Go [map[string]struct{}] is a finite set of strings. *)

Record CIDRPool := { blockPool : gset string; singlePool : gset string }.

(** The loop of [generateBlockPool]: [None] when the fuel runs out. *)
Fixpoint block_loop (fuel : nat) (ipStart : IP) (cidrMaskBlock blockSize fullRange i : Z)
    (pool : gset string) : option (gset string) :=
  match fuel with
  | O => None
  | S fuel' =>
      if i <? fullRange then
        let subnet := IP_String (IPAdd ipStart i) +:+ "/" +:+ utoa cidrMaskBlock in
        block_loop fuel' ipStart cidrMaskBlock blockSize fullRange
          (wraps 64 (i + blockSize)) ({[subnet]} ∪ pool)
      else Some pool
  end.

Definition generateBlockPool (fuel : nat) (ipStart : IP) (cidrMask cidrMaskBlock : Z)
    : option (gset string) :=
  let fullRange := int_shl1 (wrapu 64 (32 - cidrMask)) in
  let blockSize := int_shl1 (wrapu 64 (32 - cidrMaskBlock)) in
  block_loop fuel ipStart cidrMaskBlock blockSize fullRange blockSize ∅.

Fixpoint single_loop (fuel : nat) (ipStart : IP) (blockSize i : Z) (pool : gset string)
    : option (gset string) :=
  match fuel with
  | O => None
  | S fuel' =>
      if i <? blockSize then
        let singleCIDR := IP_String (IPAdd ipStart i) +:+ "/32" in
        single_loop fuel' ipStart blockSize (wraps 64 (i + 1)) ({[singleCIDR]} ∪ pool)
      else Some pool
  end.

Definition generateSingleIPPool (fuel : nat) (ipStart : IP) (cidrMaskBlock : Z)
    : option (gset string) :=
  let blockSize := int_shl1 (wrapu 64 (32 - cidrMaskBlock)) in
  single_loop fuel ipStart blockSize 1 ∅.

(** [getRandomSeed], from the number read of the system's random source. *)
Definition getRandomSeed (num : result Z) : outcome Z :=
  match num with
  | Err e => Panics ("generating random seed: " +:+ Error e)
  | Ok n => Returns n
  end.

Definition NewCIDRPool (fuel : nat) (random : result Z) (subnetRange : string) (subnetMask : Z)
    : outcome CIDRPool :=
  match ParseCIDR subnetRange with
  | Err e => Panics (Error e)
  | Ok (_, ipCIDR) =>
      let '(cidrMask, _) := Mask_Size (IPNet_Mask ipCIDR) in
      match getRandomSeed random with
      | Panics msg => Panics msg
      | OutOfFuel => OutOfFuel
      | Returns _ =>
          match generateBlockPool fuel (IPNet_IP ipCIDR) (wrapu 64 cidrMask) (wrapu 64 subnetMask),
                generateSingleIPPool fuel (IPNet_IP ipCIDR) (wrapu 64 subnetMask) with
          | Some bp, Some sp => Returns {| blockPool := bp; singlePool := sp |}
          | _, _ => OutOfFuel
          end
      end
  end.

Definition GetBlockPool (c : CIDRPool) : gset string := blockPool c.
Definition GetSinglePool (c : CIDRPool) : gset string := singlePool c.
Definition BlockPoolSize (c : CIDRPool) : Z := Z.of_nat (size (blockPool c)).
Definition SingleIPPoolSize (c : CIDRPool) : Z := Z.of_nat (size (singlePool c)).

Definition IsMember (c : CIDRPool) (subnet : string) : bool :=
  bool_decide (subnet ∈ blockPool c) || bool_decide (subnet ∈ singlePool c).

(** What the Go runtime decides in one call of [getAvailable]: the order in
    which a map is ranged over and the number [rand.Intn] draws. *)
Record choice := { range_order : gset string -> list string; intn : Z -> Z }.

Record legal_choice (ch : choice) : Prop := {
  range_order_perm : forall m : gset string, range_order ch m ≡ₚ elements m;
  intn_bound : forall n : Z, 0 < n -> 0 <= intn ch n < n
}.

(** The loop that counts up to the drawn index. *)
Fixpoint pick (order : list string) (i n : Z) : string :=
  match order with
  | [] => ""
  | subnet :: order' => if i =? n then subnet else pick order' i (n + 1)
  end.

Definition getAvailable (ch : choice) (taken : list string) (pool : gset string) : string :=
  let available := foldl (fun av subnet => av ∖ {[subnet]}) pool taken in
  if decide (size available = 0%nat) then ""
  else
    let i := intn ch (Z.of_nat (size available)) in
    pick (range_order ch available) i 0.

Definition GetAvailableBlock (ch : choice) (c : CIDRPool) (taken : list string) : string :=
  getAvailable ch taken (blockPool c).

Definition GetAvailableSingleIP (ch : choice) (c : CIDRPool) (taken : list string) : string :=
  getAvailable ch taken (singlePool c).

(** The choice of a runtime that ranges in the set's own order and draws 0. *)
Definition first_choice : choice := {| range_order := elements; intn := fun _ => 0 |}.

Lemma first_choice_legal : legal_choice first_choice.
Proof. split; simpl; [done|lia]. Qed.

Example pool_example :
  match NewCIDRPool 300 (Ok 7) "10.255.0.0/22" 24 with
  | Returns p => (BlockPoolSize p, SingleIPPoolSize p,
                  IsMember p <$> ["10.255.3.0/24"; "10.255.0.0/24"; "10.255.0.9/32"])
  | _ => (0, 0, [])
  end = (3, 255, [true; false; true]).
Proof. vm_compute. reflexivity. Qed.

(** ** Address arithmetic *)

Lemma wraps_mod w z : 0 < w -> wraps w z mod 2 ^ w = z mod 2 ^ w.
Proof.
  intros Hw. unfold wraps. pose proof (Z.pow_pos_nonneg 2 w ltac:(lia) ltac:(lia)).
  rewrite Zminus_mod, Z.mod_mod, <- Zminus_mod by lia. f_equal. lia.
Qed.

Lemma wraps_small w z : 0 < w -> - 2 ^ (w - 1) <= z < 2 ^ (w - 1) -> wraps w z = z.
Proof.
  intros Hw Hz. unfold wraps.
  assert (2 ^ w = 2 * 2 ^ (w - 1)) by (rewrite <- Z.pow_succ_r by lia; f_equal; lia).
  rewrite Z.mod_small; lia.
Qed.

Lemma lor_add k h t : 0 <= k -> 0 <= t < 2 ^ k -> Z.lor (h * 2 ^ k) t = h * 2 ^ k + t.
Proof.
  intros Hk Ht. pose proof (Z.pow_pos_nonneg 2 k ltac:(lia) Hk) as Hp.
  set (L := Z.lor _ _).
  assert (L / 2 ^ k = h) as Hdiv.
  { unfold L. rewrite <- Z.shiftr_div_pow2, Z.shiftr_lor, !Z.shiftr_div_pow2 by done.
    rewrite Z.div_mul, (Z.div_small t) by lia. apply Z.lor_0_r. }
  assert (L mod 2 ^ k = t) as Hmod.
  { apply Z.bits_inj'. intros i Hi. unfold L.
    rewrite Z.testbit_mod_pow2, Z.lor_spec by done.
    destruct (Z.ltb_spec i k).
    - rewrite Z.mul_pow2_bits_low by lia. done.
    - cbn. rewrite <- (Z.mod_small t (2 ^ k)) by lia.
      by rewrite Z.mod_pow2_bits_high by lia. }
  pose proof (Z.div_mod L (2 ^ k) ltac:(lia)). lia.
Qed.

Lemma wraps_top h : wraps 32 (h * 2 ^ 24) = wraps 8 h * 2 ^ 24.
Proof.
  unfold wraps. change (2 ^ (32 - 1)) with (128 * 2 ^ 24). change (2 ^ (8 - 1)) with 128.
  change (2 ^ 32) with (2 ^ 8 * 2 ^ 24).
  rewrite <- Z.mul_add_distr_r, Z.mul_mod_distr_r by lia. lia.
Qed.

Lemma ipToI32_value b : v4 b -> ipToI32 b mod 2 ^ 32 = be_value b.
Proof.
  intros Hb. pose proof (be_value_bound b (proj2 Hb)) as B.
  destruct (v4_inv b Hb) as (x & y & z & w & -> & Hf).
  rewrite !Forall_cons in Hf. unfold is_byte in Hf.
  unfold ipToI32. rewrite To4_v4 by done. cbn [nth].
  rewrite !Z.shiftl_mul_pow2 by lia. rewrite wraps_top.
  rewrite !(wraps_small 32) by lia.
  rewrite <- Z.lor_assoc, <- Z.lor_assoc.
  rewrite (lor_add 8 z w), (lor_add 16 y), (lor_add 24 (wraps 8 x)) by lia.
  unfold wraps. change (2 ^ (8 - 1)) with 128.
  cbn [be_value length] in *.
  change (2 ^ (8 * Z.of_nat 3)) with (2 ^ 24) in *. change (2 ^ (8 * Z.of_nat 2)) with (2 ^ 16) in *.
  change (2 ^ (8 * Z.of_nat 1)) with (2 ^ 8) in *. change (2 ^ (8 * Z.of_nat 0)) with 1 in *.
  Z.div_mod_to_equations. lia.
Qed.

Lemma be_bytes4_mod a a' : a mod 2 ^ 32 = a' mod 2 ^ 32 -> be_bytes4 a = be_bytes4 a'.
Proof.
  intros H. destruct (be_bytes4_v4 a), (be_bytes4_v4 a').
  apply be_value_inj; [done..|]. by rewrite !be_bytes4_value.
Qed.

(** [IPAdd] on an IPv4 address adds modulo [2^32]. *)
Lemma IPAdd_v4 b off : v4 b -> 0 <= off <= 2 ^ 32 ->
  IPAdd b off = v4InV6Prefix ++ be_bytes4 (be_value b + off).
Proof.
  intros Hb Hoff. unfold IPAdd, IsIPv4. rewrite bool_decide_eq_true_2 by apply Hb. cbn [orb].
  replace (length b - 4)%nat with 0%nat by (destruct Hb; lia). rewrite drop_0.
  unfold i32ToIP, IPv4. fold (be_bytes4 (wraps 32 (wraps 64 (ipToI32 b + off)))). f_equal.
  apply be_bytes4_mod. rewrite wraps_mod by lia.
  assert (forall z, wraps 64 z mod 2 ^ 32 = z mod 2 ^ 32) as ->.
  { intros z. unfold wraps. change (64 - 1) with 63. rewrite (Z.mod_eq _ (2 ^ 64)) by lia.
    set (q := _ / 2 ^ 64). rewrite <- (Z.mod_add z (- q * 2 ^ 32)) by lia. f_equal. lia. }
  rewrite <- Zplus_mod_idemp_l, ipToI32_value by done. done.
Qed.

(** ** What the loops build *)

(** The text of the subnet of prefix length [m] that starts [i] addresses after [base]. *)
Definition subnet_at (base m i : Z) : string := cidr_text (be_bytes4 (base + i)) m.

Lemma subnet_text b m i : v4 b -> 0 <= i <= 2 ^ 32 ->
  IP_String (IPAdd b i) +:+ "/" +:+ utoa m = subnet_at (be_value b) m i.
Proof.
  intros Hb Hi. rewrite IPAdd_v4 by done. unfold subnet_at, cidr_text.
  destruct (be_bytes4_v4 (be_value b + i)) as [Hl Hf].
  rewrite IP_String_v4, To4_prefix by (rewrite ?To4_prefix; done). done.
Qed.

Lemma int_shl1_small m : 0 <= m <= 32 -> int_shl1 (wrapu 64 (32 - m)) = 2 ^ (32 - m).
Proof.
  intros Hm. unfold int_shl1, wrapu. rewrite Z.mod_small by lia.
  replace (32 - m <? 64) with true by lia. apply wraps_small; [lia|].
  pose proof (Z.pow_pos_nonneg 2 (32 - m) ltac:(lia) ltac:(lia)).
  pose proof (Z.pow_le_mono_r 2 (32 - m) 32 ltac:(lia) ltac:(lia)). lia.
Qed.

Lemma int_shl1_zero m : 32 < m < 2 ^ 63 -> int_shl1 (wrapu 64 (32 - m)) = 0.
Proof.
  intros Hm. unfold int_shl1, wrapu.
  rewrite <- (Z.mod_add (32 - m) 1), Z.mod_small by lia.
  by replace (32 - m + 1 * 2 ^ 64 <? 64) with false by lia.
Qed.

Lemma block_loop_spec fuel b m bs full k pool :
  v4 b -> 0 < bs -> 0 < full <= 2 ^ 32 -> bs <= 2 ^ 32 -> 0 <= k ->
  k * bs < full + bs -> full <= (k + Z.of_nat fuel - 1) * bs ->
  exists r, block_loop fuel b m bs full (k * bs) pool = Some r /\
    forall s, s ∈ r <-> s ∈ pool \/ exists j, k <= j /\ j * bs < full /\ s = subnet_at (be_value b) m (j * bs).
Proof.
  intros Hb Hbs Hfull Hle. revert k pool.
  induction fuel as [|fuel IH]; intros k pool Hk Hlt Hfuel; [nia|].
  cbn [block_loop]. destruct (Z.ltb_spec (k * bs) full) as [Hin|Hout].
  - rewrite subnet_text by (done || nia).
    rewrite wraps_small by (change (64 - 1) with 63; nia).
    replace (k * bs + bs) with ((k + 1) * bs) by lia.
    destruct (IH (k + 1) ({[subnet_at (be_value b) m (k * bs)]} ∪ pool)) as (r & Hr & Hmem);
      [lia|nia|nia|].
    exists r. split; [done|]. intros s. rewrite Hmem, elem_of_union, elem_of_singleton.
    split.
    + intros [[->|Hp]|(j & Hj & Hjb & ->)]; [right; exists k; auto with lia|auto|].
      right. exists j. auto with lia.
    + intros [Hp|(j & Hj & Hjb & ->)]; [auto|]. destruct (decide (j = k)) as [->|]; [auto|].
      right. exists j. auto with lia.
  - exists pool. split; [done|]. intros s. split; [auto|].
    intros [Hp|(j & Hj & Hjb & _)]; [done|nia].
Qed.

Lemma single_loop_block fuel b bs i pool :
  single_loop fuel b bs i pool = block_loop fuel b 32 1 bs i pool.
Proof.
  revert i pool. induction fuel as [|fuel IH]; intros i pool; [done|].
  cbn [single_loop block_loop]. by rewrite IH.
Qed.

(** Enough iterations for both loops of a network with prefix [c] and blocks of prefix [m]. *)
Definition pool_fuel (c m : Z) : Z := 2 ^ (m - c) + 2 ^ (32 - m) + 2.

Lemma pow_split c m : 0 <= c <= m -> m <= 32 -> 2 ^ (32 - c) = 2 ^ (m - c) * 2 ^ (32 - m).
Proof. intros H1 H2. rewrite <- Z.pow_add_r by lia. f_equal. lia. Qed.

Lemma generateBlockPool_spec fuel b c m :
  v4 b -> 0 <= c <= m -> m <= 32 -> pool_fuel c m <= Z.of_nat fuel ->
  exists r, generateBlockPool fuel b c m = Some r /\
    forall s, s ∈ r <-> exists k, 1 <= k < 2 ^ (m - c) /\ s = subnet_at (be_value b) m (k * 2 ^ (32 - m)).
Proof.
  intros Hb Hc Hm Hfuel. unfold generateBlockPool, pool_fuel in *.
  rewrite !int_shl1_small by lia.
  pose proof (Z.pow_pos_nonneg 2 (32 - m) ltac:(lia) ltac:(lia)) as H1.
  pose proof (Z.pow_pos_nonneg 2 (m - c) ltac:(lia) ltac:(lia)) as H2.
  pose proof (Z.pow_le_mono_r 2 (32 - c) 32 ltac:(lia) ltac:(lia)) as H3.
  pose proof (Z.pow_le_mono_r 2 (32 - m) 32 ltac:(lia) ltac:(lia)) as H4.
  rewrite (pow_split c m) in * by lia.
  destruct (block_loop_spec fuel b m (2 ^ (32 - m)) (2 ^ (m - c) * 2 ^ (32 - m)) 1 ∅)
    as (r & Hr & Hmem); [done|nia..|].
  rewrite Z.mul_1_l in Hr. exists r. split; [done|].
  intros s. rewrite Hmem. split.
  - intros [[]%not_elem_of_empty|(j & Hj & Hjb & ->)]. exists j. split; [nia|done].
  - intros (k & Hk & ->). right. exists k. split_and!; [lia|nia|done].
Qed.

Lemma generateSingleIPPool_spec fuel b c m :
  v4 b -> 0 <= c <= m -> m <= 32 -> pool_fuel c m <= Z.of_nat fuel ->
  exists r, generateSingleIPPool fuel b m = Some r /\
    forall s, s ∈ r <-> exists j, 1 <= j < 2 ^ (32 - m) /\ s = subnet_at (be_value b) 32 j.
Proof.
  intros Hb Hc Hm Hfuel. unfold generateSingleIPPool, pool_fuel in *.
  rewrite int_shl1_small, single_loop_block by lia.
  pose proof (Z.pow_pos_nonneg 2 (32 - m) ltac:(lia) ltac:(lia)) as H1.
  pose proof (Z.pow_pos_nonneg 2 (m - c) ltac:(lia) ltac:(lia)) as H2.
  pose proof (Z.pow_le_mono_r 2 (32 - m) 32 ltac:(lia) ltac:(lia)) as H4.
  destruct (block_loop_spec fuel b 32 1 (2 ^ (32 - m)) 1 ∅) as (r & Hr & Hmem); [done|lia..|].
  exists r. split; [done|]. intros s. rewrite Hmem. split.
  - intros [[]%not_elem_of_empty|(j & Hj & Hjb & ->)]. exists j. rewrite Z.mul_1_r. split; [lia|done].
  - intros (j & Hj & ->). right. exists j. rewrite Z.mul_1_r. split_and!; [lia..|done].
Qed.

(** ** The pool of a network

    [pool_of base c m p]: [p] has the blocks of prefix [m] of the network that
    starts at [base] with prefix [c], block 0 excepted, and the addresses of
    block 0 but its first. *)
Definition pool_of (base c m : Z) (p : CIDRPool) : Prop :=
  (forall s, s ∈ blockPool p <->
     exists k, 1 <= k < 2 ^ (m - c) /\ s = subnet_at base m (k * 2 ^ (32 - m))) /\
  (forall s, s ∈ singlePool p <->
     exists j, 1 <= j < 2 ^ (32 - m) /\ s = subnet_at base 32 j).

(** A network configuration: [base] and [c] are what [range] parses to. *)
Definition overlay_network (range : string) (base c : Z) : Prop :=
  exists ip net, ParseCIDR range = Ok (ip, net) /\
    Mask_Size (IPNet_Mask net) = (c, 32) /\ base = be_value (IPNet_IP net).

Lemma overlay_network_inv range base c :
  overlay_network range base c ->
  exists ip net, ParseCIDR range = Ok (ip, net) /\ Mask_Size (IPNet_Mask net) = (c, 32) /\
    v4 (IPNet_IP net) /\ base = be_value (IPNet_IP net) /\ 0 <= c <= 32 /\
    base mod 2 ^ (32 - c) = 0 /\ 0 <= base /\ base + 2 ^ (32 - c) <= 2 ^ 32.
Proof.
  intros (ip & net & Hp & Hs & ->). exists ip, net.
  destruct (ParseCIDR_v4_inv _ _ _ Hp (Mask_Size_32 _ _ Hs)) as (b & n & Hb & Hn & -> & ->).
  cbn [IPNet_Mask IPNet_IP] in *. rewrite Mask_Size_CIDRMask in Hs by done.
  injection Hs as <-. destruct (masked_network b n Hb Hn) as (? & ? & ? & ?).
  rewrite Mask_Size_CIDRMask by done. done.
Qed.

(** The arithmetic of a network cut into blocks. *)
Record cut_network (base c m : Z) : Prop := {
  cut_c : 0 <= c <= m;
  cut_m : m <= 32;
  cut_base : 0 <= base;
  cut_end : base + 2 ^ (32 - c) <= 2 ^ 32;
  cut_align : base mod 2 ^ (32 - c) = 0
}.

Lemma overlay_network_cut range base c m :
  overlay_network range base c -> c <= m <= 32 -> cut_network base c m.
Proof.
  intros (ip & net & _ & _ & _ & _ & Hc & Ha & Hb & He)%overlay_network_inv Hm.
  constructor; lia.
Qed.

Lemma NewCIDRPool_pool_of fuel seed range base c m :
  overlay_network range base c -> c <= m <= 32 -> pool_fuel c m <= Z.of_nat fuel ->
  exists p, NewCIDRPool fuel (Ok seed) range m = Returns p /\ pool_of base c m p.
Proof.
  intros (ip & net & Hp & Hs & Hv & -> & Hc & _)%overlay_network_inv Hm Hfuel.
  unfold NewCIDRPool. rewrite Hp, Hs. cbn [getRandomSeed].
  unfold wrapu. rewrite !(Z.mod_small _ (2 ^ 64)) by lia.
  destruct (generateBlockPool_spec fuel (IPNet_IP net) c m) as (bp & -> & Hbp); [done|lia..|].
  destruct (generateSingleIPPool_spec fuel (IPNet_IP net) c m) as (sp & -> & Hsp); [done|lia..|].
  eexists. split; [done|]. by split.
Qed.

Section cut_facts.
Context {base c m : Z} (Hcut : cut_network base c m).

Lemma pow_pos k : k <= 32 -> 0 < 2 ^ (32 - k).
Proof. intros Hk. apply Z.pow_pos_nonneg; lia. Qed.

Lemma cut_offset i : 0 <= i < 2 ^ (32 - c) -> be_value (be_bytes4 (base + i)) = base + i.
Proof.
  destruct Hcut. intros Hi. rewrite be_bytes4_value. apply Z.mod_small. lia.
Qed.

Lemma block_offset k : 1 <= k < 2 ^ (m - c) -> 0 <= k * 2 ^ (32 - m) < 2 ^ (32 - c).
Proof.
  destruct Hcut. intros Hk. rewrite (pow_split c m) by lia.
  pose proof (pow_pos m ltac:(lia)). nia.
Qed.

Lemma single_offset j : 1 <= j < 2 ^ (32 - m) -> 0 <= j < 2 ^ (32 - c).
Proof.
  destruct Hcut. intros Hj. pose proof (Z.pow_le_mono_r 2 (32 - m) (32 - c)). lia.
Qed.

Lemma subnet_at_inj n n' i i' :
  0 <= n <= 32 -> 0 <= n' <= 32 -> 0 <= i < 2 ^ (32 - c) -> 0 <= i' < 2 ^ (32 - c) ->
  subnet_at base n i = subnet_at base n' i' -> n = n' /\ i = i'.
Proof.
  intros Hn Hn' Hi Hi' E. apply cidr_text_inj in E as [E ->]; auto using be_bytes4_v4.
  split; [done|]. apply (f_equal be_value) in E. rewrite !cut_offset in E by done. lia.
Qed.

(** Which addresses the subnet at an offset contains. *)
Lemma subnet_at_contains n i :
  0 <= n <= 32 -> 0 <= i < 2 ^ (32 - c) ->
  exists net, ParseCIDR (subnet_at base n i) = Ok (v4InV6Prefix ++ be_bytes4 (base + i), net) /\
    forall x, v4 x -> Contains net x = bool_decide ((base + i) / 2 ^ (32 - n) = be_value x / 2 ^ (32 - n)).
Proof.
  intros Hn Hi. eexists. split; [apply ParseCIDR_text; [apply be_bytes4_v4|done]|].
  intros x Hx. rewrite Contains_prefix by auto using be_bytes4_v4. by rewrite cut_offset.
Qed.

Lemma base_block : exists q, base = q * 2 ^ (32 - m).
Proof.
  destruct Hcut. exists (base / 2 ^ (32 - c) * 2 ^ (m - c)).
  rewrite <- Z.mul_assoc, <- (pow_split c m) by lia.
  pose proof (pow_pos c ltac:(lia)). pose proof (Z.div_mod base (2 ^ (32 - c)) ltac:(lia)). lia.
Qed.

(** The block an address of a pool member lies in: block [k] for the members
    of the block pool, block 0 for the single addresses. *)
Lemma block_quotient i k :
  k * 2 ^ (32 - m) <= i < (k + 1) * 2 ^ (32 - m) ->
  (base + i) / 2 ^ (32 - m) = base / 2 ^ (32 - m) + k.
Proof.
  intros Hi. destruct Hcut. pose proof (pow_pos m ltac:(lia)) as Hp.
  destruct base_block as [q ->]. rewrite Z.div_mul by lia.
  symmetry. apply Z.div_unique with (i - k * 2 ^ (32 - m)); lia.
Qed.

End cut_facts.

(** ** Members of the pool do not overlap *)

(** Two subnets, given by their texts, with no address in common. *)
Definition disjoint_subnets (s1 s2 : string) : Prop :=
  exists ip1 n1 ip2 n2,
    ParseCIDR s1 = Ok (ip1, n1) /\ ParseCIDR s2 = Ok (ip2, n2) /\
    forall x, v4 x -> Contains n1 x = true -> Contains n2 x = false.

Lemma IsMember_iff p s : IsMember p s = true <-> s ∈ blockPool p \/ s ∈ singlePool p.
Proof. unfold IsMember. by rewrite orb_true_iff, !bool_decide_eq_true. Qed.

(** A member in normal form: its prefix length, its offset, and the block it lies in. *)
Lemma member_form base c m p s :
  cut_network base c m -> pool_of base c m p -> IsMember p s = true ->
  exists n i k, s = subnet_at base n i /\ 0 <= i < 2 ^ (32 - c) /\
    k * 2 ^ (32 - m) <= i < (k + 1) * 2 ^ (32 - m) /\
    ((n = m /\ 1 <= k /\ i = k * 2 ^ (32 - m)) \/ (n = 32 /\ k = 0)).
Proof.
  intros Hcut [Hbp Hsp] [(k & Hk & ->)%Hbp|(j & Hj & ->)%Hsp]%IsMember_iff.
  - exists m, (k * 2 ^ (32 - m)), k. pose proof (block_offset Hcut k Hk).
    destruct Hcut. pose proof (pow_pos m ltac:(lia)). split_and!; [done|lia..|left; lia].
  - exists 32, j, 0. pose proof (single_offset Hcut j Hj). split_and!; [done|lia..|auto].
Qed.

(** An address inside a member lies in the member's block; inside a single
    address it is that address. *)
Lemma member_contains base c m n i k net x :
  cut_network base c m -> v4 x -> 0 <= i < 2 ^ (32 - c) ->
  k * 2 ^ (32 - m) <= i < (k + 1) * 2 ^ (32 - m) ->
  (n = m /\ 1 <= k /\ i = k * 2 ^ (32 - m)) \/ (n = 32 /\ k = 0) ->
  (forall x, v4 x -> Contains net x = bool_decide ((base + i) / 2 ^ (32 - n) = be_value x / 2 ^ (32 - n))) ->
  Contains net x = true ->
  be_value x / 2 ^ (32 - m) = base / 2 ^ (32 - m) + k /\ (n = 32 -> be_value x = base + i).
Proof.
  intros Hcut Hx Hi Hk Hform Hnet H. rewrite Hnet, bool_decide_eq_true in H by done.
  assert (n = 32 -> be_value x = base + i) as H32.
  { intros ->. change (32 - 32) with 0 in H. by rewrite !Z.div_1_r in H. }
  split; [|done]. destruct Hform as [(-> & _)|[-> _]].
  - rewrite <- H. by apply (block_quotient Hcut).
  - rewrite H32 by done. by apply (block_quotient Hcut).
Qed.

Lemma members_disjoint base c m p s1 s2 :
  cut_network base c m -> pool_of base c m p ->
  IsMember p s1 = true -> IsMember p s2 = true -> s1 <> s2 -> disjoint_subnets s1 s2.
Proof.
  intros Hcut Hp Hs1 Hs2 Hne.
  destruct (member_form _ _ _ _ _ Hcut Hp Hs1) as (n1 & i1 & k1 & -> & Hi1 & Hk1 & Hf1).
  destruct (member_form _ _ _ _ _ Hcut Hp Hs2) as (n2 & i2 & k2 & -> & Hi2 & Hk2 & Hf2).
  pose proof (cut_c _ _ _ Hcut). pose proof (cut_m _ _ _ Hcut).
  destruct (subnet_at_contains Hcut n1 i1) as (net1 & Hnet1 & Hc1); [lia|done|].
  destruct (subnet_at_contains Hcut n2 i2) as (net2 & Hnet2 & Hc2); [lia|done|].
  do 4 eexists. split_and!; [exact Hnet1|exact Hnet2|].
  intros x Hx Hin1. apply not_true_is_false. intros Hin2. apply Hne.
  destruct (member_contains _ _ _ _ _ _ _ _ Hcut Hx Hi1 Hk1 Hf1 Hc1 Hin1) as [Hb1 Hx1].
  destruct (member_contains _ _ _ _ _ _ _ _ Hcut Hx Hi2 Hk2 Hf2 Hc2 Hin2) as [Hb2 Hx2].
  assert (k1 = k2) by lia. subst k2.
  destruct Hf1 as [(-> & ? & ->)|[-> ->]], Hf2 as [(-> & ? & ->)|[-> ?]]; try lia; [done|].
  f_equal. specialize (Hx1 eq_refl). specialize (Hx2 eq_refl). lia.
Qed.

(** C2. Every two distinct subnets of the pool that [NewCIDRPool] builds for an
    IPv4 overlay network, blocks and single addresses alike, have no address
    in common, and the construction terminates. *)
Theorem pool_members_never_overlap fuel seed range base c m :
  overlay_network range base c -> c <= m <= 32 -> pool_fuel c m <= Z.of_nat fuel ->
  exists p, NewCIDRPool fuel (Ok seed) range m = Returns p /\
    forall s1 s2, IsMember p s1 = true -> IsMember p s2 = true -> s1 <> s2 ->
      disjoint_subnets s1 s2.
Proof.
  intros Hnet Hm Hfuel. destruct (NewCIDRPool_pool_of fuel seed range base c m) as (p & Hp & Hpool);
    [done..|].
  exists p. split; [done|]. intros s1 s2.
  eauto using members_disjoint, overlay_network_cut.
Qed.

(** ** How many subnets there are *)

Lemma size_image (f : Z -> string) (n : Z) (X : gset string) :
  0 <= n -> (forall i j, 1 <= i <= n -> 1 <= j <= n -> f i = f j -> i = j) ->
  (forall s, s ∈ X <-> exists k, 1 <= k <= n /\ s = f k) -> Z.of_nat (size X) = n.
Proof.
  intros Hn Hinj HX.
  assert (X = list_to_set (f <$> seqZ 1 n)) as ->.
  { apply set_eq. intros s. rewrite HX, elem_of_list_to_set, list_elem_of_fmap.
    split; intros (k & H1 & H2); exists k; rewrite elem_of_seqZ in *; split; auto with lia. }
  rewrite size_list_to_set, length_fmap, length_seqZ; [lia|].
  apply NoDup_fmap_2_strong; [|apply NoDup_seqZ].
  intros i j Hi Hj. rewrite elem_of_seqZ in *. apply Hinj; lia.
Qed.

(** The sizes the controller reports: a network of prefix [c] cut into
    blocks of prefix [m] has [2^(m-c) - 1] blocks and [2^(32-m) - 1] single
    addresses to lease. *)
Theorem pool_sizes fuel seed range base c m :
  overlay_network range base c -> c <= m <= 32 -> pool_fuel c m <= Z.of_nat fuel ->
  exists p, NewCIDRPool fuel (Ok seed) range m = Returns p /\
    BlockPoolSize p = 2 ^ (m - c) - 1 /\ SingleIPPoolSize p = 2 ^ (32 - m) - 1.
Proof.
  intros Hnet Hm Hfuel. pose proof (overlay_network_cut _ _ _ m Hnet Hm) as Hcut.
  destruct (NewCIDRPool_pool_of fuel seed range base c m) as (p & Hp & Hbp & Hsp); [done..|].
  exists p. pose proof (cut_c _ _ _ Hcut).
  pose proof (Z.pow_pos_nonneg 2 (m - c) ltac:(lia) ltac:(lia)).
  pose proof (pow_pos m ltac:(lia)).
  split_and!; [done| |].
  - apply (size_image (fun k => subnet_at base m (k * 2 ^ (32 - m)))); [lia| |].
    + intros i j Hi Hj E. apply (subnet_at_inj Hcut) in E as [_ E];
        [nia|lia..|apply (block_offset Hcut); lia|apply (block_offset Hcut); lia].
    + intros s. rewrite Hbp. split; intros (k & Hk & ->); exists k; auto with lia.
  - apply (size_image (subnet_at base 32)); [lia| |].
    + intros i j Hi Hj E. apply (subnet_at_inj Hcut) in E as [_ E];
        [done|lia..|apply (single_offset Hcut); lia|apply (single_offset Hcut); lia].
    + intros s. rewrite Hsp. split; intros (k & Hk & ->); exists k; auto with lia.
Qed.

(** ** Drawing a free subnet *)

Lemma available_spec (taken : list string) (pool : gset string) s :
  s ∈ foldl (fun av subnet => av ∖ {[subnet]}) pool taken <-> s ∈ pool /\ s ∉ taken.
Proof.
  revert pool. induction taken as [|t taken IH]; intros pool; simpl; [set_solver|].
  rewrite IH. set_solver.
Qed.

Lemma pick_lookup order i n :
  n <= i < n + Z.of_nat (length order) -> order !! Z.to_nat (i - n) = Some (pick order i n).
Proof.
  revert n. induction order as [|s order IH]; intros n Hi; simpl in *; [lia|].
  destruct (Z.eqb_spec i n) as [->|Hne].
  - by rewrite Z.sub_diag.
  - replace (Z.to_nat (i - n)) with (S (Z.to_nat (i - (n + 1)))) by lia. apply IH. lia.
Qed.

Lemma getAvailable_member ch taken pool :
  legal_choice ch -> (exists s, s ∈ pool /\ s ∉ taken) ->
  getAvailable ch taken pool ∈ pool /\ getAvailable ch taken pool ∉ taken.
Proof.
  intros [Hord Hint] (s & Hs). rewrite <- available_spec. unfold getAvailable.
  apply available_spec in Hs. set (av := foldl _ _ _) in *.
  assert (size av <> 0%nat) as Hsz by (intros ?%size_empty_inv; set_solver).
  rewrite decide_False by done. clearbody av.
  assert (0 < Z.of_nat (size av)) as Hpos by lia. specialize (Hint _ Hpos).
  apply elem_of_elements. rewrite <- (Hord av).
  apply list_elem_of_lookup. eexists. apply pick_lookup.
  rewrite (Hord av). change (size av) with (length (elements av)) in *. lia.
Qed.

Lemma getAvailable_none ch taken pool :
  (forall s, s ∈ pool -> s ∈ taken) -> getAvailable ch taken pool = "".
Proof.
  intros H. unfold getAvailable. rewrite decide_True; [done|].
  apply size_empty_iff. intros s. rewrite available_spec. set_solver.
Qed.

Lemma getAvailable_cases ch taken pool :
  legal_choice ch ->
  (getAvailable ch taken pool = "" /\ forall s, s ∈ pool -> s ∈ taken) \/
  (getAvailable ch taken pool ∈ pool /\ getAvailable ch taken pool ∉ taken).
Proof.
  intros Hch.
  destruct (set_choose_or_empty (foldl (fun av subnet => av ∖ {[subnet]}) pool taken))
    as [[s Hs]|He].
  - right. apply getAvailable_member; [done|]. exists s. by apply available_spec.
  - left. assert (forall s, s ∈ pool -> s ∈ taken) as Hall.
    { intros s Hs. destruct (decide (s ∈ taken)); [done|].
      assert (s ∈ (∅ : gset string)) by (rewrite <- He; by apply available_spec). set_solver. }
    split; [by apply getAvailable_none|done].
Qed.

(** C29. [getAvailable] answers [""] exactly when the whole pool is taken, and
    otherwise a member of the pool that is not taken, whatever order the map is
    ranged in and whatever number is drawn; and every free member is the answer
    to some draw. *)
Theorem getAvailable_correct ch taken pool :
  legal_choice ch -> "" ∉ pool ->
  (getAvailable ch taken pool = "" <-> forall s, s ∈ pool -> s ∈ taken) /\
  (getAvailable ch taken pool <> "" ->
     getAvailable ch taken pool ∈ pool /\ getAvailable ch taken pool ∉ taken) /\
  (forall s, s ∈ pool -> s ∉ taken ->
     exists ch', legal_choice ch' /\ getAvailable ch' taken pool = s).
Proof.
  intros Hch Hne. pose proof (getAvailable_cases ch taken pool Hch) as Hcases.
  split_and!.
  - split; [|by apply getAvailable_none].
    intros E. destruct Hcases as [[_ ?]|[Hin _]]; [done|]. congruence.
  - intros Hn. by destruct Hcases as [[E _]|].
  - intros s Hs Ht. set (av := foldl (fun av subnet => av ∖ {[subnet]}) pool taken).
    assert (s ∈ av) as Hav by (by apply available_spec).
    apply elem_of_elements, list_elem_of_lookup in Hav as [i Hi].
    pose proof (lookup_lt_Some _ _ _ Hi) as Hlt.
    exists {| range_order := elements; intn := fun n => if n =? Z.of_nat (size av) then Z.of_nat i else 0 |}.
    split.
    { split; simpl; [done|]. intros n Hn. destruct (Z.eqb_spec n (Z.of_nat (size av))); [|lia].
      change (size av) with (length (elements av)) in *. lia. }
    unfold getAvailable. fold av.
    rewrite decide_False by (change (size av) with (length (elements av)); lia).
    cbn [range_order intn]. rewrite Z.eqb_refl.
    pose proof (pick_lookup (elements av) (Z.of_nat i) 0) as Hp.
    rewrite Z.sub_0_r, Nat2Z.id, Hi in Hp. injection Hp; [done|lia].
Qed.

Lemma getAvailable_correct_witness :
  let pool : gset string := {["10.255.1.0/24"; "10.255.2.0/24"]} in
  let got := getAvailable first_choice ["10.255.1.0/24"] pool in
  got ∈ pool /\ got ∉ ["10.255.1.0/24"].
Proof.
  intros pool got.
  assert ("" ∉ pool) as Hne by (apply (bool_decide_unpack _); vm_compute; exact I).
  destruct (getAvailable_correct first_choice ["10.255.1.0/24"] pool first_choice_legal Hne)
    as (_ & H & _).
  apply H. vm_compute. discriminate.
Defined.

Lemma subnet_at_nonempty base m i : subnet_at base m i <> "".
Proof.
  unfold subnet_at, cidr_text. intros E. apply (f_equal String.length) in E.
  rewrite !str_length_app in E. cbn [String.length] in E. lia.
Qed.

Lemma pool_of_nonempty base c m p : pool_of base c m p -> ("" ∉ blockPool p) /\ ("" ∉ singlePool p).
Proof.
  intros [Hb Hs]. rewrite Hb, Hs.
  split; intros (k & _ & E); symmetry in E; by apply subnet_at_nonempty in E.
Qed.

(** ** A configuration on which the constructor does not return *)

Lemma block_loop_stuck fuel b m full pool : 0 < full -> block_loop fuel b m 0 full 0 pool = None.
Proof.
  intros Hf. revert pool. induction fuel as [|fuel IH]; intros pool; [done|].
  cbn [block_loop]. replace (0 <? full) with true by lia. apply IH.
Qed.

(** A subnet prefix length above 32 makes [NewCIDRPool] loop for ever on every IPv4
    network: the block size wraps to 0, and no number of iterations is enough. *)
Lemma long_prefix_loops fuel seed range base c m :
  overlay_network range base c -> 32 < m < 2 ^ 63 ->
  NewCIDRPool fuel (Ok seed) range m = OutOfFuel.
Proof.
  intros (ip & net & Hp & Hs & _ & _ & Hc & _)%overlay_network_inv Hm.
  unfold NewCIDRPool. rewrite Hp, Hs. cbn [getRandomSeed]. unfold generateBlockPool.
  replace (wrapu 64 c) with c by (unfold wrapu; rewrite Z.mod_small; lia).
  replace (wrapu 64 m) with m by (unfold wrapu; rewrite Z.mod_small; lia).
  rewrite (int_shl1_small c), (int_shl1_zero m) by lia.
  by rewrite block_loop_stuck by (apply pow_pos; lia).
Qed.

(** ** Witnesses *)

Lemma overlay_example : overlay_network "10.255.0.0/30" 184483840 30.
Proof. do 2 eexists. split; [vm_compute; reflexivity|]. split; vm_compute; reflexivity. Qed.

Lemma overlay_example_16 : overlay_network "10.255.0.0/16" 184483840 16.
Proof. do 2 eexists. split; [vm_compute; reflexivity|]. split; vm_compute; reflexivity. Qed.

Lemma pool_members_never_overlap_witness :
  disjoint_subnets "10.255.0.2/31" "10.255.0.1/32".
Proof.
  destruct (pool_members_never_overlap 8 7 "10.255.0.0/30" 184483840 30 31 overlay_example
    ltac:(lia) ltac:(vm_compute; discriminate)) as (p & Hp & H).
  assert (match NewCIDRPool 8 (Ok 7) "10.255.0.0/30" 31 with
          | Returns p => IsMember p "10.255.0.2/31" && IsMember p "10.255.0.1/32"
          | _ => false
          end = true) as M by (vm_compute; reflexivity).
  rewrite Hp in M. apply andb_prop in M as [M1 M2].
  apply H; [exact M1|exact M2|discriminate].
Defined.

Lemma pool_sizes_witness :
  exists p, NewCIDRPool 1000 (Ok 7) "10.255.0.0/16" 24 = Returns p /\
    BlockPoolSize p = 2 ^ (24 - 16) - 1 /\ SingleIPPoolSize p = 2 ^ (32 - 24) - 1.
Proof.
  exact (pool_sizes 1000 7 "10.255.0.0/16" 184483840 16 24 overlay_example_16
    ltac:(lia) ltac:(vm_compute; discriminate)).
Defined.
