(* ===== verification/Types.v ===== *)
(** * The values components exchange

    The types of the controller's API (src/controller/client.go) and of the
    daemon's (src/daemon/network_info.go). *)

From S2P Require Import Prelude.

Record Lease := {
  UnderlayIP : string;
  OverlaySubnet : string;
  OverlayHardwareAddr : string
}.

Global Instance Lease_eq_dec : EqDecision Lease.
Proof. solve_decision. Defined.

Record ReleaseLeaseRequest := { Release_UnderlayIP : string }.

Record AcquireLeaseRequest := {
  Acquire_UnderlayIP : string;
  Acquire_SingleOverlayIP : bool
}.

Record NetworkInfo := { Info_OverlaySubnet : string; Info_MTU : Z }.

(** The zero values Go returns next to an error. *)
Definition zero_Lease : Lease :=
  {| UnderlayIP := ""; OverlaySubnet := ""; OverlayHardwareAddr := "" |}.

Definition zero_NetworkInfo : NetworkInfo := {| Info_OverlaySubnet := ""; Info_MTU := 0 |}.
