(* ===== verification/Sql.v ===== *)
(** * The SQL connection the controller is given

    The controller keeps its state in one table, [subnets], of a MySQL or
    Postgres server it reaches through the interface [Db] of
    src/controller/database/database_handler.go. The server is not part of the
    repository: it is a parameter, a handler of the events [dbE], and the class
    [SqlLaws] states what the statements of the program are documented to do.
    A statement is the syntax tree of the SQL text the Go code sends ([sql_text]
    prints it back). Any statement can fail; a failed write can have taken
    effect all the same, because the error may be the loss of the answer. *)

From Stdlib Require Import ZArith Lia Ascii.
From S2P Require Import Prelude GoFmt.

(** ** Statements *)

Inductive column := underlay_ip | overlay_subnet | overlay_hwaddr | last_renewed_at.

Inductive condition :=
| Like (c : column) (pattern : string)
| NotLike (c : column) (pattern : string)
| EqArg (c : column)
| RenewedAfter (duration : Z) (timestamp : string)
| RenewedBefore (duration : Z) (timestamp : string)
| And (w1 w2 : condition).

Inductive stmt :=
| SelectOne
| Select (cols : list column) (w : option condition) (oldest_first : bool)
| Insert (timestamp : string)
| Delete (w : condition)
| UpdateRenewed (timestamp : string) (w : condition).

(** A query as it is sent: as written, or after [Db.Rebind], which rewrites the
    placeholders for the driver. *)
Inductive query := Text (s : stmt) | Rebind (s : stmt).

Definition column_text (c : column) : string :=
  match c with
  | underlay_ip => "underlay_ip"
  | overlay_subnet => "overlay_subnet"
  | overlay_hwaddr => "overlay_hwaddr"
  | last_renewed_at => "last_renewed_at"
  end.

Fixpoint columns_text (cs : list column) : string :=
  match cs with
  | [] => ""
  | [c] => column_text c
  | c :: cs' => column_text c +:+ ", " +:+ columns_text cs'
  end.

Fixpoint condition_text (w : condition) : string :=
  match w with
  | Like c p => column_text c +:+ " LIKE '" +:+ p +:+ "'"
  | NotLike c p => column_text c +:+ " NOT LIKE '" +:+ p +:+ "'"
  | EqArg c => column_text c +:+ " = ?"
  | RenewedAfter d ts => "last_renewed_at + " +:+ itoa d +:+ " > " +:+ ts
  | RenewedBefore d ts => "last_renewed_at + " +:+ itoa d +:+ " <= " +:+ ts
  | And w1 w2 => condition_text w1 +:+ " AND " +:+ condition_text w2
  end.

Definition sql_text (s : stmt) : string :=
  match s with
  | SelectOne => "SELECT 1"
  | Select cols w oldest =>
      "SELECT " +:+ columns_text cols +:+ " FROM subnets"
      +:+ (match w with Some w => " WHERE " +:+ condition_text w | None => "" end)
      +:+ (if oldest then " ORDER BY last_renewed_at ASC LIMIT 1" else "")
  | Insert ts =>
      "INSERT INTO subnets (underlay_ip, overlay_subnet, overlay_hwaddr, last_renewed_at) VALUES (?, ?, ?, "
      +:+ ts +:+ ")"
  | Delete w => "DELETE FROM subnets WHERE " +:+ condition_text w
  | UpdateRenewed ts w => "UPDATE subnets SET last_renewed_at = " +:+ ts +:+ " WHERE " +:+ condition_text w
  end.

(** ** The connection *)

Inductive value := VStr (s : string) | VInt (n : Z).

Record sql_rows := { rows_scans : list (result (list value)); rows_err : option error }.

Record Migration := { Id : string; Up : list string; Down : list string }.

Inductive dbE : Type -> Type :=
| Exec (q : query) (args : list string) : dbE (result (result Z))
| Query (q : query) (args : list string) : dbE (result sql_rows)
| QueryRow (q : query) (args : list string) : dbE (result (list value))
| MigrateExec (dialect : string) (migrations : list Migration) : dbE (result Z).

(** ** What the statements mean on the rows of [subnets] *)

Record row := {
  row_underlay_ip : string;
  row_overlay_subnet : string;
  row_overlay_hwaddr : string;
  row_last_renewed_at : Z
}.

Global Instance row_eq_dec : EqDecision row.
Proof. solve_decision. Defined.

Definition column_value (c : column) (r : row) : value :=
  match c with
  | underlay_ip => VStr (row_underlay_ip r)
  | overlay_subnet => VStr (row_overlay_subnet r)
  | overlay_hwaddr => VStr (row_overlay_hwaddr r)
  | last_renewed_at => VInt (row_last_renewed_at r)
  end.

Definition column_string (c : column) (r : row) : string :=
  match column_value c r with VStr s => s | VInt n => itoa n end.

(** [LIKE]: [%] stands for any text, [_] for any character. *)
Fixpoint like (p s : string) : bool :=
  match p with
  | EmptyString => match s with EmptyString => true | _ => false end
  | String "%" p' =>
      (fix any (s : string) : bool :=
         like p' s || match s with EmptyString => false | String _ s' => any s' end) s
  | String "_" p' => match s with EmptyString => false | String _ s' => like p' s' end
  | String c p' =>
      match s with EmptyString => false | String d s' => Ascii.eqb c d && like p' s' end
  end.

Fixpoint matches (now : Z) (args : list string) (w : condition) (r : row) : bool :=
  match w with
  | Like c p => like p (column_string c r)
  | NotLike c p => negb (like p (column_string c r))
  | EqArg c => match args with [a] => bool_decide (column_string c r = a) | _ => false end
  | RenewedAfter d _ => now <? row_last_renewed_at r + d
  | RenewedBefore d _ => row_last_renewed_at r + d <=? now
  | And w1 w2 => matches now args w1 r && matches now args w2 r
  end.

Definition matches_opt (now : Z) (args : list string) (w : option condition) (r : row) : bool :=
  match w with Some w => matches now args w r | None => true end.

(** ** The table *)

Definition MySQL : string := "mysql".
Definition Postgres : string := "postgres".

(** The text that creates it (createSubnetTable of
    src/controller/database/database_handler.go). *)
Definition createSubnetTable (dbType : string) : string :=
  let baseCreateTable (id : string) :=
    "CREATE TABLE IF NOT EXISTS subnets ("
    +:+ id
    +:+ ", underlay_ip varchar(15) NOT NULL"
    +:+ ", overlay_subnet varchar(18) NOT NULL"
    +:+ ", overlay_hwaddr varchar(17) NOT NULL"
    +:+ ", last_renewed_at bigint NOT NULL"
    +:+ ", UNIQUE (underlay_ip)"
    +:+ ", UNIQUE (overlay_subnet)"
    +:+ ", UNIQUE (overlay_hwaddr)"
    +:+ ");" in
  let mysqlId := "id int NOT NULL AUTO_INCREMENT, PRIMARY KEY (id)" in
  let psqlId := "id SERIAL PRIMARY KEY" in
  if decide (dbType = Postgres) then baseCreateTable psqlId
  else if decide (dbType = MySQL) then baseCreateTable mysqlId
  else "".

Fixpoint mentions (pattern s : string) : bool :=
  String.prefix pattern s ||
  match s with EmptyString => false | String _ s' => mentions pattern s' end.

(** The column is declared unique in the text. *)
Definition declared_unique (ddl : string) (c : column) : bool :=
  mentions ("UNIQUE (" +:+ column_text c +:+ ")") ddl.

(** The constraints of a table created by [ddl] let a row with these values in. *)
Definition admits (ddl ip subnet hwaddr : string) (t : list row) : Prop :=
  Forall (fun r => (declared_unique ddl underlay_ip = true -> row_underlay_ip r <> ip) /\
                   (declared_unique ddl overlay_subnet = true -> row_overlay_subnet r <> subnet) /\
                   (declared_unique ddl overlay_hwaddr = true -> row_overlay_hwaddr r <> hwaddr)) t.

Global Instance admits_dec ddl ip subnet hwaddr t : Decision (admits ddl ip subnet hwaddr t).
Proof. unfold admits. apply _. Defined.

(** No row has one of the values. *)
Definition fresh (ip subnet hwaddr : string) (t : list row) : Prop :=
  Forall (fun r => row_underlay_ip r <> ip /\ row_overlay_subnet r <> subnet /\
                   row_overlay_hwaddr r <> hwaddr) t.

Global Instance fresh_dec ip subnet hwaddr t : Decision (fresh ip subnet hwaddr t).
Proof. unfold fresh. apply _. Defined.

(** The table of either kind of server declares its three columns unique. *)
Lemma admits_fresh driver ip subnet hwaddr t :
  driver = MySQL \/ driver = Postgres ->
  admits (createSubnetTable driver) ip subnet hwaddr t <-> fresh ip subnet hwaddr t.
Proof.
  intros Hd. assert (forall c, c <> last_renewed_at -> declared_unique (createSubnetTable driver) c = true) as H.
  { intros c Hc. destruct Hd as [-> | ->], c; try done; vm_compute; reflexivity. }
  unfold admits, fresh. rewrite !H by done. apply Forall_proper; [|done]. intros r. naive_solver.
Qed.

Definition renew_row (now : Z) (r : row) : row :=
  {| row_underlay_ip := row_underlay_ip r; row_overlay_subnet := row_overlay_subnet r;
     row_overlay_hwaddr := row_overlay_hwaddr r; row_last_renewed_at := now |}.

(** The effect of a write on the table of a server of this kind, and how many rows it
    matched; [None] for a statement that violates a constraint of the table or is no
    write. *)
Definition exec_sem (driver : string) (now : Z) (s : stmt) (args : list string) (t : list row)
    : option (list row * Z) :=
  match s with
  | Insert _ =>
      match args with
      | [ip; subnet; hwaddr] =>
          if decide (admits (createSubnetTable driver) ip subnet hwaddr t) then
            Some (t ++ [{| row_underlay_ip := ip; row_overlay_subnet := subnet;
                           row_overlay_hwaddr := hwaddr; row_last_renewed_at := now |}], 1)
          else None
      | _ => None
      end
  | Delete w =>
      Some (filter (fun r => matches now args w r = false) t,
            Z.of_nat (length (filter (fun r => matches now args w r = true) t)))
  | UpdateRenewed _ w =>
      Some (map (fun r => if matches now args w r then renew_row now r else r) t,
            Z.of_nat (length (filter (fun r => matches now args w r = true) t)))
  | _ => None
  end.

(** The rows of a [SELECT], in table order. *)
Definition selected (now : Z) (args : list string) (w : option condition) (t : list row) : list row :=
  filter (fun r => matches_opt now args w r = true) t.

Definition project (cols : list column) (r : row) : list value := map (fun c => column_value c r) cols.

(** ** What the server promises *)

Definition mysqlTimeNow : string := "UNIX_TIMESTAMP()".
Definition postgresTimeNow : string := "EXTRACT(EPOCH FROM now())::numeric::integer".

(** The expression a server reads as the current time in seconds. *)
Definition now_expression (driver ts : string) : bool :=
  bool_decide (driver = MySQL /\ ts = mysqlTimeNow \/ driver = Postgres /\ ts = postgresTimeNow).

(** Whether a server of this kind understands the text: its time expressions
    are the server's, and a placeholder [?] is MySQL's (Postgres wants [$1], which
    [Rebind] writes). *)
Fixpoint condition_times (driver : string) (w : condition) : bool :=
  match w with
  | RenewedAfter _ ts | RenewedBefore _ ts => now_expression driver ts
  | And w1 w2 => condition_times driver w1 && condition_times driver w2
  | _ => true
  end.

Fixpoint placeholders (w : condition) : bool :=
  match w with
  | EqArg _ => true
  | And w1 w2 => placeholders w1 || placeholders w2
  | _ => false
  end.

Definition stmt_times (driver : string) (s : stmt) : bool :=
  match s with
  | SelectOne => true
  | Select _ w _ => match w with Some w => condition_times driver w | None => true end
  | Insert ts => now_expression driver ts
  | Delete w => condition_times driver w
  | UpdateRenewed ts w => now_expression driver ts && condition_times driver w
  end.

Definition stmt_placeholders (s : stmt) : bool :=
  match s with
  | SelectOne => false
  | Select _ w _ => match w with Some w => placeholders w | None => false end
  | Insert _ => true
  | Delete w | UpdateRenewed _ w => placeholders w
  end.

Definition query_stmt (q : query) : stmt := match q with Text s | Rebind s => s end.

Definition understood (driver : string) (q : query) : bool :=
  stmt_times driver (query_stmt q) &&
  match q with
  | Rebind _ => bool_decide (driver = MySQL \/ driver = Postgres)
  | Text s => negb (stmt_placeholders s) || bool_decide (driver = MySQL)
  end.

(** The rows of [t] a [QueryRow] may answer with: any row the query selects, and
    one with the smallest [last_renewed_at] under [ORDER BY ... LIMIT 1]. *)
Definition answers_row (oldest : bool) (sel : list row) (r : row) : Prop :=
  r ∈ sel /\
  (oldest = true -> Forall (fun r' => row_last_renewed_at r <= row_last_renewed_at r') sel).

(** One statement, evaluated at time [now] on the rows [t], leaves [t'] and
    answers [x]. *)
Definition sql_spec (driver : string) (now : Z) {X} (e : dbE X) (t t' : list row) : X -> Prop :=
  match e with
  | Exec q args => fun x =>
      match x with
      | Ok affected => exists n, exec_sem driver now (query_stmt q) args t = Some (t', n) /\
          forall m w, query_stmt q = Delete w -> affected = Ok m -> m = n
      | Err _ => t' = t \/ exists n, exec_sem driver now (query_stmt q) args t = Some (t', n)
      end
  | Query q args => fun x =>
      t' = t /\
      forall cols w oldest rs, query_stmt q = Select cols w oldest -> x = Ok rs ->
        rows_err rs = None -> Forall is_Ok (rows_scans rs) ->
        exists p, Permutation p (selected now args w t) /\
          rows_scans rs = map (fun r => Ok (project cols r)) p
  | QueryRow q args => fun x =>
      t' = t /\
      match query_stmt q, x with
      | Select cols w oldest, Ok vals =>
          exists r, answers_row oldest (selected now args w t) r /\ vals = project cols r
      | Select cols w oldest, Err ErrNoRows => selected now args w t = []
      | SelectOne, Ok vals => vals = [VInt 1]
      | _, _ => True
      end
  | MigrateExec _ _ => fun _ => True
  end.

(** A server, with everything that decides its answers in its state [S]. *)
Class SqlEngine (S : Type) := {
  sql_handle : handler dbE S;
  sql_driver : S -> string;
  sql_table : S -> list row;
  sql_clock : S -> Z
}.

Definition event_understood (driver : string) {X} (e : dbE X) : bool :=
  match e with
  | Exec q _ | Query q _ | QueryRow q _ => understood driver q
  | MigrateExec _ _ => false
  end.

Class SqlLaws (S : Type) `{SqlEngine S} := {
  sql_driver_fixed : forall X (e : dbE X) s,
    sql_driver (fst (sql_handle X e s)) = sql_driver s;
  sql_clock_monotone : forall X (e : dbE X) s,
    sql_clock s <= sql_clock (fst (sql_handle X e s));
  sql_answers : forall X (e : dbE X) s,
    event_understood (sql_driver s) e = true ->
    let s' := fst (sql_handle X e s) in
    sql_spec (sql_driver s) (sql_clock s') e (sql_table s) (sql_table s') (snd (sql_handle X e s))
}.

(** ** An instance: a server in memory

    It evaluates every statement on its rows, one second per call, with a list
    of faults to come: a lost connection before the statement, or the loss of
    the answer after it. *)

Inductive fault := NoFault | LostBefore | LostAfter.

Record memory := {
  mem_driver : string;
  mem_rows : list row;
  mem_clock : Z;
  mem_faults : list fault
}.

Definition mem_tick (rows : list row) (m : memory) : memory :=
  {| mem_driver := mem_driver m; mem_rows := rows; mem_clock := mem_clock m + 1;
     mem_faults := tail (mem_faults m) |}.

Definition oldest_row (sel : list row) : option row :=
  match sel with
  | [] => None
  | r :: rs => Some (fold_left (fun a b =>
      if row_last_renewed_at b <? row_last_renewed_at a then b else a) rs r)
  end.

Definition lost : error := Errorf "connection lost".

Definition mem_handle : handler dbE memory := fun X e m =>
  let now := mem_clock m + 1 in
  let t := mem_rows m in
  let f := default NoFault (head (mem_faults m)) in
  match e in dbE X return memory * X with
  | Exec q args =>
      match f, exec_sem (mem_driver m) now (query_stmt q) args t with
      | LostBefore, _ => (mem_tick t m, Err lost)
      | _, None => (mem_tick t m, Err (Errorf "constraint violated"))
      | NoFault, Some (t', n) => (mem_tick t' m, Ok (Ok n))
      | LostAfter, Some (t', _) => (mem_tick t' m, Err lost)
      end
  | Query q args =>
      (mem_tick t m,
       match f, query_stmt q with
       | NoFault, Select cols w _ =>
           Ok {| rows_scans := map (fun r => Ok (project cols r)) (selected now args w t);
                 rows_err := None |}
       | NoFault, _ => Err (Errorf "not a query")
       | _, _ => Err lost
       end)
  | QueryRow q args =>
      (mem_tick t m,
       match f, query_stmt q with
       | NoFault, SelectOne => Ok [VInt 1]
       | NoFault, Select cols w _ =>
           match oldest_row (selected now args w t) with
           | Some r => Ok (project cols r)
           | None => Err ErrNoRows
           end
       | NoFault, _ => Err (Errorf "not a query")
       | _, _ => Err lost
       end)
  | MigrateExec _ ms => (mem_tick t m, Ok (Z.of_nat (length ms)))
  end.

#[export] Instance mem_engine : SqlEngine memory := {
  sql_handle := mem_handle;
  sql_driver := mem_driver;
  sql_table := mem_rows;
  sql_clock := mem_clock
}.

Lemma oldest_fold rs r0 :
  let r := fold_left (fun a b =>
      if row_last_renewed_at b <? row_last_renewed_at a then b else a) rs r0 in
  r ∈ r0 :: rs /\ Forall (fun r' => row_last_renewed_at r <= row_last_renewed_at r') (r0 :: rs).
Proof.
  revert r0. induction rs as [|b rs IH]; intros r0; simpl.
  - split; [set_solver|]. constructor; [lia|done].
  - destruct (row_last_renewed_at b <? row_last_renewed_at r0) eqn:Hlt.
    + destruct (IH b) as [Hin Hall]. split; [set_solver|].
      constructor; [|done]. apply Forall_cons in Hall as [Hb _].
      apply Z.ltb_lt in Hlt. lia.
    + destruct (IH r0) as [Hin Hall]. apply Z.ltb_ge in Hlt.
      apply Forall_cons in Hall as [Hr0 Hrs].
      split; [set_solver|]. constructor; [done|]. constructor; [lia|done].
Qed.

Lemma oldest_row_answers oldest sel r : oldest_row sel = Some r -> answers_row oldest sel r.
Proof.
  destruct sel as [|r0 rs]; simpl; [done|]. intros [= <-].
  destruct (oldest_fold rs r0). by split.
Qed.

Lemma oldest_row_none sel : oldest_row sel = None -> sel = [].
Proof. by destruct sel. Qed.

#[export] Instance mem_laws : SqlLaws memory.
Proof.
  split.
  - intros X e s. destruct e; simpl; repeat case_match; done.
  - intros X e s. destruct e; simpl; repeat case_match; simpl; lia.
  - intros X e s Hu. destruct e as [q args|q args|q args|]; simpl in *.
    + repeat case_match; simplify_eq/=; eauto 10 with congruence.
    + split; [done|]. intros cols w oldest rs Hq Hx _ _. rewrite Hq in Hx.
      case_match; simplify_eq/=; eauto.
    + split; [done|]. destruct (query_stmt q) as [|cols w oldest| | |]; [repeat case_match; by simplify_eq|..|repeat case_match; done|repeat case_match; done|repeat case_match; done].
      destruct (default NoFault (head (mem_faults s))); [|done|done].
      destruct (oldest_row _) as [r|] eqn:Ho.
      * exists r. split; [by apply oldest_row_answers|done].
      * by apply oldest_row_none.
    + done.
Qed.
