(* ===== verification/Store.v ===== *)
(** * What the lease controller expects of its database

    [storeE] is the interface [databaseHandler] of
    src/controller/leaser/lease_controller.go. [store_spec] is its contract, on
    the rows of the table; a [LeaseStore] is a state with a handler of the
    interface and [StoreLaws] that the handler keeps the contract. The theorems
    on the lease controller use nothing else of the database. *)

From Stdlib Require Import ZArith Lia.
From S2P Require Import Prelude GoFmt Types Sql.

Inductive storeE : Type -> Type :=
| AddEntry (lease : Lease) : storeE (result unit)
| DeleteEntry (underlayIP : string) : storeE (result unit)
| LeaseForUnderlayIP (underlayIP : string) : storeE (result (option Lease))
| LastRenewedAtForUnderlayIP (underlayIP : string) : storeE (result Z)
| RenewLeaseForUnderlayIP (underlayIP : string) : storeE (result unit)
| All : storeE (result (list Lease))
| AllBlockSubnets : storeE (result (list Lease))
| AllSingleIPSubnets : storeE (result (list Lease))
| AllActive (duration : Z) : storeE (result (list Lease))
| OldestExpiredBlockSubnet (expirationTime : Z) : storeE (result (option Lease))
| OldestExpiredSingleIP (expirationTime : Z) : storeE (result (option Lease)).

(** ** The rows as leases *)

Definition lease_of (r : row) : Lease :=
  {| UnderlayIP := row_underlay_ip r; OverlaySubnet := row_overlay_subnet r;
     OverlayHardwareAddr := row_overlay_hwaddr r |}.

Definition lease_row (now : Z) (l : Lease) : row :=
  {| row_underlay_ip := UnderlayIP l; row_overlay_subnet := OverlaySubnet l;
     row_overlay_hwaddr := OverlayHardwareAddr l; row_last_renewed_at := now |}.

Definition drop_ip (ip : string) (t : list row) : list row :=
  filter (fun r => row_underlay_ip r <> ip) t.

Definition renew_ip (now : Z) (ip : string) (t : list row) : list row :=
  map (fun r => if decide (row_underlay_ip r = ip) then renew_row now r else r) t.

Definition single_ip (r : row) : bool := like "%/32" (row_overlay_subnet r).

Definition expired (now duration : Z) (r : row) : bool :=
  row_last_renewed_at r + duration <=? now.

(** A lease among those of [sel] that was renewed longest ago. *)
Definition oldest_lease (sel : list row) (x : option Lease) : Prop :=
  match x with
  | None => sel = []
  | Some l => exists r, r ∈ sel /\ lease_of r = l /\
      Forall (fun r' => row_last_renewed_at r <= row_last_renewed_at r') sel
  end.

Definition lists (sel : list row) (x : result (list Lease)) : Prop :=
  match x with Ok ls => Permutation ls (map lease_of sel) | Err _ => True end.

Definition lease_fresh (l : Lease) (t : list row) : Prop :=
  fresh (UnderlayIP l) (OverlaySubnet l) (OverlayHardwareAddr l) t.

(** One call at time [now] takes the rows [t] to [t'] and answers [x]. An error
    of a write leaves open whether it took effect. *)
Definition store_spec (now : Z) {X} (e : storeE X) (t t' : list row) : X -> Prop :=
  match e with
  | AddEntry l => fun x =>
      match x with
      | Ok _ => lease_fresh l t /\ t' = t ++ [lease_row now l]
      | Err _ => t' = t \/ (lease_fresh l t /\ t' = t ++ [lease_row now l])
      end
  | DeleteEntry ip => fun x =>
      match x with
      | Ok _ => ip ∈ map row_underlay_ip t /\ t' = drop_ip ip t
      | Err RecordNotAffectedError => (ip ∉ map row_underlay_ip t) /\ t' = t
      | Err _ => t' = t \/ t' = drop_ip ip t
      end
  | LeaseForUnderlayIP ip => fun x =>
      t' = t /\
      match x with
      | Ok None => ip ∉ map row_underlay_ip t
      | Ok (Some l) => l ∈ map lease_of t /\ UnderlayIP l = ip
      | Err _ => True
      end
  | LastRenewedAtForUnderlayIP ip => fun x =>
      t' = t /\
      match x with
      | Ok z => exists r, r ∈ t /\ row_underlay_ip r = ip /\ row_last_renewed_at r = z
      | Err _ => True
      end
  | RenewLeaseForUnderlayIP ip => fun x =>
      match x with
      | Ok _ => t' = renew_ip now ip t
      | Err _ => t' = t \/ t' = renew_ip now ip t
      end
  | All => fun x => t' = t /\ lists t x
  | AllBlockSubnets => fun x => t' = t /\ lists (filter (fun r => single_ip r = false) t) x
  | AllSingleIPSubnets => fun x => t' = t /\ lists (filter (fun r => single_ip r = true) t) x
  | AllActive d => fun x => t' = t /\ lists (filter (fun r => expired now d r = false) t) x
  | OldestExpiredBlockSubnet d => fun x =>
      t' = t /\
      match x with
      | Ok o => oldest_lease (filter (fun r => single_ip r = false /\ expired now d r = true) t) o
      | Err _ => True
      end
  | OldestExpiredSingleIP d => fun x =>
      t' = t /\
      match x with
      | Ok o => oldest_lease (filter (fun r => single_ip r = true /\ expired now d r = true) t) o
      | Err _ => True
      end
  end.

Class LeaseStore (S : Type) := {
  store_handle : handler storeE S;
  store_ok : S -> Prop;
  store_table : S -> list row;
  store_clock : S -> Z
}.

Class StoreLaws (S : Type) `{LeaseStore S} := {
  store_stays_ok : forall X (e : storeE X) s,
    store_ok s -> store_ok (fst (store_handle X e s));
  store_clock_monotone : forall X (e : storeE X) s,
    store_clock s <= store_clock (fst (store_handle X e s));
  store_answers : forall X (e : storeE X) s,
    store_ok s ->
    let s' := fst (store_handle X e s) in
    store_spec (store_clock s') e (store_table s) (store_table s') (snd (store_handle X e s))
}.

(** ** The table's constraints *)

(** At most one row per underlay IP, per overlay subnet and per hardware address. *)
Definition unique_table (t : list row) : Prop :=
  NoDup (map row_underlay_ip t) /\ NoDup (map row_overlay_subnet t) /\
  NoDup (map row_overlay_hwaddr t).

Lemma fresh_notin l t :
  lease_fresh l t <->
  (UnderlayIP l ∉ map row_underlay_ip t) /\ (OverlaySubnet l ∉ map row_overlay_subnet t) /\
  OverlayHardwareAddr l ∉ map row_overlay_hwaddr t.
Proof.
  unfold lease_fresh, fresh. rewrite Forall_forall. split.
  - intros H. rewrite !list_elem_of_fmap.
    split_and!; intros (r & Heq & Hr); destruct (H r Hr) as (? & ? & ?); congruence.
  - intros (H1 & H2 & H3) r Hr. split_and!; intros Heq.
    + apply H1. rewrite <- Heq. by apply list_elem_of_fmap_2.
    + apply H2. rewrite <- Heq. by apply list_elem_of_fmap_2.
    + apply H3. rewrite <- Heq. by apply list_elem_of_fmap_2.
Qed.

Lemma NoDup_snoc {A} (l : list A) x : NoDup l -> x ∉ l -> NoDup (l ++ [x]).
Proof.
  intros Hl Hx. apply NoDup_app. split_and!; [done| |apply NoDup_singleton].
  intros y Hy ->%list_elem_of_singleton. done.
Qed.

Lemma unique_add now l t :
  unique_table t -> lease_fresh l t -> unique_table (t ++ [lease_row now l]).
Proof.
  intros (H1 & H2 & H3) (F1 & F2 & F3)%fresh_notin.
  unfold unique_table. rewrite !map_app. simpl. split_and!; by apply NoDup_snoc.
Qed.

Lemma unique_sublist t t' : t' `sublist_of` t -> unique_table t -> unique_table t'.
Proof.
  intros Hs (H1 & H2 & H3).
  split_and!; [apply (sublist_NoDup _ _ H1)|apply (sublist_NoDup _ _ H2)|apply (sublist_NoDup _ _ H3)];
    by apply fmap_sublist.
Qed.

Lemma unique_drop ip t : unique_table t -> unique_table (drop_ip ip t).
Proof. apply unique_sublist. apply sublist_filter. Qed.

Lemma NoDup_map_inj {A B} (f : A -> B) l x y :
  NoDup (map f l) -> x ∈ l -> y ∈ l -> f x = f y -> x = y.
Proof.
  induction l as [|z l IH]; simpl; [set_solver|].
  intros [Hz Hl]%NoDup_cons [->|Hx]%elem_of_cons [->|Hy]%elem_of_cons E; [done|..|auto].
  - destruct Hz. rewrite E. by apply list_elem_of_fmap_2.
  - destruct Hz. rewrite <- E. by apply list_elem_of_fmap_2.
Qed.

Lemma unique_ip t r r' :
  unique_table t -> r ∈ t -> r' ∈ t -> row_underlay_ip r = row_underlay_ip r' -> r = r'.
Proof. intros [H _]. by apply NoDup_map_inj. Qed.

Lemma unique_subnet t r r' :
  unique_table t -> r ∈ t -> r' ∈ t -> row_overlay_subnet r = row_overlay_subnet r' -> r = r'.
Proof. intros (_ & H & _). by apply NoDup_map_inj. Qed.

Lemma list_filter_all {A} (l : list A) : filter (fun _ => True) l = l.
Proof. induction l as [|x l IH]; [done|]. rewrite filter_cons_True by done. by rewrite IH. Qed.

Lemma drop_ip_notin ip t : ip ∉ map row_underlay_ip t -> drop_ip ip t = t.
Proof.
  unfold drop_ip. induction t as [|r t IH]; [done|]. simpl. rewrite not_elem_of_cons.
  intros [Hr Ht]. rewrite filter_cons_True by congruence. by rewrite IH.
Qed.

Lemma map_renew_ip {A} (f : row -> A) now ip t :
  (forall r, f (renew_row now r) = f r) -> map f (renew_ip now ip t) = map f t.
Proof.
  intros Hf. unfold renew_ip. rewrite map_map. apply map_ext. intros r.
  case_decide; [apply Hf|done].
Qed.

Lemma leases_renew now ip t : map lease_of (renew_ip now ip t) = map lease_of t.
Proof. by apply map_renew_ip. Qed.

Lemma unique_renew now ip t : unique_table t -> unique_table (renew_ip now ip t).
Proof. unfold unique_table. by rewrite !map_renew_ip. Qed.

#[export] Hint Resolve unique_add unique_drop unique_renew : silk.

(** ** Programs over the store *)

Record store_world := { w_clock : Z; w_table : list row }.

Definition store_step (X : Type) (e : storeE X) (w w' : store_world) (x : X) : Prop :=
  w_clock w <= w_clock w' /\ store_spec (w_clock w') e (w_table w) (w_table w') x.

Definition store_world_of {S} `{LeaseStore S} (s : S) : store_world :=
  {| w_clock := store_clock s; w_table := store_table s |}.

Lemma store_wp_run {S A} `{StoreLaws S} (p : prog storeE A) (s : S) Q :
  store_ok s -> wp store_step p (store_world_of s) Q ->
  Q (store_world_of (fst (run store_handle p s))) (snd (run store_handle p s)) /\
  store_ok (fst (run store_handle p s)).
Proof.
  apply wp_sound. intros X e s' Hs'. split; [by apply store_stays_ok|]. split; simpl.
  - apply store_clock_monotone.
  - by apply store_answers.
Qed.

(** The constraints of the table hold after every call. *)
Lemma store_step_unique X (e : storeE X) w w' x :
  store_step X e w w' x -> unique_table (w_table w) -> unique_table (w_table w').
Proof.
  intros [_ Hs] Hu.
  destruct e; simpl in Hs; repeat case_match; subst; destruct_and?; destruct_or?; destruct_and?;
    simplify_eq; try congruence; repeat match goal with H : w_table w' = _ |- _ => rewrite H end;
    auto with silk.
Qed.

(** ** A database that does not fail

    Reads are answered, an insertion is refused only by a constraint, and the
    deletion of an absent row is the only one that reports an error. *)

Definition answered {X} (e : storeE X) (t : list row) : X -> Prop :=
  match e with
  | AddEntry l => fun x => lease_fresh l t -> is_Ok x = true
  | DeleteEntry ip => fun x => forall e, x = Err e -> e = RecordNotAffectedError
  | LastRenewedAtForUnderlayIP ip => fun x => ip ∈ map row_underlay_ip t -> is_Ok x = true
  | LeaseForUnderlayIP _ | OldestExpiredBlockSubnet _ | OldestExpiredSingleIP _ =>
      fun x => is_Ok x = true
  | RenewLeaseForUnderlayIP _ => fun x => is_Ok x = true
  | All | AllBlockSubnets | AllSingleIPSubnets | AllActive _ => fun x => is_Ok x = true
  end.

Definition store_up_step (X : Type) (e : storeE X) (w w' : store_world) (x : X) : Prop :=
  store_step X e w w' x /\ answered e (w_table w) x.

Lemma wp_up {A} (p : prog storeE A) w Q : wp store_step p w Q -> wp store_up_step p w Q.
Proof. apply wp_step_mono. by intros X e w1 w2 x [? _]. Qed.

Lemma delete_present ip w w' x :
  store_up_step _ (DeleteEntry ip) w w' x -> ip ∈ map row_underlay_ip (w_table w) ->
  exists u, x = Ok u /\ w_table w' = drop_ip ip (w_table w).
Proof.
  intros [[_ Hs] Ha] Hin. simpl in Hs, Ha. destruct x as [u|e].
  - exists u. split; [done|]. apply Hs.
  - rewrite (Ha e eq_refl) in Hs. tauto.
Qed.

(** The table itself is such a database. *)
Definition table_store : handler storeE store_world := fun X e w =>
  let now := w_clock w in
  let t := w_table w in
  let with_table t' := {| w_clock := now; w_table := t' |} in
  let of_ip ip := head (filter (fun r => row_underlay_ip r = ip) t) in
  match e in storeE X return store_world * X with
  | AddEntry l =>
      if decide (lease_fresh l t) then (with_table (t ++ [lease_row now l]), Ok tt)
      else (w, Err (Errorf "duplicate key value violates unique constraint"))
  | DeleteEntry ip =>
      if decide (ip ∈ map row_underlay_ip t) then (with_table (drop_ip ip t), Ok tt)
      else (w, Err RecordNotAffectedError)
  | LeaseForUnderlayIP ip => (w, Ok (lease_of <$> of_ip ip))
  | LastRenewedAtForUnderlayIP ip =>
      (w, match of_ip ip with Some r => Ok (row_last_renewed_at r) | None => Err ErrNoRows end)
  | RenewLeaseForUnderlayIP ip => (with_table (renew_ip now ip t), Ok tt)
  | All => (w, Ok (map lease_of t))
  | AllBlockSubnets => (w, Ok (map lease_of (filter (fun r => single_ip r = false) t)))
  | AllSingleIPSubnets => (w, Ok (map lease_of (filter (fun r => single_ip r = true) t)))
  | AllActive d => (w, Ok (map lease_of (filter (fun r => expired now d r = false) t)))
  | OldestExpiredBlockSubnet d =>
      (w, Ok (lease_of <$> oldest_row (filter (fun r => single_ip r = false /\ expired now d r = true) t)))
  | OldestExpiredSingleIP d =>
      (w, Ok (lease_of <$> oldest_row (filter (fun r => single_ip r = true /\ expired now d r = true) t)))
  end.

Lemma of_ip_spec ip (t : list row) :
  match head (filter (fun r => row_underlay_ip r = ip) t) with
  | Some r => r ∈ t /\ row_underlay_ip r = ip
  | None => ip ∉ map row_underlay_ip t
  end.
Proof.
  destruct (filter _ t) as [|r rs] eqn:E; simpl.
  - intros (r & -> & Hr)%list_elem_of_fmap.
    assert (r ∈ filter (fun q => row_underlay_ip q = row_underlay_ip r) t) as Hin
      by by apply list_elem_of_filter.
    rewrite E in Hin. by apply not_elem_of_nil in Hin.
  - assert (r ∈ filter (fun r => row_underlay_ip r = ip) t) as Hin by (rewrite E; apply list_elem_of_here).
    apply list_elem_of_filter in Hin as [? ?]. done.
Qed.

Lemma oldest_row_lease sel : oldest_lease sel (lease_of <$> oldest_row sel).
Proof.
  destruct (oldest_row sel) as [r|] eqn:E; simpl; [|by apply oldest_row_none].
  destruct (oldest_row_answers true sel r E) as [Hr Hall]. exists r. split_and!; [done..|]. by apply Hall.
Qed.

Lemma table_store_up X (e : storeE X) w :
  store_up_step X e w (fst (table_store X e w)) (snd (table_store X e w)).
Proof.
  split; [split|]; destruct e; cbn [table_store]; try case_decide; cbn [fst snd w_clock w_table]; try done;
    try (by split); try (by left).
  all: try (by split; [|apply oldest_row_lease]).
  all: try (pose proof (of_ip_spec underlayIP (w_table w)) as H; destruct (head _) as [r|]; simpl in *).
  all: try done.
  all: try (split; [done|]; destruct_and?; eauto using list_elem_of_fmap_2).
  all: try (unfold lists; reflexivity).
  - by intros Hf.
  - by intros e [= <-].
Qed.
