(* ===== verification/History.v ===== *)
(** * The lease table's history

    Several programs use the table at once. A [traced] table carries the states it
    has been in, so that what a theorem says of a moment is said of a moment of the
    run: between [w] and [w'] there are exactly the states that [w'] has recorded
    since [w]. *)

From S2P Require Import Prelude Store.

Record traced := { current :> store_world; past : list store_world }.

(** A step that changes the table's state to one related by [R], and records it. *)
Definition recorded (R : store_world -> store_world -> Prop) (w w' : traced) : Prop :=
  R w w' /\ past w' = current w :: past w.

(** The states of a history, the latest first. *)
Definition states (w : traced) : list store_world := current w :: past w.

Lemma recorded_mono (R R' : store_world -> store_world -> Prop) w w' :
  (forall v v', R v v' -> R' v v') -> rtc (recorded R) w w' -> rtc (recorded R') w w'.
Proof. intros H. apply rtc_subrel. intros w1 w2 [HR E]. split; auto. Qed.

(** The earlier state is one of those the later one has recorded. *)
Lemma recorded_states R w w' : rtc (recorded R) w w' -> states w `suffix_of` states w'.
Proof.
  induction 1 as [|w w1 w' [_ E] _ IH]; [done|].
  etransitivity; [|exact IH]. unfold states. rewrite E. by exists [current w1].
Qed.

(** No history leads back: a moment between [w] and [w] is [w]. *)
Lemma recorded_loop R w w1 : rtc (recorded R) w w1 -> rtc (recorded R) w1 w -> w1 = w.
Proof.
  intros H%recorded_states H1%recorded_states.
  assert (states w1 = states w) as E.
  { destruct H as [vs E], H1 as [vs' E']. rewrite E, app_assoc in E'.
    apply (f_equal length) in E' as Hl. rewrite !length_app in Hl.
    destruct vs; [done|]. simpl in Hl. lia. }
  destruct w, w1. by injection E as -> ->.
Qed.

Lemma recorded_keeps (R : store_world -> store_world -> Prop) (P : store_world -> Prop) w w' :
  (forall v v', R v v' -> P v -> P v') -> rtc (recorded R) w w' -> P w -> P w'.
Proof. intros HR. induction 1 as [|w w1 w' [H _] _ IH]; eauto. Qed.
