(* ===== verification/Database.v ===== *)
(** * The lease database (src/controller/database)

    [DatabaseHandler] turns the calls of the lease controller into SQL. Its
    methods are programs over the connection [dbE]; [store_spec] is the contract
    the lease controller relies on, in terms of the rows of the table, and
    [DatabaseHandler_refines] shows that the methods keep it on any server that
    keeps [SqlLaws] and is MySQL or Postgres. [TryMigrations] is the start-up
    loop of migrator.go. *)

From Stdlib Require Import ZArith Lia Ascii.
From S2P Require Import Prelude GoFmt Types Sql Store.

(** ** SQL text *)

Definition timestampForDriver (driverName : string) : result string :=
  if decide (driverName = MySQL) then Ok mysqlTimeNow
  else if decide (driverName = Postgres) then Ok postgresTimeNow
  else Err (Errorf ("database type " +:+ driverName +:+ " is not supported")).

(** [rows.Scan] into [string] variables and into an integer. The driver delivers
    the varchar columns as text and the bigint column as an integer. *)
Definition value_string (v : value) : string :=
  match v with VStr s => s | VInt n => itoa n end.

Definition Scan_strings (n : nat) (vals : list value) : result (list string) :=
  if Nat.eqb (length vals) n then Ok (map value_string vals)
  else Err (Errorf ("sql: expected " +:+ itoa (Z.of_nat (length vals))
                    +:+ " destination arguments in Scan, not " +:+ itoa (Z.of_nat n))).

Definition Scan_int64 (vals : list value) : result Z :=
  match vals with
  | [VInt n] => Ok n
  | _ => Err (Errorf "sql: Scan error: converting driver.Value type to a int64")
  end.

(** ** The methods *)

Module DatabaseHandler.
Section Handler.
Context (driver : string).

Definition NewDatabaseHandler_migrations : list Migration :=
  [{| Id := "1"; Up := [createSubnetTable driver]; Down := ["DROP TABLE subnets"] |}].

Definition CheckDatabase : prog dbE (result unit) :=
  r <- trigger (QueryRow (Text SelectOne) []) ;;
  match r with
  | Err e => Ret (Err e)
  | Ok vals =>
      match Scan_int64 vals with Err e => Ret (Err e) | Ok _ => Ret (Ok tt) end
  end.

Definition lease_columns : list column := [underlay_ip; overlay_subnet; overlay_hwaddr].

Fixpoint scan_loop (leases : list Lease) (scans : list (result (list value)))
    : result (list Lease) :=
  match scans with
  | [] => Ok leases
  | Err e :: _ => Err (wrap "parsing result" e)
  | Ok vals :: scans' =>
      match Scan_strings 3 vals with
      | Err e => Err (wrap "parsing result" e)
      | Ok [ip; subnet; hw] =>
          scan_loop (leases ++ [{| UnderlayIP := ip; OverlaySubnet := subnet;
                                   OverlayHardwareAddr := hw |}]) scans'
      | Ok _ => Ok leases
      end
  end.

Definition rowsToLeases (rows : sql_rows) : result (list Lease) :=
  match scan_loop [] (rows_scans rows) with
  | Err e => Err e
  | Ok leases =>
      match rows_err rows with
      | Some e => Err (wrap "getting next row" e)
      | None => Ok leases
      end
  end.

(** [d.db.Query(q)] followed by [rowsToLeases], both errors under one prefix. *)
Definition query_leases (w : option condition) (prefix : string) : prog dbE (result (list Lease)) :=
  try rows <- trigger (Query (Text (Select lease_columns w false)) []) catch wrap prefix ;;
  match rowsToLeases rows with
  | Err e => Ret (Err (wrap prefix e))
  | Ok leases => Ret (Ok leases)
  end.

Definition All : prog dbE (result (list Lease)) :=
  query_leases None "selecting all subnets".

Definition AllSingleIPSubnets : prog dbE (result (list Lease)) :=
  query_leases (Some (Like overlay_subnet "%/32")) "selecting all single ip subnets".

Definition AllBlockSubnets : prog dbE (result (list Lease)) :=
  query_leases (Some (NotLike overlay_subnet "%/32")) "selecting all block subnets".

Definition AllActive (duration : Z) : prog dbE (result (list Lease)) :=
  match timestampForDriver driver with
  | Err e => Ret (Err e)
  | Ok timestamp =>
      query_leases (Some (RenewedAfter duration timestamp)) "selecting all active subnets"
  end.

(** [QueryRow(...).Scan(&underlayIP, &overlaySubnet, &overlayHWAddr)] *)
Definition scan_oldest (r : result (list value)) : result (option Lease) :=
  match match r with Err e => Err e | Ok vals => Scan_strings 3 vals end with
  | Err ErrNoRows => Ok None
  | Err e => Err (wrap "scan result" e)
  | Ok [ip; subnet; hw] =>
      Ok (Some {| UnderlayIP := ip; OverlaySubnet := subnet; OverlayHardwareAddr := hw |})
  | Ok _ => Ok None
  end.

Definition OldestExpiredBlockSubnet (expirationTime : Z) : prog dbE (result (option Lease)) :=
  match timestampForDriver driver with
  | Err e => Ret (Err e)
  | Ok timestamp =>
      r <- trigger (QueryRow (Text (Select lease_columns
             (Some (And (NotLike overlay_subnet "%/32") (RenewedBefore expirationTime timestamp)))
             true)) []) ;;
      Ret (scan_oldest r)
  end.

Definition OldestExpiredSingleIP (expirationTime : Z) : prog dbE (result (option Lease)) :=
  match timestampForDriver driver with
  | Err e => Ret (Err e)
  | Ok timestamp =>
      r <- trigger (QueryRow (Text (Select lease_columns
             (Some (And (Like overlay_subnet "%/32") (RenewedBefore expirationTime timestamp)))
             true)) []) ;;
      Ret (scan_oldest r)
  end.

Definition Migrate : prog dbE (result Z) :=
  try numMigrations <- trigger (MigrateExec driver NewDatabaseHandler_migrations)
    catch wrap "migrating" ;;
  Ret (Ok numMigrations).

Definition AddEntry (lease : Lease) : prog dbE (result unit) :=
  match timestampForDriver driver with
  | Err e => Ret (Err e)
  | Ok timestamp =>
      try _ <- trigger (Exec (Rebind (Insert timestamp))
                 [UnderlayIP lease; OverlaySubnet lease; OverlayHardwareAddr lease])
        catch wrap "adding entry" ;;
      Ret (Ok tt)
  end.

Definition DeleteEntry (underlayIP : string) : prog dbE (result unit) :=
  try deleteRows <- trigger (Exec (Rebind (Delete (EqArg underlay_ip))) [underlayIP])
    catch wrap "deleting entry" ;;
  match deleteRows with
  | Err e => Ret (Err (wrap "parse result" e))
  | Ok rowsAffected =>
      if rowsAffected =? 0 then Ret (Err RecordNotAffectedError) else Ret (Ok tt)
  end.

Definition LeaseForUnderlayIP (underlayIP : string) : prog dbE (result (option Lease)) :=
  r <- trigger (QueryRow (Rebind (Select [overlay_subnet; overlay_hwaddr]
         (Some (EqArg underlay_ip)) false)) [underlayIP]) ;;
  Ret match match r with Err e => Err e | Ok vals => Scan_strings 2 vals end with
      | Err ErrNoRows => Ok None
      | Err e => Err e
      | Ok [subnet; hw] =>
          Ok (Some {| UnderlayIP := underlayIP; OverlaySubnet := subnet;
                      OverlayHardwareAddr := hw |})
      | Ok _ => Ok None
      end.

Definition RenewLeaseForUnderlayIP (underlayIP : string) : prog dbE (result unit) :=
  match timestampForDriver driver with
  | Err e => Ret (Err e)
  | Ok timestamp =>
      try _ <- trigger (Exec (Rebind (UpdateRenewed timestamp (EqArg underlay_ip))) [underlayIP])
        catch wrap "renewing lease" ;;
      Ret (Ok tt)
  end.

Definition LastRenewedAtForUnderlayIP (underlayIP : string) : prog dbE (result Z) :=
  r <- trigger (QueryRow (Rebind (Select [last_renewed_at]
         (Some (EqArg underlay_ip)) false)) [underlayIP]) ;;
  Ret match r with Err e => Err e | Ok vals => Scan_int64 vals end.

End Handler.
End DatabaseHandler.

Import DatabaseHandler (lease_columns).

(** The texts of the statements, as database_handler.go spells them. *)
Example statement_texts :
  sql_text (Select lease_columns None false)
    = "SELECT underlay_ip, overlay_subnet, overlay_hwaddr FROM subnets" /\
  sql_text (Select lease_columns (Some (Like overlay_subnet "%/32")) false)
    = "SELECT underlay_ip, overlay_subnet, overlay_hwaddr FROM subnets WHERE overlay_subnet LIKE '%/32'" /\
  sql_text (Select lease_columns (Some (RenewedAfter 60 mysqlTimeNow)) false)
    = "SELECT underlay_ip, overlay_subnet, overlay_hwaddr FROM subnets WHERE last_renewed_at + 60 > UNIX_TIMESTAMP()" /\
  sql_text (Select lease_columns
      (Some (And (NotLike overlay_subnet "%/32") (RenewedBefore 60 mysqlTimeNow))) true)
    = "SELECT underlay_ip, overlay_subnet, overlay_hwaddr FROM subnets WHERE overlay_subnet NOT LIKE '%/32' AND last_renewed_at + 60 <= UNIX_TIMESTAMP() ORDER BY last_renewed_at ASC LIMIT 1" /\
  sql_text (Insert mysqlTimeNow)
    = "INSERT INTO subnets (underlay_ip, overlay_subnet, overlay_hwaddr, last_renewed_at) VALUES (?, ?, ?, UNIX_TIMESTAMP())" /\
  sql_text (Delete (EqArg underlay_ip)) = "DELETE FROM subnets WHERE underlay_ip = ?" /\
  sql_text (UpdateRenewed mysqlTimeNow (EqArg underlay_ip))
    = "UPDATE subnets SET last_renewed_at = UNIX_TIMESTAMP() WHERE underlay_ip = ?" /\
  sql_text (Select [last_renewed_at] (Some (EqArg underlay_ip)) false)
    = "SELECT last_renewed_at FROM subnets WHERE underlay_ip = ?".
Proof. repeat split. Qed.

(** ** The implementation keeps the contract *)

Definition DatabaseHandler_impl (driver : string) {X} (e : storeE X) : prog dbE X :=
  match e with
  | AddEntry l => DatabaseHandler.AddEntry driver l
  | DeleteEntry ip => DatabaseHandler.DeleteEntry ip
  | LeaseForUnderlayIP ip => DatabaseHandler.LeaseForUnderlayIP ip
  | LastRenewedAtForUnderlayIP ip => DatabaseHandler.LastRenewedAtForUnderlayIP ip
  | RenewLeaseForUnderlayIP ip => DatabaseHandler.RenewLeaseForUnderlayIP driver ip
  | All => DatabaseHandler.All
  | AllBlockSubnets => DatabaseHandler.AllBlockSubnets
  | AllSingleIPSubnets => DatabaseHandler.AllSingleIPSubnets
  | AllActive d => DatabaseHandler.AllActive driver d
  | OldestExpiredBlockSubnet d => DatabaseHandler.OldestExpiredBlockSubnet driver d
  | OldestExpiredSingleIP d => DatabaseHandler.OldestExpiredSingleIP driver d
  end.

Definition supported (driver : string) : Prop := driver = MySQL \/ driver = Postgres.

Global Instance supported_dec driver : Decision (supported driver).
Proof. unfold supported. apply _. Defined.

Lemma timestamp_supported driver :
  supported driver ->
  exists ts, timestampForDriver driver = Ok ts /\ now_expression driver ts = true.
Proof. intros [-> | ->]; eexists; split; reflexivity. Qed.

Lemma rebind_supported driver s :
  supported driver -> stmt_times driver s = true -> understood driver (Rebind s) = true.
Proof.
  intros Hd Hs. unfold understood. simpl. rewrite Hs. simpl. by apply bool_decide_eq_true.
Qed.

Lemma scan_loop_ok p acc :
  DatabaseHandler.scan_loop acc (map (fun r => Ok (project lease_columns r)) p)
  = Ok (acc ++ map lease_of p).
Proof.
  revert acc. induction p as [|r p IH]; intros acc; simpl; [by rewrite app_nil_r|].
  rewrite IH. rewrite <- app_assoc. done.
Qed.

Lemma scan_loop_Ok_inv scans acc ls :
  DatabaseHandler.scan_loop acc scans = Ok ls -> Forall (fun v => exists vs, v = Ok vs /\ length vs = 3%nat) scans.
Proof.
  revert acc. induction scans as [|[vs|e] scans IH]; intros acc; simpl; [done| |done].
  unfold Scan_strings. destruct (Nat.eqb (length vs) 3) eqn:Hl; [|done].
  apply Nat.eqb_eq in Hl. destruct vs as [|a [|b [|c [|]]]]; try done. simpl. eauto.
Qed.

Lemma rowsToLeases_lists t now args w rs ls :
  (forall cols w' oldest rs', Select lease_columns w false = Select cols w' oldest ->
    Ok rs = Ok rs' -> rows_err rs' = None -> Forall is_Ok (rows_scans rs') ->
    exists p, Permutation p (selected now args w' t) /\
      rows_scans rs' = map (fun r => Ok (project cols r)) p) ->
  DatabaseHandler.rowsToLeases rs = Ok ls ->
  Permutation ls (map lease_of (selected now args w t)).
Proof.
  intros Hspec. unfold DatabaseHandler.rowsToLeases.
  destruct (DatabaseHandler.scan_loop [] (rows_scans rs)) as [ls'|] eqn:Hl; [|done].
  destruct (rows_err rs) eqn:He; [done|]. intros [= ->].
  assert (Forall is_Ok (rows_scans rs)) as Hok.
  { eapply Forall_impl; [by eapply scan_loop_Ok_inv|]. intros ? (? & -> & _). done. }
  destruct (Hspec _ _ _ _ eq_refl eq_refl He Hok) as (p & Hp & Hs).
  rewrite Hs, scan_loop_ok in Hl. injection Hl as <-. simpl. by apply Permutation_map.
Qed.

Lemma query_leases_lists {S} `{SqlLaws S} w prefix s :
  understood (sql_driver s) (Text (Select lease_columns w false)) = true ->
  let '(s', x) := run sql_handle (DatabaseHandler.query_leases w prefix) s in
  sql_table s' = sql_table s /\
  lists (selected (sql_clock s') [] w (sql_table s)) x.
Proof.
  intros Hu. unfold DatabaseHandler.query_leases. step_run.
  pose proof (sql_answers _ (Query (Text (Select lease_columns w false)) []) s Hu) as Hspec.
  destruct (sql_handle _ _ s) as [s' [rs|e]]; simpl in *; destruct Hspec as [Ht Hrs]; [|done].
  destruct (DatabaseHandler.rowsToLeases rs) as [ls|e] eqn:Hl; simpl; [|done].
  split; [done|]. eapply rowsToLeases_lists; [|done]. exact Hrs.
Qed.

Section Refinement.
Context {S : Type} `{SqlLaws S}.

(** The contract of one call, for the implementation. *)
Definition keeps_contract {X} (e : storeE X) : Prop := forall s,
  supported (sql_driver s) ->
  let '(s', x) := run sql_handle (DatabaseHandler_impl (sql_driver s) e) s in
  store_spec (sql_clock s') e (sql_table s) (sql_table s') x.

(** Runs the one SQL call of a method and puts its specification in the context. *)
Ltac one_call q s Hu :=
  pose proof (sql_answers _ q s Hu) as Hspec; cbn [fst snd] in Hspec;
  destruct (sql_handle _ q s) as [s' x]; cbn [sql_spec query_stmt fst snd] in Hspec;
  cbn [run fst snd].

Lemma AddEntry_contract l : keeps_contract (AddEntry l).
Proof.
  intros s Hd. destruct (timestamp_supported _ Hd) as (ts & Hts & Hnow). simpl.
  unfold DatabaseHandler.AddEntry. rewrite Hts. step_run.
  one_call (Exec (Rebind (Insert ts)) [UnderlayIP l; OverlaySubnet l; OverlayHardwareAddr l]) s
    (rebind_supported _ (Insert ts) Hd Hnow).
  cbn [exec_sem] in Hspec. unfold lease_fresh, lease_row. destruct x as [a|e]; simpl.
  - destruct Hspec as (n & Hex & _). case_decide as Ha; [|done]. injection Hex as <- _.
    by rewrite admits_fresh in Ha by done.
  - destruct Hspec as [->|(n & Hex)]; [by left|].
    case_decide as Ha; [|done]. injection Hex as <- _. rewrite admits_fresh in Ha by done. by right.
Qed.

Lemma matches_ip now ip r :
  matches now [ip] (EqArg underlay_ip) r = bool_decide (row_underlay_ip r = ip).
Proof. done. Qed.

Lemma delete_sem driver now ip t :
  exists n, exec_sem driver now (Delete (EqArg underlay_ip)) [ip] t = Some (drop_ip ip t, n) /\
    (n = 0 <-> ip ∉ map row_underlay_ip t).
Proof.
  eexists; split; [cbn [exec_sem]; repeat f_equal|].
  - apply list_filter_iff. intros r. apply bool_decide_eq_false.
  - induction t as [|r t IH]; [split; [set_solver|done]|].
    rewrite filter_cons, matches_ip. cbn [map]. rewrite elem_of_cons.
    case_decide as Hm; rewrite bool_decide_eq_true in Hm.
    + split; [cbn [length]; lia|]. intros []. by left.
    + rewrite IH. naive_solver.
Qed.

Lemma DeleteEntry_contract ip : keeps_contract (DeleteEntry ip).
Proof.
  intros s Hd. simpl. unfold DatabaseHandler.DeleteEntry. step_run.
  one_call (Exec (Rebind (Delete (EqArg underlay_ip))) [ip]) s
    (rebind_supported _ (Delete (EqArg underlay_ip)) Hd eq_refl).
  destruct (delete_sem (sql_driver s) (sql_clock s') ip (sql_table s)) as (k & Hk & Hz).
  rewrite Hk in Hspec. destruct x as [[m|e]|e].
  - destruct Hspec as (n & Heq & Hcount). injection Heq as Ht Hn.
    rewrite (Hcount m _ eq_refl eq_refl), <- Hn.
    destruct (k =? 0) eqn:Hm; simpl.
    + apply Z.eqb_eq, Hz in Hm. split; [done|]. rewrite <- Ht. by apply drop_ip_notin.
    + apply Z.eqb_neq in Hm. split; [|done]. apply dec_stable. by intros ?%Hz.
  - destruct Hspec as (n & [= Ht _] & _). by right.
  - simpl. destruct Hspec as [Ht|(n & [= Ht _])]; [by left|by right].
Qed.

Lemma RenewLeaseForUnderlayIP_contract ip : keeps_contract (RenewLeaseForUnderlayIP ip).
Proof.
  intros s Hd. destruct (timestamp_supported _ Hd) as (ts & Hts & Hnow). simpl.
  unfold DatabaseHandler.RenewLeaseForUnderlayIP. rewrite Hts. step_run.
  assert (stmt_times (sql_driver s) (UpdateRenewed ts (EqArg underlay_ip)) = true) as Htimes
    by (simpl; by rewrite Hnow).
  one_call (Exec (Rebind (UpdateRenewed ts (EqArg underlay_ip))) [ip]) s
    (rebind_supported _ _ Hd Htimes).
  assert (map (fun r => if matches (sql_clock s') [ip] (EqArg underlay_ip) r
                        then renew_row (sql_clock s') r else r) (sql_table s)
          = renew_ip (sql_clock s') ip (sql_table s)) as Hmap.
  { apply map_ext. intros r. rewrite matches_ip. by case_bool_decide; case_decide. }
  cbn [exec_sem] in Hspec. rewrite Hmap in Hspec. destruct x as [a|e]; simpl.
  - destruct Hspec as (n & [= <- _] & _). done.
  - destruct Hspec as [->|(n & [= <- _])]; [by left|by right].
Qed.

Lemma selected_ip now ip t r :
  r ∈ selected now [ip] (Some (EqArg underlay_ip)) t <-> row_underlay_ip r = ip /\ r ∈ t.
Proof.
  unfold selected. rewrite list_elem_of_filter. cbn [matches_opt].
  by rewrite matches_ip, bool_decide_eq_true.
Qed.

Lemma LeaseForUnderlayIP_contract ip : keeps_contract (LeaseForUnderlayIP ip).
Proof.
  intros s Hd. simpl. unfold DatabaseHandler.LeaseForUnderlayIP. step_run.
  set (st := Select [overlay_subnet; overlay_hwaddr] (Some (EqArg underlay_ip)) false).
  one_call (QueryRow (Rebind st) [ip]) s (rebind_supported _ st Hd eq_refl).
  destruct Hspec as [Ht Hspec]. split; [done|]. destruct x as [vals|e].
  - destruct Hspec as (r & [[<- Hr]%selected_ip _] & ->). simpl. split; [|done].
    by apply (list_elem_of_fmap_2 lease_of) in Hr.
  - destruct e; try done. intros (r & -> & Hr)%list_elem_of_fmap.
    eapply not_elem_of_nil. rewrite <- Hspec. by apply selected_ip.
Qed.

Lemma LastRenewedAtForUnderlayIP_contract ip : keeps_contract (LastRenewedAtForUnderlayIP ip).
Proof.
  intros s Hd. simpl. unfold DatabaseHandler.LastRenewedAtForUnderlayIP. step_run.
  set (st := Select [last_renewed_at] (Some (EqArg underlay_ip)) false).
  one_call (QueryRow (Rebind st) [ip]) s (rebind_supported _ st Hd eq_refl).
  destruct Hspec as [Ht Hspec]. split; [done|]. destruct x as [vals|e]; [|done].
  destruct Hspec as (r & [[<- Hr]%selected_ip _] & ->). simpl. eauto.
Qed.

(** The listing methods: a query without placeholders, on the rows [P] selects. *)
Lemma listing_contract w prefix (P : row -> Prop) `{!forall r, Decision (P r)} s :
  understood (sql_driver s) (Text (Select lease_columns w false)) = true ->
  let '(s', x) := run sql_handle (DatabaseHandler.query_leases w prefix) s in
  (forall r, matches_opt (sql_clock s') [] w r = true <-> P r) ->
  sql_table s' = sql_table s /\ lists (filter P (sql_table s)) x.
Proof.
  intros Hu. pose proof (query_leases_lists w prefix s Hu) as Hl.
  destruct (run _ _ s) as [s' x]. intros HP. destruct Hl as [Ht Hl]. split; [done|].
  unfold selected in Hl. by rewrite (list_filter_iff _ _ _ HP) in Hl.
Qed.

Lemma All_contract : keeps_contract All.
Proof.
  intros s Hd. cbn [DatabaseHandler_impl store_spec]. unfold DatabaseHandler.All.
  pose proof (listing_contract None "selecting all subnets" (fun _ => True) s eq_refl) as Hl.
  destruct (run _ _ s) as [s' x]. destruct Hl as [Ht Hl]; [done|].
  split; [done|]. by rewrite list_filter_all in Hl.
Qed.

Lemma AllBlockSubnets_contract : keeps_contract AllBlockSubnets.
Proof.
  intros s Hd. cbn [DatabaseHandler_impl store_spec]. unfold DatabaseHandler.AllBlockSubnets.
  pose proof (listing_contract (Some (NotLike overlay_subnet "%/32"))
    "selecting all block subnets" (fun r => single_ip r = false) s eq_refl) as Hl.
  destruct (run _ _ s) as [s' x]. apply Hl. intros r. apply negb_true_iff.
Qed.

Lemma AllSingleIPSubnets_contract : keeps_contract AllSingleIPSubnets.
Proof.
  intros s Hd. cbn [DatabaseHandler_impl store_spec]. unfold DatabaseHandler.AllSingleIPSubnets.
  pose proof (listing_contract (Some (Like overlay_subnet "%/32"))
    "selecting all single ip subnets" (fun r => single_ip r = true) s eq_refl) as Hl.
  destruct (run _ _ s) as [s' x]. by apply Hl.
Qed.

Lemma AllActive_contract d : keeps_contract (AllActive d).
Proof.
  intros s Hd. destruct (timestamp_supported _ Hd) as (ts & Hts & Hnow).
  cbn [DatabaseHandler_impl store_spec].
  unfold DatabaseHandler.AllActive. rewrite Hts.
  set (w := Some (RenewedAfter d ts)).
  assert (understood (sql_driver s) (Text (Select lease_columns w false)) = true) as Hu
    by (unfold understood; simpl; by rewrite Hnow).
  pose proof (query_leases_lists w "selecting all active subnets" s Hu) as Hl.
  destruct (run _ _ s) as [s' x]. destruct Hl as [Ht Hl]. split; [done|].
  rewrite (list_filter_iff _ (fun r => matches_opt (sql_clock s') [] w r = true)); [done|].
  intros r. unfold expired. simpl. rewrite Z.leb_gt, Z.ltb_lt. done.
Qed.

(** The two [OldestExpired] methods, on the kind of lease [kind] selects. *)
Lemma oldest_contract kind ts d (P : row -> Prop) `{!forall r, Decision (P r)} s :
  let st := Select lease_columns (Some (And kind (RenewedBefore d ts))) true in
  understood (sql_driver s) (Text st) = true ->
  (forall now r, matches now [] kind r = true <-> P r) ->
  let '(s', x) := sql_handle _ (QueryRow (Text st) []) s in
  sql_table s' = sql_table s /\
  match DatabaseHandler.scan_oldest x with
  | Ok o => oldest_lease
      (filter (fun r => P r /\ expired (sql_clock s') d r = true) (sql_table s)) o
  | Err _ => True
  end.
Proof.
  intros st Hu HP. one_call (QueryRow (Text st) []) s Hu.
  destruct Hspec as [Ht Hspec]. split; [done|]. cbn in Hspec.
  rewrite (list_filter_iff _ (fun r => matches_opt (sql_clock s') []
    (Some (And kind (RenewedBefore d ts))) r = true)).
  2:{ intros r. simpl. rewrite andb_true_iff, HP. done. }
  unfold selected in Hspec. unfold DatabaseHandler.scan_oldest. destruct x as [vals|e].
  - destruct Hspec as (r & [Hr Hmin] & ->). simpl. exists r. auto.
  - by destruct e.
Qed.

Lemma OldestExpiredBlockSubnet_contract d : keeps_contract (OldestExpiredBlockSubnet d).
Proof.
  intros s Hd. destruct (timestamp_supported _ Hd) as (ts & Hts & Hnow).
  cbn [DatabaseHandler_impl store_spec].
  unfold DatabaseHandler.OldestExpiredBlockSubnet. rewrite Hts. step_run.
  pose proof (oldest_contract (NotLike overlay_subnet "%/32") ts d
    (fun r => single_ip r = false) s) as Ho. simpl in Ho.
  destruct (sql_handle _ _ s) as [s' x]. simpl. apply Ho.
  - unfold understood. simpl. by rewrite Hnow.
  - intros _ r. apply negb_true_iff.
Qed.

Lemma OldestExpiredSingleIP_contract d : keeps_contract (OldestExpiredSingleIP d).
Proof.
  intros s Hd. destruct (timestamp_supported _ Hd) as (ts & Hts & Hnow).
  cbn [DatabaseHandler_impl store_spec].
  unfold DatabaseHandler.OldestExpiredSingleIP. rewrite Hts. step_run.
  pose proof (oldest_contract (Like overlay_subnet "%/32") ts d
    (fun r => single_ip r = true) s) as Ho. simpl in Ho.
  destruct (sql_handle _ _ s) as [s' x]. simpl. apply Ho.
  - unfold understood. simpl. by rewrite Hnow.
  - done.
Qed.

Lemma DatabaseHandler_contract X (e : storeE X) : keeps_contract e.
Proof.
  destruct e.
  - apply AddEntry_contract.
  - apply DeleteEntry_contract.
  - apply LeaseForUnderlayIP_contract.
  - apply LastRenewedAtForUnderlayIP_contract.
  - apply RenewLeaseForUnderlayIP_contract.
  - apply All_contract.
  - apply AllBlockSubnets_contract.
  - apply AllSingleIPSubnets_contract.
  - apply AllActive_contract.
  - apply OldestExpiredBlockSubnet_contract.
  - apply OldestExpiredSingleIP_contract.
Qed.

Lemma run_clock_monotone {A} (p : prog dbE A) s :
  sql_clock s <= sql_clock (fst (run sql_handle p s)).
Proof.
  revert s. induction p as [a|X e k IH]; intros s; simpl; [lia|].
  pose proof (sql_clock_monotone _ e s) as Hm.
  destruct (sql_handle X e s) as [s' x]. simpl in Hm. specialize (IH x s'). lia.
Qed.

Lemma run_driver_fixed {A} (p : prog dbE A) s :
  sql_driver (fst (run sql_handle p s)) = sql_driver s.
Proof.
  revert s. induction p as [a|X e k IH]; intros s; simpl; [done|].
  pose proof (sql_driver_fixed _ e s) as Hm.
  destruct (sql_handle X e s) as [s' x]. simpl in Hm. by rewrite IH.
Qed.

#[export] Instance database_store : LeaseStore S := {
  store_handle := fun X e s => run sql_handle (DatabaseHandler_impl (sql_driver s) e) s;
  store_ok := fun s => supported (sql_driver s);
  store_table := sql_table;
  store_clock := sql_clock
}.

#[export] Instance database_store_laws : StoreLaws S.
Proof.
  split; simpl.
  - intros X e s. by rewrite run_driver_fixed.
  - intros X e s. apply run_clock_monotone.
  - intros X e s Hd. pose proof (DatabaseHandler_contract X e s Hd) as Hc.
    by destruct (run _ _ s).
Qed.

End Refinement.

(** What the contract proves of a program holds of its SQL. *)
Lemma interp_refines {S A} `{SqlLaws S} (p : prog storeE A) (s : S) Q :
  supported (sql_driver s) ->
  wp store_step p {| w_clock := sql_clock s; w_table := sql_table s |} Q ->
  let '(s', a) := run sql_handle (interp (@DatabaseHandler_impl (sql_driver s)) p) s in
  Q {| w_clock := sql_clock s'; w_table := sql_table s' |} a.
Proof.
  intros Hd Hwp. rewrite run_interp.
  set (abs := fun s0 : S => {| w_clock := sql_clock s0; w_table := sql_table s0 |}).
  destruct (wp_sound store_step
    (fun X e => run sql_handle (DatabaseHandler_impl (sql_driver s) e))
    (fun s0 => sql_driver s0 = sql_driver s) abs p s Q) as [HQ _]; [|done|done|by destruct (run _ p s)].
  intros X e s0 Hs0. split; [by rewrite run_driver_fixed|].
  split; [apply run_clock_monotone|].
  pose proof (DatabaseHandler_contract X e s0) as Hc. rewrite Hs0 in Hc.
  specialize (Hc Hd). simpl. by destruct (run _ _ s0).
Qed.

(** C6. [DatabaseHandler] implements the contract of the [databaseHandler]
    interface. Whatever follows from the contract for a program of the lease
    controller (any sequence of calls, each chosen from the answers before it)
    holds when every call is the SQL of database_handler.go, on any MySQL or
    Postgres server that keeps the laws of its statements, connection failures
    included. *)
Theorem DatabaseHandler_refines {S A} `{SqlLaws S} (p : prog storeE A) (s : S) Q :
  supported (sql_driver s) ->
  wp store_step p {| w_clock := sql_clock s; w_table := sql_table s |} Q ->
  let '(s', a) := run sql_handle (interp (@DatabaseHandler_impl (sql_driver s)) p) s in
  Q {| w_clock := sql_clock s'; w_table := sql_table s' |} a.
Proof. exact (interp_refines p s Q). Qed.

Definition example_server (rows : list row) (faults : list fault) : memory :=
  {| mem_driver := Postgres; mem_rows := rows; mem_clock := 1000; mem_faults := faults |}.

Definition example_lease : Lease :=
  {| UnderlayIP := "10.0.0.1"; OverlaySubnet := "10.255.1.0/24";
     OverlayHardwareAddr := "ee:ee:0a:ff:01:00" |}.

(** On a server that fails the insertion after it took effect, the program that
    adds a lease and reads it back ends with the lease in the table. *)
Lemma DatabaseHandler_refines_witness :
  let s := example_server [] [LostAfter] in
  let p := r <- trigger (AddEntry example_lease) ;;
           l <- trigger (LeaseForUnderlayIP "10.0.0.1") ;; Ret (r, l) in
  let '(s', (r, l)) := run sql_handle (interp (@DatabaseHandler_impl Postgres) p) s in
  r = Err (Errorf "adding entry: connection lost") /\ l = Ok (Some example_lease) /\
  forall x, l = Ok (Some x) -> x ∈ map lease_of (sql_table s').
Proof.
  pose proof (DatabaseHandler_refines
    (r <- trigger (AddEntry example_lease) ;;
     l <- trigger (LeaseForUnderlayIP "10.0.0.1") ;; Ret (r, l))
    (example_server [] [LostAfter])
    (fun w '(r, l) => forall x, l = Ok (Some x) -> x ∈ map lease_of (w_table w))
    (or_intror eq_refl)) as Href.
  lazymatch type of Href with ?P -> _ => assert P as Hwp end.
  { intros w1 r1 _ w2 l2 (_ & Ht & Hl) x ->. destruct Hl as [Hin _]. by rewrite Ht. }
  specialize (Href Hwp). split; [vm_compute; reflexivity|]. split; [vm_compute; reflexivity|].
  exact Href.
Defined.

(** No call of the lease controller breaks the uniqueness of underlay IP,
    overlay subnet and hardware address in the table, whether it succeeds or
    fails half way. *)
Theorem database_keeps_unique {S X} `{SqlLaws S} (e : storeE X) (s : S) :
  supported (sql_driver s) -> unique_table (sql_table s) ->
  unique_table (sql_table (fst (run sql_handle (DatabaseHandler_impl (sql_driver s) e) s))).
Proof.
  intros Hd Hu. pose proof (DatabaseHandler_contract X e s Hd) as Hc.
  pose proof (run_clock_monotone (DatabaseHandler_impl (sql_driver s) e) s) as Hm.
  destruct (run _ _ s) as [s' x]. simpl in *.
  exact (store_step_unique X e
    {| w_clock := sql_clock s; w_table := sql_table s |}
    {| w_clock := sql_clock s'; w_table := sql_table s' |} x (conj Hm Hc) Hu).
Qed.

Lemma database_keeps_unique_witness :
  let s := example_server [] [NoFault] in
  unique_table (sql_table (fst (run sql_handle
    (DatabaseHandler_impl (sql_driver s) (AddEntry example_lease)) s))).
Proof.
  refine (database_keeps_unique (AddEntry example_lease) (example_server [] [NoFault]) _ _).
  - by right.
  - repeat split; apply NoDup_nil_2.
Defined.

(** ** Migrator.TryMigrations *)

Inductive migratorE : Type -> Type :=
| DatabaseMigrator_Migrate : migratorE (result Z)
| Sleep : migratorE unit.

(** [fmt.Errorf] on the last error, which is nil when no attempt is made. *)
Definition creating_table (err : option error) : error :=
  match err with
  | Some e => wrap "creating table" e
  | None => Errorf "creating table: %!s(<nil>)"
  end.

(** [attempts] is what is left of [MaxMigrationAttempts - nErrors]. *)
Fixpoint try_loop (attempts : nat) (err : option error) : prog migratorE (result unit) :=
  match attempts with
  | O => Ret (Err (creating_table err))
  | S attempts' =>
      r <- trigger DatabaseMigrator_Migrate ;;
      match r with
      | Ok n => Ret (Ok tt)
      | Err e => _ <- trigger Sleep ;; try_loop attempts' (Some e)
      end
  end.

Definition TryMigrations (MaxMigrationAttempts : Z) : prog migratorE (result unit) :=
  try_loop (Z.to_nat MaxMigrationAttempts) None.

(** A database that gives the listed answers, then the last one for ever, and
    counts the calls. *)
Record script := { answers : nat -> result Z; migrations : nat; sleeps : nat }.

Definition script_handle : handler migratorE script := fun X e s =>
  match e in migratorE X return script * X with
  | DatabaseMigrator_Migrate =>
      ({| answers := answers s; migrations := S (migrations s); sleeps := sleeps s |},
       answers s (migrations s))
  | Sleep => ({| answers := answers s; migrations := migrations s; sleeps := S (sleeps s) |}, tt)
  end.

Lemma try_loop_success n f k err m sl x :
  (forall j, (j < k)%nat -> is_Ok (f (m + j)%nat) = false) -> f (m + k)%nat = Ok x -> (k < n)%nat ->
  run script_handle (try_loop n err) {| answers := f; migrations := m; sleeps := sl |} =
    ({| answers := f; migrations := m + k + 1; sleeps := sl + k |}, Ok tt).
Proof.
  revert k err m sl. induction n as [|n IH]; intros k err m sl Hfail Hok Hlt; [lia|].
  simpl. destruct k as [|k].
  - rewrite Nat.add_0_r in Hok. rewrite Hok. simpl.
    by rewrite !Nat.add_0_r, Nat.add_1_r.
  - pose proof (Hfail 0%nat ltac:(lia)) as H0. rewrite Nat.add_0_r in H0.
    destruct (f m) as [|e]; [done|]. simpl. rewrite (IH k).
    + f_equal. f_equal; lia.
    + intros j Hj. rewrite <- (Hfail (S j)) by lia. f_equal. f_equal. lia.
    + rewrite <- Hok. f_equal. lia.
    + lia.
Qed.

Lemma try_loop_failure n f err m sl :
  (forall j, (j < n)%nat -> is_Ok (f (m + j)%nat) = false) ->
  run script_handle (try_loop n err) {| answers := f; migrations := m; sleeps := sl |} =
    ({| answers := f; migrations := m + n; sleeps := sl + n |},
     Err (creating_table match n with
          | O => err
          | S n' => match f (m + n')%nat with Err e => Some e | Ok _ => None end
          end)).
Proof.
  revert err m sl. induction n as [|n IH]; intros err m sl Hfail; simpl.
  { by rewrite !Nat.add_0_r. }
  pose proof (Hfail 0%nat ltac:(lia)) as H0. rewrite Nat.add_0_r in H0.
  destruct (f m) as [|e] eqn:Hm; [done|]. simpl. rewrite IH.
  2:{ intros j Hj. rewrite <- (Hfail (S j)) by lia. f_equal. f_equal. lia. }
  f_equal; [f_equal; lia|]. destruct n as [|n']; [by rewrite Nat.add_0_r, Hm|].
  replace (S m + n')%nat with (m + S n')%nat by lia. done.
Qed.

Lemma find_seq_first (P : nat -> bool) m n k :
  find P (seq m n) = Some k ->
  P k = true /\ (k < m + n)%nat /\ forall j, (m <= j < k)%nat -> P j = false.
Proof.
  revert m. induction n as [|n IH]; intros m; simpl; [done|].
  destruct (P m) eqn:Hm.
  - intros [= <-]. split; [done|]. split; lia.
  - intros (Hk & Hlt & Hfirst)%IH. split; [done|]. split; [lia|]. intros j Hj.
    destruct (decide (j = m)) as [->|]; [done|]. apply Hfirst. lia.
Qed.

(** C32. [TryMigrations] returns without error exactly when one of its first
    [MaxMigrationAttempts] migrations succeeds, after the failed ones and as
    many pauses; otherwise it reports the last failure after that many
    attempts. It always returns. *)
Theorem TryMigrations_correct f max :
  match find (fun j => is_Ok (f j)) (seq 0 (Z.to_nat max)) with
  | Some k =>
      run script_handle (TryMigrations max) {| answers := f; migrations := 0; sleeps := 0 |} =
        ({| answers := f; migrations := k + 1; sleeps := k |}, Ok tt)
  | None =>
      exists err, run script_handle (TryMigrations max)
          {| answers := f; migrations := 0; sleeps := 0 |} =
        ({| answers := f; migrations := Z.to_nat max; sleeps := Z.to_nat max |},
         Err (creating_table err)) /\
      (0 < max -> exists e, f (Z.to_nat max - 1)%nat = Err e /\ err = Some e)
  end.
Proof.
  unfold TryMigrations.
  destruct (find _ _) as [k|] eqn:Hf.
  - apply find_seq_first in Hf as (Hok & Hlt & Hfirst).
    destruct (f k) as [x|] eqn:Hx; [|done]. rewrite (try_loop_success _ f k None 0 0 x); [done| |done|done].
    intros j Hj. apply Hfirst. lia.
  - assert (forall j, (j < Z.to_nat max)%nat -> is_Ok (f j) = false) as Hfail.
    { intros j Hj. apply (find_none _ _ Hf). apply in_seq. lia. }
    eexists. rewrite try_loop_failure; [|done]. split; [done|].
    intros Hmax. destruct (Z.to_nat max) as [|n] eqn:Hn; [lia|].
    specialize (Hfail n ltac:(lia)). simpl. rewrite Nat.sub_0_r.
    destruct (f n) as [|e]; [done|]. eauto.
Qed.
