(* ===== verification/LeaseFacts.v ===== *)
(** * Leases of a pool

    Which rows the two [LIKE] conditions select, the hardware address a subnet
    determines, and when a lease belongs to the configured network. *)

From Stdlib Require Import ZArith Lia Ascii.
From S2P Require Import Prelude GoFmt GoNet NetFacts HwAddr CidrPool Types Sql Store.

(** ** [LIKE '%/32'] *)

Lemma like_refl s : str_all (fun d => negb (Ascii.eqb d "%") && negb (Ascii.eqb d "_")) s = true ->
  forall t, like s t = bool_decide (t = s).
Proof.
  induction s as [|a s IH]; intros Hs t; simpl.
  - destruct t; [done|]. by rewrite bool_decide_eq_false_2.
  - simpl in Hs. apply andb_prop in Hs as [Ha Hs]. apply andb_prop in Ha as [Ha1 Ha2].
    apply negb_true_iff, Ascii.eqb_neq in Ha1, Ha2.
    assert ((match t with EmptyString => false | String d s' => Ascii.eqb a d && like s s' end)
            = bool_decide (t = String a s)) as Hgen.
    { destruct t as [|d t]; [done|]. rewrite IH by done.
      destruct (Ascii.eqb_spec a d) as [->|Hne]; simpl.
      - apply bool_decide_ext. split; [by intros ->|by intros [= ->]].
      - symmetry. apply bool_decide_eq_false_2. intros [= -> _]. done. }
    destruct a as [[] [] [] [] [] [] [] []]; first [exact Hgen | done].
Qed.

Lemma like_percent p t :
  like (String "%" p) t =
  (like p t || match t with EmptyString => false | String _ t' => like (String "%" p) t' end).
Proof. by destruct t. Qed.

Lemma like_single s : like "%/32" s = true <-> exists p, s = p +:+ "/32".
Proof.
  split.
  - induction s as [|a s IH]; rewrite like_percent, (like_refl "/32") by done.
    + done.
    + rewrite orb_true_iff, bool_decide_eq_true. intros [->|H].
      * by exists "".
      * destruct (IH H) as [p ->]. by exists (String a p).
  - intros [p ->]. induction p as [|a p IH]; rewrite like_percent.
    + by rewrite (like_refl "/32").
    + cbn [String.append]. rewrite IH. apply orb_true_r.
Qed.

Lemma cut_last_slash p q u v :
  str_all (fun d => negb (Ascii.eqb d "/")) u = true ->
  str_all (fun d => negb (Ascii.eqb d "/")) v = true ->
  p +:+ "/" +:+ u = q +:+ "/" +:+ v -> u = v.
Proof.
  assert (forall r w v, str_all (fun d => negb (Ascii.eqb d "/")) v = true ->
            v <> r +:+ String "/" w) as Habs.
  { induction r as [|a r IH]; intros w v0 Hv ->; simpl in Hv; [done|].
    apply andb_prop in Hv as [_ Hv]. by eapply IH. }
  intros Hu Hv. revert q. induction p as [|a p IH]; intros [|b q]; simpl.
  - by intros [= ->].
  - intros [= <- E]. exfalso. by eapply (Habs q v u).
  - intros [= -> E]. exfalso. symmetry in E. by eapply (Habs p u v).
  - intros [= _ E]. by eapply IH.
Qed.

(** The query for single-IP subnets selects exactly the subnets of length 32. *)
Lemma like_cidr_text b n : 0 <= n -> like "%/32" (cidr_text b n) = (n =? 32).
Proof.
  intros Hn. apply eq_true_iff_eq. rewrite like_single, Z.eqb_eq. unfold cidr_text. split.
  - intros [p E]. change "/32" with ("/" +:+ utoa 32) in E.
    apply cut_last_slash in E; [|by apply utoa_free..]. by apply utoa_inj in E.
  - intros ->. by exists (dotted b).
Qed.

(** ** The hardware address of a subnet *)

Definition vtep_addr (subnet : string) : option string :=
  match ParseCIDR subnet with
  | Err _ => None
  | Ok (vtepIP, _) =>
      match GenerateForVTEP vtepIP with
      | Err _ => None
      | Ok hwAddr => Some (HardwareAddr_String hwAddr)
      end
  end.

Lemma vtep_addr_text b n :
  v4 b -> 0 <= n <= 32 -> vtep_addr (cidr_text b n) = Some (HardwareAddr_String (238 :: 238 :: b)).
Proof.
  intros Hb Hn. unfold vtep_addr. rewrite ParseCIDR_text by done.
  unfold GenerateForVTEP. rewrite GenerateHardwareAddr4_ok by (by apply is_ipv4_prefix).
  rewrite To4_prefix; [done|apply Hb].
Qed.

Section Pool.
Context {base c m : Z} {p : CIDRPool}.
Hypothesis Hcut : cut_network base c m.
Hypothesis Hpool : pool_of base c m p.

Lemma member_vtep_addr s : IsMember p s = true -> exists hw, vtep_addr s = Some hw.
Proof.
  intros (n & i & k & -> & Hi & Hk & Hf)%(member_form base c m); [|done..].
  destruct Hcut. eexists. apply vtep_addr_text; [apply be_bytes4_v4|]. lia.
Qed.

Lemma member_vtep_addr_inj s s' hw :
  IsMember p s = true -> IsMember p s' = true ->
  vtep_addr s = Some hw -> vtep_addr s' = Some hw -> s = s'.
Proof.
  intros (n & i & k & -> & Hi & Hk & Hf)%(member_form base c m); [|done..].
  intros (n' & i' & k' & -> & Hi' & Hk' & Hf')%(member_form base c m); [|done..].
  destruct Hcut. unfold subnet_at. destruct (be_bytes4_v4 (base + i)), (be_bytes4_v4 (base + i')).
  rewrite !vtep_addr_text by (done || lia). intros <- E.
  apply (inj Some) in E. symmetry in E.
  apply HardwareAddr_String_inj in E; [|simpl; congruence|simpl; congruence| |].
  2,3: constructor; [done|]; constructor; done.
  apply (f_equal (fun hw => be_value (tail (tail hw)))) in E. cbn [tail] in E.
  rewrite !(cut_offset Hcut) in E by done.
  assert (i = i') as <- by lia.
  assert (k = k') as <- by nia.
  destruct Hf as [(-> & ?)|(-> & ?)], Hf' as [(-> & ?)|(-> & ?)]; (done || lia).
Qed.
End Pool.

(** ** Well-formed leases *)

(** A lease of the configured network with the hardware address its subnet
    determines. *)
Definition lease_wf (p : CIDRPool) (l : Lease) : Prop :=
  IsMember p (OverlaySubnet l) = true /\
  vtep_addr (OverlaySubnet l) = Some (OverlayHardwareAddr l).

Global Instance lease_wf_dec p l : Decision (lease_wf p l).
Proof. unfold lease_wf. apply _. Defined.

(** Every row of the table holds a lease in [K]. *)
Definition holds_all (K : Lease -> Prop) (t : list row) : Prop := Forall (fun r => K (lease_of r)) t.

Lemma holds_all_add K t now l : holds_all K t -> K l -> holds_all K (t ++ [lease_row now l]).
Proof. intros Ht Hl. apply Forall_app. split; [done|]. constructor; [|done]. by destruct l. Qed.

Lemma holds_all_drop K t ip : holds_all K t -> holds_all K (drop_ip ip t).
Proof. unfold holds_all, drop_ip. rewrite !Forall_forall. intros H r [_ Hr]%list_elem_of_filter. auto. Qed.

Lemma holds_all_renew K t now ip : holds_all K t -> holds_all K (renew_ip now ip t).
Proof.
  unfold holds_all, renew_ip. intros H. apply Forall_fmap. eapply Forall_impl; [exact H|].
  intros r Hr. simpl. by case_decide.
Qed.

Definition table_wf (p : CIDRPool) (t : list row) : Prop :=
  Forall (fun r => lease_wf p (lease_of r)) t.

Lemma table_wf_add p t now l : table_wf p t -> lease_wf p l -> table_wf p (t ++ [lease_row now l]).
Proof. apply (holds_all_add (lease_wf p)). Qed.

Lemma table_wf_drop p t ip : table_wf p t -> table_wf p (drop_ip ip t).
Proof. apply (holds_all_drop (lease_wf p)). Qed.

Lemma table_wf_renew p t now ip : table_wf p t -> table_wf p (renew_ip now ip t).
Proof. apply (holds_all_renew (lease_wf p)). Qed.

#[export] Hint Resolve holds_all_add holds_all_drop holds_all_renew : silk.
#[export] Hint Resolve table_wf_add table_wf_drop table_wf_renew : silk.

(** A lease drawn from the pool violates no constraint of a well-formed table. *)
Lemma member_fresh base c m p t l :
  cut_network base c m -> pool_of base c m p -> table_wf p t -> lease_wf p l ->
  UnderlayIP l ∉ map row_underlay_ip t -> OverlaySubnet l ∉ map row_overlay_subnet t ->
  lease_fresh l t.
Proof.
  intros Hcut Hpool Ht [Hl Hhw] Hip Hs. apply fresh_notin. split_and!; [done..|].
  intros (r & E & Hr)%list_elem_of_fmap. apply Hs.
  apply list_elem_of_fmap. exists r. split; [|done].
  unfold table_wf in Ht. rewrite Forall_forall in Ht. destruct (Ht r Hr) as [Hm Hm'].
  rewrite E in Hhw. by eapply (member_vtep_addr_inj Hcut Hpool).
Qed.
