(* ===== verification/LeaseController.v ===== *)
(** * The lease controller (src/controller/leaser)

    [LeaseController] answers the requests of the cells: acquire, renew and
    release a lease, list the leases that are routable. It is written against
    the interface [databaseHandler] (the events [storeE]), the pool of CidrPool.v,
    the hardware address generator of HwAddr.v and the validator below. The
    theorems hold for every database that keeps the contract of Store.v; the
    log lines are left out. *)

From Stdlib Require Import ZArith Lia.
From S2P Require Import Prelude GoFmt GoNet NetFacts HwAddr CidrPool Types Sql Store.

Definition Validate (lease : Lease) : result unit :=
  if decide (ParseIP (UnderlayIP lease) = []) then
    Err (Errorf ("invalid underlay ip: " +:+ UnderlayIP lease))
  else
    match ParseCIDR (OverlaySubnet lease) with
    | Err e => Err e
    | Ok _ =>
        match ParseMAC (OverlayHardwareAddr lease) with
        | Err e => Err e
        | Ok _ => Ok tt
        end
    end.

Record LeaseController := {
  AcquireSubnetLeaseAttempts : Z;
  Pool : CIDRPool;
  LeaseExpirationSeconds : Z
}.

Section Controller.
Context (c : LeaseController).

Definition ReleaseSubnetLease (underlayIP : string) : prog storeE (result unit) :=
  r <- trigger (DeleteEntry underlayIP) ;;
  match r with
  | Err RecordNotAffectedError => Ret (Ok tt)
  | Err e => Ret (Err (wrap "release lease" e))
  | Ok _ => Ret (Ok tt)
  end.

Definition tryAcquireAvailableSingleIPSubnet (ch : choice) (underlayIP : string)
    : prog storeE (result string) :=
  try leases <- trigger AllSingleIPSubnets catch wrap "getting all single ip subnets" ;;
  let taken := map OverlaySubnet leases in
  let subnet := GetAvailableSingleIP ch (Pool c) taken in
  if decide (subnet = "") then
    try lease <- trigger (OldestExpiredSingleIP (LeaseExpirationSeconds c))
      catch wrap "get oldest expired single ip" ;;
    match lease with
    | None => Ret (Ok "")
    | Some lease =>
        try _ <- trigger (DeleteEntry (UnderlayIP lease)) catch wrap "delete expired subnet" ;;
        Ret (Ok (OverlaySubnet lease))
    end
  else Ret (Ok subnet).

Definition tryAcquireAvailableBlockSubnet (ch : choice) (underlayIP : string)
    : prog storeE (result string) :=
  try leases <- trigger AllBlockSubnets catch wrap "getting all subnets" ;;
  let taken := map OverlaySubnet leases in
  let subnet := GetAvailableBlock ch (Pool c) taken in
  if decide (subnet = "") then
    try lease <- trigger (OldestExpiredBlockSubnet (LeaseExpirationSeconds c))
      catch wrap "get oldest expired" ;;
    match lease with
    | None => Ret (Ok "")
    | Some lease =>
        try _ <- trigger (DeleteEntry (UnderlayIP lease)) catch wrap "delete expired subnet" ;;
        Ret (Ok (OverlaySubnet lease))
    end
  else Ret (Ok subnet).

(** [Ok None] is Go's [nil, nil]. *)
Definition tryAcquireLease (ch : choice) (underlayIP : string) (singleOverlayIP : bool)
    : prog storeE (result (option Lease)) :=
  try subnet <- (if singleOverlayIP then tryAcquireAvailableSingleIPSubnet ch underlayIP
                 else tryAcquireAvailableBlockSubnet ch underlayIP) catch id ;;
  if decide (subnet = "") then Ret (Ok None)
  else
    match ParseCIDR subnet with
    | Err e => Ret (Err (wrap "parse subnet" e))
    | Ok (vtepIP, _) =>
        match GenerateForVTEP vtepIP with
        | Err e => Ret (Err (wrap "generate hardware address" e))
        | Ok hwAddr =>
            let lease := {| UnderlayIP := underlayIP; OverlaySubnet := subnet;
                            OverlayHardwareAddr := HardwareAddr_String hwAddr |} in
            try _ <- trigger (AddEntry lease) catch wrap "adding lease entry" ;;
            Ret (Ok (Some lease))
        end
    end.

(** The loop over the attempts. [choices n] is what the runtime decides in
    attempt [n]; [last] is what the previous attempt returned. *)
Fixpoint acquire_loop (choices : nat -> choice) (attempts n : nat) (underlayIP : string)
    (singleOverlayIP : bool) (last : result (option Lease)) : prog storeE (result (option Lease)) :=
  match attempts with
  | O => Ret last
  | S attempts' =>
      r <- tryAcquireLease (choices n) underlayIP singleOverlayIP ;;
      match r with
      | Ok (Some lease) => Ret (Ok (Some lease))
      | _ => acquire_loop choices attempts' (S n) underlayIP singleOverlayIP r
      end
  end.

Definition AcquireSubnetLease (choices : nat -> choice) (underlayIP : string)
    (singleOverlayIP : bool) : prog storeE (result (option Lease)) :=
  let attempts := acquire_loop choices (Z.to_nat (AcquireSubnetLeaseAttempts c)) 0
                    underlayIP singleOverlayIP (Ok None) in
  if decide (To4 (ParseIP underlayIP) = []) then
    Ret (Err (Errorf ("invalid ipv4 address: " +:+ underlayIP)))
  else
    try lease <- trigger (LeaseForUnderlayIP underlayIP)
      catch wrap "getting lease for underlay ip" ;;
    match lease with
    | Some l =>
        if IsMember (Pool c) (OverlaySubnet l) then Ret (Ok (Some l))
        else
          try _ <- trigger (DeleteEntry underlayIP)
            catch wrap ("deleting lease for underlay ip " +:+ underlayIP) ;;
          attempts
    | None => attempts
    end.

Definition RenewSubnetLease (lease : Lease) : prog storeE (result unit) :=
  let renew :=
    try _ <- trigger (RenewLeaseForUnderlayIP (UnderlayIP lease))
      catch wrap "renewing lease for underlay ip" ;;
    try lastRenewedAt <- trigger (LastRenewedAtForUnderlayIP (UnderlayIP lease))
      catch wrap "getting last renewed at" ;;
    Ret (Ok tt) in
  match Validate lease with
  | Err e => Ret (Err (NonRetriableError (Error e)))
  | Ok _ =>
      try existingLease <- trigger (LeaseForUnderlayIP (UnderlayIP lease))
        catch wrap "getting lease for underlay ip" ;;
      match existingLease with
      | None =>
          try _ <- trigger (AddEntry lease) catch (fun e => NonRetriableError (Error e)) ;;
          renew
      | Some existing =>
          if decide (lease <> existing) then Ret (Err (NonRetriableError "lease mismatch"))
          else renew
      end
  end.

Definition RoutableLeases : prog storeE (result (list Lease)) :=
  try leases <- trigger (AllActive (LeaseExpirationSeconds c)) catch wrap "getting all leases" ;;
  Ret (Ok leases).

End Controller.
