(* ===== verification/LeaseSafety.v ===== *)
(** * What the lease controller guarantees

    The theorems are about every run against a database that keeps the contract
    of Store.v ([wp store_step]): the answers can be errors, and a failed write
    can have taken effect. [store_up_step] restricts them to a database that
    does not fail, for the theorems that say a request succeeds. *)

From Stdlib Require Import ZArith Lia.
From S2P Require Import Prelude GoFmt GoNet NetFacts HwAddr CidrPool Types Sql Store.
From S2P Require Import Database LeaseFacts LeaseController.

(** One call of the database in a weakest precondition. *)
Ltac wp_call :=
  first [apply wp_bind_err | apply wp_bind | idtac];
  apply wp_trigger; cbn [wp].

(** ** What one attempt does *)

Section Attempt.
Context (c : LeaseController).

Definition kind_pool (single : bool) : gset string :=
  if single then singlePool (Pool c) else blockPool (Pool c).

Definition kind_taken (single : bool) (t : list row) : list string :=
  map row_overlay_subnet (filter (fun r => single_ip r = single) t).

(** [r] is the expired lease of its kind that was renewed longest ago. *)
Definition reclaimable (single : bool) (now : Z) (t : list row) (r : row) : Prop :=
  r ∈ t /\ single_ip r = single /\ expired now (LeaseExpirationSeconds c) r = true /\
  forall r', r' ∈ t -> single_ip r' = single ->
    expired now (LeaseExpirationSeconds c) r' = true ->
    row_last_renewed_at r <= row_last_renewed_at r'.

(** The pool of this kind is taken and none of its leases has expired. *)
Definition exhausted (single : bool) (now : Z) (t : list row) : Prop :=
  (forall s, s ∈ kind_pool single -> s ∈ kind_taken single t) /\
  (forall r, r ∈ t -> single_ip r = single ->
     expired now (LeaseExpirationSeconds c) r = false).

(** The lease of [r] was reclaimed at a time between the two worlds. *)
Definition reclaimed (single : bool) (w w' : store_world) (r : row) : Prop :=
  (exists now, w_clock w <= now <= w_clock w' /\ reclaimable single now (w_table w) r) /\
  w_table w' = drop_ip (row_underlay_ip r) (w_table w).

Definition subnet_post (single : bool) (w w' : store_world) (x : result string) : Prop :=
  w_clock w <= w_clock w' /\
  match x with
  | Ok s =>
      (w_table w' = w_table w /\ s ∈ kind_pool single /\ (s ∉ kind_taken single (w_table w))) \/
      (exists r, reclaimed single w w' r /\ s = row_overlay_subnet r) \/
      (s = "" /\ w_table w' = w_table w /\
       exists now, w_clock w <= now <= w_clock w' /\ exhausted single now (w_table w))
  | Err _ => w_table w' = w_table w \/ exists r, reclaimed single w w' r
  end.

(** The calls after the listing, common to both kinds of subnet. *)
Definition draw (single : bool) (subnet : string) (oldest : storeE (result (option Lease)))
    (prefix : string) : prog storeE (result string) :=
  if decide (subnet = "") then
    try lease <- trigger oldest catch wrap prefix ;;
    match lease with
    | None => Ret (Ok "")
    | Some lease =>
        try _ <- trigger (DeleteEntry (UnderlayIP lease)) catch wrap "delete expired subnet" ;;
        Ret (Ok (OverlaySubnet lease))
    end
  else Ret (Ok subnet).

Lemma oldest_reclaimable single now t o :
  oldest_lease (filter (fun r => single_ip r = single /\
                          expired now (LeaseExpirationSeconds c) r = true) t) o ->
  match o with
  | None => forall r, r ∈ t -> single_ip r = single ->
      expired now (LeaseExpirationSeconds c) r = false
  | Some l => exists r, lease_of r = l /\ reclaimable single now t r
  end.
Proof.
  destruct o as [l|]; simpl.
  - intros (r & [[Hk He] Hr]%list_elem_of_filter & Hl & Hmin). exists r.
    split_and!; [done..|]. rewrite Forall_forall in Hmin. split_and!; [done..|].
    intros r' Hr' Hk' He'. apply Hmin. apply list_elem_of_filter. auto.
  - intros Hnil r Hr Hk. apply not_true_is_false. intros He.
    eapply not_elem_of_nil. rewrite <- Hnil. apply list_elem_of_filter. eauto.
Qed.

Lemma draw_wp single taken ch subnet oldest prefix w0 w :
  legal_choice ch -> "" ∉ kind_pool single ->
  taken ≡ₚ kind_taken single (w_table w) ->
  subnet = getAvailable ch taken (kind_pool single) ->
  w_clock w0 <= w_clock w -> w_table w = w_table w0 ->
  (forall w w' o, store_step _ oldest w w' o ->
     w_clock w <= w_clock w' /\ w_table w' = w_table w /\
     forall l, o = Ok l -> oldest_lease
       (filter (fun r => single_ip r = single /\
                  expired (w_clock w') (LeaseExpirationSeconds c) r = true) (w_table w)) l) ->
  wp store_step (draw single subnet oldest prefix) w (subnet_post single w0).
Proof.
  intros Hch Hne Htaken Hsub Hclock Htab Hold. unfold draw.
  destruct (getAvailable_cases ch taken (kind_pool single) Hch) as [[E Hall]|[Hin Hnot]].
  - rewrite decide_True by congruence. wp_call.
    intros w1 o Ho. destruct (Hold _ _ _ Ho) as (Hc1 & Ht1 & Hol).
    destruct o as [o|e]; [|by split; [lia|left; congruence]].
    specialize (Hol o eq_refl). apply oldest_reclaimable in Hol. destruct o as [l|].
    + destruct Hol as (r & <- & Hr). wp_call. intros w2 d [Hc2 Hd].
      assert (w_table w2 = drop_ip (row_underlay_ip r) (w_table w0) -> reclaimed single w0 w2 r)
        as Hrec.
      { intros Hdrop. split; [|done]. exists (w_clock w1). split; [lia|]. by rewrite <- Htab. }
      destruct d as [d|d]; (split; [lia|]).
      * right. left. exists r. split; [|done]. apply Hrec. simpl in Hd. destruct Hd as [_ ->]. congruence.
      * simpl in Hd. rewrite Ht1, Htab in Hd.
        destruct d; destruct_and?; destruct_or?; first [by left|right; eauto].
    + split; [lia|]. right. right. split; [done|]. split; [congruence|].
      exists (w_clock w1). split; [lia|]. rewrite <- Htab. split; [|done].
      intros s Hs. rewrite <- Htaken. auto.
  - rewrite decide_False by congruence. split; [done|]. left. split; [done|].
    rewrite Hsub, <- Htab. split; [done|]. by rewrite <- Htaken.
Qed.

Lemma taken_perm single t ls :
  ls ≡ₚ map lease_of (filter (fun r => single_ip r = single) t) ->
  map OverlaySubnet ls ≡ₚ kind_taken single t.
Proof.
  intros Hp. apply (Permutation_map OverlaySubnet) in Hp. by rewrite map_map in Hp.
Qed.

Definition try_subnet (ch : choice) (single : bool) (ip : string) : prog storeE (result string) :=
  if single then tryAcquireAvailableSingleIPSubnet c ch ip
  else tryAcquireAvailableBlockSubnet c ch ip.

Hypothesis Hpool_nonempty : forall single, "" ∉ kind_pool single.

Lemma try_subnet_wp ch single ip w :
  legal_choice ch -> wp store_step (try_subnet ch single ip) w (subnet_post single w).
Proof.
  intros Hch. unfold try_subnet. destruct single.
  - unfold tryAcquireAvailableSingleIPSubnet. wp_call. intros w1 x [Hc [Ht Hx]].
    destruct x as [ls|e]; [|by split; [|left]].
    apply (draw_wp true (map OverlaySubnet ls) ch); auto.
    + rewrite Ht. by apply taken_perm.
    + intros w2 w3 o [Hc' [Ht' Ho]]. split_and!; [done..|]. by intros l ->.
  - unfold tryAcquireAvailableBlockSubnet. wp_call. intros w1 x [Hc [Ht Hx]].
    destruct x as [ls|e]; [|by split; [|left]].
    apply (draw_wp false (map OverlaySubnet ls) ch); auto.
    + rewrite Ht. by apply taken_perm.
    + intros w2 w3 o [Hc' [Ht' Ho]]. split_and!; [done..|]. by intros l ->.
Qed.

(** [l] is made for [ip] from a subnet [subnet_post] allows, found in world [w]
    and leading to world [w1]. *)
Definition lease_made (single : bool) (ip : string) (w w1 : store_world) (l : Lease) : Prop :=
  UnderlayIP l = ip /\ vtep_addr (OverlaySubnet l) = Some (OverlayHardwareAddr l) /\
  OverlaySubnet l <> "" /\ subnet_post single w w1 (Ok (OverlaySubnet l)).

Definition lease_post (single : bool) (ip : string) (w w' : store_world)
    (x : result (option Lease)) : Prop :=
  match x with
  | Ok (Some l) => exists w1, lease_made single ip w w1 l /\ w_clock w1 <= w_clock w' /\
      lease_fresh l (w_table w1) /\ w_table w' = w_table w1 ++ [lease_row (w_clock w') l]
  | Ok None => subnet_post single w w' (Ok "")
  | Err _ =>
      (exists y, subnet_post single w w' y) \/
      (exists w1 l, lease_made single ip w w1 l /\ w_clock w1 <= w_clock w' /\
        (w_table w' = w_table w1 \/
         lease_fresh l (w_table w1) /\ w_table w' = w_table w1 ++ [lease_row (w_clock w') l]))
  end.

Lemma tryAcquireLease_wp ch single ip w :
  legal_choice ch -> wp store_step (tryAcquireLease c ch ip single) w (lease_post single ip w).
Proof.
  intros Hch. unfold tryAcquireLease. apply wp_bind_err. fold (try_subnet ch single ip).
  eapply wp_mono; [by apply try_subnet_wp|].
  intros w1 [s|e] Hpost; [|left; eauto].
  case_decide as Hs; [by subst|].
  destruct (ParseCIDR s) as [[vtep net]|e] eqn:Hp; [|left; eauto].
  destruct (GenerateForVTEP vtep) as [hw|e] eqn:Hg; [|left; eauto].
  set (l := {| UnderlayIP := ip; OverlaySubnet := s; OverlayHardwareAddr := HardwareAddr_String hw |}).
  assert (lease_made single ip w w1 l) as Hmade.
  { split_and!; [done| |done..]. unfold vtep_addr. simpl. by rewrite Hp, Hg. }
  wp_call. intros w2 x [Hc Hx]. destruct x as [u|e]; simpl in Hx.
  - exists w1. destruct Hx. auto.
  - right. exists w1, l. auto.
Qed.

(** The loop, with an invariant [J] of the attempts. *)
Lemma acquire_loop_wp choices single ip (J : store_world -> Prop) :
  (forall n, legal_choice (choices n)) ->
  (forall w w' x, J w -> lease_post single ip w w' x -> J w') ->
  forall attempts n last w, J w ->
  wp store_step (acquire_loop c choices attempts n ip single last) w (fun w' x =>
    J w' /\ ((exists w1, J w1 /\ lease_post single ip w1 w' x) \/
             (attempts = 0%nat /\ w' = w /\ x = last))).
Proof.
  intros Hch HJ. induction attempts as [|k IH]; intros n last w Hw; simpl; [by auto|].
  apply wp_bind. eapply wp_mono; [by apply tryAcquireLease_wp|].
  intros w1 x Hx. pose proof (HJ _ _ _ Hw Hx) as Hw1.
  assert (wp store_step (acquire_loop c choices k (S n) ip single x) w1 (fun w' x' =>
    J w' /\ ((exists w2, J w2 /\ lease_post single ip w2 w' x') \/ (S k = 0%nat /\ w' = w /\ x' = last))))
    as Hrest.
  { eapply wp_mono; [by apply IH|]. intros w2 x' [HJ2 [Hl|(-> & -> & ->)]]; eauto. }
  destruct x as [[l|]|e]; [|exact Hrest..]. simpl. eauto.
Qed.

End Attempt.

(** ** A controller whose pool is the configured network *)

Record configured (c : LeaseController) (base len m : Z) : Prop := {
  conf_cut : cut_network base len m;
  conf_pool : pool_of base len m (Pool c)
}.

Definition legal_choices (choices : nat -> choice) : Prop := forall n, legal_choice (choices n).

Lemma kind_pool_member c single s : s ∈ kind_pool c single -> IsMember (Pool c) s = true.
Proof. unfold kind_pool. intros Hs. apply IsMember_iff. destruct single; auto. Qed.

Section Configured.
Context {c : LeaseController} {base len m : Z}.
Hypothesis Hconf : configured c base len m.

Lemma conf_nonempty single : "" ∉ kind_pool c single.
Proof.
  destruct (pool_of_nonempty _ _ _ _ (conf_pool _ _ _ _ Hconf)). by destruct single.
Qed.

Lemma member_nonempty : IsMember (Pool c) "" = false.
Proof.
  apply not_true_is_false. intros [Hm|Hm]%IsMember_iff;
    [by apply (conf_nonempty false) in Hm|by apply (conf_nonempty true) in Hm].
Qed.

Lemma expired_later now now' d r : now <= now' -> expired now' d r = false -> expired now d r = false.
Proof. unfold expired. rewrite !Z.leb_gt. lia. Qed.

Lemma reclaimed_wf single w w' r :
  table_wf (Pool c) (w_table w) -> reclaimed c single w w' r ->
  table_wf (Pool c) (w_table w') /\ IsMember (Pool c) (row_overlay_subnet r) = true.
Proof.
  intros Hwf [(now & _ & Hin & _) ->]. split; [by apply table_wf_drop|].
  unfold table_wf in Hwf. rewrite Forall_forall in Hwf. by destruct (Hwf r Hin).
Qed.

(** The table after the first part of an attempt, and the subnet it found. *)
Lemma subnet_post_wf single w w' x :
  subnet_post c single w w' x -> table_wf (Pool c) (w_table w) ->
  table_wf (Pool c) (w_table w') /\
  forall s, x = Ok s -> s <> "" -> IsMember (Pool c) s = true.
Proof.
  intros [_ Hx] Hwf. destruct x as [s|e].
  - destruct Hx as [(-> & Hs & _)|[(r & Hr & ->)|(-> & -> & _)]].
    + split; [done|]. intros ? [= <-] _. by eapply kind_pool_member.
    + destruct (reclaimed_wf _ _ _ _ Hwf Hr). split; [done|]. by intros ? [= <-] _.
    + split; [done|]. by intros ? [= <-].
  - split; [|done]. destruct Hx as [->|[r Hr]]; [done|]. by eapply reclaimed_wf.
Qed.

Lemma subnet_post_unique single w w' x :
  subnet_post c single w w' x -> unique_table (w_table w) -> unique_table (w_table w').
Proof.
  intros [_ Hx] Hu. destruct x as [s|e].
  - destruct Hx as [(-> & _)|[(r & [_ ->] & _)|(_ & -> & _)]]; auto with silk.
  - destruct Hx as [->|(r & [_ ->])]; auto with silk.
Qed.

(** What is common to all outcomes of an attempt: the table after its first
    part, then possibly a new row. *)
Lemma lease_post_cases single ip w w' x :
  lease_post c single ip w w' x ->
  exists w1 y, subnet_post c single w w1 y /\ w_clock w1 <= w_clock w' /\
    (w_table w' = w_table w1 \/
     exists l, lease_made c single ip w w1 l /\ lease_fresh l (w_table w1) /\
       w_table w' = w_table w1 ++ [lease_row (w_clock w') l]).
Proof.
  destruct x as [[l|]|e]; simpl.
  - intros (w1 & Hm & Hc & Hf & Ht). pose proof Hm as (_ & _ & _ & Hp). eauto 10.
  - intros Hp. eauto 10 using Z.le_refl.
  - intros [[y Hp]|(w1 & l & Hm & Hc & [Ht|[Hf Ht]])]; [eauto 10 using Z.le_refl|..];
      pose proof Hm as (_ & _ & _ & Hp); eauto 10.
Qed.

Lemma lease_made_wf single ip w w1 l :
  lease_made c single ip w w1 l -> table_wf (Pool c) (w_table w) -> lease_wf (Pool c) l.
Proof.
  intros (_ & Hhw & Hne & Hp) Hwf. split; [|done].
  destruct (subnet_post_wf _ _ _ _ Hp Hwf) as [_ Hm]. by apply Hm.
Qed.

Lemma lease_post_wf single ip w w' x :
  lease_post c single ip w w' x ->
  table_wf (Pool c) (w_table w) -> unique_table (w_table w) ->
  table_wf (Pool c) (w_table w') /\ unique_table (w_table w').
Proof.
  intros (w1 & y & Hp & _ & Ht)%lease_post_cases Hwf Hu.
  destruct (subnet_post_wf _ _ _ _ Hp Hwf) as [Hwf1 _].
  pose proof (subnet_post_unique _ _ _ _ Hp Hu) as Hu1.
  destruct Ht as [->|(l & Hm & Hf & ->)]; [done|].
  pose proof (lease_made_wf _ _ _ _ _ Hm Hwf). auto with silk.
Qed.

(** An attempt removes no lease that has not expired. *)
Lemma subnet_post_live single w w' x r :
  subnet_post c single w w' x -> unique_table (w_table w) -> r ∈ w_table w ->
  expired (w_clock w') (LeaseExpirationSeconds c) r = false -> r ∈ w_table w'.
Proof.
  intros [_ Hx] Hu Hr Hlive.
  assert (forall r', reclaimed c single w w' r' -> r ∈ w_table w') as Hrec.
  { intros r' [(now & [_ Hnow] & Hr' & _ & He & _) ->]. apply list_elem_of_filter. split; [|done].
    intros Heq. assert (r' = r) as -> by (by eapply unique_ip).
    rewrite (expired_later now (w_clock w')) in He; done. }
  destruct x as [s|e].
  - destruct Hx as [(-> & _)|[(r' & Hr' & _)|(_ & -> & _)]]; eauto.
  - destruct Hx as [->|[r' Hr']]; eauto.
Qed.

Lemma lease_post_live single ip w w' x r :
  lease_post c single ip w w' x -> unique_table (w_table w) ->
  (expired (w_clock w) (LeaseExpirationSeconds c) r = false -> r ∈ w_table w) ->
  unique_table (w_table w') /\
  (expired (w_clock w') (LeaseExpirationSeconds c) r = false -> r ∈ w_table w').
Proof.
  intros (w1 & y & Hp & Hc & Ht)%lease_post_cases Hu Hl.
  pose proof (subnet_post_unique _ _ _ _ Hp Hu) as Hu1.
  pose proof (proj1 Hp) as Hc0.
  assert (expired (w_clock w') (LeaseExpirationSeconds c) r = false -> r ∈ w_table w1) as Hl1.
  { intros He. eapply subnet_post_live; eauto.
    - apply Hl. by apply (expired_later (w_clock w) (w_clock w')); [lia|].
    - by apply (expired_later (w_clock w1) (w_clock w')). }
  destruct Ht as [->|(l & _ & Hf & ->)]; [done|]. split; [auto with silk|].
  intros He. apply elem_of_app. auto.
Qed.

(** The part of [AcquireSubnetLease] before the attempts. *)
Lemma acquire_wp choices ip single w (Q : store_world -> result (option Lease) -> Prop) :
  (forall w' e, w_clock w <= w_clock w' -> w_table w' = w_table w -> Q w' (Err e)) ->
  (forall w' l, w_clock w <= w_clock w' -> w_table w' = w_table w ->
     l ∈ map lease_of (w_table w) -> UnderlayIP l = ip ->
     IsMember (Pool c) (OverlaySubnet l) = true -> Q w' (Ok (Some l))) ->
  (forall w' l e, w_clock w <= w_clock w' -> l ∈ map lease_of (w_table w) -> UnderlayIP l = ip ->
     IsMember (Pool c) (OverlaySubnet l) = false ->
     w_table w' = w_table w \/ w_table w' = drop_ip ip (w_table w) -> Q w' (Err e)) ->
  (forall w', w_clock w <= w_clock w' ->
     (w_table w' = w_table w /\ ip ∉ map row_underlay_ip (w_table w)) \/
     (exists l, l ∈ map lease_of (w_table w) /\ UnderlayIP l = ip /\
        IsMember (Pool c) (OverlaySubnet l) = false /\ w_table w' = drop_ip ip (w_table w)) ->
     wp store_step (acquire_loop c choices (Z.to_nat (AcquireSubnetLeaseAttempts c)) 0 ip single (Ok None)) w' Q) ->
  wp store_step (AcquireSubnetLease c choices ip single) w Q.
Proof.
  intros Herr Hhit Hdel Hloop. unfold AcquireSubnetLease.
  case_decide; [by apply Herr|]. wp_call. intros w1 x [Hc [Ht Hx]].
  destruct x as [[l|]|e]; [| |by apply Herr].
  - destruct Hx as [Hl Hip]. destruct (IsMember _ _) eqn:Hm; [by apply Hhit|].
    wp_call. intros w2 d [Hc2 Hd]. simpl in Hd. rewrite Ht in Hd. destruct d as [d|d].
    + apply Hloop; [lia|]. right. exists l. split_and!; [done..|]. apply Hd.
    + apply (Hdel w2 l); [lia|done..|]. destruct d; tauto.
  - apply Hloop; [done|]. left. done.
Qed.

End Configured.

(** ** Acquiring a lease *)

Lemma acquire_table c base len m choices ip single w :
  configured c base len m -> legal_choices choices ->
  table_wf (Pool c) (w_table w) -> unique_table (w_table w) ->
  wp store_step (AcquireSubnetLease c choices ip single) w (fun w' x =>
    table_wf (Pool c) (w_table w') /\ unique_table (w_table w') /\
    forall l, x = Ok (Some l) ->
      UnderlayIP l = ip /\ lease_wf (Pool c) l /\ l ∈ map lease_of (w_table w')).
Proof.
  intros Hconf Hch Hwf Hu.
  assert (forall t, t = drop_ip ip (w_table w) \/ t = w_table w -> table_wf (Pool c) t /\ unique_table t)
    as Hpre by (intros t [->| ->]; auto with silk).
  apply acquire_wp.
  - intros w' e _ ->. done.
  - intros w' l _ -> Hl Hip Hm. split_and!; [done..|]. intros ? [= <-]. split_and!; [done| |done].
    apply list_elem_of_fmap in Hl as (r & -> & Hr).
    unfold table_wf in Hwf. rewrite Forall_forall in Hwf. auto.
  - intros w' l e _ _ _ _ Ht. destruct (Hpre (w_table w')); [tauto|]. done.
  - intros w' _ Ht.
    set (J := fun w0 => table_wf (Pool c) (w_table w0) /\ unique_table (w_table w0)).
    eapply wp_mono; [apply (acquire_loop_wp c (conf_nonempty Hconf) choices single ip J Hch)|].
    + intros w1 w2 x [Hwf1 Hu1] Hp. by eapply lease_post_wf.
    + apply Hpre. destruct Ht as [[-> _]|(? & _ & _ & _ & ->)]; auto.
    + intros w2 x ((Hwf2 & Hu2) & Hx). split_and!; [done..|]. intros l ->.
      destruct Hx as [(w1 & [Hwf1 _] & w3 & Hm & _ & _ & Ht')|(_ & _ & [=])].
      pose proof (lease_made_wf _ _ _ _ _ Hm Hwf1). destruct Hm as [Hip _].
      split_and!; [done..|]. rewrite Ht', map_app. apply elem_of_app. right. simpl.
      destruct l. by apply list_elem_of_singleton.
Qed.

(** C3. [AcquireSubnetLease] keeps the table well formed (every lease a member
    of the pool with the hardware address of its subnet, no underlay IP, subnet
    or address twice), whatever fails on the way; and a lease it returns is the
    requesting cell's, is of the pool, and is in the table. *)
Theorem acquire_grants_pool_lease c base len m choices ip single w :
  configured c base len m -> legal_choices choices ->
  table_wf (Pool c) (w_table w) -> unique_table (w_table w) ->
  wp store_step (AcquireSubnetLease c choices ip single) w (fun w' x =>
    table_wf (Pool c) (w_table w') /\ unique_table (w_table w') /\
    forall l, x = Ok (Some l) ->
      UnderlayIP l = ip /\ lease_wf (Pool c) l /\ l ∈ map lease_of (w_table w')).
Proof. exact (acquire_table c base len m choices ip single w). Qed.

(** C4. [AcquireSubnetLease] takes nothing away from anybody, whatever its outcome:
    a row of another cell whose lease has not expired by the end is still in the
    table, unrenewed and unchanged; and when the cell itself has a lease of the
    pool, expired or not, the whole table is left as it was. *)
Theorem acquire_keeps_live_leases c base len m choices ip single w r :
  configured c base len m -> legal_choices choices -> unique_table (w_table w) ->
  r ∈ w_table w ->
  wp store_step (AcquireSubnetLease c choices ip single) w (fun w' _ =>
    (row_underlay_ip r <> ip -> expired (w_clock w') (LeaseExpirationSeconds c) r = false ->
       r ∈ w_table w') /\
    (row_underlay_ip r = ip -> IsMember (Pool c) (row_overlay_subnet r) = true ->
       w_table w' = w_table w)).
Proof.
  intros Hconf Hch Hu Hr.
  assert (forall l, l ∈ map lease_of (w_table w) -> UnderlayIP l = ip ->
            IsMember (Pool c) (OverlaySubnet l) = false ->
            row_underlay_ip r = ip -> IsMember (Pool c) (row_overlay_subnet r) = true -> False) as Hown.
  { intros l (r' & -> & Hr')%list_elem_of_fmap Hip Hm Heq Hc.
    assert (r' = r) as -> by (eapply unique_ip; [done..|]; simpl in *; congruence).
    simpl in Hm. congruence. }
  assert (row_underlay_ip r <> ip -> r ∈ drop_ip ip (w_table w)) as Hdrop
    by (intros; by apply list_elem_of_filter).
  apply acquire_wp.
  - by intros w' e _ ->.
  - by intros w' l _ ->.
  - intros w' l e _ Hl Hip Hm Ht. split; [destruct Ht as [->| ->]; auto|].
    intros E Hin. by destruct (Hown l Hl Hip Hm E Hin).
  - intros w' Hc Ht.
    set (J := fun w0 => row_underlay_ip r <> ip -> unique_table (w_table w0) /\
      (expired (w_clock w0) (LeaseExpirationSeconds c) r = false -> r ∈ w_table w0)).
    eapply wp_mono; [apply (acquire_loop_wp c (conf_nonempty Hconf) choices single ip J Hch)|].
    + intros w1 w2 x HJ Hp Hne. destruct (HJ Hne). by eapply lease_post_live.
    + intros Hne. destruct Ht as [[Ht _]|(l & Hl & Hip & Hm & Ht)]; rewrite Ht; split; eauto with silk.
    + intros w2 x [HJ _]. split; [intros Hne; by destruct (HJ Hne)|]. intros E Hin.
      destruct Ht as [[_ Hno]|(l & Hl' & Hip & Hm & _)]; [|by destruct (Hown l Hl' Hip Hm E Hin)].
      destruct Hno. rewrite <- E. by apply (list_elem_of_fmap_2 row_underlay_ip).
Qed.

Lemma acquire_exhaustion c base len m choices ip single w :
  configured c base len m -> legal_choices choices -> 0 < AcquireSubnetLeaseAttempts c ->
  table_wf (Pool c) (w_table w) -> unique_table (w_table w) ->
  wp store_step (AcquireSubnetLease c choices ip single) w (fun w' x =>
    x = Ok None ->
    exists now, w_clock w <= now <= w_clock w' /\ exhausted c single now (w_table w')).
Proof.
  intros Hconf Hch Hatt Hwf Hu. apply acquire_wp; [done..|].
  intros w' Hc Ht.
  set (J := fun w0 => w_clock w <= w_clock w0 /\ table_wf (Pool c) (w_table w0) /\
                      unique_table (w_table w0)).
  eapply wp_mono; [apply (acquire_loop_wp c (conf_nonempty Hconf) choices single ip J Hch)|].
  - intros w1 w2 x (Hc1 & Hwf1 & Hu1) Hp. split.
    + apply lease_post_cases in Hp as (w3 & y & [Hc3 _] & Hc2 & _). lia.
    + by eapply lease_post_wf.
  - unfold J. split; [done|].
    destruct Ht as [[-> _]|(? & _ & _ & _ & ->)]; auto with silk.
  - intros w2 x [_ Hx] ->.
    destruct Hx as [(w1 & (Hc1 & Hwf1 & _) & [Hc2 Hp])|(? & _ & _)]; [|lia].
    destruct Hp as [(_ & Hin & _)|[(r & Hr & Hs)|(_ & -> & now & Hnow & He)]].
    + by apply (conf_nonempty Hconf) in Hin.
    + destruct (reclaimed_wf _ _ _ _ Hwf1 Hr) as [_ Hm].
      by rewrite <- Hs, (member_nonempty Hconf) in Hm.
    + exists now. split; [lia|done].
Qed.

(** When [AcquireSubnetLease] answers with no lease and no error (a 503 to
    the cell), it has attempted to allocate and the whole pool of the requested
    kind is taken by leases none of which had expired. *)
Theorem acquire_none_exhausted c base len m choices ip single w :
  configured c base len m -> legal_choices choices -> 0 < AcquireSubnetLeaseAttempts c ->
  table_wf (Pool c) (w_table w) -> unique_table (w_table w) ->
  wp store_step (AcquireSubnetLease c choices ip single) w (fun w' x =>
    x = Ok None ->
    exists now, w_clock w <= now <= w_clock w' /\ exhausted c single now (w_table w')).
Proof. exact (acquire_exhaustion c base len m choices ip single w). Qed.

(** ** A database that does not fail *)

Section Up.
Context {c : LeaseController} {base len m : Z}.
Hypothesis Hconf : configured c base len m.

Lemma draw_up single subnet oldest prefix w :
  (forall w w' o, store_up_step _ oldest w w' o ->
     exists l, o = Ok l /\ w_table w' = w_table w /\
       forall x, l = Some x -> UnderlayIP x ∈ map row_underlay_ip (w_table w)) ->
  wp store_up_step (draw single subnet oldest prefix) w (fun _ x => is_Ok x = true).
Proof.
  intros Hold. unfold draw. case_decide; [|done]. wp_call.
  intros w1 o Ho. destruct (Hold _ _ _ Ho) as ([l|] & -> & Ht & Hin); [|done].
  wp_call. intros w2 d Hd. destruct (delete_present _ _ _ _ Hd) as (u & -> & _); [|done].
  rewrite Ht. auto.
Qed.

Lemma oldest_up sel o t :
  (forall r, r ∈ sel -> r ∈ t) -> oldest_lease sel o ->
  forall x, o = Some x -> UnderlayIP x ∈ map row_underlay_ip t.
Proof.
  intros Hsub Ho x ->. destruct Ho as (r & Hr & <- & _).
  by apply (list_elem_of_fmap_2 row_underlay_ip), Hsub.
Qed.

Lemma try_subnet_up ch single ip w :
  wp store_up_step (try_subnet c ch single ip) w (fun _ x => is_Ok x = true).
Proof.
  unfold try_subnet. destruct single.
  - unfold tryAcquireAvailableSingleIPSubnet. wp_call. intros w1 [ls|e] [_ Ha]; [|done].
    apply (draw_up true). intros w2 w3 [o|e] [[_ [Ht Ho]] Ha']; [|done].
    exists o. split_and!; [done..|]. eapply oldest_up; [|exact Ho].
    by intros r [_ ?]%list_elem_of_filter.
  - unfold tryAcquireAvailableBlockSubnet. wp_call. intros w1 [ls|e] [_ Ha]; [|done].
    apply (draw_up false). intros w2 w3 [o|e] [[_ [Ht Ho]] Ha']; [|done].
    exists o. split_and!; [done..|]. eapply oldest_up; [|exact Ho].
    by intros r [_ ?]%list_elem_of_filter.
Qed.

Lemma kind_pool_kind single s : m < 32 -> s ∈ kind_pool c single -> like "%/32" s = single.
Proof.
  intros Hm Hs. destruct Hconf as [[] [Hb Hp]]. unfold kind_pool in Hs. destruct single.
  - apply Hp in Hs as (j & _ & ->). by apply like_cidr_text.
  - apply Hb in Hs as (k & _ & ->). unfold subnet_at. rewrite like_cidr_text by lia.
    apply Z.eqb_neq. lia.
Qed.

(** The subnet an attempt finds is not in the table any more. *)
Lemma found_subnet_free single w w1 s :
  m < 32 -> unique_table (w_table w) -> s <> "" -> subnet_post c single w w1 (Ok s) ->
  s ∉ map row_overlay_subnet (w_table w1).
Proof.
  intros Hm Hu Hne [_ Hp] (r & -> & Hr)%list_elem_of_fmap.
  destruct Hp as [(Ht & Hin & Hnot)|[(r' & [(now & _ & Hr' & _) Ht] & Heq)|(? & _)]]; [..|done].
  - apply Hnot. apply list_elem_of_fmap. exists r. split; [done|].
    apply list_elem_of_filter. rewrite Ht in Hr. split; [|done]. by apply (kind_pool_kind single).
  - rewrite Ht in Hr. apply list_elem_of_filter in Hr as [Hip Hr].
    apply Hip. f_equal. by eapply unique_subnet.
Qed.

Lemma subnet_post_ips single w w1 x ip :
  subnet_post c single w w1 x -> ip ∈ map row_underlay_ip (w_table w1) ->
  ip ∈ map row_underlay_ip (w_table w).
Proof.
  assert (forall ip', ip ∈ map row_underlay_ip (drop_ip ip' (w_table w)) ->
            ip ∈ map row_underlay_ip (w_table w)) as Hdrop.
  { intros ip' (r & -> & [_ Hr]%list_elem_of_filter)%list_elem_of_fmap.
    by apply list_elem_of_fmap_2. }
  intros [_ Hp] Hin. destruct x as [s|e].
  - destruct Hp as [(<- & _)|[(r' & [_ Ht] & _)|(_ & <- & _)]]; [done| |done].
    rewrite Ht in Hin. eauto.
  - destruct Hp as [<-|(r' & [_ Ht])]; [done|]. rewrite Ht in Hin. eauto.
Qed.

Lemma tryAcquireLease_up ch single ip w :
  legal_choice ch -> m < 32 -> table_wf (Pool c) (w_table w) -> unique_table (w_table w) ->
  ip ∉ map row_underlay_ip (w_table w) ->
  (forall now, w_clock w <= now -> ~ exhausted c single now (w_table w)) ->
  wp store_up_step (tryAcquireLease c ch ip single) w (fun _ x => exists l, x = Ok (Some l)).
Proof.
  intros Hch Hm Hwf Hu Hip Hex. unfold tryAcquireLease. apply wp_bind_err.
  fold (try_subnet c ch single ip). eapply wp_mono; [apply wp_and; [apply (try_subnet_up ch single ip w)|]|].
  { apply wp_up. apply (try_subnet_wp c (conf_nonempty Hconf) ch single ip w Hch). }
  intros w1 [s|e] [Hok Hp]; [|done].
  destruct (subnet_post_wf _ _ _ _ Hp Hwf) as [Hwf1 Hmem].
  assert (s <> "") as Hne.
  { intros ->. destruct Hp as [Hc [(_ & Hin & _)|[(r & Hr & Hs)|(_ & _ & now & Hnow & He)]]].
    - by apply (conf_nonempty Hconf) in Hin.
    - destruct (reclaimed_wf _ _ _ _ Hwf Hr) as [_ Hmr].
      by rewrite <- Hs, (member_nonempty Hconf) in Hmr.
    - apply (Hex now); [lia|done]. }
  rewrite decide_False by done.
  destruct (member_vtep_addr (conf_cut _ _ _ _ Hconf) (conf_pool _ _ _ _ Hconf) s) as [hw Hhw]; [auto|].
  unfold vtep_addr in Hhw. destruct (ParseCIDR s) as [[vtep net]|] eqn:Hpc; [|done].
  destruct (GenerateForVTEP vtep) as [addr|] eqn:Hg; [|done]. wp_call.
  intros w2 x [_ Ha]. simpl in Ha. destruct x as [u|e]; [by eauto|].
  discriminate Ha. eapply member_fresh; [apply Hconf..|done| | |].
  - split; simpl; [auto|]. unfold vtep_addr. by rewrite Hpc, Hg.
  - simpl. intros Hin. apply Hip. by eapply subnet_post_ips.
  - by eapply found_subnet_free.
Qed.
End Up.

(** There is a lease for [ip]: its own, a free subnet of the kind asked for, or
    one whose lease has expired. *)
Definition room (c : LeaseController) (single : bool) (ip : string) (w : store_world) : Prop :=
  ip ∈ map row_underlay_ip (w_table w) \/
  (exists s, s ∈ kind_pool c single /\ (s ∉ kind_taken single (w_table w))) \/
  (exists r, r ∈ w_table w /\ single_ip r = single /\
     expired (w_clock w) (LeaseExpirationSeconds c) r = true).

Lemma room_not_exhausted c single ip w :
  ip ∉ map row_underlay_ip (w_table w) -> room c single ip w ->
  forall now, w_clock w <= now -> ~ exhausted c single now (w_table w).
Proof.
  intros Hip [?|[(s & Hs & Hn)|(r & Hr & Hk & He)]] now Hnow [Hall Hlive]; [done|auto|].
  specialize (Hlive r Hr Hk). rewrite (expired_later (w_clock w) now) in He; done.
Qed.

(** The first attempt succeeds. *)
Lemma acquire_up c base len m choices ip single w :
  configured c base len m -> (m < 32 \/ ip ∈ map row_underlay_ip (w_table w)) -> legal_choices choices ->
  0 < AcquireSubnetLeaseAttempts c -> To4 (ParseIP ip) <> [] ->
  table_wf (Pool c) (w_table w) -> unique_table (w_table w) -> room c single ip w ->
  wp store_up_step (AcquireSubnetLease c choices ip single) w
    (fun _ x => exists l, x = Ok (Some l)).
Proof.
  intros Hconf Hm Hch Hatt Hv4 Hwf Hu Hroom. unfold AcquireSubnetLease.
  rewrite decide_False by done. wp_call. intros w1 x [[Hc [Ht Hx]] Ha]. simpl in Ha.
  destruct x as [[l|]|e]; [| |done].
  - destruct Hx as [(r & -> & Hr)%list_elem_of_fmap _].
    unfold table_wf in Hwf. rewrite Forall_forall in Hwf. destruct (Hwf r Hr) as [-> _].
    simpl. eauto.
  - destruct Hm as [Hm|Hm]; [|done].
    destruct (Z.to_nat (AcquireSubnetLeaseAttempts c)) as [|k] eqn:Hk; [lia|]. simpl.
    apply wp_bind. eapply wp_mono.
    { apply (tryAcquireLease_up Hconf); rewrite ?Ht; try done.
      intros now Hnow. eapply room_not_exhausted; [done..|lia]. }
    intros w2 x [l ->]. simpl. eauto.
Qed.

(** C5. With a database that answers, from a well-formed table and with at least one
    attempt configured, a cell with an IPv4 address gets a lease whenever it has one
    already; and when blocks are shorter than 32 bits ([m < 32]; the case of 32 is
    [prefix_32_never_reclaims]), also whenever a subnet of the kind it asks for is
    free or a lease of that kind has expired: the first attempt succeeds. *)
Theorem acquire_succeeds c base len m choices ip single w :
  configured c base len m -> (m < 32 \/ ip ∈ map row_underlay_ip (w_table w)) -> legal_choices choices ->
  0 < AcquireSubnetLeaseAttempts c -> To4 (ParseIP ip) <> [] ->
  table_wf (Pool c) (w_table w) -> unique_table (w_table w) -> room c single ip w ->
  wp store_up_step (AcquireSubnetLease c choices ip single) w
    (fun _ x => exists l, x = Ok (Some l)).
Proof. exact (acquire_up c base len m choices ip single w). Qed.

(** C25. Acquiring is idempotent: a cell that asks again gets the lease it has,
    or an error of the database, and no further subnet. *)
Theorem acquire_idempotent c base len m choices choices' ip single single' w :
  configured c base len m -> legal_choices choices ->
  table_wf (Pool c) (w_table w) -> unique_table (w_table w) ->
  wp store_step
    (x <- AcquireSubnetLease c choices ip single ;;
     try l <- Ret x catch id ;;
     y <- AcquireSubnetLease c choices' ip single' ;;
     Ret (Ok (l, y))) w
    (fun w' z => forall l y, z = Ok (Some l, y) ->
       (y = Ok (Some l) \/ exists e, y = Err e) /\
       l ∈ map lease_of (w_table w') /\
       forall r, r ∈ w_table w' -> row_underlay_ip r = ip -> lease_of r = l).
Proof.
  intros Hconf Hch Hwf Hu. apply wp_bind. eapply wp_mono; [by apply (acquire_table c base len m)|].
  intros w1 x (Hwf1 & Hu1 & Hx). destruct x as [[l|]|e]; [| |done].
  - destruct (Hx l eq_refl) as (Hip & [Hm _] & Hin). apply wp_bind_err, wp_bind.
    assert (forall r, r ∈ w_table w1 -> row_underlay_ip r = ip -> lease_of r = l) as Hown.
    { intros r Hr Hrip. apply list_elem_of_fmap in Hin as (r' & -> & Hr').
      f_equal. eapply unique_ip; [done..|]. simpl in Hip. congruence. }
    apply acquire_wp; simpl.
    + intros w2 e _ -> l' y [= <- <-]. split_and!; eauto.
    + intros w2 l2 _ -> (r & -> & Hr)%list_elem_of_fmap Hip2 _ l' y [= <- <-].
      split_and!; [|done..]. left. by rewrite Hown.
    + intros w2 l2 e _ (r & -> & Hr)%list_elem_of_fmap Hip2 Hm2.
      rewrite (Hown r Hr Hip2) in Hm2. congruence.
    + intros w2 _ [[_ Hnone]|(l2 & (r & -> & Hr)%list_elem_of_fmap & Hip2 & Hm2 & _)].
      * destruct Hnone. apply list_elem_of_fmap in Hin as (r & -> & Hr).
        simpl in Hip. rewrite <- Hip. by apply (list_elem_of_fmap_2 row_underlay_ip).
      * rewrite (Hown r Hr Hip2) in Hm2. congruence.
  - apply wp_bind_err, wp_bind. simpl.
    eapply (wp_mono _ _ _ (fun _ _ => True)); [|done]. apply wp_true.
Qed.

(** ** Renewing, releasing and listing *)

Lemma renew_ip_other now ip t r : r ∈ t -> row_underlay_ip r <> ip -> r ∈ renew_ip now ip t.
Proof.
  intros Hr Hne. apply list_elem_of_fmap. exists r. split; [|done]. by rewrite decide_False.
Qed.

Lemma renew_ip_own now t l : l ∈ map lease_of t -> lease_row now l ∈ renew_ip now (UnderlayIP l) t.
Proof.
  intros (r & -> & Hr)%list_elem_of_fmap. apply list_elem_of_fmap. exists r. split; [|done].
  by rewrite decide_True.
Qed.

(** What may happen to the table in [RenewSubnetLease]: the lease is added or
    not, then renewed or not; or nothing. *)
Definition renew_effect (l : Lease) (w w' : store_world) (t1 : list row) : Prop :=
  w_table w' = t1 \/
  exists now, w_clock w <= now <= w_clock w' /\ w_table w' = renew_ip now (UnderlayIP l) t1.

Definition renew_tail (l : Lease) : prog storeE (result unit) :=
  try _ <- trigger (RenewLeaseForUnderlayIP (UnderlayIP l))
    catch wrap "renewing lease for underlay ip" ;;
  try lastRenewedAt <- trigger (LastRenewedAtForUnderlayIP (UnderlayIP l))
    catch wrap "getting last renewed at" ;;
  Ret (Ok tt).

Lemma renew_tail_wp l w :
  wp store_step (renew_tail l) w (fun w' x =>
    w_clock w <= w_clock w' /\ renew_effect l w w' (w_table w) /\
    match x with
    | Ok _ => exists now, w_clock w <= now <= w_clock w' /\
        w_table w' = renew_ip now (UnderlayIP l) (w_table w)
    | Err e => exists msg, e = Errorf msg
    end).
Proof.
  unfold renew_tail, renew_effect. wp_call. intros w1 [u|e] [Hc H1]; simpl in H1.
  - wp_call. intros w2 [z|e] [Hc2 [Ht _]]; rewrite Ht.
    + split; [lia|]. split; [right|]; exists (w_clock w1); (split; [lia|congruence]).
    + split; [lia|]. split; [|by eexists]. right. exists (w_clock w1). split; [lia|congruence].
  - split; [done|]. split; [|by eexists]. destruct H1; [by left|]. right. exists (w_clock w1). auto with lia.
Qed.

Lemma renew_paths l w :
  unique_table (w_table w) ->
  wp store_step (RenewSubnetLease l) w (fun w' x =>
    (x = Ok tt ->
       Validate l = Ok tt /\ (l ∈ map lease_of (w_table w) \/ lease_fresh l (w_table w)) /\
       exists now, w_clock w <= now <= w_clock w' /\ lease_row now l ∈ w_table w') /\
    (forall l', l' ∈ map lease_of (w_table w) -> UnderlayIP l' = UnderlayIP l -> l' <> l ->
       w_table w' = w_table w /\
       exists e, x = Err e /\
         (Validate l = Ok tt ->
            e = NonRetriableError "lease mismatch" \/ exists msg, e = Errorf msg)) /\
    (forall r, r ∈ w_table w -> row_underlay_ip r <> UnderlayIP l -> r ∈ w_table w')).
Proof.
  intros Hu. unfold RenewSubnetLease. fold (renew_tail l).
  destruct (Validate l) as [[]|e] eqn:Hv.
  2:{ simpl. split; [done|]. split; [|done]. intros l' _ _ _. split; [done|]. by eexists. }
  wp_call. intros w1 x [Hc [Ht Hx]]. destruct x as [[l0|]|e].
  - destruct Hx as [Hin Hip]. case_decide as Hne.
    + simpl. rewrite Ht. split; [done|]. split; [|done]. intros l' _ _ _.
      split; [done|]. eexists; split; [done|]. by left.
    + assert (l0 = l) as -> by (destruct (decide (l = l0)); congruence).
      eapply wp_mono; [apply renew_tail_wp|]. intros w2 x (Hc2 & Heff & Hres). rewrite Ht in *.
      split_and!.
      * intros ->. destruct Hres as (now & Hnow & ->). split_and!; [done|by left|].
        exists now. split; [lia|]. by apply renew_ip_own.
      * intros l' Hl' Hip' Hne'. destruct Hne'.
        apply list_elem_of_fmap in Hin as (r & -> & Hr), Hl' as (r' & -> & Hr').
        f_equal. by eapply unique_ip.
      * intros r Hr Hrip. destruct Heff as [->|(now & _ & ->)]; [done|]. by apply renew_ip_other.
  - assert (forall l', l' ∈ map lease_of (w_table w) -> UnderlayIP l' <> UnderlayIP l) as Hno.
    { intros l' (r & -> & Hr)%list_elem_of_fmap Heq. apply Hx. rewrite <- Heq.
      by apply (list_elem_of_fmap_2 row_underlay_ip). }
    wp_call. intros w2 [u|e] [Hc2 Hadd]; simpl in Hadd; rewrite Ht in Hadd.
    + destruct Hadd as [Hf Ht2]. eapply wp_mono; [apply renew_tail_wp|].
      intros w3 x (Hc3 & Heff & Hres). split_and!.
      * intros ->. destruct Hres as (now & Hnow & ->). split_and!; [done|by right|].
        exists now. split; [lia|]. apply renew_ip_own. rewrite Ht2, map_app. apply elem_of_app.
        right. apply list_elem_of_singleton. by destruct l.
      * intros l' Hl' Hip'. by destruct (Hno l' Hl').
      * intros r Hr Hrip. assert (r ∈ w_table w2) by (rewrite Ht2; apply elem_of_app; by left).
        destruct Heff as [->|(now & _ & ->)]; [done|]. by apply renew_ip_other.
    + split; [done|]. split.
      * intros l' Hl' Hip'. by destruct (Hno l' Hl').
      * intros r Hr _. destruct Hadd as [->|[_ ->]]; [done|]. apply elem_of_app. by left.
  - simpl. rewrite Ht. split; [done|]. split; [|done]. intros l' _ _ _. split; [done|].
    eexists; split; [done|]. right. by eexists.
Qed.

(** C18. [RenewSubnetLease], on every path. Success: the lease is valid, is in
    the table with a renewal time of this request, and it was there before or
    violated no constraint. A lease that differs from the cell's recorded one is
    never accepted and changes nothing; its error is the one the cells do not
    retry, unless the database failed first. The rows of other cells are left
    alone in every case. *)
Theorem renew_correct l w :
  unique_table (w_table w) ->
  wp store_step (RenewSubnetLease l) w (fun w' x =>
    (x = Ok tt ->
       Validate l = Ok tt /\ (l ∈ map lease_of (w_table w) \/ lease_fresh l (w_table w)) /\
       exists now, w_clock w <= now <= w_clock w' /\ lease_row now l ∈ w_table w') /\
    (forall l', l' ∈ map lease_of (w_table w) -> UnderlayIP l' = UnderlayIP l -> l' <> l ->
       w_table w' = w_table w /\
       exists e, x = Err e /\
         (Validate l = Ok tt ->
            e = NonRetriableError "lease mismatch" \/ exists msg, e = Errorf msg)) /\
    (forall r, r ∈ w_table w -> row_underlay_ip r <> UnderlayIP l -> r ∈ w_table w')).
Proof. exact (renew_paths l w). Qed.

(** C28. [ReleaseSubnetLease] removes exactly the lease of the cell: when it
    reports success no lease of the cell is left and the others are untouched,
    when it reports an error the table is as before or after. On a database that
    does not fail it always succeeds, also when there is no lease to release. *)
Theorem release_correct ip w :
  wp store_step (ReleaseSubnetLease ip) w (fun w' x =>
    match x with
    | Ok _ => w_table w' = drop_ip ip (w_table w)
    | Err _ => w_table w' = w_table w \/ w_table w' = drop_ip ip (w_table w)
    end) /\
  wp store_up_step (ReleaseSubnetLease ip) w (fun w' x =>
    x = Ok tt /\ w_table w' = drop_ip ip (w_table w)).
Proof.
  unfold ReleaseSubnetLease. split; wp_call.
  - intros w1 [u|e] [_ Hd]; simpl in Hd; [apply Hd|].
    destruct e; simpl; try done. destruct Hd as [Hn ->]. by rewrite drop_ip_notin.
  - intros w1 [u|e] [[_ Hd] Ha]; simpl in Hd, Ha; [destruct u; split; [done|apply Hd]|].
    rewrite (Ha e eq_refl) in *. simpl. destruct Hd as [Hn ->]. by rewrite drop_ip_notin.
Qed.

(** [RoutableLeases] lists the leases that have not expired, each once, and
    changes nothing: those the daemons install routes for. *)
Theorem routable_correct c w :
  wp store_step (RoutableLeases c) w (fun w' x =>
    w_table w' = w_table w /\
    forall ls, x = Ok ls -> ls ≡ₚ map lease_of (filter (fun r =>
      expired (w_clock w') (LeaseExpirationSeconds c) r = false) (w_table w))) /\
  wp store_up_step (RoutableLeases c) w (fun _ x => is_Ok x = true).
Proof.
  unfold RoutableLeases. split; wp_call.
  - intros w1 [ls|e] [_ [Ht Hx]]; simpl; [|done]. split; [done|]. by intros ? [= <-].
  - intros w1 [ls|e] [_ Ha]; done.
Qed.

(** ** Blocks of one address *)

Section Prefix32.
Context {c : LeaseController} {base len : Z}.
Hypothesis Hconf : configured c base len 32.

Lemma member_is_single s : IsMember (Pool c) s = true -> like "%/32" s = true.
Proof.
  intros [(k & _ & ->)%(conf_pool _ _ _ _ Hconf)|(j & _ & ->)%(conf_pool _ _ _ _ Hconf)]%IsMember_iff;
    unfold subnet_at; by rewrite like_cidr_text.
Qed.

Definition all_blocks_taken (t : list row) : Prop :=
  forall s, s ∈ blockPool (Pool c) -> s ∈ map row_overlay_subnet t.

(** The queries for blocks see none of the leases. *)
Lemma subnet_post_32 w w' x :
  table_wf (Pool c) (w_table w) -> subnet_post c false w w' x -> w_table w' = w_table w.
Proof.
  intros Hwf [_ Hx].
  assert (forall r, reclaimed c false w w' r -> False) as Hno.
  { intros r [(now & _ & Hr & Hk & _) _].
    unfold table_wf in Hwf. rewrite Forall_forall in Hwf. destruct (Hwf r Hr) as [Hm _].
    apply member_is_single in Hm. change (single_ip r = true) in Hm. congruence. }
  destruct x as [s|e].
  - destruct Hx as [(-> & _)|[(r & Hr & _)|(_ & -> & _)]]; [done| |done]. by destruct (Hno r).
  - destruct Hx as [->|[r Hr]]; [done|]. by destruct (Hno r).
Qed.

Lemma lease_made_32 ip w w1 l :
  table_wf (Pool c) (w_table w) -> all_blocks_taken (w_table w) ->
  lease_made c false ip w w1 l -> lease_fresh l (w_table w1) -> False.
Proof.
  intros Hwf Hall (_ & _ & Hne & Hp) Hf. pose proof (subnet_post_32 _ _ _ Hwf Hp) as Ht.
  pose proof Hp as [_ Hx].
  apply fresh_notin in Hf as (_ & Hs & _). rewrite Ht in Hs.
  destruct Hx as [(_ & Hin & _)|[(r & [(now & _ & Hr & _) _] & E)|(E & _)]]; [|..|done].
  - by apply Hs, Hall.
  - apply Hs. rewrite E. by apply list_elem_of_fmap_2.
Qed.
End Prefix32.

