(* ===== verification/Concurrency.v ===== *)
(** * Requests in flight at the same time

    Several controllers run against one database, each serving many requests at
    once; every call of the database is one step, and the steps of the requests
    interleave in any order. The theorems: two leases in the table overlap only if a
    renewal named a subnet outside the pool ([leases_never_overlap]), and a lease that is renewed while another
    request reclaims it can be lost ([reclaim_races_with_renew]). *)

From Stdlib Require Import ZArith Lia.
From S2P Require Import Prelude GoFmt GoNet NetFacts HwAddr CidrPool Types Sql Store.
From S2P Require Import Database LeaseFacts LeaseController LeaseSafety.

(** ** The system *)

Inductive request :=
| AcquireRequest (choices : nat -> choice) (ip : string) (single : bool)
| RenewRequest (l : Lease)
| ReleaseRequest (ip : string)
| RoutableRequest.

Inductive reply :=
| AcquireReply (x : result (option Lease))
| RenewReply (x : result unit)
| ReleaseReply (x : result unit)
| RoutableReply (x : result (list Lease)).

Definition serve (c : LeaseController) (q : request) : prog storeE reply :=
  match q with
  | AcquireRequest choices ip single =>
      x <- AcquireSubnetLease c choices ip single ;; Ret (AcquireReply x)
  | RenewRequest l => x <- RenewSubnetLease l ;; Ret (RenewReply x)
  | ReleaseRequest ip => x <- ReleaseSubnetLease ip ;; Ret (ReleaseReply x)
  | RoutableRequest => x <- RoutableLeases c ;; Ret (RoutableReply x)
  end.

Record system := { world : store_world; threads : list (prog storeE reply) }.

(** The controllers share the pool [p]. [R] are the leases that requests to renew
    name: the controller does not ask its pool about them. *)
Definition admissible (p : CIDRPool) (R : Lease -> Prop) (c : LeaseController) (q : request) : Prop :=
  Pool c = p /\
  match q with
  | AcquireRequest choices _ _ => legal_choices choices
  | RenewRequest l => R l
  | _ => True
  end.

(** A request arrives; a request in flight makes its next call; a request is
    abandoned, because its controller stops. *)
Inductive sys_step (p : CIDRPool) (R : Lease -> Prop) : system -> system -> Prop :=
| arrives c q w ts :
    admissible p R c q ->
    sys_step p R {| world := w; threads := ts |} {| world := w; threads := ts ++ [serve c q] |}
| advances i X (e : storeE X) k x w w' ts :
    ts !! i = Some (Vis X e k) -> store_step X e w w' x ->
    sys_step p R {| world := w; threads := ts |} {| world := w'; threads := <[i := k x]> ts |}
| abandoned i w ts :
    sys_step p R {| world := w; threads := ts |} {| world := w; threads := delete i ts |}.

(** ** Programs that insert only leases in [K] *)

(** A subnet that can be granted: one of the pool, or one of a lease in [K], which
    is granted again when the lease has expired. *)
Definition grantable (p : CIDRPool) (K : Lease -> Prop) (s : string) : Prop :=
  IsMember p s = true \/ exists l, K l /\ OverlaySubnet l = s.

(** [K] has every lease that can come of granting such a subnet. *)
Definition regrants (p : CIDRPool) (K : Lease -> Prop) : Prop :=
  forall l, grantable p K (OverlaySubnet l) ->
    vtep_addr (OverlaySubnet l) = Some (OverlayHardwareAddr l) -> K l.

Lemma lease_wf_regrants p : regrants p (lease_wf p).
Proof. intros l [Hm|(l0 & [Hm _] & E)] Hhw; split; congruence. Qed.

(** The leases in an answer are in [K]. *)
Definition plausible (K : Lease -> Prop) {X} (e : storeE X) : X -> Prop :=
  match e with
  | LeaseForUnderlayIP _ | OldestExpiredBlockSubnet _ | OldestExpiredSingleIP _ =>
      fun x => forall l, x = Ok (Some l) -> K l
  | _ => fun _ => True
  end.

Definition insertion_wf (K : Lease -> Prop) {X} (e : storeE X) : Prop :=
  match e with AddEntry l => K l | _ => True end.

(** As long as the answers are plausible, [prg] inserts only leases in [K] and
    ends with a result in [Q]. *)
Fixpoint safe (K : Lease -> Prop) {A} (prg : prog storeE A) (Q : A -> Prop) : Prop :=
  match prg with
  | Ret a => Q a
  | Vis X e k => insertion_wf K e /\ forall x, plausible K e x -> safe K (k x) Q
  end.

Lemma safe_mono K {A} (prg : prog storeE A) (Q Q' : A -> Prop) :
  safe K prg Q -> (forall a, Q a -> Q' a) -> safe K prg Q'.
Proof.
  induction prg as [a|X e k IH]; simpl; [auto|]. intros [He Hk] HQ. split; [done|]. eauto.
Qed.

Lemma safe_bind K {A B} (prg : prog storeE A) (f : A -> prog storeE B) Q :
  safe K prg (fun a => safe K (f a) Q) -> safe K (bind prg f) Q.
Proof.
  induction prg as [a|X e k IH]; simpl; [done|]. intros [He Hk]. split; [done|]. auto.
Qed.

Lemma safe_bind_err K {A B} (prg : prog storeE (result A)) g (k : A -> prog storeE (result B)) Q :
  safe K prg (fun r => match r with Ok x => safe K (k x) Q | Err e => Q (Err (g e)) end) ->
  safe K (bind_err prg g k) Q.
Proof.
  intros H. apply safe_bind. eapply safe_mono; [exact H|]. by intros [x|e].
Qed.

Ltac safe_call := first [apply safe_bind_err | apply safe_bind | idtac]; simpl; split; [try done|].

Section Safe.
Context {p : CIDRPool} {K : Lease -> Prop}.
Hypothesis HK : regrants p K.

Lemma draw_safe single c ch taken subnet oldest prefix :
  Pool c = p -> legal_choice ch ->
  subnet = getAvailable ch taken (kind_pool c single) ->
  (forall x, plausible K oldest x -> forall l, x = Ok (Some l) -> K l) ->
  insertion_wf K oldest ->
  safe K (draw single subnet oldest prefix)
    (fun x => forall s, x = Ok s -> s <> "" -> grantable p K s).
Proof.
  intros Hc Hch Hs Hold Hi. unfold draw. case_decide as Hne.
  - apply safe_bind_err. simpl. split; [done|]. intros [[l|]|e] Hx; [| |done].
    + pose proof (Hold _ Hx l eq_refl) as Hl.
      safe_call. intros [u|e] _; simpl; [|done]. intros ? [= <-] _. right. by exists l.
    + by intros ? [= <-].
  - intros ? [= <-] _. subst p. destruct (getAvailable_cases ch taken (kind_pool c single) Hch)
      as [[E _]|[Hin _]]; [congruence|]. left. apply (kind_pool_member c single). congruence.
Qed.

Lemma try_subnet_safe c ch single ip :
  Pool c = p -> legal_choice ch ->
  safe K (try_subnet c ch single ip)
    (fun x => forall s, x = Ok s -> s <> "" -> grantable p K s).
Proof.
  intros Hc Hch. unfold try_subnet. destruct single.
  - unfold tryAcquireAvailableSingleIPSubnet. safe_call. intros [ls|e] _; [|done].
    by apply (draw_safe true c ch (map OverlaySubnet ls)).
  - unfold tryAcquireAvailableBlockSubnet. safe_call. intros [ls|e] _; [|done].
    by apply (draw_safe false c ch (map OverlaySubnet ls)).
Qed.

Lemma tryAcquireLease_safe c ch single ip :
  Pool c = p -> legal_choice ch -> safe K (tryAcquireLease c ch ip single) (fun _ => True).
Proof.
  intros Hc Hch. unfold tryAcquireLease. apply safe_bind_err. fold (try_subnet c ch single ip).
  eapply safe_mono; [by apply try_subnet_safe|]. intros [s|e] Hs; [|done].
  case_decide as Hne; [done|]. specialize (Hs s eq_refl Hne).
  destruct (ParseCIDR s) as [[vtep net]|e] eqn:Hp; [|done].
  destruct (GenerateForVTEP vtep) as [hw|e] eqn:Hg; [|done].
  safe_call.
  - apply HK; [done|]. unfold vtep_addr. simpl. by rewrite Hp, Hg.
  - by intros [u|e] _.
Qed.

Lemma acquire_loop_safe c choices attempts n ip single last :
  Pool c = p -> legal_choices choices ->
  safe K (acquire_loop c choices attempts n ip single last) (fun _ => True).
Proof.
  intros Hc Hch. revert n last. induction attempts as [|k IH]; intros n last; simpl; [done|].
  apply safe_bind. eapply safe_mono; [apply tryAcquireLease_safe; auto|].
  intros [[l|]|e] _; simpl; auto.
Qed.

Lemma AcquireSubnetLease_safe c choices ip single :
  Pool c = p -> legal_choices choices ->
  safe K (AcquireSubnetLease c choices ip single) (fun _ => True).
Proof.
  intros Hc Hch. unfold AcquireSubnetLease. case_decide; [done|].
  safe_call. intros [[l|]|e] _; [|by apply acquire_loop_safe|done].
  case_match; [done|]. safe_call. intros [u|e] _; [|done]. by apply acquire_loop_safe.
Qed.

Lemma RenewSubnetLease_safe l : K l -> safe K (RenewSubnetLease l) (fun _ => True).
Proof.
  intros Hl. unfold RenewSubnetLease. destruct (Validate l); [|done]. fold (renew_tail l).
  assert (safe K (renew_tail l) (fun _ => True)) as Htail.
  { unfold renew_tail. safe_call. intros [u|e] _; [|done]. simpl. split; [done|]. by intros [z|e] _. }
  safe_call. intros [[l0|]|e] _; [| |done].
  - by case_decide.
  - safe_call. by intros [u|e] _.
Qed.

Lemma serve_safe c q : admissible p K c q -> safe K (serve c q) (fun _ => True).
Proof.
  intros [Hc Hq]. destruct q; cbn [serve]; apply safe_bind.
  - eapply safe_mono; [by apply AcquireSubnetLease_safe|done].
  - eapply safe_mono; [by apply RenewSubnetLease_safe|done].
  - unfold ReleaseSubnetLease. safe_call. by intros [u|[]] _.
  - unfold RoutableLeases. safe_call. by intros [ls|e] _.
Qed.

(** ** The invariant *)

Definition table_ok (t : list row) : Prop := holds_all K t /\ unique_table t.

Lemma store_step_ok X (e : storeE X) w w' x :
  store_step X e w w' x -> insertion_wf K e -> table_ok (w_table w) ->
  table_ok (w_table w') /\ plausible K e x.
Proof.
  intros Hs Hi [Hwf Hu]. split; [split; [|by eapply store_step_unique]|].
  - destruct Hs as [_ Hs]. destruct e; simpl in Hs, Hi; repeat case_match; subst;
      destruct_and?; destruct_or?; destruct_and?;
      repeat match goal with H : w_table w' = _ |- _ => rewrite H end; auto with silk.
  - destruct Hs as [_ Hs]. unfold holds_all in Hwf. rewrite Forall_forall in Hwf.
    destruct e; simpl in Hs |- *; try done; intros l ->; destruct Hs as [_ Hs].
    + destruct Hs as [(r & -> & Hr)%list_elem_of_fmap _]. auto.
    + destruct Hs as (r & [_ Hr]%list_elem_of_filter & <- & _). auto.
    + destruct Hs as (r & [_ Hr]%list_elem_of_filter & <- & _). auto.
Qed.

Definition sys_ok (s : system) : Prop :=
  table_ok (w_table (world s)) /\ Forall (fun t => safe K t (fun _ => True)) (threads s).

Lemma sys_step_ok s s' : sys_step p K s s' -> sys_ok s -> sys_ok s'.
Proof.
  intros Hs [Ht Hth]. destruct Hs as [c q w ts Hq|i X e k x w w' ts Hi He|i w ts]; simpl in *.
  - split; [done|]. apply Forall_app. split; [done|]. constructor; [|done]. by apply serve_safe.
  - pose proof (Forall_lookup_1 _ _ _ _ Hth Hi) as [Hins Hk].
    destruct (store_step_ok _ _ _ _ _ He Hins Ht) as [Ht' Hpl].
    split; [done|]. apply Forall_insert; auto.
  - split; [done|]. by apply Forall_delete.
Qed.
End Safe.

(** A row that a renewal brought in: its subnet is not of the pool, and is that of
    a lease some request asked to renew. *)
Definition foreign (p : CIDRPool) (R : Lease -> Prop) (r : row) : Prop :=
  IsMember p (row_overlay_subnet r) = false /\ exists l, R l /\ OverlaySubnet l = row_overlay_subnet r.

(** A lease whose subnet is of the pool or was named by a renewal. *)
Definition known (p : CIDRPool) (R : Lease -> Prop) (l : Lease) : Prop := grantable p R (OverlaySubnet l).

Lemma known_regrants p R : regrants p (known p R).
Proof. intros l [Hm|(l0 & H & E)] _; [by left|]. unfold known in *. by rewrite <- E. Qed.

Lemma sys_step_mono p (R K : Lease -> Prop) s s' :
  (forall l, R l -> K l) -> sys_step p R s s' -> sys_step p K s s'.
Proof.
  intros HRK Hs. destruct Hs as [c q w ts [Hc Hq]|i X e k x w w' ts Hi He|i w ts];
    [|by econstructor|constructor].
  constructor. split; [done|]. destruct q; auto.
Qed.

(** Every row of a run is of the pool or foreign, and no two rows share a value of
    a unique column. *)
Lemma run_known p R s s' :
  holds_all (known p R) (w_table (world s)) -> unique_table (w_table (world s)) -> threads s = [] ->
  rtc (sys_step p R) s s' ->
  holds_all (known p R) (w_table (world s')) /\ unique_table (w_table (world s')).
Proof.
  intros Hwf Hu Hth Hrtc. assert (sys_ok (K := known p R) s') as [? _]; [|done].
  revert Hrtc. apply (rtc_ind_r (fun x => sys_ok (K := known p R) x)).
  - split; [done|]. by rewrite Hth.
  - intros y z _ Hyz Hy. eapply sys_step_ok; [apply known_regrants| |done].
    eapply sys_step_mono; [|exact Hyz]. intros l Hl. right. by exists l.
Qed.

Lemma known_cases p R t r :
  holds_all (known p R) t -> r ∈ t -> IsMember p (row_overlay_subnet r) = true \/ foreign p R r.
Proof.
  unfold holds_all. rewrite Forall_forall. intros H Hr. destruct (H r Hr) as [Hm|Hl]; [by left|].
  destruct (IsMember p (row_overlay_subnet r)) eqn:E; [by left|]. by right.
Qed.

Lemma rows_apart fuel seed range base len m p t r r' :
  overlay_network range base len -> len <= m <= 32 -> pool_fuel len m <= Z.of_nat fuel ->
  NewCIDRPool fuel (Ok seed) range m = Returns p -> unique_table t ->
  r ∈ t -> r' ∈ t -> r <> r' ->
  IsMember p (row_overlay_subnet r) = true -> IsMember p (row_overlay_subnet r') = true ->
  disjoint_subnets (row_overlay_subnet r) (row_overlay_subnet r').
Proof.
  intros Hnet Hm Hfuel Hp Hu Hr Hr' Hne Hin Hin'.
  destruct (NewCIDRPool_pool_of fuel seed range base len m) as (p' & Hp' & Hpool); [done..|].
  assert (p' = p) as -> by congruence.
  eapply members_disjoint; [by eapply overlay_network_cut|done..|].
  intros E. by destruct Hne; eapply unique_subnet.
Qed.

(** C1. From a configured network and a table without repeated subnets, however many
    controllers serve however many requests at once, whatever fails and whichever
    stop half way: at every moment two different rows of the table have different
    underlay IPs and hardware addresses, and their subnets share no address unless
    one of the two is foreign, that is, a request to renew has named its subnet,
    which is not of the pool ([R] are the leases such requests name, any leases at
    all). Acquisitions and releases alone never make leases overlap. *)
Theorem leases_never_overlap fuel seed range base len m p R s s' r r' :
  overlay_network range base len -> len <= m <= 32 -> pool_fuel len m <= Z.of_nat fuel ->
  NewCIDRPool fuel (Ok seed) range m = Returns p ->
  holds_all (known p R) (w_table (world s)) -> unique_table (w_table (world s)) -> threads s = [] ->
  rtc (sys_step p R) s s' ->
  r ∈ w_table (world s') -> r' ∈ w_table (world s') -> r <> r' ->
  (disjoint_subnets (row_overlay_subnet r) (row_overlay_subnet r') \/ foreign p R r \/ foreign p R r') /\
  row_overlay_hwaddr r <> row_overlay_hwaddr r' /\ row_underlay_ip r <> row_underlay_ip r'.
Proof.
  intros Hnet Hm Hfuel Hp Hwf Hu Hth Hrtc Hr Hr' Hne.
  destruct (run_known p R s s') as [Hwf' Hu']; [done..|]. split_and!.
  - destruct (known_cases _ _ _ _ Hwf' Hr) as [Hin|]; [|by auto].
    destruct (known_cases _ _ _ _ Hwf' Hr') as [Hin'|]; [|by auto].
    left. by eapply rows_apart.
  - intros E. destruct Hne. destruct Hu' as (_ & _ & H). by eapply NoDup_map_inj.
  - intros E. destruct Hne. by eapply unique_ip.
Qed.

(** ** Running an interleaving

    A schedule is executed on the server in memory; its run is a run of the
    system. *)

Inductive action :=
| Arrive (c : LeaseController) (q : request)
| Advance (i : nat).

Definition act (s : memory * list (prog storeE reply)) (a : action)
    : memory * list (prog storeE reply) :=
  let '(srv, ts) := s in
  match a with
  | Arrive c q => (srv, ts ++ [serve c q])
  | Advance i =>
      match ts !! i with
      | Some (Vis X e k) => let '(srv', x) := store_handle X e srv in (srv', <[i := k x]> ts)
      | _ => (srv, ts)
      end
  end.

Definition execute (srv : memory) (schedule : list action) : memory * list (prog storeE reply) :=
  foldl act (srv, []) schedule.

Definition system_of (s : memory * list (prog storeE reply)) : system :=
  {| world := store_world_of (fst s); threads := snd s |}.

Definition reply_of (t : prog storeE reply) : option reply :=
  match t with Ret r => Some r | Vis _ _ _ => None end.

Lemma act_sound p R s a :
  store_ok (fst s) -> (forall c q, a = Arrive c q -> admissible p R c q) ->
  rtc (sys_step p R) (system_of s) (system_of (act s a)) /\ store_ok (fst (act s a)).
Proof.
  destruct s as [srv ts]. intros Hok Ha. destruct a as [c q|i]; unfold act.
  - split; [|done]. apply rtc_once. constructor. by apply Ha.
  - destruct (ts !! i) as [[r|X e k]|] eqn:Hi; [by split|..|by split].
    pose proof (store_answers _ e srv Hok) as Hans.
    pose proof (store_clock_monotone _ e srv) as Hc.
    pose proof (store_stays_ok _ e srv Hok) as Hok'.
    destruct (store_handle X e srv) as [srv' x]. split; [|done].
    apply rtc_once. by econstructor.
Qed.

Lemma execute_sound p R srv schedule :
  store_ok srv -> Forall (fun a => forall c q, a = Arrive c q -> admissible p R c q) schedule ->
  rtc (sys_step p R) (system_of (srv, [])) (system_of (execute srv schedule)).
Proof.
  unfold execute. generalize (@nil (prog storeE reply)). intros ts Hok Hall.
  revert srv ts Hok. induction Hall as [|a schedule Ha Hall IH]; intros srv ts Hok; cbn [foldl]; [done|].
  destruct (act_sound p R (srv, ts) a Hok Ha) as [Hstep Hok']. etransitivity; [exact Hstep|].
  destruct (act (srv, ts) a) as [srv' ts']. by apply IH.
Qed.

(** ** A network with one block *)

Definition small_pool : CIDRPool :=
  match NewCIDRPool 8 (Ok 7) "10.255.0.0/30" 31 with
  | Returns p => p
  | _ => {| blockPool := ∅; singlePool := ∅ |}
  end.

Definition small_controller : LeaseController :=
  {| AcquireSubnetLeaseAttempts := 10; Pool := small_pool; LeaseExpirationSeconds := 100 |}.

Definition cell_lease (ip : string) : Lease :=
  {| UnderlayIP := ip; OverlaySubnet := "10.255.0.2/31";
     OverlayHardwareAddr := "ee:ee:0a:ff:00:02" |}.

Definition cell_row (ip : string) (renewed : Z) : row := lease_row renewed (cell_lease ip).

Lemma cell_lease_wf ip : lease_wf small_pool (cell_lease ip).
Proof. split; vm_compute; reflexivity. Qed.

(** A Postgres server whose clock shows 1000. *)
Definition server (rows : list row) : memory := example_server rows [].

Lemma one_row_ok ip renewed : table_ok (K := lease_wf small_pool) [cell_row ip renewed].
Proof.
  split; [constructor; [apply cell_lease_wf|done]|].
  repeat split; apply NoDup_singleton.
Qed.

(** The second cell asks for a block, and finds the first cell's lease expired;
    then the first cell renews it, start to end. *)
Definition race_schedule : list action :=
  [Arrive small_controller (AcquireRequest (fun _ => first_choice) "10.0.0.2" false);
   Arrive small_controller (RenewRequest (cell_lease "10.0.0.1"));
   Advance 0; Advance 0; Advance 0; (* no lease yet; the block is taken; it has expired *)
   Advance 1; Advance 1; Advance 1  (* the renewal *)].

Definition race_end : memory * list (prog storeE reply) :=
  execute (server [cell_row "10.0.0.1" 0]) race_schedule.

(** The acquisition, which has still to delete and to insert. *)
Definition race_acquisition : prog storeE reply :=
  default (Ret (RoutableReply (Ok []))) (snd race_end !! 0%nat).

Lemma race_run : rtc (sys_step small_pool (lease_wf small_pool))
  (system_of (server [cell_row "10.0.0.1" 0], [])) (system_of race_end).
Proof.
  apply execute_sound; [by right|].
  apply Forall_forall. intros a Ha c q ->. unfold race_schedule in Ha. rewrite !elem_of_cons in Ha.
  destruct Ha as [[= -> ->]|[[= -> ->]|Ha]]; [..|set_solver].
  - split; [done|]. intros _. apply first_choice_legal.
  - split; [done|]. apply cell_lease_wf.
Qed.

Lemma race_threads : snd race_end = [race_acquisition; Ret (RenewReply (Ok tt))].
Proof.
  unfold race_acquisition. set (ts := snd race_end).
  assert (length ts = 2%nat) as Hlen by (vm_compute; reflexivity).
  assert (ts !! 1%nat = Some (Ret (RenewReply (Ok tt)))) as H1 by (vm_compute; reflexivity).
  clearbody ts. by destruct ts as [|t0 [|t1 [|]]]; simplify_eq/=.
Qed.

Lemma race_ok : store_ok (fst race_end).
Proof.
  unfold race_end, execute. generalize race_schedule. intros schedule.
  assert (store_ok (fst (server [cell_row "10.0.0.1" 0], @nil (prog storeE reply)))) as H by by right.
  revert H. generalize (server [cell_row "10.0.0.1" 0], @nil (prog storeE reply)).
  induction schedule as [|a schedule IH]; intros s Hs; [done|]. cbn [foldl]. apply IH.
  destruct s as [srv ts], a as [c q|i]; [done|]. unfold act.
  destruct (ts !! i) as [[|X e k]|]; [done| |done].
  pose proof (store_stays_ok _ e srv Hs). by destruct (store_handle X e srv).
Qed.

(** C34. The reclaiming of an expired lease is not atomic. There is a run after which
    one request is still in flight, a renewal has reported success and its row [r] is
    in the table; the request in flight, which is an acquisition, then runs to its end
    with no other request in between, reports the very subnet of [r] as the other
    cell's lease, and has taken [r] out of the table although [r] has not expired
    even by the end. *)
Theorem reclaim_races_with_renew :
  exists s s1 w2 t r,
    rtc (sys_step small_pool (lease_wf small_pool)) s s1 /\
    table_wf small_pool (w_table (world s)) /\ unique_table (w_table (world s)) /\ threads s = [] /\
    threads s1 = [t; Ret (RenewReply (Ok tt))] /\
    r ∈ w_table (world s1) /\ lease_of r = cell_lease "10.0.0.1" /\
    exec store_step t (world s1) w2 (AcquireReply (Ok (Some (cell_lease "10.0.0.2")))) /\
    expired (w_clock w2) (LeaseExpirationSeconds small_controller) r = false /\
    map lease_of (w_table w2) = [cell_lease "10.0.0.2"].
Proof.
  destruct (one_row_ok "10.0.0.1" 0) as [Hwf Hu].
  set (final := run store_handle race_acquisition (fst race_end)).
  exists (system_of (server [cell_row "10.0.0.1" 0], [])), (system_of race_end),
    (store_world_of (fst final)), race_acquisition, (cell_row "10.0.0.1" 1005).
  split; [exact race_run|]. split; [exact Hwf|]. split; [exact Hu|]. split; [reflexivity|].
  split; [exact race_threads|]. split; [apply (bool_decide_unpack _); vm_compute; exact I|].
  split; [reflexivity|]. split; [|split; vm_compute; reflexivity].
  assert (snd final = AcquireReply (Ok (Some (cell_lease "10.0.0.2")))) as <- by (vm_compute; reflexivity).
  apply (exec_sound store_step store_handle store_ok store_world_of); [|exact race_ok].
  intros X e srv Hok. split; [by apply store_stays_ok|].
  split; [apply store_clock_monotone|by apply store_answers].
Qed.
