(* ===== verification/LeaseWitnesses.v ===== *)
(** * The theorems on leases at concrete inputs

    A network with one block ("10.255.0.2/31") and one single IP
    ("10.255.0.1/32"), on the server in memory. *)

From Stdlib Require Import ZArith Lia.
From S2P Require Import Prelude GoFmt GoNet NetFacts HwAddr CidrPool Types Sql Store.
From S2P Require Import Database LeaseFacts LeaseController LeaseSafety Concurrency.

Lemma small_pool_new : NewCIDRPool 8 (Ok 7) "10.255.0.0/30" 31 = Returns small_pool.
Proof. vm_compute. reflexivity. Qed.

Lemma small_configured : configured small_controller 184483840 30 31.
Proof.
  split; [apply (overlay_network_cut _ _ _ 31 overlay_example); lia|].
  destruct (NewCIDRPool_pool_of 8 7 "10.255.0.0/30" 184483840 30 31 overlay_example)
    as (p & Hp & Hpool); [lia|vm_compute; discriminate|].
  rewrite small_pool_new in Hp. injection Hp as <-. exact Hpool.
Qed.

Lemma server_ok rows : store_ok (server rows).
Proof. by right. Qed.

Definition any_choices : nat -> choice := fun _ => first_choice.

Lemma any_choices_legal : legal_choices any_choices.
Proof. intros n. apply first_choice_legal. Qed.

Local Abbreviation start rows := (store_world_of (server rows)).

Lemma start_ok ip renewed :
  table_wf (Pool small_controller) (w_table (start [cell_row ip renewed])) /\
  unique_table (w_table (start [cell_row ip renewed])).
Proof. apply (one_row_ok ip renewed). Qed.

Lemma empty_table_ok :
  table_wf (Pool small_controller) (w_table (start [])) /\ unique_table (w_table (start [])).
Proof. split; [constructor|]. repeat split; apply NoDup_nil_2. Qed.

Definition no_renewal (l : Lease) : Prop := False.

Lemma no_foreign p r : ~ foreign p no_renewal r.
Proof. by intros [_ (l & [] & _)]. Qed.

(** Two cells ask at the same time, one for a block and one for a single IP. *)
Definition two_cells : list action :=
  [Arrive small_controller (AcquireRequest any_choices "10.0.0.1" false);
   Arrive small_controller (AcquireRequest any_choices "10.0.0.2" true);
   Advance 0; Advance 1; Advance 0; Advance 1; Advance 1; Advance 0].

Lemma two_cells_run :
  rtc (sys_step small_pool no_renewal) (system_of (server [], [])) (system_of (execute (server []) two_cells)).
Proof.
  apply execute_sound; [by right|]. apply Forall_forall. intros a Ha c q ->.
  unfold two_cells in Ha. rewrite !elem_of_cons in Ha.
  destruct Ha as [[= -> ->]|[[= -> ->]|Ha]]; [..|set_solver];
    (split; [reflexivity|apply any_choices_legal]).
Qed.

Lemma two_cells_table :
  w_table (world (system_of (execute (server []) two_cells))) =
  [{| row_underlay_ip := "10.0.0.2"; row_overlay_subnet := "10.255.0.1/32";
      row_overlay_hwaddr := "ee:ee:0a:ff:00:01"; row_last_renewed_at := 1005 |};
   cell_row "10.0.0.1" 1006].
Proof. vm_compute. reflexivity. Qed.

Lemma leases_never_overlap_witness :
  disjoint_subnets "10.255.0.1/32" "10.255.0.2/31".
Proof.
  destruct empty_table_ok as [_ Hu].
  destruct (leases_never_overlap 8 7 "10.255.0.0/30" 184483840 30 31 small_pool no_renewal
    (system_of (server [], [])) (system_of (execute (server []) two_cells))
    {| row_underlay_ip := "10.0.0.2"; row_overlay_subnet := "10.255.0.1/32";
       row_overlay_hwaddr := "ee:ee:0a:ff:00:01"; row_last_renewed_at := 1005 |}
    (cell_row "10.0.0.1" 1006)
    overlay_example ltac:(lia) ltac:(vm_compute; discriminate) small_pool_new
    (List.Forall_nil _) Hu eq_refl two_cells_run
    ltac:(rewrite two_cells_table; apply list_elem_of_here)
    ltac:(rewrite two_cells_table; apply list_elem_of_further, list_elem_of_here) ltac:(discriminate))
    as [[H|[H|H]] _].
  - exact H.
  - by destruct (no_foreign _ _ H).
  - by destruct (no_foreign _ _ H).
Defined.

(** The acquisition of a block by a first cell, executed. *)
Local Abbreviation first_acquire := (AcquireSubnetLease small_controller any_choices "10.0.0.1" false).

Lemma acquire_grants_pool_lease_witness :
  let '(srv', x) := run store_handle first_acquire (server []) in
  x = Ok (Some (cell_lease "10.0.0.1")) /\ cell_lease "10.0.0.1" ∈ map lease_of (store_table srv').
Proof.
  destruct empty_table_ok as [Hwf Hu].
  destruct (store_wp_run first_acquire (server []) _ (server_ok _)
    (acquire_grants_pool_lease small_controller 184483840 30 31 any_choices "10.0.0.1" false
       (start []) small_configured any_choices_legal Hwf Hu)) as [(_ & _ & H) _].
  assert (snd (run store_handle first_acquire (server [])) = Ok (Some (cell_lease "10.0.0.1"))) as E
    by (vm_compute; reflexivity).
  destruct (H _ E) as (_ & _ & Hin).
  destruct (run store_handle first_acquire (server [])) as [srv' x]. split; [exact E|exact Hin].
Defined.

(** The block is live: the second cell gets nothing and the first keeps it. *)
Local Abbreviation second_acquire := (AcquireSubnetLease small_controller any_choices "10.0.0.2" false).
Local Abbreviation live_server := (server [cell_row "10.0.0.1" 990]).

Lemma acquire_keeps_live_leases_witness :
  let '(srv', x) := run store_handle second_acquire live_server in
  x = Ok None /\ cell_row "10.0.0.1" 990 ∈ store_table srv'.
Proof.
  destruct (start_ok "10.0.0.1" 990) as [_ Hu].
  assert (cell_row "10.0.0.1" 990 ∈ w_table (start [cell_row "10.0.0.1" 990])) as Hin
    by apply list_elem_of_here.
  assert (row_underlay_ip (cell_row "10.0.0.1" 990) <> "10.0.0.2") as Hip by discriminate.
  pose proof (acquire_keeps_live_leases small_controller 184483840 30 31 any_choices "10.0.0.2" false
    _ (cell_row "10.0.0.1" 990) small_configured any_choices_legal Hu Hin) as Hwp.
  destruct (store_wp_run _ live_server _ (server_ok _) Hwp) as [[H _] _].
  assert (snd (run store_handle second_acquire live_server) = Ok None) as E
    by (vm_compute; reflexivity).
  assert (expired (w_clock (store_world_of (fst (run store_handle second_acquire live_server))))
            (LeaseExpirationSeconds small_controller) (cell_row "10.0.0.1" 990) = false) as L
    by (vm_compute; reflexivity).
  specialize (H Hip L). destruct (run store_handle second_acquire live_server) as [srv' x].
  split; [exact E|exact H].
Defined.

Lemma acquire_none_exhausted_witness :
  exists now, exhausted small_controller false now
    (store_table (fst (run store_handle second_acquire live_server))).
Proof.
  destruct (start_ok "10.0.0.1" 990) as [Hwf Hu].
  destruct (store_wp_run second_acquire live_server _ (server_ok [cell_row "10.0.0.1" 990])
    (acquire_none_exhausted small_controller 184483840 30 31 any_choices "10.0.0.2" false
       (start [cell_row "10.0.0.1" 990]) small_configured any_choices_legal eq_refl Hwf Hu)) as [H _].
  assert (snd (run store_handle second_acquire live_server) = Ok None) as E
    by (vm_compute; reflexivity).
  destruct (H E) as (now & _ & He). exists now. exact He.
Defined.

(** An expired block: the second cell reclaims it. *)
Lemma acquire_succeeds_witness :
  room small_controller false "10.0.0.2" (start [cell_row "10.0.0.1" 0]) /\
  wp store_up_step second_acquire (start [cell_row "10.0.0.1" 0])
    (fun _ x => exists l, x = Ok (Some l)) /\
  snd (run store_handle second_acquire (server [cell_row "10.0.0.1" 0])) =
    Ok (Some (cell_lease "10.0.0.2")).
Proof.
  destruct (start_ok "10.0.0.1" 0) as [Hwf Hu].
  assert (room small_controller false "10.0.0.2"
            (start [cell_row "10.0.0.1" 0])) as Hroom.
  { right. right. exists (cell_row "10.0.0.1" 0). split; [apply list_elem_of_here|].
    split; vm_compute; reflexivity. }
  split; [exact Hroom|]. split; [|vm_compute; reflexivity].
  exact (acquire_succeeds small_controller 184483840 30 31 any_choices "10.0.0.2" false
    (start [cell_row "10.0.0.1" 0]) small_configured ltac:(left; lia)
    any_choices_legal eq_refl ltac:(vm_compute; discriminate) Hwf Hu Hroom).
Defined.

Local Abbreviation acquire_twice :=
  (x <- first_acquire ;;
   try l <- Ret x catch id ;;
   y <- AcquireSubnetLease small_controller any_choices "10.0.0.1" true ;;
   Ret (Ok (l, y))).

Lemma acquire_idempotent_witness :
  snd (run store_handle acquire_twice (server [])) =
    Ok (Some (cell_lease "10.0.0.1"), Ok (Some (cell_lease "10.0.0.1"))) /\
  cell_lease "10.0.0.1" ∈ map lease_of (store_table (fst (run store_handle acquire_twice (server [])))).
Proof.
  destruct empty_table_ok as [Hwf Hu].
  destruct (store_wp_run acquire_twice (server []) _ (server_ok _)
    (acquire_idempotent small_controller 184483840 30 31 any_choices any_choices "10.0.0.1" false true
       (start []) small_configured any_choices_legal Hwf Hu)) as [H _].
  assert (snd (run store_handle acquire_twice (server [])) =
    Ok (Some (cell_lease "10.0.0.1"), Ok (Some (cell_lease "10.0.0.1")))) as E
    by (vm_compute; reflexivity).
  destruct (H _ _ E) as (_ & Hin & _). split; [exact E|exact Hin].
Defined.

(** The second cell tries to renew with another hardware address. *)
Definition bad_renewal : Lease :=
  {| UnderlayIP := "10.0.0.1"; OverlaySubnet := "10.255.0.2/31";
     OverlayHardwareAddr := "ee:ee:0a:ff:00:03" |}.

Lemma renew_correct_witness :
  let '(srv', x) := run store_handle (RenewSubnetLease bad_renewal) live_server in
  x = Err (NonRetriableError "lease mismatch") /\ store_table srv' = store_table live_server.
Proof.
  destruct (start_ok "10.0.0.1" 990) as [_ Hu].
  destruct (store_wp_run (RenewSubnetLease bad_renewal) live_server _ (server_ok [cell_row "10.0.0.1" 990])
    (renew_correct bad_renewal (start [cell_row "10.0.0.1" 990]) Hu)) as [(_ & H & _) _].
  destruct (H (cell_lease "10.0.0.1")) as [Ht _].
  - apply list_elem_of_here.
  - reflexivity.
  - discriminate.
  - assert (snd (run store_handle (RenewSubnetLease bad_renewal) live_server) =
      Err (NonRetriableError "lease mismatch")) as E by (vm_compute; reflexivity).
    destruct (run store_handle (RenewSubnetLease bad_renewal) live_server) as [srv' x].
    split; [exact E|exact Ht].
Defined.

(** A network of two addresses cut into blocks of one: its only block has
    expired long ago and is not given to the second cell. *)
Definition tiny_pool : CIDRPool :=
  match NewCIDRPool 8 (Ok 7) "10.255.0.0/31" 32 with
  | Returns p => p
  | _ => {| blockPool := ∅; singlePool := ∅ |}
  end.

Definition tiny_controller : LeaseController :=
  {| AcquireSubnetLeaseAttempts := 10; Pool := tiny_pool; LeaseExpirationSeconds := 100 |}.

Lemma tiny_network : overlay_network "10.255.0.0/31" 184483840 31.
Proof. do 2 eexists. split; [vm_compute; reflexivity|]. split; vm_compute; reflexivity. Qed.

Lemma tiny_pool_new : NewCIDRPool 8 (Ok 7) "10.255.0.0/31" 32 = Returns tiny_pool.
Proof. vm_compute. reflexivity. Qed.

Lemma tiny_configured : configured tiny_controller 184483840 31 32.
Proof.
  split; [apply (overlay_network_cut _ _ _ 32 tiny_network); lia|].
  destruct (NewCIDRPool_pool_of 8 7 "10.255.0.0/31" 184483840 31 32 tiny_network)
    as (p & Hp & Hpool); [lia|vm_compute; discriminate|].
  rewrite tiny_pool_new in Hp. injection Hp as <-. exact Hpool.
Qed.

Definition tiny_row : row :=
  {| row_underlay_ip := "10.0.0.1"; row_overlay_subnet := "10.255.0.1/32";
     row_overlay_hwaddr := "ee:ee:0a:ff:00:01"; row_last_renewed_at := 0 |}.

