(* ===== verification/Http.v ===== *)
(** * The controller's HTTP API and its client

    The handlers of src/controller/handlers behind the routes of
    src/cmd/silk-controller/main.go, and the client src/controller/client.go the
    daemons use, over the vendored json_client and httperror packages. The lease
    controller is behind the interface [apiE]; the JSON encoder is an argument
    (the handlers take it as one), with the laws the two sides rely on in
    [JsonLaws]. Logging and metrics are left out. *)

From Stdlib Require Import ZArith Lia Ascii.
From S2P Require Import Prelude GoFmt Types Store LeaseController.

(** ** What the handlers are given *)

(** The interfaces leaseAcquirer, leaseReleaser, leaseRenewer, leaseRepository
    and databaseChecker. *)
Inductive apiE : Type -> Type :=
| Api_AcquireSubnetLease (underlayIP : string) (singleOverlayIP : bool) : apiE (result (option Lease))
| Api_ReleaseSubnetLease (underlayIP : string) : apiE (result unit)
| Api_RenewSubnetLease (lease : Lease) : apiE (result unit)
| Api_RoutableLeases : apiE (result (list Lease))
| Api_CheckDatabase : apiE (result unit).

(** json.Marshal and json.Unmarshal at the types of the API. *)
Record Json := {
  Marshal_Lease : Lease -> result string;
  Marshal_Leases : list Lease -> result string;
  Marshal_AcquireLeaseRequest : AcquireLeaseRequest -> result string;
  Marshal_ReleaseLeaseRequest : ReleaseLeaseRequest -> result string;
  Unmarshal_Lease : string -> result Lease;
  Unmarshal_Leases : string -> result (list Lease);
  Unmarshal_AcquireLeaseRequest : string -> result AcquireLeaseRequest;
  Unmarshal_ReleaseLeaseRequest : string -> result ReleaseLeaseRequest;
  Unmarshal_Error : string -> result string
}.

Record response := { StatusCode : Z; Body : string }.

Definition StatusOK : Z := 200.
Definition StatusBadRequest : Z := 400.
Definition StatusConflict : Z := 409.
Definition StatusInternalServerError : Z := 500.

Definition quote : string := String (chr 34) "".

(** ** httperror.ErrorResponse *)

Definition error_body (description : string) : string :=
  "{" +:+ quote +:+ "error" +:+ quote +:+ ": " +:+ quote +:+ description +:+ quote +:+ "}".

Definition respondWithCode (statusCode : Z) (description : string) : response :=
  {| StatusCode := statusCode; Body := error_body description |}.

Definition InternalServerError : string -> response := respondWithCode StatusInternalServerError.
Definition BadRequest : string -> response := respondWithCode StatusBadRequest.
Definition Conflict : string -> response := respondWithCode StatusConflict.

(** [w.Write(bytes)] with no status set before. *)
Definition write (bytes : string) : response := {| StatusCode := StatusOK; Body := bytes |}.

(** ** The handlers *)

Section Handlers.
Context (json : Json).

(** [body] is what [ioutil.ReadAll(req.Body)] returns. *)
Definition LeasesAcquire_ServeHTTP (body : result string) : prog apiE response :=
  match body with
  | Err err => Ret (BadRequest ("read-body: " +:+ Error err))
  | Ok bodyBytes =>
      match Unmarshal_AcquireLeaseRequest json bodyBytes with
      | Err err => Ret (BadRequest ("unmarshal-request: " +:+ Error err))
      | Ok payload =>
          r <- trigger (Api_AcquireSubnetLease (Acquire_UnderlayIP payload)
                          (Acquire_SingleOverlayIP payload)) ;;
          match r with
          | Err err => Ret (InternalServerError (Error err))
          | Ok None => Ret (Conflict "no lease available")
          | Ok (Some lease) =>
              match Marshal_Lease json lease with
              | Err err => Ret (InternalServerError ("marshal-response: " +:+ Error err))
              | Ok bytes => Ret (write bytes)
              end
          end
      end
  end.

Definition LeasesIndex_ServeHTTP : prog apiE response :=
  r <- trigger Api_RoutableLeases ;;
  match r with
  | Err err => Ret (InternalServerError ("all-routable-leases: " +:+ Error err))
  | Ok leases =>
      match Marshal_Leases json leases with
      | Err err => Ret (InternalServerError ("marshal-response: " +:+ Error err))
      | Ok bytes => Ret (write bytes)
      end
  end.

Definition ReleaseLease_ServeHTTP (body : result string) : prog apiE response :=
  match body with
  | Err err => Ret (BadRequest ("read-body: " +:+ Error err))
  | Ok bodyBytes =>
      match Unmarshal_ReleaseLeaseRequest json bodyBytes with
      | Err err => Ret (BadRequest ("unmarshal-request: " +:+ Error err))
      | Ok payload =>
          r <- trigger (Api_ReleaseSubnetLease (Release_UnderlayIP payload)) ;;
          match r with
          | Err err => Ret (InternalServerError (Error err))
          | Ok _ => Ret (write "{}")
          end
      end
  end.

Definition RenewLease_ServeHTTP (body : result string) : prog apiE response :=
  match body with
  | Err err => Ret (BadRequest ("read-body: " +:+ Error err))
  | Ok bodyBytes =>
      match Unmarshal_Lease json bodyBytes with
      | Err err => Ret (BadRequest ("unmarshal-request: " +:+ Error err))
      | Ok lease =>
          r <- trigger (Api_RenewSubnetLease lease) ;;
          match r with
          | Err (NonRetriableError msg) =>
              Ret (Conflict ("renew-subnet-lease: " +:+ Error (NonRetriableError msg)))
          | Err err => Ret (InternalServerError ("renew-subnet-lease: " +:+ Error err))
          | Ok _ => Ret (write "{}")
          end
      end
  end.

Definition Health_ServeHTTP : prog apiE response :=
  r <- trigger Api_CheckDatabase ;;
  match r with
  | Err err => Ret (InternalServerError "check database failed")
  | Ok _ => Ret (write "")
  end.

(** [LogWrap] runs the handler and adds log lines around it. *)
Definition LogWrap (handler : result string -> prog apiE response) (body : result string)
    : prog apiE response := handler body.

(** The routes of the main server; [not_found] is the answer of the router to
    anything else. *)
Definition router (not_found : string -> string -> response) (method path : string) (body : result string)
    : prog apiE response :=
  if decide (method = "GET" /\ path = "/leases") then LogWrap (fun _ => LeasesIndex_ServeHTTP) body
  else if decide (method = "PUT" /\ path = "/leases/acquire") then
    LogWrap LeasesAcquire_ServeHTTP body
  else if decide (method = "PUT" /\ path = "/leases/release") then
    LogWrap ReleaseLease_ServeHTTP body
  else if decide (method = "PUT" /\ path = "/leases/renew") then LogWrap RenewLease_ServeHTTP body
  else Ret (not_found method path).

End Handlers.

(** ** The client *)

(** [http.NewRequest] and [HttpClient.Do]: the status of the response and what
    reading its body gives. *)
Inductive httpE : Type -> Type :=
| NewRequest (method url : string) : httpE (result unit)
| Http_Do (method url : string) (body : option string) : httpE (result (Z * result string)).

Module Client.
Section Client.
Context (json : Json) (baseURL : string).

(** json_client.Do; [respData] decodes a successful response, and is [fun _ => Ok tt]
    where the Go code passes nil. *)
Definition Do {Resp} (method route : string) (reqData : option (result string))
    (respData : string -> result Resp) : prog httpE (result Resp) :=
  let send (body : option string) : prog httpE (result Resp) :=
    let reqURL := baseURL +:+ route in
    try _ <- trigger (NewRequest method reqURL) catch wrap "http new request" ;;
    try resp <- trigger (Http_Do method reqURL body) catch wrap "http client do" ;;
    match snd resp with
    | Err err => Ret (Err (wrap "body read" err))
    | Ok respBytes =>
        if 299 <? fst resp then
          let errDescription :=
            match Unmarshal_Error json respBytes with Err _ => respBytes | Ok d => d end in
          Ret (Err (HttpResponseCodeError (fst resp) errDescription))
        else
          match respData respBytes with
          | Err err => Ret (Err (wrap "json unmarshal" err))
          | Ok r => Ret (Ok r)
          end
    end in
  match reqData with
  | Some data =>
      if decide (method <> "GET") then
        match data with
        | Err err => Ret (Err (wrap "json marshal request body" err))
        | Ok bodyBytes => send (Some bodyBytes)
        end
      else send None
  | None => send None
  end.

Definition GetActiveLeases : prog httpE (result (list Lease)) :=
  Do "GET" "/leases" None (Unmarshal_Leases json).

Definition acquireLease (underlayIP : string) (singleOverlayIP : bool) : prog httpE (result Lease) :=
  let request := {| Acquire_UnderlayIP := underlayIP; Acquire_SingleOverlayIP := singleOverlayIP |} in
  Do "PUT" "/leases/acquire" (Some (Marshal_AcquireLeaseRequest json request)) (Unmarshal_Lease json).

Definition AcquireSubnetLease (underlayIP : string) : prog httpE (result Lease) :=
  acquireLease underlayIP false.

Definition AcquireSingleOverlayIPLease (underlayIP : string) : prog httpE (result Lease) :=
  acquireLease underlayIP true.

Definition RenewSubnetLease (lease : Lease) : prog httpE (result unit) :=
  err <- Do "PUT" "/leases/renew" (Some (Marshal_Lease json lease)) (fun _ => Ok tt) ;;
  match err with
  | Err (HttpResponseCodeError statusCode message) =>
      if statusCode =? StatusConflict then
        Ret (Err (NonRetriableError ("non-retriable: " +:+ message)))
      else Ret err
  | _ => Ret err
  end.

Definition ReleaseSubnetLease (underlayIP : string) : prog httpE (result unit) :=
  Do "PUT" "/leases/release"
    (Some (Marshal_ReleaseLeaseRequest json {| Release_UnderlayIP := underlayIP |})) (fun _ => Ok tt).

End Client.
End Client.
