(* ===== verification/HttpFacts.v ===== *)
(** * The API end to end

    The client of Http.v connected to the handlers of Http.v: what a daemon
    receives for each answer of the lease controller. [canonical_json] is an
    encoder that keeps the laws asked of encoding/json. *)

From Stdlib Require Import ZArith Lia Ascii.
From S2P Require Import Prelude GoFmt Types Http.

(** ** The laws of the encoder *)

(** Printable ASCII, and printable text that JSON needs not escape. *)
Definition printable (s : string) : bool := str_all (fun c => (32 <=? code c) && (code c <=? 126)) s.

Definition plain (s : string) : bool :=
  printable s && str_all (fun c => negb (code c =? 34) && negb (code c =? 92)) s.

Definition lease_text (l : Lease) : bool :=
  printable (UnderlayIP l) && printable (OverlaySubnet l) && printable (OverlayHardwareAddr l).

(** encoding/json reads back what it writes of printable text, and reads the
    description of the error body httperror writes when it has no quotes. *)
Record JsonLaws (json : Json) : Prop := {
  lease_roundtrip l : lease_text l = true ->
    exists b, Marshal_Lease json l = Ok b /\ Unmarshal_Lease json b = Ok l;
  leases_roundtrip ls : Forall (fun l => lease_text l = true) ls ->
    exists b, Marshal_Leases json ls = Ok b /\ Unmarshal_Leases json b = Ok ls;
  acquire_roundtrip ip single : printable ip = true ->
    let q := {| Acquire_UnderlayIP := ip; Acquire_SingleOverlayIP := single |} in
    exists b, Marshal_AcquireLeaseRequest json q = Ok b /\
      Unmarshal_AcquireLeaseRequest json b = Ok q;
  release_roundtrip ip : printable ip = true ->
    let q := {| Release_UnderlayIP := ip |} in
    exists b, Marshal_ReleaseLeaseRequest json q = Ok b /\
      Unmarshal_ReleaseLeaseRequest json b = Ok q;
  error_roundtrip d : plain d = true -> Unmarshal_Error json (error_body d) = Ok d
}.

(** ** The connection *)

Fixpoint strip_prefix (p s : string) : option string :=
  match p, s with
  | EmptyString, _ => Some s
  | String a p', String b s' => if Ascii.eqb a b then strip_prefix p' s' else None
  | _, _ => None
  end.

Lemma strip_prefix_app p s : strip_prefix p (p +:+ s) = Some s.
Proof. induction p as [|a p IH]; [done|]. simpl. by rewrite Ascii.eqb_refl. Qed.

Section EndToEnd.
Context (json : Json) (baseURL : string) (not_found : string -> string -> response).
Context {S : Type} (api : handler apiE S).

(** A transport that delivers every request and every response. *)
Definition link : handler httpE S := fun X e s =>
  match e in httpE X return S * X with
  | NewRequest _ _ => (s, Ok tt)
  | Http_Do method url body =>
      match strip_prefix baseURL url with
      | Some path =>
          let '(s', r) := run api (router json not_found method path (Ok (default "" body))) s in
          (s', Ok (StatusCode r, Ok (Body r)))
      | None => (s, Err (Errorf "no such host"))
      end
  end.

(** The description the client reads out of an error response. *)
Definition received (description : string) : string :=
  match Unmarshal_Error json (error_body description) with
  | Err _ => error_body description
  | Ok d => d
  end.

(** [Do] over the connection, in terms of the response of the router. *)
Definition answer {Resp} (respData : string -> result Resp) (r : response) : result Resp :=
  if 299 <? StatusCode r then
    Err (HttpResponseCodeError (StatusCode r)
           match Unmarshal_Error json (Body r) with Err _ => Body r | Ok d => d end)
  else match respData (Body r) with Err e => Err (wrap "json unmarshal" e) | Ok x => Ok x end.

Lemma Do_link {Resp} method path body (respData : string -> result Resp) s :
  (match body with Some _ => method <> "GET" | None => True end) ->
  run link (Client.Do json baseURL method path (option_map Ok body) respData) s =
  let '(s', r) := run api (router json not_found method path (Ok (default "" body))) s in
  (s', answer respData r).
Proof.
  intros Hm. unfold Client.Do, answer.
  destruct body as [b|]; simpl option_map; cbv iota beta; [rewrite decide_True by done|];
    step_run; simpl; rewrite strip_prefix_app;
    destruct (run api _ s) as [s' r]; simpl; (destruct (299 <? StatusCode r); [done|]);
    by destruct (respData (Body r)).
Qed.

Hypothesis Hjson : JsonLaws json.

Lemma received_plain d : plain d = true -> received d = d.
Proof. intros Hd. unfold received. by rewrite (error_roundtrip json Hjson). Qed.

Lemma answer_error {Resp} (respData : string -> result Resp) code d :
  299 < code -> answer respData (respondWithCode code d) = Err (HttpResponseCodeError code (received d)).
Proof. intros Hc. unfold answer. simpl. by replace (299 <? code) with true by lia. Qed.

Lemma acquireLease_link ip single s :
  printable ip = true ->
  let '(s', x) := api _ (Api_AcquireSubnetLease ip single) s in
  (forall l, x = Ok (Some l) -> lease_text l = true) ->
  run link (Client.acquireLease json baseURL ip single) s =
  (s', match x with
       | Ok (Some l) => Ok l
       | Ok None => Err (HttpResponseCodeError 409 (received "no lease available"))
       | Err e => Err (HttpResponseCodeError 500 (received (Error e)))
       end).
Proof.
  intros Hip. destruct (acquire_roundtrip json Hjson ip single Hip) as (b & Hm & Hu).
  unfold Client.acquireLease. rewrite Hm. change (Some (Ok b)) with (option_map (@Ok string) (Some b)).
  rewrite Do_link by done. unfold router.
  rewrite decide_False by (by intros [? _]). rewrite decide_True by done.
  unfold LogWrap, LeasesAcquire_ServeHTTP. simpl default. rewrite Hu. step_run.
  simpl Acquire_UnderlayIP. simpl Acquire_SingleOverlayIP.
  destruct (api _ _ s) as [s' [[l|]|e]]; intros Hl; simpl.
  - destruct (lease_roundtrip json Hjson l (Hl l eq_refl)) as (b' & -> & Hl'). simpl.
    unfold answer. simpl. by rewrite Hl'.
  - unfold Conflict. by rewrite answer_error.
  - unfold InternalServerError. by rewrite answer_error.
Qed.

Lemma RenewSubnetLease_link l s :
  lease_text l = true ->
  run link (Client.RenewSubnetLease json baseURL l) s =
  let '(s', x) := api _ (Api_RenewSubnetLease l) s in
  (s', match x with
       | Ok _ => Ok tt
       | Err (NonRetriableError msg) =>
           Err (NonRetriableError ("non-retriable: " +:+ received ("renew-subnet-lease: " +:+ msg)))
       | Err e => Err (HttpResponseCodeError 500 (received ("renew-subnet-lease: " +:+ Error e)))
       end).
Proof.
  intros Hl. destruct (lease_roundtrip json Hjson l Hl) as (b & Hm & Hu).
  unfold Client.RenewSubnetLease. rewrite Hm. change (Some (Ok b)) with (option_map (@Ok string) (Some b)).
  rewrite run_bind, Do_link by done. unfold router.
  do 3 (rewrite decide_False by (by intros [? ?])). rewrite decide_True by done.
  unfold LogWrap, RenewLease_ServeHTTP. simpl default. rewrite Hu. step_run.
  destruct (api _ _ s) as [s' [u|e]]; [done|].
  destruct e; cbn [run]; unfold Conflict, InternalServerError; by rewrite answer_error.
Qed.

Lemma ReleaseSubnetLease_link ip s :
  printable ip = true ->
  run link (Client.ReleaseSubnetLease json baseURL ip) s =
  let '(s', x) := api _ (Api_ReleaseSubnetLease ip) s in
  (s', match x with
       | Ok _ => Ok tt
       | Err e => Err (HttpResponseCodeError 500 (received (Error e)))
       end).
Proof.
  intros Hip. destruct (release_roundtrip json Hjson ip Hip) as (b & Hm & Hu).
  unfold Client.ReleaseSubnetLease. rewrite Hm.
  change (Some (Ok b)) with (option_map (@Ok string) (Some b)).
  rewrite Do_link by done. unfold router.
  do 2 (rewrite decide_False by (by intros [? ?])). rewrite decide_True by done.
  unfold LogWrap, ReleaseLease_ServeHTTP. simpl default. rewrite Hu. step_run.
  destruct (api _ _ s) as [s' [u|e]]; [done|].
  cbn [run]. unfold InternalServerError. by rewrite answer_error.
Qed.

Lemma GetActiveLeases_link s :
  let '(s', x) := api _ Api_RoutableLeases s in
  (forall ls, x = Ok ls -> Forall (fun l => lease_text l = true) ls) ->
  run link (Client.GetActiveLeases json baseURL) s =
  (s', match x with
       | Ok ls => Ok ls
       | Err e => Err (HttpResponseCodeError 500 (received ("all-routable-leases: " +:+ Error e)))
       end).
Proof.
  unfold Client.GetActiveLeases. change None with (option_map (@Ok string) None).
  rewrite Do_link by done. unfold router. rewrite decide_True by done.
  unfold LogWrap, LeasesIndex_ServeHTTP. step_run.
  destruct (api _ _ s) as [s' [ls|e]]; intros Hls; simpl.
  - destruct (leases_roundtrip json Hjson ls (Hls ls eq_refl)) as (b & -> & Hb). simpl.
    unfold answer. simpl. by rewrite Hb.
  - unfold InternalServerError. by rewrite answer_error.
Qed.
End EndToEnd.

(** ** An encoder that keeps the laws

    It writes what json.Marshal writes of text that needs no escaping beyond
    quotes and backslashes, and reads exactly that form. *)

Fixpoint escape (s : string) : string :=
  match s with
  | EmptyString => ""
  | String a s' =>
      if (code a =? 34) || (code a =? 92) then String (chr 92) (String a (escape s'))
      else String a (escape s')
  end.

(** Reads up to the closing quote. *)
Fixpoint unescape (s : string) : option (string * string) :=
  match s with
  | EmptyString => None
  | String a s' =>
      if code a =? 34 then Some ("", s')
      else if code a =? 92 then
        match s' with
        | EmptyString => None
        | String b s'' =>
            match unescape s'' with Some (v, rest) => Some (String b v, rest) | None => None end
        end
      else match unescape s' with Some (v, rest) => Some (String a v, rest) | None => None end
  end.

Lemma unescape_escape s rest : unescape (escape s +:+ quote +:+ rest) = Some (s, rest).
Proof.
  induction s as [|a s IH]; [done|]. cbn [escape].
  destruct (code a =? 34) eqn:E1; [cbn [orb String.append unescape]; by rewrite IH|].
  destruct (code a =? 92) eqn:E2; [cbn [orb String.append unescape]; by rewrite IH|].
  cbn [orb String.append unescape]. by rewrite E1, E2, IH.
Qed.

(** The member [key] with a string value, after the text [open]. *)
Definition put (open key value : string) : string :=
  open +:+ quote +:+ key +:+ quote +:+ ":" +:+ quote +:+ escape value +:+ quote.

Definition get (open key s : string) : option (string * string) :=
  match strip_prefix (open +:+ quote +:+ key +:+ quote +:+ ":" +:+ quote) s with
  | Some s' => unescape s'
  | None => None
  end.

Lemma get_put open key value rest : get open key (put open key value +:+ rest) = Some (value, rest).
Proof.
  unfold get, put.
  replace ((open +:+ quote +:+ key +:+ quote +:+ ":" +:+ quote +:+ escape value +:+ quote) +:+ rest)
    with ((open +:+ quote +:+ key +:+ quote +:+ ":" +:+ quote) +:+ (escape value +:+ quote +:+ rest))
    by (by rewrite !str_app_assoc).
  rewrite strip_prefix_app. apply unescape_escape.
Qed.

Definition put_lease (l : Lease) : string :=
  put "{" "underlay_ip" (UnderlayIP l) +:+ put "," "overlay_subnet" (OverlaySubnet l) +:+
  put "," "overlay_hardware_addr" (OverlayHardwareAddr l) +:+ "}".

Definition get_lease (s : string) : option (Lease * string) :=
  match get "{" "underlay_ip" s with
  | Some (ip, s1) =>
      match get "," "overlay_subnet" s1 with
      | Some (subnet, s2) =>
          match get "," "overlay_hardware_addr" s2 with
          | Some (hw, s3) =>
              match strip_prefix "}" s3 with
              | Some rest =>
                  Some ({| UnderlayIP := ip; OverlaySubnet := subnet; OverlayHardwareAddr := hw |}, rest)
              | None => None
              end
          | None => None
          end
      | None => None
      end
  | None => None
  end.

Lemma get_put_lease l rest : get_lease (put_lease l +:+ rest) = Some (l, rest).
Proof.
  unfold get_lease, put_lease. rewrite !str_app_assoc.
  rewrite get_put, get_put, get_put. simpl. by destruct l.
Qed.

(** The elements of the list, each followed by a comma or the closing bracket. *)
Fixpoint put_list (ls : list Lease) : string :=
  match ls with
  | [] => "]}"
  | [l] => put_lease l +:+ "]}"
  | l :: ls' => put_lease l +:+ "," +:+ put_list ls'
  end.

Fixpoint get_list (fuel : nat) (s : string) : option (list Lease) :=
  match fuel with
  | O => None
  | S fuel' =>
      if decide (s = "]}") then Some []
      else
        match get_lease s with
        | Some (l, rest) =>
            match strip_prefix "," rest with
            | Some rest' => match get_list fuel' rest' with Some ls => Some (l :: ls) | None => None end
            | None => if decide (rest = "]}") then Some [l] else None
            end
        | None => None
        end
  end.

Lemma put_lease_open l rest : put_lease l +:+ rest <> "]}".
Proof. unfold put_lease, put. by intros [=]. Qed.

Lemma get_put_list ls fuel : (length ls < fuel)%nat -> get_list fuel (put_list ls) = Some ls.
Proof.
  revert fuel. induction ls as [|l ls IH]; intros [|fuel] Hf; simpl in Hf; try lia; [done|].
  destruct ls as [|l' ls].
  - cbn [put_list get_list]. rewrite decide_False by apply put_lease_open.
    rewrite get_put_lease. done.
  - change (put_list (l :: l' :: ls)) with (put_lease l +:+ "," +:+ put_list (l' :: ls)).
    cbn [get_list]. rewrite decide_False by apply put_lease_open.
    rewrite get_put_lease, strip_prefix_app, IH by (simpl in *; lia). done.
Qed.

Definition of_option {A} (o : option A) : result A :=
  match o with Some a => Ok a | None => Err (Errorf "invalid character in JSON input") end.

Definition complete {A} (o : option (A * string)) : result A :=
  match o with
  | Some (a, EmptyString) => Ok a
  | _ => Err (Errorf "invalid character in JSON input")
  end.

Definition leases_open : string := "{" +:+ quote +:+ "leases" +:+ quote +:+ ":[".
Definition single_key : string := "," +:+ quote +:+ "single_overlay_ip" +:+ quote +:+ ":".
Definition error_open : string := "{" +:+ quote +:+ "error" +:+ quote +:+ ": " +:+ quote.

Definition canonical_json : Json := {|
  Marshal_Lease l := Ok (put_lease l);
  Marshal_Leases ls := Ok (leases_open +:+ put_list ls);
  Marshal_AcquireLeaseRequest q :=
    Ok (put "{" "underlay_ip" (Acquire_UnderlayIP q) +:+ single_key +:+
        (if Acquire_SingleOverlayIP q then "true}" else "false}"));
  Marshal_ReleaseLeaseRequest q := Ok (put "{" "underlay_ip" (Release_UnderlayIP q) +:+ "}");
  Unmarshal_Lease s := complete (get_lease s);
  Unmarshal_Leases s :=
    match strip_prefix leases_open s with
    | Some rest => of_option (get_list (S (String.length rest)) rest)
    | None => Err (Errorf "invalid character in JSON input")
    end;
  Unmarshal_AcquireLeaseRequest s :=
    match get "{" "underlay_ip" s with
    | Some (ip, rest) =>
        match strip_prefix single_key rest with
        | Some b =>
            if decide (b = "true}") then Ok {| Acquire_UnderlayIP := ip; Acquire_SingleOverlayIP := true |}
            else if decide (b = "false}") then
              Ok {| Acquire_UnderlayIP := ip; Acquire_SingleOverlayIP := false |}
            else Err (Errorf "invalid character in JSON input")
        | None => Err (Errorf "invalid character in JSON input")
        end
    | None => Err (Errorf "invalid character in JSON input")
    end;
  Unmarshal_ReleaseLeaseRequest s :=
    match get "{" "underlay_ip" s with
    | Some (ip, rest) =>
        if decide (rest = "}") then Ok {| Release_UnderlayIP := ip |}
        else Err (Errorf "invalid character in JSON input")
    | None => Err (Errorf "invalid character in JSON input")
    end;
  Unmarshal_Error s :=
    match strip_prefix error_open s with
    | Some s' =>
        match unescape s' with
        | Some (d, rest) => if decide (rest = "}") then Ok d else Err (Errorf "invalid character in JSON input")
        | None => Err (Errorf "invalid character in JSON input")
        end
    | None => Err (Errorf "invalid character in JSON input")
    end
|}.

Lemma escape_plain d : plain d = true -> escape d = d.
Proof.
  unfold plain. intros [_ Hd]%andb_prop. induction d as [|a d IH]; [done|].
  simpl in Hd. apply andb_prop in Hd as [Ha Hd]. apply andb_prop in Ha as [Ha1 Ha2].
  apply negb_true_iff in Ha1, Ha2. cbn [escape]. rewrite Ha1, Ha2. simpl. by rewrite IH.
Qed.

Lemma put_list_length ls : (length ls < S (String.length (put_list ls)))%nat.
Proof.
  induction ls as [|l [|l' ls] IH]; [simpl; lia..|].
  change (put_list (l :: l' :: ls)) with (put_lease l +:+ "," +:+ put_list (l' :: ls)).
  rewrite !str_length_app. cbn [length String.length] in *. lia.
Qed.

Lemma canonical_json_laws : JsonLaws canonical_json.
Proof.
  split; cbn [canonical_json Marshal_Lease Marshal_Leases Marshal_AcquireLeaseRequest
    Marshal_ReleaseLeaseRequest Unmarshal_Lease Unmarshal_Leases Unmarshal_AcquireLeaseRequest
    Unmarshal_ReleaseLeaseRequest Unmarshal_Error].
  - intros l _. eexists; split; [done|].
    rewrite <- (str_app_nil_r (put_lease l)), get_put_lease. done.
  - intros ls _. eexists; split; [done|].
    rewrite strip_prefix_app, get_put_list by apply put_list_length. done.
  - intros ip single _. eexists; split; [done|]. rewrite get_put, strip_prefix_app.
    by destruct single.
  - intros ip _. eexists; split; [done|]. by rewrite get_put.
  - intros d Hd. replace (error_body d) with (error_open +:+ (escape d +:+ quote +:+ "}")).
    + by rewrite strip_prefix_app, unescape_escape.
    + rewrite escape_plain by done. unfold error_body, error_open. by rewrite !str_app_assoc.
Qed.
