(* ===== verification/FullStack.v ===== *)
(** * The controller from its HTTP API down to the database

    [api_impl] is the wiring of src/cmd/silk-controller/main.go: the lease
    controller on the database handler on the SQL connection, behind the
    handlers of Http.v. The theorems follow a request of a daemon from the
    client through HTTP, the handler, the lease controller and SQL, and back. *)

From Stdlib Require Import ZArith Lia Ascii.
From S2P Require Import Prelude GoFmt GoNet NetFacts HwAddr CidrPool Types Sql Store.
From S2P Require Import Database LeaseFacts LeaseController LeaseSafety Concurrency LeaseWitnesses Http HttpFacts.

(** AcquireSubnetLeaseAttempts is 10 in main.go. *)
Definition main_LeaseController (pool : CIDRPool) (leaseExpirationSeconds : Z) : LeaseController :=
  {| AcquireSubnetLeaseAttempts := 10; Pool := pool;
     LeaseExpirationSeconds := leaseExpirationSeconds |}.

Definition api_impl (c : LeaseController) (choices : nat -> choice) (driver : string) {X}
    (e : apiE X) : prog dbE X :=
  let sql {A} (p : prog storeE A) : prog dbE A := interp (@DatabaseHandler_impl driver) p in
  match e with
  | Api_AcquireSubnetLease ip single => sql (AcquireSubnetLease c choices ip single)
  | Api_ReleaseSubnetLease ip => sql (ReleaseSubnetLease ip)
  | Api_RenewSubnetLease l => sql (RenewSubnetLease l)
  | Api_RoutableLeases => sql (RoutableLeases c)
  | Api_CheckDatabase => DatabaseHandler.CheckDatabase
  end.

Section Stack.
Context {S : Type} `{SqlLaws S}.
Context (c : LeaseController) (choices : nat -> choice).
Context (json : Json) (baseURL : string) (not_found : string -> string -> response).

Definition api_handle : handler apiE S := fun X e s =>
  run sql_handle (api_impl c choices (sql_driver s) e) s.

(** The client's connection to this controller. *)
Definition connection : handler httpE S := link json baseURL not_found api_handle.

Definition sql_world (s : S) : store_world := {| w_clock := sql_clock s; w_table := sql_table s |}.

Lemma acquire_stack ip single s (Q : store_world -> result (option Lease) -> Prop) :
  supported (sql_driver s) ->
  wp store_step (AcquireSubnetLease c choices ip single) (sql_world s) Q ->
  let '(s', x) := api_handle _ (Api_AcquireSubnetLease ip single) s in Q (sql_world s') x.
Proof. intros Hd Hwp. exact (interp_refines _ s Q Hd Hwp). Qed.

Lemma renew_stack l s (Q : store_world -> result unit -> Prop) :
  supported (sql_driver s) ->
  wp store_step (RenewSubnetLease l) (sql_world s) Q ->
  let '(s', x) := api_handle _ (Api_RenewSubnetLease l) s in Q (sql_world s') x.
Proof. intros Hd Hwp. exact (interp_refines _ s Q Hd Hwp). Qed.

End Stack.

(** ** The text of a lease of the network *)

Lemma printable_app a b : printable (a +:+ b) = printable a && printable b.
Proof. apply str_all_app. Qed.

Lemma printable_utoa n : 0 <= n -> printable (utoa n) = true.
Proof.
  intros Hn. eapply str_all_weaken; [|by apply utoa_all_digits].
  intros a Ha. unfold is_digit in Ha. apply andb_prop in Ha as [H1 H2].
  rewrite Z.leb_le in H1, H2. rewrite andb_true_iff, !Z.leb_le. lia.
Qed.

Lemma printable_dotted b : v4 b -> printable (dotted b) = true.
Proof.
  intros (x & y & z & w & -> & Hf)%v4_inv. rewrite !Forall_cons in Hf.
  destruct Hf as ([? _] & [? _] & [? _] & [? _] & _). cbn [dotted].
  by rewrite !printable_app, !printable_utoa.
Qed.

Lemma printable_cidr_text b n : v4 b -> 0 <= n -> printable (cidr_text b n) = true.
Proof.
  intros Hb Hn. unfold cidr_text.
  by rewrite !printable_app, printable_dotted, printable_utoa.
Qed.

Lemma printable_hex2 b : is_byte b -> printable (hex2 b) = true.
Proof. revert b. apply byte_forall. vm_compute. reflexivity. Qed.

Lemma printable_hwaddr hw : Forall is_byte hw -> printable (HardwareAddr_String hw) = true.
Proof.
  induction 1 as [|b hw Hb Hhw IH]; [done|]. destruct hw as [|b' hw].
  - by apply printable_hex2.
  - change (HardwareAddr_String (b :: b' :: hw)) with (hex2 b +:+ ":" +:+ HardwareAddr_String (b' :: hw)).
    by rewrite !printable_app, printable_hex2, IH.
Qed.

Lemma lease_wf_text c base len m l :
  configured c base len m -> lease_wf (Pool c) l -> printable (UnderlayIP l) = true ->
  lease_text l = true.
Proof.
  intros [Hcut Hpool] [Hm Hhw] Hip. unfold lease_text. rewrite Hip, andb_true_l.
  apply (member_form base len m) in Hm as (n & i & k & E & Hi & _ & Hn); [|done..].
  unfold subnet_at in E. destruct Hcut. destruct (be_bytes4_v4 (base + i)) as [Hl Hf].
  assert (0 <= n <= 32) by lia. rewrite E in Hhw |- *.
  rewrite vtep_addr_text in Hhw by done. apply (inj Some) in Hhw. rewrite <- Hhw.
  rewrite printable_cidr_text, andb_true_l by (done || lia). apply printable_hwaddr.
  constructor; [done|]. by constructor.
Qed.

(** C7. A daemon that asks the controller for a lease, through HTTP, the
    handler, the lease controller and SQL: a lease it receives is its own, is of
    the configured network and is in the table; it receives 409 only when the
    pool of that kind is exhausted, every subnet of it leased and none of these
    leases expired at some moment of the request, and 500 otherwise; and in every
    case, the database failing included, the table stays well formed. *)
Theorem daemon_acquire {S} `{SqlLaws S} c base len m choices json baseURL not_found ip single (s : S) :
  configured c base len m -> legal_choices choices -> 0 < AcquireSubnetLeaseAttempts c ->
  JsonLaws json -> printable ip = true -> supported (sql_driver s) ->
  table_wf (Pool c) (sql_table s) -> unique_table (sql_table s) ->
  let '(s', x) := run (connection c choices json baseURL not_found)
                    (Client.acquireLease json baseURL ip single) s in
  table_wf (Pool c) (sql_table s') /\ unique_table (sql_table s') /\
  match x with
  | Ok l => UnderlayIP l = ip /\ lease_wf (Pool c) l /\ l ∈ map lease_of (sql_table s')
  | Err e => exists code msg, e = HttpResponseCodeError code msg /\
      (code = 500 \/ code = 409 /\
       exists now, sql_clock s <= now <= sql_clock s' /\ exhausted c single now (sql_table s'))
  end.
Proof.
  intros Hconf Hch Hatt Hjson Hip Hd Hwf Hu.
  pose proof (acquireLease_link json baseURL not_found (api_handle c choices) Hjson ip single s Hip)
    as Hlink.
  pose proof (acquire_stack c choices ip single s _ Hd
    (wp_and _ _ _ _ _
      (acquire_table c base len m choices ip single (sql_world s) Hconf Hch Hwf Hu)
      (acquire_exhaustion c base len m choices ip single (sql_world s) Hconf Hch Hatt Hwf Hu)))
    as Hstack.
  destruct (api_handle c choices _ (Api_AcquireSubnetLease ip single) s) as [s' x].
  destruct Hstack as [(Hwf' & Hu' & Hx) Hnone]. unfold connection. rewrite Hlink.
  - split_and!; [done..|]. destruct x as [[l|]|e]; [by apply Hx| |].
    + destruct (Hnone eq_refl) as (now & Hnow & He). eauto 10.
    + eauto 6.
  - intros l ->. destruct (Hx l eq_refl) as (Hl & Hlwf & _).
    eapply lease_wf_text; [done..|]. by rewrite Hl.
Qed.

(** C8. A daemon whose lease has been given to somebody else, or changed, in the
    table learns it: through HTTP, the handler, the lease controller and SQL, its
    renewal of a valid lease that differs from the one recorded for its underlay
    IP changes nothing and ends with the error that is not retried, unless the
    database failed, which the daemon sees as a 500 it retries. *)
Theorem daemon_renew_conflict {S} `{SqlLaws S} c choices json baseURL not_found l l' (s : S) :
  JsonLaws json -> lease_text l = true -> Validate l = Ok tt -> supported (sql_driver s) ->
  unique_table (sql_table s) ->
  l' ∈ map lease_of (sql_table s) -> UnderlayIP l' = UnderlayIP l -> l' <> l ->
  let '(s', x) := run (connection c choices json baseURL not_found)
                    (Client.RenewSubnetLease json baseURL l) s in
  sql_table s' = sql_table s /\
  (x = Err (NonRetriableError "non-retriable: renew-subnet-lease: lease mismatch") \/
   exists msg, x = Err (HttpResponseCodeError 500 msg)).
Proof.
  intros Hjson Hl Hv Hd Hu Hin Hip Hne.
  pose proof (RenewSubnetLease_link json baseURL not_found (api_handle c choices) Hjson l s Hl) as Hlink.
  pose proof (renew_stack c choices l s _ Hd (renew_paths l (sql_world s) Hu)) as Hstack.
  destruct (api_handle c choices _ (Api_RenewSubnetLease l) s) as [s' x].
  destruct Hstack as (_ & Hmis & _). destruct (Hmis l' Hin Hip Hne) as [Ht (e & -> & He)].
  unfold connection. rewrite Hlink. split; [done|].
  destruct (He Hv) as [->|[msg ->]]; [|by eauto]. left.
  by rewrite (received_plain json Hjson).
Qed.

(** ** At concrete inputs *)

Definition not_found_page (method path : string) : response := {| StatusCode := 404; Body := "404 page not found" |}.

Definition small_connection : handler httpE memory :=
  connection small_controller any_choices canonical_json "https://silk:4103" not_found_page.

Lemma daemon_acquire_witness :
  let '(s', x) := run small_connection
    (Client.acquireLease canonical_json "https://silk:4103" "10.0.0.1" false) (server []) in
  x = Ok (cell_lease "10.0.0.1") /\ lease_wf small_pool (cell_lease "10.0.0.1") /\
  cell_lease "10.0.0.1" ∈ map lease_of (sql_table s').
Proof.
  destruct empty_table_ok as [Hwf Hu].
  pose proof (daemon_acquire small_controller 184483840 30 31 any_choices canonical_json
    "https://silk:4103" not_found_page "10.0.0.1" false (server []) small_configured
    any_choices_legal eq_refl canonical_json_laws eq_refl (server_ok []) Hwf Hu) as Hd.
  fold small_connection in Hd.
  assert (snd (run small_connection
    (Client.acquireLease canonical_json "https://silk:4103" "10.0.0.1" false) (server []))
    = Ok (cell_lease "10.0.0.1")) as E by (vm_compute; reflexivity).
  destruct (run small_connection _ (server [])) as [s' x]. simpl in E. rewrite E in Hd |- *.
  destruct Hd as (_ & _ & _ & Hl & Hin). split; [reflexivity|]. split; [exact Hl|exact Hin].
Defined.

Lemma daemon_renew_conflict_witness :
  let '(s', x) := run small_connection
    (Client.RenewSubnetLease canonical_json "https://silk:4103" bad_renewal)
    (server [cell_row "10.0.0.1" 990]) in
  x = Err (NonRetriableError "non-retriable: renew-subnet-lease: lease mismatch") /\
  sql_table s' = [cell_row "10.0.0.1" 990].
Proof.
  destruct (start_ok "10.0.0.1" 990) as [_ Hu].
  assert (cell_lease "10.0.0.1" ∈ map lease_of (sql_table (server [cell_row "10.0.0.1" 990]))) as Hin
    by apply list_elem_of_here.
  assert (cell_lease "10.0.0.1" <> bad_renewal) as Hne by discriminate.
  pose proof (daemon_renew_conflict small_controller any_choices canonical_json
    "https://silk:4103" not_found_page bad_renewal (cell_lease "10.0.0.1")
    (server [cell_row "10.0.0.1" 990]) canonical_json_laws eq_refl eq_refl
    (server_ok [cell_row "10.0.0.1" 990]) Hu Hin eq_refl Hne) as Hd.
  fold small_connection in Hd.
  assert (snd (run small_connection
    (Client.RenewSubnetLease canonical_json "https://silk:4103" bad_renewal)
    (server [cell_row "10.0.0.1" 990]))
    = Err (NonRetriableError "non-retriable: renew-subnet-lease: lease mismatch")) as E
    by (vm_compute; reflexivity).
  destruct (run small_connection _ _) as [s' x]. simpl in E. rewrite E in Hd |- *.
  destruct Hd as [Ht _]. split; [reflexivity|exact Ht].
Defined.
