(* ===== verification/TestSupport.v ===== *)
(** * Servers for the integration tests

    src/testsupport/fakecontroller.go stands for the controller in the daemon's
    integration tests, and src/cni/integration/fake_daemon/main.go for the daemon in
    the CNI plugin's. A fake handler is shared with the test that set it, which
    later reads the last request out of it: handlers are kept in a store and
    registered by pointer. The lock makes every operation atomic. *)

From Stdlib Require Import ZArith Lia.
From S2P Require Import Prelude GoFmt Types Http HttpFacts.

(** ** testsupport.FakeController *)

Definition StatusTeapot : Z := 418.

Section FakeController.
(** What a response body is, and [json.Marshal] of it: no bytes if it fails. *)
Context {Value : Type} (Marshal : Value -> string).

Record FakeHandler := {
  LastRequestBody : string;
  ResponseCode : Z;
  ResponseBody : Value
}.

Record request := { Method : string; Path : string; Request_Body : result string }.

(** A handler function answers a request on its own. *)
Record FakeHandlerFunc := { call_func : request -> response }.

(** [memory] has the handlers the tests have made, [handlers] the pointers they
    have registered; nil is [None]. *)
Record FakeController := {
  memory : gmap nat FakeHandler;
  handlers : gmap string (option nat);
  handlerFuncs : gmap string FakeHandlerFunc
}.

Definition SetHandler (f : FakeController) (route : string) (handler : option nat) : FakeController :=
  {| memory := memory f; handlers := <[route := handler]> (handlers f);
     handlerFuncs := handlerFuncs f |}.

Definition SetHandlerFunc (f : FakeController) (route : string) (handlerFunc : FakeHandlerFunc)
    : FakeController :=
  {| memory := memory f; handlers := handlers f;
     handlerFuncs := <[route := handlerFunc]> (handlerFuncs f) |}.

Definition record_body (f : FakeController) (p : nat) (h : FakeHandler) (body : string) : FakeController :=
  {| memory := <[p := {| LastRequestBody := body; ResponseCode := ResponseCode h;
                        ResponseBody := ResponseBody h |}]> (memory f);
     handlers := handlers f; handlerFuncs := handlerFuncs f |}.

(** A pointer to no handler does not occur in Go; it is answered as nil. *)
Definition ServeHTTP (f : FakeController) (r : request) : FakeController * response :=
  match handlerFuncs f !! Path r with
  | Some fakeHandlerFunc => (f, call_func fakeHandlerFunc r)
  | None =>
      match (p ← mjoin (handlers f !! Path r); h ← memory f !! p; Some (p, h)) with
      | None => (f, {| StatusCode := StatusTeapot; Body := "{}" |})
      | Some (p, fakeHandler) =>
          match Request_Body r with
          | Err _ => (f, {| StatusCode := StatusInternalServerError; Body := "" |})
          | Ok bodyBytes =>
              (record_body f p fakeHandler bodyBytes,
               {| StatusCode := ResponseCode fakeHandler; Body := Marshal (ResponseBody fakeHandler) |})
          end
      end
  end.

(** ifrit's processes: a group of named servers is started, is ready after a while,
    is signalled, and ends. [Eventually] tells whether it came about in time. *)
Inductive processE (Server : Type) : Type -> Type :=
| Invoke (members : list (string * Server)) : processE Server nat
| Eventually_Ready (process : nat) (timeout : Z) : processE Server bool
| Signal_Interrupt (process : nat) : processE Server unit
| Eventually_Wait (process : nat) : processE Server bool
| Wait (process : nat) : processE Server (result unit).

(** The controller a test starts has no handlers; [mem] are those made so far. *)
Definition new_FakeController (mem : gmap nat FakeHandler) : FakeController :=
  {| memory := mem; handlers := ∅; handlerFuncs := ∅ |}.

Record TLSServer := { ListenAddr : string; Serving : FakeController; ServerTLS : string }.

Definition StartServer (mem : gmap nat FakeHandler) (serverListenAddr tlsConfig : string)
    : prog (processE TLSServer) (outcome (FakeController * nat)) :=
  let fakeServer := new_FakeController mem in
  let someServer := {| ListenAddr := serverListenAddr; Serving := fakeServer; ServerTLS := tlsConfig |} in
  monitor <- trigger (Invoke _ [("http_server", someServer)]) ;;
  ready <- trigger (Eventually_Ready _ monitor 30) ;;
  if (ready : bool) then Ret (Returns (fakeServer, monitor)) else Ret (Panics "Timed out").

(** A nil controller is not stopped. *)
Definition Stop (f : option nat) : prog (processE TLSServer) (outcome unit) :=
  match f with
  | None => Ret (Returns tt)
  | Some process =>
      _ <- trigger (Signal_Interrupt _ process) ;;
      ended <- trigger (Eventually_Wait _ process) ;;
      if (ended : bool) then Ret (Returns tt) else Ret (Panics "Timed out")
  end.

(** ** The client against it *)

Definition fake_link (baseURL : string) : handler httpE FakeController := fun X e f =>
  match e in httpE X return FakeController * X with
  | NewRequest _ _ => (f, Ok tt)
  | Http_Do method url body =>
      match strip_prefix baseURL url with
      | Some path =>
          let '(f', r) := ServeHTTP f {| Method := method; Path := path;
                                         Request_Body := Ok (default "" body) |} in
          (f', Ok (StatusCode r, Ok (Body r)))
      | None => (f, Err (Errorf "no such host"))
      end
  end.

Lemma ServeHTTP_handler f r p h body :
  handlerFuncs f !! Path r = None -> memory f !! p = Some h -> Request_Body r = Ok body ->
  ServeHTTP (SetHandler f (Path r) (Some p)) r =
  (record_body (SetHandler f (Path r) (Some p)) p h body,
   {| StatusCode := ResponseCode h; Body := Marshal (ResponseBody h) |}).
Proof.
  intros Hf Hp Hb. unfold ServeHTTP. change (handlerFuncs (SetHandler f _ _)) with (handlerFuncs f).
  rewrite Hf. simpl. rewrite lookup_insert_eq. simpl. by rewrite Hp, Hb.
Qed.

(** A request to a route whose handler was set: the client gets what the test put
    into the handler, and the test finds the client's request there. *)
Lemma client_meets_handler {Resp} json baseURL f method route p h body (respData : string -> result Resp) :
  method <> "GET" -> handlerFuncs f !! route = None -> memory f !! p = Some h ->
  run (fake_link baseURL)
    (Client.Do json baseURL method route (Some (Ok body)) respData) (SetHandler f route (Some p)) =
  (record_body (SetHandler f route (Some p)) p h body,
   answer json respData {| StatusCode := ResponseCode h; Body := Marshal (ResponseBody h) |}).
Proof.
  intros Hm Hf Hp. unfold Client.Do, answer. rewrite decide_True by done. step_run.
  cbn [fake_link]. step_run. cbn [fake_link]. rewrite strip_prefix_app.
  pose proof (ServeHTTP_handler f
    {| Method := method; Path := route; Request_Body := Ok (default "" (Some body)) |} p h body
    Hf Hp eq_refl) as Hserve.
  cbn [Path] in Hserve. rewrite Hserve.
  simpl. destruct (299 <? ResponseCode h); [done|]. by destruct (respData (Marshal (ResponseBody h))).
Qed.

(** What a test reads out of a handler is what the last request to it carried;
    no other handler changes. *)
Lemma record_body_reads f p h body q :
  memory (record_body f p h body) !! q =
  if decide (q = p) then
    Some {| LastRequestBody := body; ResponseCode := ResponseCode h; ResponseBody := ResponseBody h |}
  else memory f !! q.
Proof.
  simpl. case_decide as Hq; [subst; by rewrite lookup_insert_eq|by rewrite lookup_insert_ne].
Qed.

End FakeController.

(** ** The fake daemon *)

(** How the process begins: it ends at once, or serves the one response on the
    port of the local host. *)
Inductive fake_daemon_start :=
| Fatal (message : string)
| Serves (address : string) (r : response).

Definition newline : string := String (chr 10) "".

(** [strconv.Atoi]: decimal digits, perhaps after a sign, that fit an [int]. *)
Definition Atoi (s : string) : option Z :=
  let value (neg : bool) (ds : string) : option Z :=
    let z := if neg then - dec_value ds 0 else dec_value ds 0 in
    if bool_decide (ds = "") || negb (str_all is_digit ds) then None
    else if (- 2 ^ 63 <=? z) && (z <? 2 ^ 63) then Some z else None in
  match s with
  | String a ds =>
      if code a =? 45 then value true ds
      else if code a =? 43 then value false ds
      else value false s
  | EmptyString => None
  end.

Example Atoi_signs :
  map Atoi ["404"; "-7"; "+7"; "4x"; ""; "-"; "9223372036854775808"; "-9223372036854775808"] =
  [Some 404; Some (-7); Some 7; None; None; None; None; Some (- 2 ^ 63)].
Proof. vm_compute. reflexivity. Qed.

(** [args] is [os.Args]. *)
Definition fake_daemon_main (args : list string) : fake_daemon_start :=
  match args with
  | [_; port; statusCode; resp] =>
      match Atoi statusCode with
      | None => Fatal "status code must be an int"
      | Some code => Serves ("127.0.0.1:" +:+ port) {| StatusCode := code; Body := resp |}
      end
  | _ => Fatal ("expected 3 args" +:+ newline +:+ "port, statusCode, response")
  end.

Definition fake_daemon_process (args : list string) : prog (processE (string * response)) (option string) :=
  match fake_daemon_main args with
  | Fatal message => Ret (Some message)
  | Serves address r =>
      monitor <- trigger (Invoke _ [("server", (address, r))]) ;;
      err <- trigger (Wait _ monitor) ;;
      Ret (match err with Err e => Some (Error e) | Ok _ => None end)
  end.
