(* ===== verification/Planner.v ===== *)
(** * The daemon's poll loop (src/daemon/planner, src/daemon/poller)

    Every poll interval the daemon renews its lease, asks for the active leases
    and converges its routes on them. [DoCycle] is one cycle, [Run] the loop.
    Time is in nanoseconds. The theorem gives the loop's behaviour for every
    sequence of answers: which error stops the daemon and which do not. *)

From Stdlib Require Import ZArith Lia.
From S2P Require Import Prelude GoFmt Types Http.

(** ** gracefulDetector *)

(** [time.Time.Sub] saturates at the bounds of [time.Duration], an int64. *)
Definition Sub (t u : Z) : Z := Z.max (- 2 ^ 63) (Z.min (2 ^ 63 - 1) (t - u)).

Record gracefulDetector := { graceDuration : Z; lastSuccessTime : Z }.

Inductive tick := Elapsed | Signalled.

(** controllerClient, converger, metricSender, the clock, and the [select] of the
    poller between a signal and the end of the poll interval. *)
Inductive plannerE : Type -> Type :=
| Client_RenewSubnetLease (lease : Lease) : plannerE (result unit)
| Client_GetActiveLeases : plannerE (result (list Lease))
| Converger_Converge (leases : list Lease) : plannerE (result unit)
| IncrementCounter (name : string) : plannerE unit
| SendValue (name : string) (value : Z) (units : string) : plannerE unit
| Now : plannerE Z
| Select : plannerE tick.

Definition NewGracefulDetector (gd : Z) : prog plannerE gracefulDetector :=
  now <- trigger Now ;; Ret {| graceDuration := gd; lastSuccessTime := now |}.

Definition GotSuccess (fed : gracefulDetector) : prog plannerE gracefulDetector :=
  now <- trigger Now ;; Ret {| graceDuration := graceDuration fed; lastSuccessTime := now |}.

Definition IsFatal (fed : gracefulDetector) (err : error) : prog plannerE bool :=
  match err with
  | NonRetriableError _ => Ret true
  | _ => now <- trigger Now ;; Ret (graceDuration fed <=? Sub now (lastSuccessTime fed))
  end.

(** ** VXLANPlanner.DoCycle *)

Section Planner.
Context (Lease_ : Lease).

Definition DoCycle (fed : gracefulDetector) : prog plannerE (gracefulDetector * result unit) :=
  r <- trigger (Client_RenewSubnetLease Lease_) ;;
  match r with
  | Err err =>
      _ <- trigger (IncrementCounter "renewFailure") ;;
      fatal <- IsFatal fed err ;;
      if (fatal : bool) then Ret (fed, Err (FatalError ("renew lease: " +:+ Error err)))
      else Ret (fed, Err (wrap "renew lease" err))
  | Ok _ =>
      fed <- GotSuccess fed ;;
      _ <- trigger (IncrementCounter "renewSuccess") ;;
      r <- trigger Client_GetActiveLeases ;;
      match r with
      | Err err => Ret (fed, Err (wrap "get routable leases" err))
      | Ok leases =>
          _ <- trigger (SendValue "numberLeases" (Z.of_nat (length leases)) "") ;;
          r <- trigger (Converger_Converge leases) ;;
          match r with
          | Err err =>
              _ <- trigger (IncrementCounter "convergeFailure") ;;
              Ret (fed, Err (wrap "converge leases" err))
          | Ok _ =>
              _ <- trigger (IncrementCounter "convergeSuccess") ;;
              Ret (fed, Ok tt)
          end
      end
  end.

(** ** Poller *)

Definition restart_message (err : error) : error :=
  wrap ("This cell must be restarted (run " +:+ quote +:+ "bosh restart <job>" +:+ quote +:+ ")") err.

Definition runFunction (fed : gracefulDetector) : prog plannerE (gracefulDetector * result unit) :=
  r <- DoCycle fed ;;
  match r with
  | (fed, Err (FatalError msg)) => Ret (fed, Err (restart_message (FatalError msg)))
  | (fed, _) => Ret (fed, Ok tt)
  end.

(** The [for] loop of [Run]; the fuel bounds the number of turns. *)
Fixpoint poll_loop (fuel : nat) (fed : gracefulDetector) : prog plannerE (outcome (result unit)) :=
  match fuel with
  | O => Ret OutOfFuel
  | S fuel' =>
      t <- trigger Select ;;
      match t with
      | Signalled => Ret (Returns (Ok tt))
      | Elapsed =>
          r <- runFunction fed ;;
          match r with
          | (_, Err err) => Ret (Returns (Err err))
          | (fed, Ok _) => poll_loop fuel' fed
          end
      end
  end.

Definition Run (fuel : nat) (fed : gracefulDetector) : prog plannerE (outcome (result unit)) :=
  r <- runFunction fed ;;
  match r with
  | (_, Err err) => Ret (Returns (Err err))
  | (fed, Ok _) => poll_loop fuel fed
  end.

End Planner.

(** ** The loop against a sequence of answers *)

(** What the outside answers in one cycle, the clock included. *)
Record cycle := {
  cy_renew : result unit;
  cy_now : Z;
  cy_active : result (list Lease);
  cy_converge : result unit
}.

(** The current cycle, the cycles to come before the signal, and what was
    observed: the leases renewed and the lists converged on. *)
Record daemon_world := {
  dw_cycle : cycle;
  dw_rest : list cycle;
  dw_renewed : list Lease;
  dw_converged : list (list Lease)
}.

Definition daemon_handle : handler plannerE daemon_world := fun X e w =>
  match e in plannerE X return daemon_world * X with
  | Client_RenewSubnetLease l =>
      ({| dw_cycle := dw_cycle w; dw_rest := dw_rest w; dw_renewed := dw_renewed w ++ [l];
          dw_converged := dw_converged w |}, cy_renew (dw_cycle w))
  | Client_GetActiveLeases => (w, cy_active (dw_cycle w))
  | Converger_Converge ls =>
      ({| dw_cycle := dw_cycle w; dw_rest := dw_rest w; dw_renewed := dw_renewed w;
          dw_converged := dw_converged w ++ [ls] |}, cy_converge (dw_cycle w))
  | IncrementCounter _ => (w, tt)
  | SendValue _ _ _ => (w, tt)
  | Now => (w, cy_now (dw_cycle w))
  | Select =>
      match dw_rest w with
      | [] => (w, Signalled)
      | cy :: rest =>
          ({| dw_cycle := cy; dw_rest := rest; dw_renewed := dw_renewed w;
              dw_converged := dw_converged w |}, Elapsed)
      end
  end.

(** The specification. The daemon gives up in a cycle exactly when the renewal
    fails for good, or fails once more when the last renewal that succeeded is
    [graceDuration] old; nothing else stops it before the signal. *)
Definition gives_up (fed : gracefulDetector) (cy : cycle) : option error :=
  match cy_renew cy with
  | Ok _ => None
  | Err (NonRetriableError msg) => Some (NonRetriableError msg)
  | Err e => if graceDuration fed <=? Sub (cy_now cy) (lastSuccessTime fed) then Some e else None
  end.

Definition after_cycle (fed : gracefulDetector) (cy : cycle) : gracefulDetector :=
  match cy_renew cy with
  | Ok _ => {| graceDuration := graceDuration fed; lastSuccessTime := cy_now cy |}
  | Err _ => fed
  end.

Fixpoint daemon_ends (fed : gracefulDetector) (cs : list cycle) : result unit :=
  match cs with
  | [] => Ok tt
  | cy :: cs' =>
      match gives_up fed cy with
      | Some e => Err (restart_message (FatalError ("renew lease: " +:+ Error e)))
      | None => daemon_ends (after_cycle fed cy) cs'
      end
  end.

(** The lists of leases handed to the converger: the active leases of every
    cycle whose renewal succeeds, up to the one in which the daemon gives up. *)
Fixpoint daemon_converges (fed : gracefulDetector) (cs : list cycle) : list (list Lease) :=
  match cs with
  | [] => []
  | cy :: cs' =>
      match cy_renew cy, cy_active cy with
      | Ok _, Ok ls => [ls]
      | _, _ => []
      end ++
      match gives_up fed cy with
      | Some _ => []
      | None => daemon_converges (after_cycle fed cy) cs'
      end
  end.

Lemma runFunction_run l fed w :
  let '(w', (fed', x)) := run daemon_handle (runFunction l fed) w in
  dw_cycle w' = dw_cycle w /\ dw_rest w' = dw_rest w /\
  dw_renewed w' = dw_renewed w ++ [l] /\
  dw_converged w' = dw_converged w ++
    match cy_renew (dw_cycle w), cy_active (dw_cycle w) with Ok _, Ok ls => [ls] | _, _ => [] end /\
  match gives_up fed (dw_cycle w) with
  | Some e => x = Err (restart_message (FatalError ("renew lease: " +:+ Error e)))
  | None => x = Ok tt /\ fed' = after_cycle fed (dw_cycle w)
  end.
Proof.
  unfold runFunction, DoCycle, IsFatal, GotSuccess, gives_up, after_cycle. simpl.
  destruct (cy_renew (dw_cycle w)) as [u|e] eqn:Hr; simpl.
  - destruct (cy_active (dw_cycle w)) as [ls|e] eqn:Ha; simpl; [|by rewrite app_nil_r].
    by destruct (cy_converge (dw_cycle w)) as [v|e].
  - rewrite app_nil_r.
    destruct e; simpl; try destruct (graceDuration fed <=? _); simpl; split_and!; done.
Qed.

Lemma poll_loop_run l fuel fed w :
  (length (dw_rest w) < fuel)%nat ->
  let '(w', x) := run daemon_handle (poll_loop l fuel fed) w in
  x = Returns (daemon_ends fed (dw_rest w)) /\
  dw_converged w' = dw_converged w ++ daemon_converges fed (dw_rest w).
Proof.
  revert fed w. induction fuel as [|fuel IH]; intros fed w Hf; [lia|].
  cbn [poll_loop]. step_run. destruct w as [cy rest ren conv].
  cbn [daemon_handle dw_rest dw_cycle dw_renewed dw_converged] in Hf |- *.
  destruct rest as [|cy' rest]; [simpl; by rewrite app_nil_r|]. step_run.
  pose proof (runFunction_run l fed
    {| dw_cycle := cy'; dw_rest := rest; dw_renewed := ren; dw_converged := conv |}) as Hrun.
  destruct (run daemon_handle (runFunction l fed) _) as [w' [fed' x]].
  cbn [dw_rest dw_cycle dw_renewed dw_converged] in Hrun.
  destruct Hrun as (Hcy & Hrest & _ & Hconv & Hx). cbn [daemon_ends daemon_converges].
  destruct (gives_up fed cy') as [e|].
  - subst x. simpl. by rewrite app_nil_r.
  - destruct Hx as [-> ->]. rewrite <- Hrest.
    specialize (IH (after_cycle fed cy') w').
    destruct (run daemon_handle (poll_loop _ _ _) w') as [w'' x].
    destruct IH as [-> Hc]; [rewrite Hrest; simpl in Hf; lia|].
    split; [done|]. rewrite Hc, Hconv. by rewrite app_assoc.
Qed.

(** C20. The daemon's loop, for every sequence of answers of the controller, the
    kernel and the clock, up to a signal: it ends with an error exactly in the
    cycle whose renewal fails for good, or fails when the last successful one is
    [graceDuration] old, and otherwise runs until the signal and ends without
    error; failures to list or to converge never stop it; and it converges on
    the active leases of exactly the cycles in which it renewed. With fuel for
    every cycle it always returns. *)
Theorem daemon_loop_correct l fuel fed cy cs ren conv :
  (length cs < fuel)%nat ->
  let '(w', x) := run daemon_handle (Run l fuel fed)
    {| dw_cycle := cy; dw_rest := cs; dw_renewed := ren; dw_converged := conv |} in
  x = Returns (daemon_ends fed (cy :: cs)) /\
  dw_converged w' = conv ++ daemon_converges fed (cy :: cs).
Proof.
  intros Hf. unfold Run. step_run.
  pose proof (runFunction_run l fed
    {| dw_cycle := cy; dw_rest := cs; dw_renewed := ren; dw_converged := conv |}) as Hrun.
  destruct (run daemon_handle (runFunction l fed) _) as [w' [fed' x]].
  destruct Hrun as (Hcy & Hrest & _ & Hconv & Hx). simpl in *.
  destruct (gives_up fed cy) as [e|].
  - subst x. simpl. by rewrite app_nil_r.
  - destruct Hx as [-> ->]. rewrite <- Hrest.
    pose proof (poll_loop_run l fuel (after_cycle fed cy) w') as Hloop.
    destruct (run daemon_handle (poll_loop _ _ _) w') as [w'' x].
    destruct Hloop as [-> Hc]; [by rewrite Hrest|].
    split; [done|]. rewrite Hc, Hconv. by rewrite app_assoc.
Qed.

Definition example_cycle (renew : result unit) (now : Z) : cycle :=
  {| cy_renew := renew; cy_now := now; cy_active := Ok [zero_Lease]; cy_converge := Ok tt |}.

(** Two failures within a grace period of 10, then one at its end. *)
Lemma daemon_loop_correct_witness :
  let cs := [example_cycle (Err (HttpResponseCodeError 500 "x")) 9;
             example_cycle (Ok tt) 11;
             example_cycle (Err (Errorf "timeout")) 20;
             example_cycle (Err (Errorf "timeout")) 21] in
  let '(w', x) := run daemon_handle
    (Run zero_Lease 10 {| graceDuration := 10; lastSuccessTime := 0 |})
    {| dw_cycle := example_cycle (Ok tt) 1; dw_rest := cs; dw_renewed := []; dw_converged := [] |} in
  x = Returns (Err (restart_message (FatalError "renew lease: timeout"))) /\
  dw_converged w' = [[zero_Lease]; [zero_Lease]].
Proof.
  exact (daemon_loop_correct zero_Lease 10 {| graceDuration := 10; lastSuccessTime := 0 |}
    (example_cycle (Ok tt) 1)
    [example_cycle (Err (HttpResponseCodeError 500 "x")) 9;
     example_cycle (Ok tt) 11;
     example_cycle (Err (Errorf "timeout")) 20;
     example_cycle (Err (Errorf "timeout")) 21] [] [] ltac:(simpl; lia)).
Defined.
