(* ===== verification/Netlink.v ===== *)
(** * The kernel's network state, through netlink

    The types of github.com/vishvananda/netlink the program fills in, and the
    calls of the interface [netlinkAdapter] (src/daemon/vtep/factory.go), whose
    implementation src/lib/adapter/netlink_adapter.go only passes them on. The
    kernel is not part of the repository: [netlink_spec] states what the calls
    are documented to do to the routes and neighbour entries. *)

From Stdlib Require Import ZArith Lia.
From S2P Require Import Prelude GoFmt GoNet.

Definition FAMILY_V4 : Z := 2.
Definition AF_BRIDGE : Z := 7.
Definition SCOPE_UNIVERSE : Z := 0.
Definition SCOPE_LINK : Z := 253.
Definition NUD_PERMANENT : Z := 128.
Definition NTF_SELF : Z := 2.
Definition RTN_UNICAST : Z := 1.

Record Link := {
  Link_Index : Z;
  Link_Name : string;
  Link_MTU : Z;
  Link_HardwareAddr : HardwareAddr
}.

(** A VXLAN device to be created. *)
Record Vxlan := {
  Vxlan_Name : string;
  Vxlan_HardwareAddr : HardwareAddr;
  VxlanId : Z;
  SrcAddr : IP;
  Port : Z;
  VtepDevIndex : Z;
  GBP : bool
}.

Record Addr := { Addr_IPNet : IPNet; Addr_Scope : Z }.

(** [Dst] is a pointer, nil for a default route. *)
Record Route := {
  Route_LinkIndex : Z;
  Route_Scope : Z;
  Route_Dst : option IPNet;
  Route_Gw : IP;
  Route_Src : IP
}.

Record Neigh := {
  Neigh_LinkIndex : Z;
  Neigh_Family : Z;
  Neigh_State : Z;
  Neigh_Type : Z;
  Neigh_Flags : Z;
  Neigh_IP : IP;
  Neigh_HardwareAddr : HardwareAddr
}.

(** [IPNet.String], also on a nil pointer. *)
Definition Dst_String (d : option IPNet) : string :=
  match d with Some n => IPNet_String n | None => "<nil>" end.

Definition Neigh_String (n : Neigh) : string :=
  IP_String (Neigh_IP n) +:+ " " +:+ HardwareAddr_String (Neigh_HardwareAddr n).

Inductive netlinkE : Type -> Type :=
| LinkByName (name : string) : netlinkE (result Link)
| LinkByIndex (index : Z) : netlinkE (result Link)
| LinkAdd (vxlan : Vxlan) : netlinkE (result unit)
| LinkSetUp (name : string) : netlinkE (result unit)
| LinkDel (link : Link) : netlinkE (result unit)
| AddrAdd (name : string) (addr : Addr) : netlinkE (result unit)
| AddrList (link : Link) (family : Z) : netlinkE (result (list IPNet))
| RouteList (link : Link) (family : Z) : netlinkE (result (list Route))
| RouteReplace (route : Route) : netlinkE (result unit)
| RouteDel (route : Route) : netlinkE (result unit)
| NeighList (linkIndex : Z) (family : Z) : netlinkE (result (list Neigh))
| NeighSet (neigh : Neigh) : netlinkE (result unit)
| NeighDel (neigh : Neigh) : netlinkE (result unit).

(** ** lib/adapter.NetlinkAdapter: the calls that do more than pass on *)

Definition AddrAddScopeLink (name : string) (addr : IPNet) : prog netlinkE (result unit) :=
  trigger (AddrAdd name {| Addr_IPNet := addr; Addr_Scope := SCOPE_LINK |}).

Definition ARPList (linkIndex : Z) : prog netlinkE (result (list Neigh)) :=
  trigger (NeighList linkIndex FAMILY_V4).

Definition FDBList (linkIndex : Z) : prog netlinkE (result (list Neigh)) :=
  trigger (NeighList linkIndex AF_BRIDGE).

(** ** What the kernel does

    Routes are keyed by their destination. A neighbour entry is keyed by its
    device, its family and, in the ARP table, its address, in the forwarding
    table of a VXLAN device its hardware address. The kernel gives an address
    back in its own form: [same_route] and [same_neigh] compare what it keeps. *)

Definition canon (ip : IP) : IP := if decide (To4 ip = []) then ip else To4 ip.

Record same_route (r r' : Route) : Prop := {
  same_route_link : Route_LinkIndex r = Route_LinkIndex r';
  same_route_scope : Route_Scope r = Route_Scope r';
  same_route_dst : Dst_String (Route_Dst r) = Dst_String (Route_Dst r');
  same_route_gw : IP_String (Route_Gw r) = IP_String (Route_Gw r');
  same_route_src : IP_String (Route_Src r) = IP_String (Route_Src r');
  same_route_canon : canon (Route_Gw r) = canon (Route_Gw r')
}.

Record same_neigh (n n' : Neigh) : Prop := {
  same_neigh_link : Neigh_LinkIndex n = Neigh_LinkIndex n';
  same_neigh_bridge : Neigh_Family n = AF_BRIDGE <-> Neigh_Family n' = AF_BRIDGE;
  same_neigh_state : Neigh_State n = Neigh_State n';
  same_neigh_ip : IP_String (Neigh_IP n) = IP_String (Neigh_IP n');
  same_neigh_hw : HardwareAddr_String (Neigh_HardwareAddr n)
                  = HardwareAddr_String (Neigh_HardwareAddr n')
}.

Definition is_fdb (n : Neigh) : bool := Neigh_Family n =? AF_BRIDGE.

Definition neigh_key (n : Neigh) : Z * bool * string :=
  (Neigh_LinkIndex n, is_fdb n,
   if is_fdb n then HardwareAddr_String (Neigh_HardwareAddr n) else IP_String (Neigh_IP n)).

Definition dst_key (r : Route) : string := Dst_String (Route_Dst r).

(** Everything [routeEqual] of the converger looks at. *)
Definition route_id (r : Route) : Z * Z * string * string * string :=
  (Route_LinkIndex r, Route_Scope r, Dst_String (Route_Dst r), IP_String (Route_Gw r),
   IP_String (Route_Src r)).

Definition neigh_id (n : Neigh) : Z * bool * Z * string * string :=
  (Neigh_LinkIndex n, is_fdb n, Neigh_State n, IP_String (Neigh_IP n),
   HardwareAddr_String (Neigh_HardwareAddr n)).

Record kernel := { k_routes : list Route; k_neighs : list Neigh }.

Definition route_replaced (r : Route) (rs rs' : list Route) : Prop :=
  exists r', same_route r r' /\ rs' = r' :: filter (fun q => dst_key q <> dst_key r) rs.

Definition neigh_set (n : Neigh) (ns ns' : list Neigh) : Prop :=
  exists n', same_neigh n n' /\ ns' = n' :: filter (fun q => neigh_key q <> neigh_key n) ns.

Definition netlink_spec {X} (e : netlinkE X) (k k' : kernel) : X -> Prop :=
  match e with
  | LinkByIndex i => fun x => k' = k /\ forall l, x = Ok l -> Link_Index l = i
  | RouteList l family => fun x =>
      k' = k /\ forall rs, x = Ok rs -> family = FAMILY_V4 ->
        rs ≡ₚ filter (fun r => Route_LinkIndex r = Link_Index l) (k_routes k)
  | NeighList i family => fun x =>
      k' = k /\ forall ns, x = Ok ns ->
        ns ≡ₚ filter (fun n => Neigh_LinkIndex n = i /\
                               is_fdb n = bool_decide (family = AF_BRIDGE)) (k_neighs k)
  | RouteReplace r => fun x =>
      k_neighs k' = k_neighs k /\
      match x with
      | Ok _ => route_replaced r (k_routes k) (k_routes k')
      | Err _ => k_routes k' = k_routes k \/ route_replaced r (k_routes k) (k_routes k')
      end
  | RouteDel r => fun x =>
      k_neighs k' = k_neighs k /\
      match x with
      | Ok _ => k_routes k' = filter (fun q => route_id q <> route_id r) (k_routes k)
      | Err _ => k_routes k' = k_routes k \/
                 k_routes k' = filter (fun q => route_id q <> route_id r) (k_routes k)
      end
  | NeighSet n => fun x =>
      k_routes k' = k_routes k /\
      match x with
      | Ok _ => neigh_set n (k_neighs k) (k_neighs k')
      | Err _ => k_neighs k' = k_neighs k \/ neigh_set n (k_neighs k) (k_neighs k')
      end
  | NeighDel n => fun x =>
      k_routes k' = k_routes k /\
      match x with
      | Ok _ => k_neighs k' = filter (fun q => neigh_id q <> neigh_id n) (k_neighs k)
      | Err _ => k_neighs k' = k_neighs k \/
                 k_neighs k' = filter (fun q => neigh_id q <> neigh_id n) (k_neighs k)
      end
  | _ => fun _ => True
  end.

Definition netlink_step (X : Type) (e : netlinkE X) (k k' : kernel) (x : X) : Prop :=
  netlink_spec e k k' x.

Lemma Contains_canon n ip ip' : canon ip = canon ip' -> Contains n ip = Contains n ip'.
Proof. intros H. unfold Contains. unfold canon in H. by rewrite H. Qed.

Lemma same_route_id r r' : same_route r r' -> route_id r = route_id r'.
Proof. intros []. unfold route_id. congruence. Qed.

Lemma same_neigh_id n n' : same_neigh n n' -> neigh_id n = neigh_id n'.
Proof.
  intros [Hl Hb Hs Hi Hh]. unfold neigh_id, is_fdb.
  replace (Neigh_Family n' =? AF_BRIDGE) with (Neigh_Family n =? AF_BRIDGE); [congruence|].
  apply eq_true_iff_eq. by rewrite !Z.eqb_eq.
Qed.
