(* ===== verification/Converger.v ===== *)
(** * Routes to the other cells (src/daemon/vtep/converger.go)

    [Converge] makes the kernel's routes and neighbour entries on the VXLAN
    device those of the active leases: it sets the ones of every remote lease,
    then deletes the ones that were there before and belong to none. *)

From Stdlib Require Import ZArith Lia.
From S2P Require Import Prelude GoFmt GoNet Types Netlink.

Definition routeEqual (r1 r2 : Route) : bool :=
  (Route_LinkIndex r1 =? Route_LinkIndex r2) &&
  (Route_Scope r1 =? Route_Scope r2) &&
  bool_decide (Dst_String (Route_Dst r1) = Dst_String (Route_Dst r2)) &&
  bool_decide (IP_String (Route_Gw r1) = IP_String (Route_Gw r2)) &&
  bool_decide (IP_String (Route_Src r1) = IP_String (Route_Src r2)).

Definition neighEqual (n1 n2 : Neigh) : bool :=
  (Neigh_LinkIndex n1 =? Neigh_LinkIndex n2) &&
  (Neigh_State n1 =? Neigh_State n2) &&
  bool_decide (IP_String (Neigh_IP n1) = IP_String (Neigh_IP n2)) &&
  bool_decide (HardwareAddr_String (Neigh_HardwareAddr n1) =
               HardwareAddr_String (Neigh_HardwareAddr n2)).

(** The two nested loops of [getDeletedRoutes] and [getDeletedNeighs]. *)
Definition getDeletedRoutes (previous current : list Route) : list Route :=
  foldl (fun deletedRoutes previousRoute =>
    let isRemoved := foldl (fun isRemoved currentRoute =>
        isRemoved && negb (routeEqual previousRoute currentRoute)) true current in
    if isRemoved then deletedRoutes ++ [previousRoute] else deletedRoutes) [] previous.

Definition getDeletedNeighs (previous current : list Neigh) : list Neigh :=
  foldl (fun deletedNeighs previousNeigh =>
    let isRemoved := foldl (fun isRemoved currentNeigh =>
        isRemoved && negb (neighEqual previousNeigh currentNeigh)) true current in
    if isRemoved then deletedNeighs ++ [previousNeigh] else deletedNeighs) [] previous.

Record Converger := {
  OverlayNetwork : IPNet;
  LocalSubnet : IPNet;
  LocalVTEP_Index : Z
}.

Section Converger.
Context (c : Converger).

Definition isLocal (destNet : IPNet) : bool :=
  bool_decide (IPNet_String destNet = IPNet_String (LocalSubnet c)).

Definition getPreviousState : prog netlinkE (result (list Route * list Neigh)) :=
  try link <- trigger (LinkByIndex (LocalVTEP_Index c)) catch wrap "link by index" ;;
  try previousRoutes <- trigger (RouteList link FAMILY_V4) catch wrap "list routes" ;;
  try previousFDBNeighs <- FDBList (LocalVTEP_Index c) catch wrap "list fdb" ;;
  try previousARPNeighs <- ARPList (LocalVTEP_Index c) catch wrap "list arp" ;;
  Ret (Ok (previousRoutes, previousARPNeighs ++ previousFDBNeighs)).

Definition route_to (destNet : IPNet) (destAddr : IP) : Route :=
  {| Route_LinkIndex := LocalVTEP_Index c; Route_Scope := SCOPE_UNIVERSE;
     Route_Dst := Some destNet; Route_Gw := destAddr; Route_Src := IPNet_IP (LocalSubnet c) |}.

Definition addRoute (destNet : IPNet) (destAddr : IP) : prog netlinkE (result Route) :=
  let route := route_to destNet destAddr in
  try _ <- trigger (RouteReplace route) catch wrap "add route" ;;
  Ret (Ok route).

Definition arp_entry (destAddr : IP) (remoteMac : HardwareAddr) : Neigh :=
  {| Neigh_LinkIndex := LocalVTEP_Index c; Neigh_Family := 0; Neigh_State := NUD_PERMANENT;
     Neigh_Type := RTN_UNICAST; Neigh_Flags := 0; Neigh_IP := destAddr;
     Neigh_HardwareAddr := remoteMac |}.

Definition fdb_entry (underlayIP : IP) (remoteMac : HardwareAddr) : Neigh :=
  {| Neigh_LinkIndex := LocalVTEP_Index c; Neigh_Family := AF_BRIDGE; Neigh_State := NUD_PERMANENT;
     Neigh_Type := 0; Neigh_Flags := NTF_SELF; Neigh_IP := underlayIP;
     Neigh_HardwareAddr := remoteMac |}.

Definition addNeighs (underlayIP destAddr : IP) (remoteMac : HardwareAddr)
    : prog netlinkE (result (list Neigh)) :=
  let arp := arp_entry destAddr remoteMac in
  let fdb := fdb_entry underlayIP remoteMac in
  try _ <- trigger (NeighSet arp) catch wrap "set neigh" ;;
  try _ <- trigger (NeighSet fdb) catch wrap "set neigh" ;;
  Ret (Ok [arp; fdb]).

(** The loop over the leases, with the routes and neighbours set so far. *)
Fixpoint set_loop (leases : list Lease) (currentRoutes : list Route) (currentNeighs : list Neigh)
    : prog netlinkE (result (list Route * list Neigh)) :=
  match leases with
  | [] => Ret (Ok (currentRoutes, currentNeighs))
  | lease :: leases' =>
      match ParseCIDR (OverlaySubnet lease) with
      | Err err => Ret (Err (wrap "parse lease" err))
      | Ok (destAddr, destNet) =>
          if isLocal destNet then set_loop leases' currentRoutes currentNeighs
          else if negb (Contains (OverlayNetwork c) (IPNet_IP destNet)) then
            set_loop leases' currentRoutes currentNeighs
          else
            try route <- addRoute destNet destAddr catch id ;;
            let currentRoutes := currentRoutes ++ [route] in
            if decide (ParseIP (UnderlayIP lease) = []) then
              Ret (Err (Errorf ("invalid underlay ip: " +:+ UnderlayIP lease)))
            else
              let underlayIP := ParseIP (UnderlayIP lease) in
              match ParseMAC (OverlayHardwareAddr lease) with
              | Err _ => Ret (Err (Errorf ("invalid hardware addr: " +:+ OverlayHardwareAddr lease)))
              | Ok remoteMac =>
                  try neighs <- addNeighs underlayIP destAddr remoteMac catch id ;;
                  set_loop leases' currentRoutes (currentNeighs ++ neighs)
              end
      end
  end.

Fixpoint delete_routes (routes : list Route) : prog netlinkE (result unit) :=
  match routes with
  | [] => Ret (Ok tt)
  | route :: routes' =>
      if (Route_LinkIndex route =? LocalVTEP_Index c) && Contains (OverlayNetwork c) (Route_Gw route)
      then
        try _ <- trigger (RouteDel route) catch wrap "del route" ;;
        delete_routes routes'
      else delete_routes routes'
  end.

Fixpoint delete_neighs (neighs : list Neigh) : prog netlinkE (result unit) :=
  match neighs with
  | [] => Ret (Ok tt)
  | neigh :: neighs' =>
      if Neigh_LinkIndex neigh =? LocalVTEP_Index c then
        try _ <- trigger (NeighDel neigh)
          catch wrap ("del neigh with ip/hwaddr " +:+ Neigh_String neigh) ;;
        delete_neighs neighs'
      else delete_neighs neighs'
  end.

Definition Converge (leases : list Lease) : prog netlinkE (result unit) :=
  try (previousRoutes, previousNeighs) <- getPreviousState catch id ;;
  try (currentRoutes, currentNeighs) <- set_loop leases [] [] catch id ;;
  try _ <- delete_routes (getDeletedRoutes previousRoutes currentRoutes) catch id ;;
  delete_neighs (getDeletedNeighs previousNeighs currentNeighs).

End Converger.
