(* ===== verification/ConvergerFacts.v ===== *)
(** * What the converger achieves

    After a [Converge] that reports success the kernel has the route and the two
    neighbour entries of every remote lease, nothing stale is left on the VXLAN
    device, and other devices are untouched. Routes and neighbour entries are
    both tables with a key; [set_effect] is what setting some entries does. *)

From Stdlib Require Import ZArith Lia.
From S2P Require Import Prelude GoFmt GoNet NetFacts Types Netlink Converger.

(** ** Tables with a key *)

Section Keyed.
Context {T K : Type} {K_eq_dec : EqDecision K}.
Variable key : T -> K.
Variable same : T -> T -> Prop.
Hypothesis same_key : forall q r, same q r -> key q = key r.

(** [t'] is [t] with [items] set, each up to [same]. *)
Record set_effect (items t t' : list T) : Prop := {
  set_from r : r ∈ t' -> r ∈ t \/ exists q, q ∈ items /\ same q r;
  set_has : NoDup (map key items) -> forall q, q ∈ items -> exists r, r ∈ t' /\ same q r;
  set_keeps r : r ∈ t -> key r ∉ map key items -> r ∈ t'
}.

Lemma set_effect_nil t : set_effect [] t t.
Proof using Type. split; [by left| |done]. by intros _ q ?%not_elem_of_nil. Qed.

Lemma set_effect_one q r t :
  same q r -> set_effect [q] t (r :: filter (fun x => key x <> key q) t).
Proof using Type.
  intros Hs. split.
  - intros x [->|[_ Hx]%list_elem_of_filter]%elem_of_cons; [|by left].
    right. exists q. split; [by apply list_elem_of_singleton|done].
  - intros _ x ->%list_elem_of_singleton. exists r. split; [apply list_elem_of_here|done].
  - intros x Hx Hk. apply elem_of_cons. right. apply list_elem_of_filter. split; [|done].
    intros E. apply Hk. rewrite E. apply list_elem_of_here.
Qed.

Lemma set_effect_app i1 i2 t t1 t2 :
  set_effect i1 t t1 -> set_effect i2 t1 t2 -> set_effect (i1 ++ i2) t t2.
Proof.
  intros [F1 H1 K1] [F2 H2 K2]. split.
  - intros r [Hr|(q & Hq & Hs)]%F2.
    + apply F1 in Hr as [Hr|(q & Hq & Hs)]; [by left|]. right. exists q. split; [|done].
      apply elem_of_app. by left.
    + right. exists q. split; [|done]. apply elem_of_app. by right.
  - rewrite map_app. intros (N1 & Hd & N2)%NoDup_app q [Hq|Hq]%elem_of_app; [|by apply H2].
    destruct (H1 N1 q Hq) as (r & Hr & Hs). exists r. split; [|done]. apply K2; [done|].
    rewrite <- (same_key _ _ Hs). apply Hd. by apply list_elem_of_fmap_2.
  - intros r Hr Hk. rewrite map_app, not_elem_of_app in Hk. destruct Hk. auto.
Qed.
End Keyed.

Lemma same_route_key q r : same_route q r -> dst_key q = dst_key r.
Proof. by intros []. Qed.

Lemma same_neigh_key q r : same_neigh q r -> neigh_key q = neigh_key r.
Proof.
  intros Hs. pose proof (same_neigh_id _ _ Hs) as E. unfold neigh_id in E.
  injection E as E1 E2 _ E3 E4. unfold neigh_key. by rewrite E1, E2, E3, E4.
Qed.

Definition routes_set := set_effect dst_key same_route.
Definition neighs_set := set_effect neigh_key same_neigh.

(** ** The loops that compare *)

Lemma compare_loop {T} (eqb : T -> T -> bool) p current b :
  foldl (fun acc x => acc && negb (eqb p x)) b current =
  b && forallb (fun x => negb (eqb p x)) current.
Proof.
  revert b. induction current as [|x l IH]; intros b; simpl; [by rewrite andb_true_r|].
  by rewrite IH, andb_assoc.
Qed.

Lemma delete_loop {T} (eqb : T -> T -> bool) previous current acc :
  foldl (fun acc p =>
    if foldl (fun b x => b && negb (eqb p x)) true current then acc ++ [p] else acc) acc previous =
  acc ++ filter (fun p => forallb (fun x => negb (eqb p x)) current = true) previous.
Proof.
  revert acc. induction previous as [|p l IH]; intros acc; cbn [foldl]; [by rewrite app_nil_r|].
  rewrite IH, compare_loop, andb_true_l, filter_cons.
  destruct (forallb _ current) eqn:E.
  - rewrite decide_True by done. by rewrite <- app_assoc.
  - by rewrite decide_False.
Qed.

Lemma deleted_spec {T} (eqb : T -> T -> bool) (previous current : list T) p :
  p ∈ filter (fun p => forallb (fun x => negb (eqb p x)) current = true) previous <->
  p ∈ previous /\ forall q, q ∈ current -> eqb p q = false.
Proof.
  rewrite list_elem_of_filter, forallb_forall. setoid_rewrite negb_true_iff.
  setoid_rewrite list_elem_of_In. tauto.
Qed.

Lemma getDeletedRoutes_spec previous current r :
  r ∈ getDeletedRoutes previous current <->
  r ∈ previous /\ forall q, q ∈ current -> routeEqual r q = false.
Proof. unfold getDeletedRoutes. rewrite delete_loop. apply deleted_spec. Qed.

Lemma getDeletedNeighs_spec previous current n :
  n ∈ getDeletedNeighs previous current <->
  n ∈ previous /\ forall q, q ∈ current -> neighEqual n q = false.
Proof. unfold getDeletedNeighs. rewrite delete_loop. apply deleted_spec. Qed.

(** A route is the one asked for: device, scope, destination, gateway and source. *)
Definition route_agrees (r q : Route) : Prop :=
  Route_LinkIndex r = Route_LinkIndex q /\ Route_Scope r = Route_Scope q /\
  Dst_String (Route_Dst r) = Dst_String (Route_Dst q) /\
  IP_String (Route_Gw r) = IP_String (Route_Gw q) /\ IP_String (Route_Src r) = IP_String (Route_Src q).

(** A neighbour entry is the one asked for: device, state, IP and hardware address. *)
Definition neigh_agrees (n q : Neigh) : Prop :=
  Neigh_LinkIndex n = Neigh_LinkIndex q /\ Neigh_State n = Neigh_State q /\
  IP_String (Neigh_IP n) = IP_String (Neigh_IP q) /\
  HardwareAddr_String (Neigh_HardwareAddr n) = HardwareAddr_String (Neigh_HardwareAddr q).

Lemma routeEqual_agrees r q : routeEqual r q = true <-> route_agrees r q.
Proof.
  unfold routeEqual, route_agrees. rewrite !andb_true_iff, !Z.eqb_eq, !bool_decide_eq_true. tauto.
Qed.

Lemma neighEqual_agrees n q : neighEqual n q = true <-> neigh_agrees n q.
Proof.
  unfold neighEqual, neigh_agrees. rewrite !andb_true_iff, !Z.eqb_eq, !bool_decide_eq_true. tauto.
Qed.

Lemma route_agrees_id r q : route_agrees r q <-> route_id r = route_id q.
Proof.
  unfold route_agrees, route_id. split; [|intros [=]; auto 10]. intros (-> & -> & -> & -> & ->). done.
Qed.

Lemma neigh_agrees_id n q : neigh_id n = neigh_id q -> neigh_agrees n q.
Proof. unfold neigh_agrees, neigh_id. intros [=]. auto. Qed.

(** ** What a lease asks for *)

(** A lease of another cell within the overlay network asks for a route to its subnet
    by way of the subnet's first address, for the hardware address of that address,
    and for the underlay IP behind that hardware address. *)
Definition lease_route (c : Converger) (l : Lease) : option Route :=
  match ParseCIDR (OverlaySubnet l) with
  | Err _ => None
  | Ok (destAddr, destNet) =>
      if decide (IPNet_String destNet = IPNet_String (LocalSubnet c)) then None
      else if Contains (OverlayNetwork c) (IPNet_IP destNet) then
        Some {| Route_LinkIndex := LocalVTEP_Index c; Route_Scope := SCOPE_UNIVERSE;
                Route_Dst := Some destNet; Route_Gw := destAddr; Route_Src := IPNet_IP (LocalSubnet c) |}
      else None
  end.

Definition lease_neighs (c : Converger) (l : Lease) : list Neigh :=
  match lease_route c l, ParseMAC (OverlayHardwareAddr l) with
  | Some r, Ok mac =>
      [{| Neigh_LinkIndex := LocalVTEP_Index c; Neigh_Family := 0; Neigh_State := NUD_PERMANENT;
          Neigh_Type := RTN_UNICAST; Neigh_Flags := 0; Neigh_IP := Route_Gw r; Neigh_HardwareAddr := mac |};
       {| Neigh_LinkIndex := LocalVTEP_Index c; Neigh_Family := AF_BRIDGE; Neigh_State := NUD_PERMANENT;
          Neigh_Type := 0; Neigh_Flags := NTF_SELF; Neigh_IP := ParseIP (UnderlayIP l);
          Neigh_HardwareAddr := mac |}]
  | _, _ => []
  end.

Definition wanted_routes (c : Converger) (ls : list Lease) : list Route := omap (lease_route c) ls.
Definition wanted_neighs (c : Converger) (ls : list Lease) : list Neigh := ls ≫= lease_neighs c.

Lemma wanted_routes_cons c l ls :
  wanted_routes c (l :: ls) = option_list (lease_route c l) ++ wanted_routes c ls.
Proof. unfold wanted_routes. simpl. by destruct (lease_route c l). Qed.

Lemma wanted_neighs_cons c l ls :
  wanted_neighs c (l :: ls) = lease_neighs c l ++ wanted_neighs c ls.
Proof. done. Qed.

Ltac nl_call := first [apply wp_bind_err | idtac]; apply wp_trigger; unfold netlink_step; cbn [netlink_spec].

Lemma addRoute_wp c net addr k :
  wp netlink_step (addRoute c net addr) k (fun k' x =>
    k_neighs k' = k_neighs k /\
    forall r, x = Ok r -> r = route_to c net addr /\
      routes_set [route_to c net addr] (k_routes k) (k_routes k')).
Proof.
  unfold addRoute. nl_call. intros k' [u|e] [Hn Hr]; simpl; (split; [done|]); [|done].
  intros ? [= <-]. split; [done|]. destruct Hr as (r' & Hs & ->).
  by apply set_effect_one.
Qed.

Lemma addNeighs_wp c uip addr mac k :
  wp netlink_step (addNeighs c uip addr mac) k (fun k' x =>
    k_routes k' = k_routes k /\
    forall ns, x = Ok ns -> ns = [arp_entry c addr mac; fdb_entry c uip mac] /\
      neighs_set ns (k_neighs k) (k_neighs k')).
Proof.
  unfold addNeighs. nl_call. intros k1 [u|e] [Hr1 Hn1]; [|done].
  nl_call. intros k2 [u'|e] [Hr2 Hn2]; simpl; (split; [congruence|]); [|done].
  intros ? [= <-]. split; [done|].
  destruct Hn1 as (n1 & Hs1 & E1), Hn2 as (n2 & Hs2 & E2).
  apply (set_effect_app neigh_key same_neigh same_neigh_key [arp_entry c addr mac]
    [fdb_entry c uip mac] _ (k_neighs k1)).
  - rewrite E1. by apply set_effect_one.
  - rewrite E2. by apply set_effect_one.
Qed.

Lemma set_loop_wp c ls cr cn k :
  wp netlink_step (set_loop c ls cr cn) k (fun k' x => forall cr' cn', x = Ok (cr', cn') ->
    cr' = cr ++ wanted_routes c ls /\ cn' = cn ++ wanted_neighs c ls /\
    routes_set (wanted_routes c ls) (k_routes k) (k_routes k') /\
    neighs_set (wanted_neighs c ls) (k_neighs k) (k_neighs k')).
Proof.
  revert cr cn k. induction ls as [|l ls IH]; intros cr cn k; cbn [set_loop].
  - intros cr' cn' [= <- <-]. split_and!.
    + symmetry. apply app_nil_r.
    + symmetry. apply app_nil_r.
    + apply set_effect_nil.
    + apply set_effect_nil.
  - rewrite wanted_routes_cons, wanted_neighs_cons. unfold lease_neighs, lease_route.
    destruct (ParseCIDR (OverlaySubnet l)) as [[addr net]|e]; [|done].
    unfold isLocal. destruct (decide (IPNet_String net = IPNet_String (LocalSubnet c))) as [El|El];
      [rewrite (bool_decide_true _ El); apply IH|rewrite (bool_decide_false _ El)].
    destruct (Contains (OverlayNetwork c) (IPNet_IP net)); cbn [negb]; [|apply IH].
    apply wp_bind_err. eapply wp_mono; [apply addRoute_wp|].
    intros k1 [r|e] [Hn1 Hr]; [|done]. destruct (Hr r eq_refl) as [-> Hset].
    case_decide; [done|]. destruct (ParseMAC (OverlayHardwareAddr l)) as [mac|e]; [|done].
    apply wp_bind_err. eapply wp_mono; [apply addNeighs_wp|].
    intros k2 [ns|e] [Hr2 Hns]; [|done]. destruct (Hns ns eq_refl) as [-> Hnset].
    eapply wp_mono; [apply IH|]. intros k3 x Hx cr' cn' Hok.
    destruct (Hx cr' cn' Hok) as (-> & -> & Hrs & Hnss).
    rewrite <- !app_assoc. split_and!; [done..| |].
    + apply (set_effect_app dst_key same_route same_route_key
        [route_to c net addr] (wanted_routes c ls) _ (k_routes k1)); [done|].
      by rewrite <- Hr2.
    + refine (set_effect_app neigh_key same_neigh same_neigh_key _ (wanted_neighs c ls) _
        (k_neighs k2) _ _ _); [|done]. by rewrite <- Hn1.
Qed.

(** One more entry to delete, which is deleted or passed over. *)
Lemma survives_cons {T I} (id : T -> I) (P : T -> Prop) d dels r (A : Prop) :
  P d ->
  (((id r <> id d) /\ A) /\ (forall p, p ∈ dels -> P p -> id r <> id p) <->
   A /\ forall p, p ∈ d :: dels -> P p -> id r <> id p).
Proof.
  intros Hd. setoid_rewrite elem_of_cons. split.
  - intros [[Hr HA] Hall]. split; [done|]. intros p [->|Hp]; auto.
  - intros [HA Hall]. split; [split; [apply Hall; auto|done]|]. intros p Hp. apply Hall. auto.
Qed.

Lemma survives_skip {T I} (id : T -> I) (P : T -> Prop) d dels r (A : Prop) :
  ~ P d ->
  (A /\ (forall p, p ∈ dels -> P p -> id r <> id p) <->
   A /\ forall p, p ∈ d :: dels -> P p -> id r <> id p).
Proof.
  intros Hd. setoid_rewrite elem_of_cons. split; intros [HA Hall]; (split; [done|]); intros p.
  - intros [->|Hp]; [done|auto].
  - intros Hp. apply Hall. auto.
Qed.

Definition route_eligible (c : Converger) (r : Route) : bool :=
  (Route_LinkIndex r =? LocalVTEP_Index c) && Contains (OverlayNetwork c) (Route_Gw r).

Lemma delete_routes_wp c dels k :
  wp netlink_step (delete_routes c dels) k (fun k' x => x = Ok tt ->
    k_neighs k' = k_neighs k /\
    forall r, r ∈ k_routes k' <-> r ∈ k_routes k /\
      forall p, p ∈ dels -> route_eligible c p = true -> route_id r <> route_id p).
Proof.
  revert k. induction dels as [|d dels IH]; intros k; cbn [delete_routes].
  - intros _. split; [done|]. intros r. split; [|tauto]. intros Hr. split; [done|].
    by intros p ?%not_elem_of_nil.
  - fold (route_eligible c d). destruct (route_eligible c d) eqn:Hd.
    + nl_call. intros k1 [u|e] [Hn Hr]; [|done]. eapply wp_mono; [apply IH|].
      intros k2 x Hx Hok. destruct (Hx Hok) as [Hn2 Hr2]. split; [congruence|].
      intros r. rewrite Hr2, Hr, list_elem_of_filter.
      by apply (survives_cons route_id (fun p => route_eligible c p = true)).
    + eapply wp_mono; [apply IH|]. intros k2 x Hx Hok. destruct (Hx Hok) as [Hn2 Hr2].
      split; [done|]. intros r. rewrite Hr2.
      apply (survives_skip route_id (fun p => route_eligible c p = true)). congruence.
Qed.

Lemma delete_neighs_wp c dels k :
  wp netlink_step (delete_neighs c dels) k (fun k' x => x = Ok tt ->
    k_routes k' = k_routes k /\
    forall n, n ∈ k_neighs k' <-> n ∈ k_neighs k /\
      forall p, p ∈ dels -> Neigh_LinkIndex p = LocalVTEP_Index c -> neigh_id n <> neigh_id p).
Proof.
  revert k. induction dels as [|d dels IH]; intros k; cbn [delete_neighs].
  - intros _. split; [done|]. intros r. split; [|tauto]. intros Hr. split; [done|].
    by intros p ?%not_elem_of_nil.
  - destruct (Z.eqb_spec (Neigh_LinkIndex d) (LocalVTEP_Index c)) as [Hd|Hd].
    + nl_call. intros k1 [u|e] [Hr Hn]; [|done]. eapply wp_mono; [apply IH|].
      intros k2 x Hx Hok. destruct (Hx Hok) as [Hr2 Hn2]. split; [congruence|].
      intros n. rewrite Hn2, Hn, list_elem_of_filter.
      by apply (survives_cons neigh_id (fun p => Neigh_LinkIndex p = LocalVTEP_Index c)).
    + eapply wp_mono; [apply IH|]. intros k2 x Hx Hok. destruct (Hx Hok) as [Hr2 Hn2].
      split; [done|]. intros n. rewrite Hn2.
      by apply (survives_skip neigh_id (fun p => Neigh_LinkIndex p = LocalVTEP_Index c)).
Qed.

Lemma getPreviousState_wp c k :
  wp netlink_step (getPreviousState c) k (fun k' x => forall pr pn, x = Ok (pr, pn) ->
    k' = k /\
    (forall r, r ∈ pr <-> r ∈ k_routes k /\ Route_LinkIndex r = LocalVTEP_Index c) /\
    (forall n, n ∈ pn <-> n ∈ k_neighs k /\ Neigh_LinkIndex n = LocalVTEP_Index c)).
Proof.
  unfold getPreviousState, FDBList, ARPList. nl_call. intros k1 [link|e] [-> Hlink]; [|done].
  nl_call. intros k2 [pr|e] [-> Hpr]; [|done].
  nl_call. intros k3 [fdb|e] [-> Hfdb]; [|done].
  nl_call. intros k4 [arp|e] [-> Harp]; simpl; [|done].
  intros ? ? [= <- <-]. specialize (Hlink link eq_refl). specialize (Hpr pr eq_refl eq_refl).
  specialize (Hfdb fdb eq_refl). specialize (Harp arp eq_refl). split_and!; [done|..].
  - intros r. rewrite Hpr, list_elem_of_filter, Hlink. tauto.
  - intros n. rewrite elem_of_app, Hfdb, Harp, !list_elem_of_filter.
    destruct (is_fdb n); simpl; intuition congruence.
Qed.

(** The kernel's routes are those of the leases, as far as they are silk's. *)
Record routes_converged (c : Converger) (ls : list Lease) (k k' : kernel) : Prop := {
  routes_present : NoDup (map dst_key (wanted_routes c ls)) ->
    forall q, q ∈ wanted_routes c ls -> exists r, r ∈ k_routes k' /\ same_route q r;
  routes_not_stale r : r ∈ k_routes k' -> route_eligible c r = true ->
    exists q, q ∈ wanted_routes c ls /\ route_agrees r q;
  routes_elsewhere r : r ∈ k_routes k -> Route_LinkIndex r <> LocalVTEP_Index c ->
    dst_key r ∉ map dst_key (wanted_routes c ls) -> r ∈ k_routes k';
  routes_from r : r ∈ k_routes k' ->
    r ∈ k_routes k \/ exists q, q ∈ wanted_routes c ls /\ same_route q r
}.

Record neighs_converged (c : Converger) (ls : list Lease) (k k' : kernel) : Prop := {
  neighs_present : NoDup (map neigh_key (wanted_neighs c ls)) ->
    forall q, q ∈ wanted_neighs c ls -> exists n, n ∈ k_neighs k' /\ same_neigh q n;
  neighs_not_stale n : n ∈ k_neighs k' -> Neigh_LinkIndex n = LocalVTEP_Index c ->
    exists q, q ∈ wanted_neighs c ls /\ neigh_agrees n q;
  neighs_elsewhere n : n ∈ k_neighs k -> Neigh_LinkIndex n <> LocalVTEP_Index c ->
    neigh_key n ∉ map neigh_key (wanted_neighs c ls) -> n ∈ k_neighs k'
}.

Lemma routes_converge c ls k k1 k2 pr :
  (forall r, r ∈ pr <-> r ∈ k_routes k /\ Route_LinkIndex r = LocalVTEP_Index c) ->
  routes_set (wanted_routes c ls) (k_routes k) (k_routes k1) ->
  (forall r, r ∈ k_routes k2 <-> r ∈ k_routes k1 /\
     forall p, p ∈ getDeletedRoutes pr (wanted_routes c ls) -> route_eligible c p = true ->
       route_id r <> route_id p) ->
  routes_converged c ls k k2.
Proof.
  intros Hpr [Hfrom Hhas Hkeep] Hdel. split.
  - intros Hnd q Hq. destruct (Hhas Hnd q Hq) as (r & Hr & Hs). exists r. split; [|done].
    apply Hdel. split; [done|]. intros p [_ Hp]%getDeletedRoutes_spec _ E.
    specialize (Hp q Hq). apply not_true_iff_false in Hp. apply Hp, routeEqual_agrees, route_agrees_id.
    rewrite <- E. symmetry. by apply same_route_id.
  - intros r [Hr Hnd]%Hdel He. destruct (Hfrom r Hr) as [Hk|(q & Hq & Hs)].
    + destruct (existsb (routeEqual r) (wanted_routes c ls)) eqn:Hex.
      * apply existsb_exists in Hex as (q & Hq & E%routeEqual_agrees). exists q.
        split; [by apply list_elem_of_In|done].
      * exfalso. apply (Hnd r); [|done..]. apply getDeletedRoutes_spec. split.
        -- apply Hpr. split; [done|]. apply andb_prop in He as [He _]. by apply Z.eqb_eq.
        -- intros q Hq. apply not_true_iff_false. intros E. apply not_true_iff_false in Hex.
           apply Hex, existsb_exists. exists q. split; [by apply list_elem_of_In|done].
    + exists q. split; [done|]. apply route_agrees_id. symmetry. by apply same_route_id.
  - intros r Hr Hl Hk. apply Hdel. split; [by apply Hkeep|].
    intros p _ He E. apply Hl. apply andb_prop in He as [He _]. apply Z.eqb_eq in He.
    unfold route_id in E. congruence.
  - intros r [Hr _]%Hdel. by apply Hfrom.
Qed.

Lemma neighs_converge c ls k k1 k2 pn :
  (forall n, n ∈ pn <-> n ∈ k_neighs k /\ Neigh_LinkIndex n = LocalVTEP_Index c) ->
  neighs_set (wanted_neighs c ls) (k_neighs k) (k_neighs k1) ->
  (forall n, n ∈ k_neighs k2 <-> n ∈ k_neighs k1 /\
     forall p, p ∈ getDeletedNeighs pn (wanted_neighs c ls) ->
       Neigh_LinkIndex p = LocalVTEP_Index c -> neigh_id n <> neigh_id p) ->
  neighs_converged c ls k k2.
Proof.
  intros Hpn [Hfrom Hhas Hkeep] Hdel. split.
  - intros Hnd q Hq. destruct (Hhas Hnd q Hq) as (n & Hn & Hs). exists n. split; [|done].
    apply Hdel. split; [done|]. intros p [_ Hp]%getDeletedNeighs_spec _ E.
    specialize (Hp q Hq). apply not_true_iff_false in Hp. apply Hp, neighEqual_agrees, neigh_agrees_id.
    rewrite <- E. symmetry. by apply same_neigh_id.
  - intros n [Hn Hnd]%Hdel He. destruct (Hfrom n Hn) as [Hk|(q & Hq & Hs)].
    + destruct (existsb (neighEqual n) (wanted_neighs c ls)) eqn:Hex.
      * apply existsb_exists in Hex as (q & Hq & E%neighEqual_agrees). exists q.
        split; [by apply list_elem_of_In|done].
      * exfalso. apply (Hnd n); [|done..]. apply getDeletedNeighs_spec. split; [by apply Hpn|].
        intros q Hq. apply not_true_iff_false. intros E. apply not_true_iff_false in Hex.
        apply Hex, existsb_exists. exists q. split; [by apply list_elem_of_In|done].
    + exists q. split; [done|]. apply neigh_agrees_id. symmetry. by apply same_neigh_id.
  - intros n Hn Hl Hk. apply Hdel. split; [by apply Hkeep|].
    intros p _ He E. apply Hl. unfold neigh_id in E. congruence.
Qed.

Lemma Converge_wp c ls k :
  wp netlink_step (Converge c ls) k (fun k' x =>
    x = Ok tt -> routes_converged c ls k k' /\ neighs_converged c ls k k').
Proof.
  unfold Converge. apply wp_bind_err. eapply wp_mono; [apply getPreviousState_wp|].
  intros k0 [[pr pn]|e] Hprev; [|done]. destruct (Hprev pr pn eq_refl) as (-> & Hpr & Hpn).
  apply wp_bind_err. eapply wp_mono; [apply set_loop_wp|].
  intros k1 [[cr cn]|e] Hset; [|done].
  destruct (Hset cr cn eq_refl) as (-> & -> & Hrs & Hns). rewrite !app_nil_l.
  apply wp_bind_err. eapply wp_mono; [apply delete_routes_wp|].
  intros k2 [[]|e] Hdr; [|done]. destruct (Hdr eq_refl) as [Hn2 Hr2].
  eapply wp_mono; [apply delete_neighs_wp|]. intros k3 x Hdn Hok.
  destruct (Hdn Hok) as [Hr3 Hn3]. split.
  - apply (routes_converge c ls k k1 k3 pr Hpr Hrs). by rewrite Hr3.
  - apply (neighs_converge c ls k k1 k3 pn Hpn Hns). by rewrite <- Hn2.
Qed.

(** C19. A [Converge] that reports success makes the kernel agree with the leases. It has
    the route of every remote lease of the overlay network if no two of them have the
    same destination, and both neighbour entries of each if no two entries have the same
    key. Every route on the VXLAN device with a gateway in the overlay network agrees
    with one a lease asks for, in destination, gateway, source, scope and device, and
    every neighbour entry of the device with one a lease asks for, in IP, hardware
    address, state and device (a route of the device with a gateway elsewhere may stay).
    Routes and entries of other devices are kept unless a lease's has the same
    destination or key. *)
Theorem converge_correct c ls k :
  wp netlink_step (Converge c ls) k (fun k' x =>
    x = Ok tt -> routes_converged c ls k k' /\ neighs_converged c ls k k').
Proof. apply Converge_wp. Qed.

(** ** A kernel in memory *)

Definition memory_link (index : Z) : Link :=
  {| Link_Index := index; Link_Name := "silk-vtep"; Link_MTU := 1450; Link_HardwareAddr := [] |}.

Definition kernel_handle : handler netlinkE kernel := fun X e k =>
  match e in netlinkE X return kernel * X with
  | LinkByName name => (k, Ok (memory_link 0))
  | LinkByIndex i => (k, Ok (memory_link i))
  | LinkAdd _ | LinkSetUp _ | LinkDel _ | AddrAdd _ _ => (k, Ok tt)
  | AddrList _ _ => (k, Ok [])
  | RouteList l _ => (k, Ok (filter (fun r => Route_LinkIndex r = Link_Index l) (k_routes k)))
  | NeighList i family =>
      (k, Ok (filter (fun n => Neigh_LinkIndex n = i /\ is_fdb n = bool_decide (family = AF_BRIDGE))
                (k_neighs k)))
  | RouteReplace r =>
      ({| k_routes := r :: filter (fun q => dst_key q <> dst_key r) (k_routes k);
          k_neighs := k_neighs k |}, Ok tt)
  | RouteDel r =>
      ({| k_routes := filter (fun q => route_id q <> route_id r) (k_routes k);
          k_neighs := k_neighs k |}, Ok tt)
  | NeighSet n =>
      ({| k_routes := k_routes k;
          k_neighs := n :: filter (fun q => neigh_key q <> neigh_key n) (k_neighs k) |}, Ok tt)
  | NeighDel n =>
      ({| k_routes := k_routes k;
          k_neighs := filter (fun q => neigh_id q <> neigh_id n) (k_neighs k) |}, Ok tt)
  end.

Lemma same_route_refl r : same_route r r.
Proof. by split. Qed.

Lemma same_neigh_refl n : same_neigh n n.
Proof. by split. Qed.

Lemma kernel_handle_spec X (e : netlinkE X) k :
  netlink_step X e k (fst (kernel_handle X e k)) (snd (kernel_handle X e k)).
Proof.
  unfold netlink_step. destruct e; simpl; try done.
  - split; [done|]. by intros l [= <-].
  - split; [done|]. by intros rs [= <-].
  - split; [done|]. eexists. split; [apply same_route_refl|done].
  - split; [done|]. by intros ns [= <-].
  - split; [done|]. eexists. split; [apply same_neigh_refl|done].
Qed.

Definition example_converger : Converger :=
  {| OverlayNetwork := {| IPNet_IP := [10; 255; 0; 0]; IPNet_Mask := CIDRMask 16 32 |};
     LocalSubnet := {| IPNet_IP := [10; 255; 1; 0]; IPNet_Mask := CIDRMask 24 32 |};
     LocalVTEP_Index := 7 |}.

Definition remote_lease : Lease :=
  {| UnderlayIP := "10.0.0.2"; OverlaySubnet := "10.255.2.0/24";
     OverlayHardwareAddr := "ee:ee:0a:ff:02:00" |}.

(** A route of a cell that is gone, and one of another device. *)
Definition stale_route : Route :=
  route_to example_converger {| IPNet_IP := [10; 255; 9; 0]; IPNet_Mask := CIDRMask 24 32 |} [10; 255; 9; 0].

Definition other_route : Route :=
  {| Route_LinkIndex := 2; Route_Scope := SCOPE_UNIVERSE; Route_Dst := None;
     Route_Gw := [10; 0; 0; 254]; Route_Src := [] |}.

Definition example_kernel : kernel := {| k_routes := [stale_route; other_route]; k_neighs := [] |}.

Lemma converge_correct_witness :
  let '(k', x) := run kernel_handle (Converge example_converger [remote_lease]) example_kernel in
  x = Ok tt /\ map dst_key (k_routes k') = ["10.255.2.0/24"; "<nil>"] /\
  length (k_neighs k') = 2%nat /\
  routes_converged example_converger [remote_lease] example_kernel k'.
Proof.
  destruct (wp_sound netlink_step kernel_handle (fun _ => True) id
    (Converge example_converger [remote_lease]) example_kernel _
    (fun X e s _ => conj I (kernel_handle_spec X e s)) I
    (converge_correct example_converger [remote_lease] example_kernel)) as [H _].
  assert (snd (run kernel_handle (Converge example_converger [remote_lease]) example_kernel) = Ok tt)
    as E by (vm_compute; reflexivity).
  assert (map dst_key (k_routes (fst (run kernel_handle
    (Converge example_converger [remote_lease]) example_kernel))) = ["10.255.2.0/24"; "<nil>"] /\
    length (k_neighs (fst (run kernel_handle
      (Converge example_converger [remote_lease]) example_kernel))) = 2%nat) as [Ek En]
    by (split; vm_compute; reflexivity).
  destruct (H E) as [Hr _]. unfold id in Hr.
  destruct (run kernel_handle _ example_kernel) as [k' x].
  split; [exact E|]. split; [exact Ek|]. split; [exact En|exact Hr].
Defined.
