(* ===== verification/Adapters.v ===== *)
(** * The adapters

    The structs of src/lib/adapter, src/cni/adapter and migrate_adapter.go stand
    between the program and the libraries it calls: netlink, net, the CNI plugins'
    packages, and sql-migrate. [packageE] and the other interfaces here are the
    functions of those libraries; the methods of an adapter are programs over
    them. Most pass a call on; [AddrAddScopeLink] sets the scope of its address,
    which stays changed for the caller, [NeighAddPermanentIPv4] builds the
    permanent neighbour entry, and [ARPList] and [FDBList] choose the family.
    The values of the libraries that the adapters do not look into are arguments. *)

From Stdlib Require Import ZArith.
From S2P Require Import Prelude GoNet Netlink.

(** ** lib/adapter.NetlinkAdapter *)

Module NetlinkAdapter.
Section NetlinkAdapter.
Context {Link Addr Route Qdisc Filter Float : Type} (set_Scope : Addr -> Z -> Addr).

(** The functions of github.com/vishvananda/netlink. *)
Inductive packageE : Type -> Type :=
| Pkg_LinkByName (name : string) : packageE (result Link)
| Pkg_LinkByIndex (index : Z) : packageE (result Link)
| Pkg_ParseAddr (addr : string) : packageE (result Addr)
| Pkg_AddrList (link : Link) (family : Z) : packageE (result (list Addr))
| Pkg_LinkSetHardwareAddr (link : Link) (hwaddr : HardwareAddr) : packageE (result unit)
| Pkg_NeighSet (neigh : Neigh) : packageE (result unit)
| Pkg_NeighDel (neigh : Neigh) : packageE (result unit)
| Pkg_LinkSetARPOff (link : Link) : packageE (result unit)
| Pkg_LinkSetName (link : Link) (newName : string) : packageE (result unit)
| Pkg_LinkSetUp (link : Link) : packageE (result unit)
| Pkg_LinkList : packageE (result (list Link))
| Pkg_LinkDel (link : Link) : packageE (result unit)
| Pkg_LinkAdd (link : Link) : packageE (result unit)
| Pkg_LinkSetNsFd (link : Link) (fd : Z) : packageE (result unit)
| Pkg_RouteAdd (route : Route) : packageE (result unit)
| Pkg_RouteReplace (route : Route) : packageE (result unit)
| Pkg_RouteList (link : Link) (family : Z) : packageE (result (list Route))
| Pkg_RouteDel (route : Route) : packageE (result unit)
| Pkg_QdiscAdd (qdisc : Qdisc) : packageE (result unit)
| Pkg_FilterAdd (filter : Filter) : packageE (result unit)
| Pkg_TickInUsec : packageE Float
| Pkg_AddrAdd (link : Link) (addr : Addr) : packageE (result unit)
| Pkg_NeighAdd (neigh : Neigh) : packageE (result unit)
| Pkg_NeighList (linkIndex family : Z) : packageE (result (list Neigh)).

Definition LinkByName (name : string) : prog packageE (result Link) :=
  trigger (Pkg_LinkByName name).

Definition LinkByIndex (index : Z) : prog packageE (result Link) :=
  trigger (Pkg_LinkByIndex index).

Definition ParseAddr (addr : string) : prog packageE (result Addr) :=
  trigger (Pkg_ParseAddr addr).

Definition AddrList (link : Link) (family : Z) : prog packageE (result (list Addr)) :=
  trigger (Pkg_AddrList link family).

Definition LinkSetHardwareAddr (link : Link) (hwaddr : HardwareAddr) : prog packageE (result unit) :=
  trigger (Pkg_LinkSetHardwareAddr link hwaddr).

Definition NeighSet (neigh : Neigh) : prog packageE (result unit) :=
  trigger (Pkg_NeighSet neigh).

Definition NeighDel (neigh : Neigh) : prog packageE (result unit) :=
  trigger (Pkg_NeighDel neigh).

Definition LinkSetARPOff (link : Link) : prog packageE (result unit) :=
  trigger (Pkg_LinkSetARPOff link).

Definition LinkSetName (link : Link) (newName : string) : prog packageE (result unit) :=
  trigger (Pkg_LinkSetName link newName).

Definition LinkSetUp (link : Link) : prog packageE (result unit) :=
  trigger (Pkg_LinkSetUp link).

Definition LinkList : prog packageE (result (list Link)) :=
  trigger Pkg_LinkList.

Definition LinkDel (link : Link) : prog packageE (result unit) :=
  trigger (Pkg_LinkDel link).

Definition LinkAdd (link : Link) : prog packageE (result unit) :=
  trigger (Pkg_LinkAdd link).

Definition LinkSetNsFd (link : Link) (fd : Z) : prog packageE (result unit) :=
  trigger (Pkg_LinkSetNsFd link fd).

Definition RouteAdd (route : Route) : prog packageE (result unit) :=
  trigger (Pkg_RouteAdd route).

Definition RouteReplace (route : Route) : prog packageE (result unit) :=
  trigger (Pkg_RouteReplace route).

Definition RouteList (link : Link) (family : Z) : prog packageE (result (list Route)) :=
  trigger (Pkg_RouteList link family).

Definition RouteDel (route : Route) : prog packageE (result unit) :=
  trigger (Pkg_RouteDel route).

Definition QdiscAdd (qdisc : Qdisc) : prog packageE (result unit) :=
  trigger (Pkg_QdiscAdd qdisc).

Definition FilterAdd (filter : Filter) : prog packageE (result unit) :=
  trigger (Pkg_FilterAdd filter).

Definition TickInUsec : prog packageE Float :=
  trigger Pkg_TickInUsec.

(** The address is the caller's: it comes back with its new scope. *)
Definition AddrAddScopeLink (link : Link) (addr : Addr) : prog packageE (Addr * result unit) :=
  let addr := set_Scope addr SCOPE_LINK in
  r <- trigger (Pkg_AddrAdd link addr) ;;
  Ret (addr, r).

Definition NeighAddPermanentIPv4 (index : Z) (destIP : IP) (hwAddr : HardwareAddr)
    : prog packageE (result unit) :=
  trigger (Pkg_NeighAdd {| Neigh_LinkIndex := index; Neigh_Family := FAMILY_V4;
                           Neigh_State := NUD_PERMANENT; Neigh_Type := 0; Neigh_Flags := 0;
                           Neigh_IP := destIP; Neigh_HardwareAddr := hwAddr |}).

Definition ARPList (linkIndex : Z) : prog packageE (result (list Neigh)) :=
  trigger (Pkg_NeighList linkIndex FAMILY_V4).

Definition FDBList (linkIndex : Z) : prog packageE (result (list Neigh)) :=
  trigger (Pkg_NeighList linkIndex AF_BRIDGE).

End NetlinkAdapter.
End NetlinkAdapter.

(** ** lib/adapter.NetAdapter *)

Module NetAdapter.
Section NetAdapter.
Context {Interface Addr : Type}.

(** Functions of the package net, and [Interface.Addrs]. *)
Inductive netE : Type -> Type :=
| Net_Interfaces : netE (result (list Interface))
| Interface_Addrs (i : Interface) : netE (result (list Addr))
| Net_InterfaceByName (name : string) : netE (result Interface).

Definition Interfaces : prog netE (result (list Interface)) := trigger Net_Interfaces.
Definition InterfaceAddrs (i : Interface) : prog netE (result (list Addr)) :=
  trigger (Interface_Addrs i).
Definition InterfaceByName (name : string) : prog netE (result Interface) :=
  trigger (Net_InterfaceByName name).

End NetAdapter.
End NetAdapter.

(** ** cni/adapter *)

Module CniAdapters.
Section CniAdapters.
Context {NetNS : Type}.

(** [ip.EnableIP4Forward], [ns.GetNS], [ns.GetCurrentNS] and [sysctl.Sysctl]. *)
Inductive pluginsE : Type -> Type :=
| Ip_EnableIP4Forward : pluginsE (result unit)
| Ns_GetNS (path : string) : pluginsE (result NetNS)
| Ns_GetCurrentNS : pluginsE (result NetNS)
| Sysctl_Sysctl (name : string) (params : list string) : pluginsE (result string).

Definition EnableIP4Forward : prog pluginsE (result unit) := trigger Ip_EnableIP4Forward.
Definition GetNS (path : string) : prog pluginsE (result NetNS) := trigger (Ns_GetNS path).
Definition GetCurrentNS : prog pluginsE (result NetNS) := trigger Ns_GetCurrentNS.
Definition Sysctl (name : string) (params : list string) : prog pluginsE (result string) :=
  trigger (Sysctl_Sysctl name params).

(** cni/lib/interface.go: the stub that the tests give [NetNS.Do], which runs its
    argument where it is. *)
Definition NetNsDoStub {A} (f : option NetNS -> A) : A := f None.

End CniAdapters.
End CniAdapters.

(** ** database.MigrateAdapter *)

Module MigrateAdapter.
Section MigrateAdapter.
Context {DB MigrationSource MigrationDirection : Type}.

(** [Db.RawConnection], a pointer to a struct with the embedded [sql.DB], and
    [migrate.Exec]. *)
Inductive migrateE : Type -> Type :=
| RawConnection : migrateE (option DB)
| Migrate_Exec (db : DB) (dialect : string) (m : MigrationSource) (dir : MigrationDirection)
    : migrateE (result Z).

(** A nil connection is dereferenced. *)
Definition Exec (dialect : string) (m : MigrationSource) (dir : MigrationDirection)
    : prog migrateE (outcome (result Z)) :=
  conn <- trigger RawConnection ;;
  match conn with
  | None => Ret (Panics "runtime error: invalid memory address or nil pointer dereference")
  | Some db => returning (trigger (Migrate_Exec db dialect m dir))
  end.

End MigrateAdapter.
End MigrateAdapter.
