(* ===== verification/Vtep.v ===== *)
(** * The VXLAN device (src/daemon/vtep/factory.go, config_creator.go)

    [Create] computes the device's configuration from the daemon's configuration
    and its lease; [CreateVTEP], [DeleteVTEP] and [GetVTEPState] act on the
    device through netlink. *)

From Stdlib Require Import ZArith Lia.
From S2P Require Import Prelude GoFmt GoNet Types Netlink.

(** ** client/config.Config *)

Record ClientConfig := {
  cfg_UnderlayIP : string;
  cfg_VxlanInterfaceName : string;
  cfg_SubnetPrefixLength : Z;
  cfg_OverlayNetwork : string;
  cfg_HealthCheckPort : Z;
  cfg_VTEPName : string;
  cfg_ConnectivityServerURL : string;
  cfg_ServerCACertFile : string;
  cfg_ClientCertFile : string;
  cfg_ClientKeyFile : string;
  cfg_VNI : Z;
  cfg_VTEPPort : Z;
  cfg_PollInterval : Z;
  cfg_DebugServerPort : Z;
  cfg_Datastore : string;
  cfg_PartitionToleranceSeconds : Z;
  cfg_ClientTimeoutSeconds : Z;
  cfg_MetronPort : Z;
  cfg_LogPrefix : string;
  cfg_LogLevel : string;
  cfg_SingleIPOnly : bool
}.

(** ** ConfigCreator *)

Record Interface := { Interface_Index : Z; Interface_Name : string }.

(** netAdapter; an address is given by its text [addr.String()]. *)
Inductive netE : Type -> Type :=
| Interfaces : netE (result (list Interface))
| InterfaceAddrs (i : Interface) : netE (result (list string))
| InterfaceByName (name : string) : netE (result Interface).

Record VtepConfig := {
  VTEPName : string;
  UnderlayInterface : Interface;
  Config_UnderlayIP : IP;
  OverlayIP : IP;
  Config_OverlayHardwareAddr : HardwareAddr;
  VNI : Z;
  OverlayNetworkPrefixLength : Z;
  VTEPPort : Z
}.

(** The loop over the addresses of one interface: an error, or whether the
    address is among them. *)
Fixpoint find_addr (toFind : IP) (addrs : list string) : result bool :=
  match addrs with
  | [] => Ok false
  | addr :: addrs' =>
      match ParseCIDR addr with
      | Err err => Err (wrap "parse address" err)
      | Ok (ip, _) =>
          if decide (IP_String ip = IP_String toFind) then Ok true else find_addr toFind addrs'
      end
  end.

Fixpoint locate_loop (toFind : IP) (ifaces : list Interface) : prog netE (result Interface) :=
  match ifaces with
  | [] => Ret (Err (Errorf ("no interface with address " +:+ IP_String toFind)))
  | iface :: ifaces' =>
      try addrs <- trigger (InterfaceAddrs iface) catch wrap "get addresses" ;;
      match find_addr toFind addrs with
      | Err err => Ret (Err err)
      | Ok true => Ret (Ok iface)
      | Ok false => locate_loop toFind ifaces'
      end
  end.

Definition locateInterface (toFind : IP) : prog netE (result Interface) :=
  try ifaces <- trigger Interfaces catch wrap "find interfaces" ;;
  locate_loop toFind ifaces.

Definition Create (clientConf : ClientConfig) (lease : Lease) : prog netE (result VtepConfig) :=
  if decide (cfg_VTEPName clientConf = "") then Ret (Err (Errorf "empty vtep name"))
  else if cfg_VTEPPort clientConf <? 1 then
    Ret (Err (Errorf "vtep port must be greater than 0"))
  else
    let underlayIP := ParseIP (cfg_UnderlayIP clientConf) in
    if decide (underlayIP = []) then
      Ret (Err (Errorf ("parse underlay ip: " +:+ cfg_UnderlayIP clientConf)))
    else
      try underlayInterface <-
        (if decide (cfg_VxlanInterfaceName clientConf <> "") then
           try i <- trigger (InterfaceByName (cfg_VxlanInterfaceName clientConf))
             catch wrap ("find device from name " +:+ cfg_VxlanInterfaceName clientConf) ;;
           Ret (Ok i)
         else
           try i <- locateInterface underlayIP
             catch wrap ("find device from ip " +:+ IP_String underlayIP) ;;
           Ret (Ok i)) catch id ;;
      match ParseCIDR (OverlaySubnet lease) with
      | Err err => Ret (Err (wrap "determine vtep overlay ip" err))
      | Ok (overlayIP, _) =>
          match ParseMAC (OverlayHardwareAddr lease) with
          | Err err => Ret (Err (wrap "parsing hardware address" err))
          | Ok overlayHardwareAddr =>
              match ParseCIDR (cfg_OverlayNetwork clientConf) with
              | Err err => Ret (Err (wrap "determine overlay network" err))
              | Ok (_, overlayNetwork) =>
                  let '(overlayNetworkPrefixLength, _) := Mask_Size (IPNet_Mask overlayNetwork) in
                  if cfg_SubnetPrefixLength clientConf <=? overlayNetworkPrefixLength then
                    Ret (Err (Errorf ("overlay prefix " +:+ itoa overlayNetworkPrefixLength
                      +:+ " must be smaller than subnet prefix "
                      +:+ itoa (cfg_SubnetPrefixLength clientConf))))
                  else
                    Ret (Ok {| VTEPName := cfg_VTEPName clientConf;
                               UnderlayInterface := underlayInterface;
                               Config_UnderlayIP := underlayIP;
                               OverlayIP := overlayIP;
                               Config_OverlayHardwareAddr := overlayHardwareAddr;
                               VNI := cfg_VNI clientConf;
                               OverlayNetworkPrefixLength := overlayNetworkPrefixLength;
                               VTEPPort := cfg_VTEPPort clientConf |})
              end
          end
      end.

(** ** Factory *)

Definition CreateVTEP (cfg : VtepConfig) : prog netlinkE (result unit) :=
  let vxlan := {| Vxlan_Name := VTEPName cfg;
                  Vxlan_HardwareAddr := Config_OverlayHardwareAddr cfg;
                  VxlanId := VNI cfg;
                  SrcAddr := Config_UnderlayIP cfg;
                  Port := VTEPPort cfg;
                  VtepDevIndex := Interface_Index (UnderlayInterface cfg);
                  GBP := true |} in
  try _ <- trigger (LinkAdd vxlan) catch wrap ("create link " +:+ VTEPName cfg) ;;
  try _ <- trigger (LinkSetUp (VTEPName cfg)) catch wrap "up link" ;;
  let overlayNetworkMask := CIDRMask (OverlayNetworkPrefixLength cfg) 32 in
  try _ <- AddrAddScopeLink (VTEPName cfg)
             {| IPNet_IP := OverlayIP cfg; IPNet_Mask := overlayNetworkMask |}
    catch wrap "add address" ;;
  Ret (Ok tt).

Definition DeleteVTEP (deviceName : string) : prog netlinkE (result unit) :=
  try link <- trigger (LinkByName deviceName) catch wrap ("find link " +:+ deviceName) ;;
  try _ <- trigger (LinkDel link) catch wrap ("delete link " +:+ deviceName) ;;
  Ret (Ok tt).

Definition GetVTEPState (vtepName : string) : prog netlinkE (result (HardwareAddr * IP * Z)) :=
  try link <- trigger (LinkByName vtepName) catch wrap "find link" ;;
  try addresses <- trigger (AddrList link FAMILY_V4) catch wrap "list addresses" ;;
  match addresses with
  | [] => Ret (Err (Errorf "no addresses"))
  | a :: _ => Ret (Ok (Link_HardwareAddr link, IPNet_IP a, Link_MTU link))
  end.
