(* ===== verification/Daemon.v ===== *)
(** * The daemon's start (src/cmd/silk-daemon/main.go) and teardown (src/cmd/silk-teardown/main.go)

    At its start the daemon looks for a VXLAN device left by a previous run. If
    there is none it acquires a lease and creates the device; otherwise it takes
    the lease from the device and renews it, and replaces device and lease only
    when no container uses them. *)

From Stdlib Require Import ZArith Lia.
From S2P Require Import Prelude GoFmt GoNet NetFacts HwAddr Types Netlink Vtep.

(** The controller's client, and the datastore of the containers on this cell
    ([ReadAll] as the number of containers in it). *)
Inductive clientE : Type -> Type :=
| C_AcquireSubnetLease (underlayIP : string) : clientE (result Lease)
| C_AcquireSingleOverlayIPLease (underlayIP : string) : clientE (result Lease)
| C_RenewSubnetLease (lease : Lease) : clientE (result unit)
| C_ReleaseSubnetLease (underlayIP : string) : clientE (result unit)
| C_ReadAll (filePath : string) : clientE (result Z).

(** Everything the daemon calls. *)
Inductive daemonE : Type -> Type :=
| OnClient {X} (e : clientE X) : daemonE X
| OnKernel {X} (e : netlinkE X) : daemonE X
| OnNet {X} (e : netE X) : daemonE X.

Definition client {X} (e : clientE X) : prog daemonE X := trigger (OnClient e).
Definition on_kernel {A} (p : prog netlinkE A) : prog daemonE A :=
  interp (fun X e => trigger (@OnKernel X e)) p.
Definition on_net {A} (p : prog netE A) : prog daemonE A :=
  interp (fun X e => trigger (@OnNet X e)) p.

Section Daemon.
Context (cfg : ClientConfig).

Definition acquireLease : prog daemonE (result Lease) :=
  try lease <- (if cfg_SingleIPOnly cfg then client (C_AcquireSingleOverlayIPLease (cfg_UnderlayIP cfg))
                else client (C_AcquireSubnetLease (cfg_UnderlayIP cfg)))
    catch wrap "acquire subnet lease" ;;
  if cfg_HealthCheckPort cfg =? 0 then
    Ret (Err (Errorf ("invalid health check port: " +:+ itoa (cfg_HealthCheckPort cfg))))
  else
    try vtepConf <- on_net (Create cfg lease) catch wrap "create vtep config" ;;
    try _ <- on_kernel (CreateVTEP vtepConf) catch wrap "create vtep" ;;
    Ret (Ok lease).

Definition leaseFromVTEPState (overlayHwAddr : HardwareAddr) (overlayIP : IP) : Lease :=
  let overlaySubnet := {| IPNet_IP := overlayIP;
                          IPNet_Mask := CIDRMask (cfg_SubnetPrefixLength cfg) 32 |} in
  {| UnderlayIP := cfg_UnderlayIP cfg;
     OverlaySubnet := IPNet_String overlaySubnet;
     OverlayHardwareAddr := HardwareAddr_String overlayHwAddr |}.

Definition discoverLocalLease : prog daemonE (result Lease) :=
  try (overlayHwAddr, overlayIP, _) <- on_kernel (GetVTEPState (cfg_VTEPName cfg))
    catch wrap "get vtep overlay ip" ;;
  Ret (Ok (leaseFromVTEPState overlayHwAddr overlayIP)).

Definition getNetworkInfo (lease : Lease) : prog daemonE (result NetworkInfo) :=
  try (_, _, mtu) <- on_kernel (GetVTEPState (cfg_VTEPName cfg)) catch wrap "get vtep mtu" ;;
  Ret (Ok {| Info_OverlaySubnet := OverlaySubnet lease; Info_MTU := mtu |}).

Definition deleteAndAcquire : prog daemonE (result Lease) :=
  try _ <- on_kernel (DeleteVTEP (cfg_VTEPName cfg)) catch wrap "delete vtep" ;;
  acquireLease.

(** Replaces the lease when there are no containers. *)
Definition replace_if_unused (complaint : string) : prog daemonE (result Lease) :=
  try metadata <- client (C_ReadAll (cfg_Datastore cfg)) catch wrap "read datastore" ;;
  if negb (metadata =? 0) then Ret (Err (Errorf (complaint +:+ itoa metadata)))
  else deleteAndAcquire.

(** The server on the health check port, which gives every request one answer. *)
Record health_server := { health_address : string; health_status : Z; health_body : string }.

(** json.Marshal at daemon.NetworkInfo. *)
Context (marshal : NetworkInfo -> result string).

Definition buildHealthCheckServer (healthCheckPort : Z) (networkInfo : NetworkInfo)
    : result health_server :=
  match marshal networkInfo with
  | Err err => Err (wrap "unmarshaling network info" err)
  | Ok networkBytes =>
      Ok {| health_address := "127.0.0.1:" +:+ itoa healthCheckPort; health_status := 200;
            health_body := networkBytes |}
  end.

(** What [mainWithError] settles before it starts its servers. *)
Record started := {
  started_network : IPNet;
  started_lease : Lease;
  started_health : health_server;
  started_subnet : IPNet;
  started_vtep : Interface
}.

Definition establishLease (overlayNetwork : IPNet) : prog daemonE (result Lease) :=
  discovered <- discoverLocalLease ;;
  match discovered with
  | Err _ => acquireLease
  | Ok lease =>
      match ParseCIDR (OverlaySubnet lease) with
      | Err err => Ret (Err (wrap "parse local subnet CIDR" err))
      | Ok (_, localSubnet) =>
          try lease <-
            (if negb (Contains overlayNetwork (IPNet_IP localSubnet)) then
               replace_if_unused "discovered lease is not in overlay network and has containers: "
             else Ret (Ok lease)) catch id ;;
          renewed <- client (C_RenewSubnetLease lease) ;;
          match renewed with
          | Err _ => replace_if_unused "renew subnet lease with containers: "
          | Ok _ => Ret (Ok lease)
          end
      end
  end.

Definition daemon_start : prog daemonE (result started) :=
  match ParseCIDR (cfg_OverlayNetwork cfg) with
  | Err err => Ret (Err (wrap "parse overlay network CIDR" err))
  | Ok (_, overlayNetwork) =>
      try lease <- establishLease overlayNetwork catch id ;;
      try networkInfo <- getNetworkInfo lease catch wrap "get network info" ;;
      try healthCheckServer <- Ret (buildHealthCheckServer (cfg_HealthCheckPort cfg) networkInfo)
        catch wrap "create health check server" ;;
      match ParseCIDR (OverlaySubnet lease) with
      | Err err => Ret (Err (wrap "parse local subnet CIDR" err))
      | Ok (_, localSubnet) =>
          try vxlanIface <- trigger (OnNet (InterfaceByName (cfg_VTEPName cfg)))
            catch wrap "find local VTEP" ;;
          Ret (Ok {| started_network := overlayNetwork; started_lease := lease;
                     started_health := healthCheckServer; started_subnet := localSubnet;
                     started_vtep := vxlanIface |})
      end
  end.

(** silk-teardown: both steps are taken whatever the first one gives; the errors
    are collected. *)
Definition teardown : prog daemonE (list error) :=
  released <- client (C_ReleaseSubnetLease (cfg_UnderlayIP cfg)) ;;
  deleted <- on_kernel (DeleteVTEP (cfg_VTEPName cfg)) ;;
  Ret (match released with Err err => [wrap "release subnet lease" err] | Ok _ => [] end ++
       match deleted with Err err => [wrap "delete vtep" err] | Ok _ => [] end).

End Daemon.
