(* ===== verification/DaemonFacts.v ===== *)
(** * What the daemon's start guarantees

    It never deletes the VXLAN device of a cell that has containers; the lease
    of a block survives a restart, because it can be read back from the device;
    the lease of a single IP does not, and can come back as one that overlaps. *)

From Stdlib Require Import ZArith Lia.
From S2P Require Import Prelude GoFmt GoNet NetFacts HwAddr CidrPool Types Sql Store.
From S2P Require Import LeaseFacts LeaseController LeaseSafety Concurrency LeaseWitnesses Netlink Vtep Daemon.

(** ** The device is deleted only when unused *)

Inductive observation :=
| ReadContainers (n : result Z)
| DeletedDevice
| Other.

Definition observe_client {X} (e : clientE X) : X -> observation :=
  match e with C_ReadAll _ => fun x => ReadContainers x | _ => fun _ => Other end.

Definition observe_kernel {X} (e : netlinkE X) : observation :=
  match e with LinkDel _ => DeletedDevice | _ => Other end.

Definition observe {X} (e : daemonE X) : X -> observation :=
  match e with
  | OnClient e => observe_client e
  | OnKernel e => fun _ => observe_kernel e
  | OnNet _ => fun _ => Other
  end.

(** Any answer, and a log with the newest observation first. *)
Definition logged (X : Type) (e : daemonE X) (log log' : list observation) (x : X) : Prop :=
  log' = observe e x :: log.

Fixpoint last_read (log : list observation) : option (result Z) :=
  match log with
  | [] => None
  | ReadContainers n :: _ => Some n
  | _ :: log' => last_read log'
  end.

(** At every deletion the last answer of the datastore was: no container. *)
Fixpoint deletions_justified (log : list observation) : Prop :=
  match log with
  | [] => True
  | DeletedDevice :: log' => last_read log' = Some (Ok 0) /\ deletions_justified log'
  | _ :: log' => deletions_justified log'
  end.

(** A program that neither reads the datastore nor deletes the device. *)
Definition quiet {A} (p : prog daemonE A) : Prop := forall log,
  wp logged p log (fun log' _ => last_read log' = last_read log /\
    (deletions_justified log -> deletions_justified log')).

Lemma quiet_ret {A} (a : A) : quiet (Ret a).
Proof. by intros log. Qed.

Lemma quiet_bind {A B} (p : prog daemonE A) (f : A -> prog daemonE B) :
  quiet p -> (forall a, quiet (f a)) -> quiet (bind p f).
Proof.
  intros Hp Hf log. apply wp_bind. eapply wp_mono; [apply Hp|]. intros log1 a [H1 J1].
  eapply wp_mono; [apply Hf|]. intros log2 b [H2 J2]. split; [congruence|auto].
Qed.

Lemma quiet_bind_err {A B} (p : prog daemonE (result A)) w (f : A -> prog daemonE (result B)) :
  quiet p -> (forall a, quiet (f a)) -> quiet (bind_err p w f).
Proof. intros Hp Hf. apply quiet_bind; [done|]. intros [a|e]; [done|apply quiet_ret]. Qed.

Lemma quiet_trigger {X} (e : daemonE X) : (forall x, observe e x = Other) -> quiet (trigger e).
Proof. intros He log log' x ->. by rewrite He. Qed.

Create HintDb quiet.
#[export] Hint Resolve quiet_ret : quiet.

Ltac quiet_step :=
  repeat match goal with
  | |- quiet (bind_err _ _ _) => apply quiet_bind_err; [|intros ?]
  | |- quiet (bind _ _) => apply quiet_bind; [|intros ?]
  | |- quiet (Ret _) => apply quiet_ret
  | |- quiet (trigger _) => by apply quiet_trigger
  | |- quiet (let '(_, _) := ?x in _) => destruct x
  | |- quiet (match ?x with _ => _ end) => destruct x
  end.

(** The programs on the network interfaces never read or delete. *)
Lemma quiet_on_net {A} (p : prog netE A) : quiet (on_net p).
Proof.
  induction p as [a|X e k IH]; simpl; [apply quiet_ret|].
  apply (quiet_bind (trigger (OnNet e))); [by apply quiet_trigger|done].
Qed.

Lemma quiet_GetVTEPState name : quiet (on_kernel (GetVTEPState name)).
Proof.
  unfold on_kernel, GetVTEPState. cbn. intros log log1 x1 ->. destruct x1 as [l|e]; [|done].
  cbn. intros log2 x2 ->. by destruct x2 as [[|a l']|e].
Qed.

Lemma quiet_CreateVTEP conf : quiet (on_kernel (CreateVTEP conf)).
Proof.
  unfold on_kernel, CreateVTEP. cbn. intros log log1 x1 ->. destruct x1 as [l|e]; [|done].
  cbn. intros log2 x2 ->. destruct x2 as [l'|e]; [|done].
  cbn. intros log3 x3 ->. by destruct x3.
Qed.

#[export] Hint Resolve quiet_on_net quiet_GetVTEPState quiet_CreateVTEP : quiet.

Lemma quiet_acquireLease cfg : quiet (acquireLease cfg).
Proof.
  unfold acquireLease, client. quiet_step; auto with quiet.
Qed.

Lemma quiet_discoverLocalLease cfg : quiet (discoverLocalLease cfg).
Proof. unfold discoverLocalLease. quiet_step; auto with quiet. Qed.

Lemma quiet_getNetworkInfo cfg l : quiet (getNetworkInfo cfg l).
Proof. unfold getNetworkInfo. quiet_step; auto with quiet. Qed.

(** [p] keeps the deletions justified. *)
Definition justified {A} (p : prog daemonE A) : Prop := forall log,
  deletions_justified log -> wp logged p log (fun log' _ => deletions_justified log').

Lemma justified_quiet {A} (p : prog daemonE A) : quiet p -> justified p.
Proof. intros Hp log Hl. eapply wp_mono; [apply Hp|]. intros log' _ [_ H]. auto. Qed.

Lemma justified_bind {A B} (p : prog daemonE A) (f : A -> prog daemonE B) :
  justified p -> (forall a, justified (f a)) -> justified (bind p f).
Proof.
  intros Hp Hf log Hl. apply wp_bind. eapply wp_mono; [by apply Hp|]. intros log1 a H1. by apply Hf.
Qed.

Lemma justified_bind_err {A B} (p : prog daemonE (result A)) w (f : A -> prog daemonE (result B)) :
  justified p -> (forall a, justified (f a)) -> justified (bind_err p w f).
Proof.
  intros Hp Hf. apply justified_bind; [done|]. intros [a|e]; [done|]. by intros log.
Qed.

Lemma justified_replace cfg complaint : justified (replace_if_unused cfg complaint).
Proof.
  intros log Hl. unfold replace_if_unused, client. apply wp_bind_err, wp_trigger.
  intros log1 [n|e] ->; [|done]. destruct (Z.eqb_spec n 0) as [->|Hn]; cbn [negb]; [|done].
  unfold deleteAndAcquire. apply wp_bind_err. unfold on_kernel, DeleteVTEP. cbn.
  intros log2 x2 ->. destruct x2 as [l|e]; [|done]. cbn. intros log3 x3 ->.
  destruct x3 as [u|e]; cbn; [|done].
  eapply wp_mono; [apply quiet_acquireLease|]. intros log4 _ [_ H]. apply H. by split.
Qed.

Lemma justified_establish cfg net : justified (establishLease cfg net).
Proof.
  unfold establishLease. apply justified_bind; [apply justified_quiet, quiet_discoverLocalLease|].
  intros [l|e]; [|apply justified_quiet, quiet_acquireLease].
  destruct (ParseCIDR (OverlaySubnet l)) as [[ip subnet]|e]; [|by apply justified_quiet, quiet_ret].
  apply justified_bind_err.
  - destruct (negb _); [apply justified_replace|by apply justified_quiet, quiet_ret].
  - intros l'. apply justified_bind; [by apply justified_quiet, quiet_trigger|].
    intros [u|e]; [by apply justified_quiet, quiet_ret|apply justified_replace].
Qed.

(** C21. Whatever the controller, the kernel, the datastore and the network
    interfaces answer, the start of the daemon deletes its VXLAN device only when
    the last answer of the datastore to it was that the cell has no container:
    with containers, or with a datastore it cannot read, it stops with an error
    and leaves the device alone. *)
Theorem start_spares_containers cfg marshal :
  wp logged (daemon_start cfg marshal) [] (fun log _ => deletions_justified log).
Proof.
  assert (justified (daemon_start cfg marshal)) as H; [|by apply H].
  unfold daemon_start. destruct (ParseCIDR (cfg_OverlayNetwork cfg)) as [[ip net]|e];
    [|by apply justified_quiet, quiet_ret].
  apply justified_bind_err; [apply justified_establish|]. intros l. apply justified_quiet.
  quiet_step; auto using quiet_getNetworkInfo with quiet.
Qed.

(** ** Reading the lease back from the device *)

(** What the device of a lease of the network shows: its address and hardware
    address, in whichever of the two forms of an IPv4 address. *)
Definition device_shows (l : Lease) (hw : HardwareAddr) (ip : IP) : Prop :=
  ParseMAC (OverlayHardwareAddr l) = Ok hw /\
  exists vtepIP net, ParseCIDR (OverlaySubnet l) = Ok (vtepIP, net) /\ To4 ip = To4 vtepIP.

Lemma rediscovered cfg c base len m l hw ip n i :
  configured c base len m -> OverlaySubnet l = subnet_at base n i -> 0 <= n <= 32 ->
  lease_wf (Pool c) l -> cfg_UnderlayIP cfg = UnderlayIP l -> 0 <= cfg_SubnetPrefixLength cfg <= 32 ->
  device_shows l hw ip ->
  leaseFromVTEPState cfg hw ip =
    {| UnderlayIP := UnderlayIP l;
       OverlaySubnet := subnet_at base (cfg_SubnetPrefixLength cfg) i;
       OverlayHardwareAddr := OverlayHardwareAddr l |}.
Proof.
  intros Hconf Hs Hn [_ Hhw] Hip Hpl (Hmac & vtep & net & Hp & H4).
  unfold leaseFromVTEPState, subnet_at in *.
  pose proof (be_bytes4_v4 (base + i)) as Hb. pose proof (proj1 Hb) as Hl.
  rewrite Hs, ParseCIDR_text in Hp by done.
  assert (To4 ip = be_bytes4 (base + i)) as Hto4.
  { rewrite H4. assert (vtep = v4InV6Prefix ++ be_bytes4 (base + i)) as -> by congruence.
    by apply To4_prefix. }
  rewrite IPNet_String_v4 by (try rewrite Hto4; done). rewrite Hto4.
  rewrite Hs, vtep_addr_text in Hhw by done. apply (inj Some) in Hhw.
  rewrite <- Hhw, ParseMAC_String in Hmac.
  - injection Hmac as <-. by rewrite Hip, Hhw.
  - done.
  - constructor; [done|]. constructor; [done|apply Hb].
Qed.

(** The lease of a block survives a restart of the daemon: from the address
    and the hardware address of the device that was created for it, the daemon
    reads back the very lease. *)
Theorem block_lease_rediscovered cfg c base len m l hw ip :
  configured c base len m -> lease_wf (Pool c) l -> OverlaySubnet l ∈ blockPool (Pool c) ->
  cfg_UnderlayIP cfg = UnderlayIP l -> cfg_SubnetPrefixLength cfg = m ->
  device_shows l hw ip ->
  leaseFromVTEPState cfg hw ip = l.
Proof.
  intros Hconf Hwf Hin Hip Hm Hdev.
  pose proof (conf_pool _ _ _ _ Hconf) as [Hb _]. apply Hb in Hin as (k & _ & Hs).
  pose proof (conf_cut _ _ _ _ Hconf) as [].
  rewrite (rediscovered cfg c base len m l hw ip m _ Hconf Hs); [|lia|done|done|lia|done].
  rewrite Hm, <- Hs. by destruct l.
Qed.

(** What becomes of the lease of a single IP. *)
Lemma single_rediscovered cfg c base len m l hw ip :
  configured c base len m -> lease_wf (Pool c) l -> OverlaySubnet l ∈ singlePool (Pool c) ->
  cfg_UnderlayIP cfg = UnderlayIP l -> cfg_SubnetPrefixLength cfg = m -> device_shows l hw ip ->
  ParseIP (UnderlayIP l) <> [] ->
  exists j, 1 <= j < 2 ^ (32 - m) /\ OverlaySubnet l = subnet_at base 32 j /\
    leaseFromVTEPState cfg hw ip =
      {| UnderlayIP := UnderlayIP l; OverlaySubnet := subnet_at base m j;
         OverlayHardwareAddr := OverlayHardwareAddr l |} /\
    Validate (leaseFromVTEPState cfg hw ip) = Ok tt.
Proof.
  intros Hconf Hwf Hin Hip Hpl Hdev Hparse.
  pose proof (conf_pool _ _ _ _ Hconf) as [_ Hsp]. apply Hsp in Hin as (j & Hj & Hs).
  pose proof (conf_cut _ _ _ _ Hconf) as Hcut.
  assert (0 <= m <= 32) as Hm by (destruct Hcut; lia).
  exists j. split_and!; [lia..|done| |];
    rewrite (rediscovered cfg c base len m l hw ip 32 j Hconf Hs), Hpl by (done || lia); [done|].
  unfold Validate. cbn [UnderlayIP OverlaySubnet OverlayHardwareAddr]. rewrite decide_False by done.
  unfold subnet_at. rewrite ParseCIDR_text; [|apply be_bytes4_v4|lia]. by destruct Hdev as [-> _].
Qed.

(** The prefix length of a block makes it a text that is in no pool. *)
Lemma widened_not_member c base len m j :
  configured c base len m -> m < 32 -> 1 <= j < 2 ^ (32 - m) ->
  IsMember (Pool c) (subnet_at base m j) = false.
Proof.
  intros [Hcut Hpool] Hm Hj. apply not_true_iff_false.
  intros (n & i & k & E & Hi & Hk & Hf)%(member_form base len m); [|done..].
  pose proof (single_offset Hcut j Hj). pose proof (cut_m _ _ _ Hcut). pose proof (cut_c _ _ _ Hcut).
  apply (subnet_at_inj Hcut) in E as [<- <-]; [|lia..]. destruct Hf as [(_ & Hk1 & Ej)|[E _]]; [nia|lia].
Qed.

(** C37. The lease of a single IP does not survive a restart: the daemon reads back the subnet with
    the prefix length of a block instead of 32, so at its next start its renewal
    is refused with the error that is not retried, on a database that answers,
    although nothing has changed in the table. *)
Theorem single_lease_lost_at_restart cfg c base len m l hw ip w :
  configured c base len m -> m < 32 -> lease_wf (Pool c) l ->
  OverlaySubnet l ∈ singlePool (Pool c) ->
  cfg_UnderlayIP cfg = UnderlayIP l -> cfg_SubnetPrefixLength cfg = m -> device_shows l hw ip ->
  ParseIP (UnderlayIP l) <> [] -> l ∈ map lease_of (w_table w) -> unique_table (w_table w) ->
  let discovered := leaseFromVTEPState cfg hw ip in
  discovered <> l /\
  wp store_up_step (RenewSubnetLease discovered) w (fun w' x =>
    x = Err (NonRetriableError "lease mismatch") /\ w_table w' = w_table w).
Proof.
  intros Hconf Hm Hwf Hin Hip Hpl Hdev Hparse Hl Hu discovered.
  destruct (single_rediscovered cfg c base len m l hw ip) as (j & Hj & Hs & Hd & Hv); [done..|].
  fold discovered in Hd, Hv.
  assert (discovered <> l) as Hne.
  { intros E. pose proof (widened_not_member c base len m j Hconf Hm Hj) as Hno.
    destruct Hwf as [Hmem _]. rewrite <- E, Hd in Hmem. simpl in Hmem. congruence. }
  split; [done|]. assert (UnderlayIP discovered = UnderlayIP l) as Eip by (by rewrite Hd).
  unfold RenewSubnetLease. rewrite Hv. wp_call. intros w1 x [[_ [Ht Hx]] Ha]. simpl in Ha.
  destruct x as [[l0|]|e]; [| |done].
  - destruct Hx as [Hin0 Hip0].
    assert (l0 = l) as ->.
    { apply list_elem_of_fmap in Hin0 as (r0 & -> & Hr0), Hl as (r & -> & Hr).
      f_equal. eapply unique_ip; [done..|]. simpl in *. congruence. }
    rewrite decide_True by done. by split.
  - exfalso. apply Hx. rewrite Eip. apply list_elem_of_fmap in Hl as (r & -> & Hr). simpl.
    by apply (list_elem_of_fmap_2 row_underlay_ip).
Qed.

(** A valid lease that the table knows nothing of is added by its renewal, of the
    network or not. *)
Lemma renew_adds_unknown l w :
  Validate l = Ok tt -> lease_fresh l (w_table w) ->
  wp store_up_step (RenewSubnetLease l) w (fun w' x =>
    x = Ok tt /\ l ∈ map lease_of (w_table w') /\ forall r, r ∈ w_table w -> r ∈ w_table w').
Proof.
  intros Hv Hf. pose proof Hf as (Hip & _ & _)%fresh_notin.
  unfold RenewSubnetLease. rewrite Hv. wp_call. intros w1 x [[_ [Ht Hx]] Ha].
  destruct x as [[l0|]|e]; [|clear Hx|done].
  { destruct Hx as [(r & -> & Hr)%list_elem_of_fmap E]. destruct Hip. rewrite <- E.
    by apply (list_elem_of_fmap_2 row_underlay_ip). }
  wp_call. intros w2 [[]|e] [[_ Hs] Ha2]; simpl in Hs, Ha2; rewrite Ht in Hs, Ha2; [|by specialize (Ha2 Hf)].
  destruct Hs as [_ Ht2]. wp_call. intros w3 [[]|e] [[_ Ht3] Ha3]; [|done]. simpl in Ht3.
  assert (l ∈ map lease_of (w_table w3) /\ (forall r, r ∈ w_table w -> r ∈ w_table w3) /\
    UnderlayIP l ∈ map row_underlay_ip (w_table w3)) as (Hl & Hkeep & Hin).
  { rewrite Ht3, leases_renew, map_renew_ip, Ht2, !map_app by done. split_and!.
    - apply elem_of_app. right. by apply list_elem_of_singleton; destruct l.
    - intros r Hr. apply renew_ip_other; [apply elem_of_app; by left|].
      intros E. apply Hip. rewrite <- E. by apply (list_elem_of_fmap_2 row_underlay_ip).
    - apply elem_of_app. right. by apply list_elem_of_singleton. }
  wp_call. intros w4 [z|e] [[_ [Ht4 _]] Ha4]; simpl in Ha4; [|by specialize (Ha4 Hin)].
  simpl. by rewrite Ht4.
Qed.

(** C38. Once the row of a single IP's lease is gone (it expired and was
    reclaimed, or the table was lost) and nobody else has the IP, the renewal at
    the daemon's next start is accepted: the lease it adds spans the whole block
    of the single IPs, so the table then holds two leases that overlap, for every
    other cell with a single IP. *)
Theorem lost_single_lease_returns_as_block cfg c base len m l hw ip w r :
  configured c base len m -> m < 32 -> lease_wf (Pool c) l ->
  OverlaySubnet l ∈ singlePool (Pool c) ->
  cfg_UnderlayIP cfg = UnderlayIP l -> cfg_SubnetPrefixLength cfg = m -> device_shows l hw ip ->
  ParseIP (UnderlayIP l) <> [] -> table_wf (Pool c) (w_table w) ->
  UnderlayIP l ∉ map row_underlay_ip (w_table w) ->
  OverlaySubnet l ∉ map row_overlay_subnet (w_table w) ->
  r ∈ w_table w -> row_overlay_subnet r ∈ singlePool (Pool c) ->
  let discovered := leaseFromVTEPState cfg hw ip in
  ~ disjoint_subnets (OverlaySubnet discovered) (row_overlay_subnet r) /\
  wp store_up_step (RenewSubnetLease discovered) w (fun w' x =>
    x = Ok tt /\ discovered ∈ map lease_of (w_table w') /\ r ∈ w_table w').
Proof.
  intros Hconf Hm Hwf Hin Hip Hpl Hdev Hparse Htab Hnip Hnsub Hr Hrs discovered.
  destruct (single_rediscovered cfg c base len m l hw ip) as (j & Hj & Hs & Hd & Hv); [done..|].
  fold discovered in Hd, Hv. destruct Hconf as [Hcut Hpool].
  pose proof (cut_m _ _ _ Hcut). pose proof (cut_c _ _ _ Hcut). split.
  - apply Hpool in Hrs as (j' & Hj' & ->). rewrite Hd. cbn [OverlaySubnet].
    pose proof (single_offset Hcut j Hj). pose proof (single_offset Hcut j' Hj').
    destruct (subnet_at_contains Hcut m j) as (n1 & E1 & C1); [lia..|].
    destruct (subnet_at_contains Hcut 32 j') as (n2 & E2 & C2); [lia..|].
    intros (? & ? & ? & ? & E1' & E2' & Hdis). rewrite E1 in E1'. rewrite E2 in E2'.
    injection E1' as _ <-. injection E2' as _ <-.
    specialize (Hdis (be_bytes4 (base + j')) (be_bytes4_v4 _)).
    rewrite C1, C2, (cut_offset Hcut j'), !bool_decide_eq_true, bool_decide_eq_false in Hdis
      by (done || apply be_bytes4_v4).
    apply Hdis; [|done]. rewrite !(block_quotient Hcut _ 0) by lia. done.
  - pose proof (member_fresh base len m (Pool c) (w_table w) l Hcut Hpool Htab Hwf Hnip Hnsub)
      as (_ & _ & Hnhw)%fresh_notin.
    eapply wp_mono; [apply renew_adds_unknown; [done|]|intros w' x (Hx & Hl & Hk); split_and!; auto].
    apply fresh_notin. rewrite Hd. cbn [UnderlayIP OverlaySubnet OverlayHardwareAddr].
    split_and!; [done| |done]. intros (r' & E & Hr')%list_elem_of_fmap.
    unfold table_wf in Htab. rewrite Forall_forall in Htab. destruct (Htab r' Hr') as [Hmem _].
    simpl in Hmem. rewrite <- E, (widened_not_member c base len m) in Hmem; done.
Qed.

(** ** At concrete inputs *)

Definition example_config : ClientConfig := {|
  cfg_UnderlayIP := "10.0.0.1"; cfg_VxlanInterfaceName := ""; cfg_SubnetPrefixLength := 31;
  cfg_OverlayNetwork := "10.255.0.0/30"; cfg_HealthCheckPort := 4321; cfg_VTEPName := "silk-vtep";
  cfg_ConnectivityServerURL := "https://silk:4103"; cfg_ServerCACertFile := "ca";
  cfg_ClientCertFile := "cert"; cfg_ClientKeyFile := "key"; cfg_VNI := 1; cfg_VTEPPort := 4789;
  cfg_PollInterval := 5; cfg_DebugServerPort := 1; cfg_Datastore := "store";
  cfg_PartitionToleranceSeconds := 60; cfg_ClientTimeoutSeconds := 5; cfg_MetronPort := 1;
  cfg_LogPrefix := "p"; cfg_LogLevel := ""; cfg_SingleIPOnly := true
|}.

Lemma block_lease_rediscovered_witness :
  leaseFromVTEPState example_config [238; 238; 10; 255; 0; 2] [10; 255; 0; 2]
  = cell_lease "10.0.0.1".
Proof.
  apply (block_lease_rediscovered example_config small_controller 184483840 30 31
    (cell_lease "10.0.0.1") [238; 238; 10; 255; 0; 2] [10; 255; 0; 2] small_configured
    (cell_lease_wf "10.0.0.1")).
  - apply (bool_decide_unpack _). vm_compute. exact I.
  - reflexivity.
  - reflexivity.
  - split; [vm_compute; reflexivity|]. do 2 eexists. split; vm_compute; reflexivity.
Defined.

Definition single_lease : Lease :=
  {| UnderlayIP := "10.0.0.1"; OverlaySubnet := "10.255.0.1/32";
     OverlayHardwareAddr := "ee:ee:0a:ff:00:01" |}.

Lemma single_lease_lost_at_restart_witness :
  leaseFromVTEPState example_config [238; 238; 10; 255; 0; 1] [10; 255; 0; 1] <> single_lease.
Proof.
  refine (proj1 (single_lease_lost_at_restart example_config small_controller 184483840 30 31
    single_lease [238; 238; 10; 255; 0; 1] [10; 255; 0; 1]
    {| w_clock := 0; w_table := [lease_row 0 single_lease] |} small_configured _ _ _ _ _ _ _ _ _)).
  - reflexivity.
  - split; vm_compute; reflexivity.
  - apply (bool_decide_unpack _). vm_compute. exact I.
  - reflexivity.
  - reflexivity.
  - split; [vm_compute; reflexivity|]. do 2 eexists. split; vm_compute; reflexivity.
  - vm_compute. discriminate.
  - apply list_elem_of_here.
  - repeat split; apply NoDup_singleton.
Defined.

(** A network with three single IPs and one block; the first cell's lease is gone
    from the table, the second cell has its own. *)
Definition three_pool : CIDRPool :=
  match NewCIDRPool 8 (Ok 7) "10.255.0.0/29" 30 with
  | Returns p => p
  | _ => {| blockPool := ∅; singlePool := ∅ |}
  end.

Definition three_controller : LeaseController :=
  {| AcquireSubnetLeaseAttempts := 10; Pool := three_pool; LeaseExpirationSeconds := 100 |}.

Lemma three_network : overlay_network "10.255.0.0/29" 184483840 29.
Proof. do 2 eexists. split; [vm_compute; reflexivity|]. split; vm_compute; reflexivity. Qed.

Lemma three_configured : configured three_controller 184483840 29 30.
Proof.
  split; [apply (overlay_network_cut _ _ _ 30 three_network); lia|].
  destruct (NewCIDRPool_pool_of 8 7 "10.255.0.0/29" 184483840 29 30 three_network)
    as (p & Hp & Hpool); [lia|vm_compute; discriminate|].
  assert (NewCIDRPool 8 (Ok 7) "10.255.0.0/29" 30 = Returns three_pool) as E by (vm_compute; reflexivity).
  rewrite E in Hp. injection Hp as <-. exact Hpool.
Qed.

Definition three_config : ClientConfig := {|
  cfg_UnderlayIP := "10.0.0.1"; cfg_VxlanInterfaceName := ""; cfg_SubnetPrefixLength := 30;
  cfg_OverlayNetwork := "10.255.0.0/29"; cfg_HealthCheckPort := 4321; cfg_VTEPName := "silk-vtep";
  cfg_ConnectivityServerURL := "https://silk:4103"; cfg_ServerCACertFile := "ca";
  cfg_ClientCertFile := "cert"; cfg_ClientKeyFile := "key"; cfg_VNI := 1; cfg_VTEPPort := 4789;
  cfg_PollInterval := 5; cfg_DebugServerPort := 1; cfg_Datastore := "store";
  cfg_PartitionToleranceSeconds := 60; cfg_ClientTimeoutSeconds := 5; cfg_MetronPort := 1;
  cfg_LogPrefix := "p"; cfg_LogLevel := ""; cfg_SingleIPOnly := true
|}.

Definition second_row : row := lease_row 990
  {| UnderlayIP := "10.0.0.2"; OverlaySubnet := "10.255.0.2/32";
     OverlayHardwareAddr := "ee:ee:0a:ff:00:02" |}.

Lemma lost_single_lease_returns_as_block_witness :
  let discovered := leaseFromVTEPState three_config [238; 238; 10; 255; 0; 1] [10; 255; 0; 1] in
  OverlaySubnet discovered = "10.255.0.1/30" /\
  ~ disjoint_subnets (OverlaySubnet discovered) "10.255.0.2/32".
Proof.
  split; [vm_compute; reflexivity|].
  refine (proj1 (lost_single_lease_returns_as_block three_config three_controller 184483840 29 30
    single_lease [238; 238; 10; 255; 0; 1] [10; 255; 0; 1] {| w_clock := 1000; w_table := [second_row] |}
    second_row three_configured ltac:(lia) _ _ eq_refl eq_refl _ _ _ _ _ (list_elem_of_here _ _) _)).
  - split; vm_compute; reflexivity.
  - apply (bool_decide_unpack _). vm_compute. exact I.
  - split; [vm_compute; reflexivity|]. do 2 eexists. split; vm_compute; reflexivity.
  - vm_compute. discriminate.
  - constructor; [|constructor]. split; vm_compute; reflexivity.
  - intros [=]%list_elem_of_singleton.
  - intros [=]%list_elem_of_singleton.
  - apply (bool_decide_unpack _). vm_compute. exact I.
Defined.
