(* ===== verification/Datastore.v ===== *)
(** * The containers of a cell (src/lib/datastore, src/lib/serial)

    [Store] keeps a map from container handles to containers in one file, which
    it locks, reads as a whole and overwrites. The file is an offset and its
    bytes; any call on it can fail, a failed write after a part of the bytes.
    The JSON codec of the map is an argument. *)

From Stdlib Require Import ZArith Lia Ascii.
From S2P Require Import Prelude GoFmt GoNet.

(** ** The file and the codec *)

(** filelock.FileLocker and filelock.LockedFile. [Read] is what the JSON decoder
    reads: everything from the offset on. *)
Inductive fileE : Type -> Type :=
| Locker_Open (path : string) : fileE (result unit)
| Seek_Start : fileE (result unit)
| Read : fileE (result (list ascii))
| Truncate_0 : fileE (result unit)
| Write (bytes : list ascii) : fileE (result unit)
| Close : fileE unit.

Section Datastore.
Context {Metadata : Type}.

Record Container := { Handle : string; Container_IP : string; Container_Metadata : option Metadata }.

(** json's Decoder.Decode into the map: the end of the file is its own error. *)
Inductive decoded := EOF | Malformed (e : error) | Decoded (pool : gmap string Container).

Record MapCodec := {
  Decode : list ascii -> decoded;
  Encode : gmap string Container -> result (list ascii)
}.

Context (codec : MapCodec).

(** ** serial.Serial *)

Definition DecodeAll (outData : gmap string Container) : prog fileE (result (gmap string Container)) :=
  try _ <- trigger Seek_Start catch id ;;
  try bytes <- trigger Read catch id ;;
  match Decode codec bytes with
  | Malformed err => Ret (Err err)
  | EOF => Ret (Ok outData)
  | Decoded pool => Ret (Ok pool)
  end.

Definition EncodeAndOverwrite (outData : gmap string Container) : prog fileE (result unit) :=
  try _ <- trigger Seek_Start catch id ;;
  try _ <- trigger Truncate_0 catch id ;;
  match Encode codec outData with
  | Err err => Ret (Err err)
  | Ok bytes => trigger (Write bytes)
  end.

(** ** datastore.Store *)

Definition validate (handle ip : string) : result unit :=
  if decide (handle = "") then Err (Errorf "invalid handle")
  else if decide (ParseIP ip = []) then Err (Errorf ("invalid ip: " +:+ ip))
  else Ok tt.

(** [defer file.Close()] *)
Definition closing {A} (p : prog fileE A) : prog fileE A :=
  x <- p ;; _ <- trigger Close ;; Ret x.

Definition Add (filePath handle ip : string) (metadata : option Metadata) : prog fileE (result unit) :=
  match validate handle ip with
  | Err err => Ret (Err err)
  | Ok _ =>
      try _ <- trigger (Locker_Open filePath) catch wrap "open lock" ;;
      closing (
        try pool <- DecodeAll ∅ catch wrap "decoding file" ;;
        let pool := <[handle := {| Handle := handle; Container_IP := ip;
                                   Container_Metadata := metadata |}]> pool in
        try _ <- EncodeAndOverwrite pool catch wrap "encode and overwrite" ;;
        Ret (Ok tt))
  end.

Definition zero_Container : Container :=
  {| Handle := ""; Container_IP := ""; Container_Metadata := None |}.

(** Go returns the container next to the error; [snd] is the error. *)
Definition Delete (filePath handle : string) : prog fileE (Container * result unit) :=
  if decide (handle = "") then Ret (zero_Container, Err (Errorf "invalid handle"))
  else
    opened <- trigger (Locker_Open filePath) ;;
    match opened with
    | Err err => Ret (zero_Container, Err (wrap "open lock" err))
    | Ok _ =>
        closing (
          decoded <- DecodeAll ∅ ;;
          match decoded with
          | Err err => Ret (zero_Container, Err (wrap "decoding file" err))
          | Ok pool =>
              let deleted := default zero_Container (pool !! handle) in
              let pool := delete handle pool in
              written <- EncodeAndOverwrite pool ;;
              match written with
              | Err err => Ret (deleted, Err (wrap "encode and overwrite" err))
              | Ok _ => Ret (deleted, Ok tt)
              end
          end)
    end.

Definition ReadAll (filePath : string) : prog fileE (result (gmap string Container)) :=
  try _ <- trigger (Locker_Open filePath) catch wrap "open lock" ;;
  closing (
    try pool <- DecodeAll ∅ catch wrap "decoding file" ;;
    Ret (Ok pool)).

(** ** What the calls do to the file *)

Record file := { offset : nat; bytes_of : list ascii }.

(** Writing at the offset; a gap is filled with zero bytes. *)
Definition written_at (f : file) (s : list ascii) : file :=
  let b := bytes_of f in
  {| offset := offset f + length s;
     bytes_of := take (offset f) b ++ replicate (offset f - length b) Ascii.zero ++ s ++
                 drop (offset f + length s) b |}.

Definition file_step (X : Type) (e : fileE X) (f f' : file) : X -> Prop :=
  match e with
  | Locker_Open _ => fun x =>
      match x with Ok _ => f' = {| offset := 0; bytes_of := bytes_of f |} | Err _ => f' = f end
  | Seek_Start => fun x =>
      match x with Ok _ => f' = {| offset := 0; bytes_of := bytes_of f |} | Err _ => f' = f end
  | Read => fun x =>
      bytes_of f' = bytes_of f /\
      match x with Ok s => s = drop (offset f) (bytes_of f) | Err _ => True end
  | Truncate_0 => fun x =>
      match x with Ok _ => f' = {| offset := offset f; bytes_of := [] |} | Err _ => f' = f end
  | Write s => fun x =>
      match x with
      | Ok _ => f' = written_at f s
      | Err _ => exists n, f' = written_at f (take n s)
      end
  | Close => fun _ => f' = f
  end.

(** ** The map in the file *)

(** What the bytes hold: nothing at all stands for the empty map. *)
Definition holds (f : file) (pool : gmap string Container) : Prop :=
  Decode codec (bytes_of f) = Decoded pool \/ (Decode codec (bytes_of f) = EOF /\ pool = ∅).

(** The entries that JSON keeps: their texts are valid UTF-8, and the values of their
    metadata are what the decoder itself produces (numbers as float64). *)
Context (stable : string -> Container -> Prop).

(** The decoder reads back what the encoder writes of such entries, and produces such
    entries; no bytes at all are the end of the file. *)
Record CodecLaws : Prop := {
  decode_of_encode pool bytes :
    map_Forall stable pool -> Encode codec pool = Ok bytes -> Decode codec bytes = Decoded pool;
  decode_stable bytes pool : Decode codec bytes = Decoded pool -> map_Forall stable pool;
  decode_empty : Decode codec [] = EOF
}.

Hypothesis Hcodec : CodecLaws.

Ltac file_call := first [apply wp_bind_err | apply wp_bind | idtac]; apply wp_trigger; cbn [file_step].

Lemma written_to_empty s : bytes_of (written_at {| offset := 0; bytes_of := [] |} s) = s.
Proof.
  unfold written_at. cbn [bytes_of offset]. rewrite take_nil, drop_nil.
  cbn [length Nat.sub replicate]. by rewrite !app_nil_l, app_nil_r.
Qed.

Lemma holds_fun f pool pool' : holds f pool -> holds f pool' -> pool = pool'.
Proof. unfold holds. intros [H|[H ->]] [H'|[H' ->]]; congruence. Qed.

Lemma holds_stable f pool : holds f pool -> map_Forall stable pool.
Proof. intros [H|[_ ->]]; [by eapply decode_stable|apply map_Forall_empty]. Qed.

Lemma DecodeAll_wp f :
  wp file_step (DecodeAll ∅) f (fun f' x => bytes_of f' = bytes_of f /\
    match x with
    | Ok pool => holds f pool
    | Err _ => True
    end).
Proof.
  unfold DecodeAll, holds. file_call. intros f1 [u|e] H1; [|by subst]. subst f1.
  file_call. intros f2 [s|e] [H2 Hs]; cbn [bytes_of offset] in *; [|done].
  rewrite drop_0 in Hs. subst s. destruct (Decode codec (bytes_of f)) eqn:E; cbn [wp]; auto.
Qed.

(** An overwrite that fails leaves the file as it was, or some first part of the
    new bytes, possibly none. *)
Lemma EncodeAndOverwrite_wp pool f :
  map_Forall stable pool ->
  wp file_step (EncodeAndOverwrite pool) f (fun f' x =>
    match x with
    | Ok _ => holds f' pool
    | Err _ => bytes_of f' = bytes_of f \/
        exists n s, bytes_of f' = take n s /\ (Encode codec pool = Ok s \/ s = [])
    end).
Proof.
  intros Hst. unfold EncodeAndOverwrite. file_call. intros f1 [u|e] H1; [|left; by subst]. subst f1.
  file_call. intros f2 [v|e] H2; subst f2; [|by left].
  destruct (Encode codec pool) as [s|e] eqn:E; cbn [wp].
  - file_call. intros f3 [w|e] H3.
    + subst f3. left. rewrite written_to_empty. by apply Hcodec.
    + destruct H3 as [n ->]. right. exists n, s. rewrite written_to_empty. auto.
  - right. exists 0%nat, []. auto.
Qed.

Lemma closing_wp {A} (p : prog fileE A) f Q :
  wp file_step p f Q -> wp file_step (closing p) f Q.
Proof.
  intros Hp. unfold closing. apply wp_bind. eapply wp_mono; [exact Hp|]. intros f1 a Ha.
  file_call. intros f2 [] ->. done.
Qed.

(** The operations on the map. *)
Definition container (handle ip : string) (metadata : option Metadata) : Container :=
  {| Handle := handle; Container_IP := ip; Container_Metadata := metadata |}.

Lemma Add_wp path handle ip metadata f :
  stable handle (container handle ip metadata) ->
  wp file_step (Add path handle ip metadata) f (fun f' x =>
    x = Ok tt -> validate handle ip = Ok tt /\
      exists pool, holds f pool /\ holds f' (<[handle := container handle ip metadata]> pool)).
Proof.
  intros Hst. unfold Add. destruct (validate handle ip) as [[]|e]; [|done].
  file_call. intros f1 [u|e] H1; [|done]. apply closing_wp, wp_bind_err.
  eapply wp_mono; [apply DecodeAll_wp|]. intros f2 [pool|e] [_ Hpool]; [|done].
  apply wp_bind_err. eapply wp_mono; [apply EncodeAndOverwrite_wp|].
  { apply map_Forall_insert_2; [done|by eapply holds_stable]. }
  intros f3 [v|e] H3; cbn [wp]; [|done]. intros _. split; [done|]. exists pool. by subst f1.
Qed.

Lemma ReadAll_wp path f :
  wp file_step (ReadAll path) f (fun f' x =>
    bytes_of f' = bytes_of f /\ forall pool, x = Ok pool -> holds f pool).
Proof.
  unfold ReadAll. file_call. intros f1 [u|e] H1; subst f1; [|done]. apply closing_wp, wp_bind_err.
  eapply wp_mono; [apply DecodeAll_wp|]. intros f2 [pool|e] [Hb Hpool]; cbn [wp]; [|done].
  split; [done|]. intros ? [= <-]. done.
Qed.

Lemma Delete_wp path handle f :
  wp file_step (Delete path handle) f (fun f' x =>
    snd x = Ok tt ->
      exists pool, holds f pool /\ holds f' (delete handle pool) /\
        fst x = default zero_Container (pool !! handle)).
Proof.
  unfold Delete. case_decide; [done|]. apply wp_bind, wp_trigger. cbn [file_step].
  intros f1 [u|e] H1; [|done]. apply closing_wp, wp_bind.
  eapply wp_mono; [apply DecodeAll_wp|]. intros f2 [pool|e] [_ Hpool]; [|done].
  apply wp_bind. eapply wp_mono; [apply EncodeAndOverwrite_wp|].
  { apply map_Forall_delete. by eapply holds_stable. }
  intros f3 [v|e] H3; cbn [wp]; [|done]. intros _. exists pool. by subst f1.
Qed.

(** ** A disk on which every call succeeds *)

Definition answers {X} (e : fileE X) : X -> Prop :=
  match e with
  | Locker_Open _ => fun x => is_Ok x = true
  | Seek_Start => fun x => is_Ok x = true
  | Read => fun x => is_Ok x = true
  | Truncate_0 => fun x => is_Ok x = true
  | Write _ => fun x => is_Ok x = true
  | Close => fun _ => True
  end.

Definition working_step (X : Type) (e : fileE X) (f f' : file) (x : X) : Prop :=
  file_step X e f f' x /\ answers e x.

(** A call that gives a result: it succeeds, with the effect of the contract. *)
Lemma working_bind {A B : Type} (e : fileE (result A)) w (p : A -> prog fileE (result B)) f Q :
  (forall x, answers e x -> is_Ok x = true) ->
  (forall f' a, file_step _ e f f' (Ok a) -> wp working_step (p a) f' Q) ->
  wp working_step (try a <- trigger e catch w ;; p a) f Q.
Proof.
  intros He Hp. apply wp_bind_err, wp_trigger. intros f' [a|err] [Hs Ha]; [by apply Hp|].
  by apply He in Ha.
Qed.

Lemma DecodeAll_works f pool :
  holds f pool -> wp working_step (DecodeAll ∅) f (fun f' x => bytes_of f' = bytes_of f /\ x = Ok pool).
Proof.
  intros Hp. unfold DecodeAll. apply working_bind; [done|]. intros f1 _ ->.
  apply working_bind; [done|]. intros f2 s [Hb ->]. cbn [offset bytes_of] in *. rewrite drop_0.
  by destruct Hp as [->|[-> ->]].
Qed.

Lemma EncodeAndOverwrite_works pool bytes f :
  map_Forall stable pool -> Encode codec pool = Ok bytes ->
  wp working_step (EncodeAndOverwrite pool) f (fun f' x => holds f' pool /\ x = Ok tt).
Proof.
  intros Hst He. unfold EncodeAndOverwrite. apply working_bind; [done|]. intros f1 _ ->.
  apply working_bind; [done|]. intros f2 _ ->. rewrite He. apply wp_trigger.
  intros f3 [[]|err] [Hs Ha]; [|done]. cbn in Hs. subst f3. split; [|done]. left.
  rewrite written_to_empty. by apply Hcodec.
Qed.

Lemma closing_works {A} (p : prog fileE A) f Q :
  wp working_step p f Q -> wp working_step (closing p) f Q.
Proof.
  intros Hp. apply wp_bind. eapply wp_mono; [exact Hp|]. intros f1 a Ha.
  apply wp_bind, wp_trigger. by intros f2 [] [-> _].
Qed.

Definition encodable : Prop :=
  forall pool, map_Forall stable pool -> exists bytes, Encode codec pool = Ok bytes.

Lemma Add_works path handle ip metadata f pool :
  encodable -> stable handle (container handle ip metadata) -> validate handle ip = Ok tt -> holds f pool ->
  wp working_step (Add path handle ip metadata) f (fun f' x =>
    holds f' (<[handle := container handle ip metadata]> pool) /\ x = Ok tt).
Proof.
  intros Henc Hst Hv Hp. unfold Add. rewrite Hv. apply working_bind; [done|]. intros f1 _ ->.
  apply closing_works, wp_bind_err. eapply wp_mono; [by apply DecodeAll_works|].
  assert (map_Forall stable (<[handle := container handle ip metadata]> pool)) as Hst'
    by (apply map_Forall_insert_2; [done|by eapply holds_stable]).
  intros f2 x [_ ->]. destruct (Henc _ Hst') as [bytes He].
  apply wp_bind_err. eapply wp_mono; [by eapply EncodeAndOverwrite_works|]. by intros f3 y [Hh ->].
Qed.

Lemma Delete_works path handle f pool :
  encodable -> handle <> "" -> holds f pool ->
  wp working_step (Delete path handle) f (fun f' x =>
    holds f' (delete handle pool) /\ x = (default zero_Container (pool !! handle), Ok tt)).
Proof.
  intros Henc Hne Hp. unfold Delete. rewrite decide_False by done. apply wp_bind, wp_trigger.
  intros f1 [[]|err] [Hs Ha]; [|done]. cbn in Hs. subst f1.
  apply closing_works, wp_bind. eapply wp_mono; [by apply DecodeAll_works|].
  assert (map_Forall stable (delete handle pool)) as Hst by (apply map_Forall_delete; by eapply holds_stable).
  intros f2 x [_ ->]. destruct (Henc _ Hst) as [bytes He].
  apply wp_bind. eapply wp_mono; [by eapply EncodeAndOverwrite_works|]. by intros f3 y [Hh ->].
Qed.

Lemma ReadAll_works path f pool :
  holds f pool -> wp working_step (ReadAll path) f (fun f' x => holds f' pool /\ x = Ok pool).
Proof.
  intros Hp. unfold ReadAll. apply working_bind; [done|]. intros f1 _ ->.
  apply closing_works, wp_bind_err. eapply wp_mono; [by apply DecodeAll_works|].
  intros f2 x [Hb ->]. split; [|done]. unfold holds in *. by rewrite Hb.
Qed.

End Datastore.

Arguments Container : clear implicits.
Arguments MapCodec : clear implicits.

(** C31. The store is a map, for containers that JSON keeps: an [Add] that succeeds
    inserts the container, a [Delete] that succeeds removes the handle and returns what
    was there, [ReadAll] answers the map and changes no byte; and what [Add] wrote,
    [ReadAll] reads. On a disk whose calls succeed none of them fails. *)
Theorem datastore_is_a_map {M} (codec : MapCodec M) stable path handle ip (metadata : option M) f :
  CodecLaws codec stable -> stable handle (container handle ip metadata) ->
  wp file_step (Add codec path handle ip metadata) f (fun f' x =>
    x = Ok tt -> exists pool, holds codec f pool /\
      holds codec f' (<[handle := container handle ip metadata]> pool)) /\
  wp file_step (Delete codec path handle) f (fun f' x =>
    snd x = Ok tt -> exists pool, holds codec f pool /\ holds codec f' (delete handle pool) /\
      fst x = default zero_Container (pool !! handle)) /\
  wp file_step
    (try _ <- Add codec path handle ip metadata catch id ;; ReadAll codec path) f
    (fun f' x => forall pool', x = Ok pool' -> exists pool, holds codec f pool /\
       pool' = <[handle := container handle ip metadata]> pool) /\
  (forall pool, encodable codec stable -> validate handle ip = Ok tt -> holds codec f pool ->
   wp working_step
     (try _ <- Add codec path handle ip metadata catch id ;;
      try pool1 <- ReadAll codec path catch id ;;
      deleted <- Delete codec path handle ;;
      try pool2 <- ReadAll codec path catch id ;;
      Ret (Ok (pool1, deleted, pool2))) f
     (fun _ x => x = Ok (<[handle := container handle ip metadata]> pool,
                         (container handle ip metadata, Ok tt), delete handle pool))).
Proof.
  intros Hc Hst. split_and!.
  - eapply wp_mono; [by eapply Add_wp|]. intros f' x H E. by destruct (H E).
  - by eapply Delete_wp.
  - apply wp_bind_err. eapply wp_mono; [by eapply Add_wp|]. intros f1 [[]|e] H; [|done].
    destruct (H eq_refl) as (_ & pool & Hp & Hp1).
    eapply wp_mono; [by apply ReadAll_wp|]. intros f2 x [_ Hx] pool' E.
    exists pool. split; [done|]. by eapply holds_fun; [apply Hx|].
  - intros pool Henc Hv Hp. apply wp_bind_err. eapply wp_mono; [by eapply Add_works|].
    intros f1 x [H1 ->]. apply wp_bind_err. eapply wp_mono; [by apply ReadAll_works|].
    intros f2 x [H2 ->]. apply wp_bind. eapply wp_mono; [eapply Delete_works; [done..| |done]|].
    { unfold validate in Hv. by case_decide. }
    intros f3 x [H3 ->]. rewrite lookup_insert_eq, delete_insert_eq in *. apply wp_bind_err.
    eapply wp_mono; [by apply ReadAll_works|]. by intros f4 x [H4 ->].
Qed.

(** ** A disk that is full *)

(** A disk on which everything works but writing. *)
Definition full_disk : handler fileE file := fun X e f =>
  match e in fileE X return file * X with
  | Locker_Open _ => ({| offset := 0; bytes_of := bytes_of f |}, Ok tt)
  | Seek_Start => ({| offset := 0; bytes_of := bytes_of f |}, Ok tt)
  | Read => ({| offset := length (bytes_of f); bytes_of := bytes_of f |},
             Ok (drop (offset f) (bytes_of f)))
  | Truncate_0 => ({| offset := offset f; bytes_of := [] |}, Ok tt)
  | Write _ => (f, Err (Errorf "no space left on device"))
  | Close => (f, tt)
  end.

(** C40. The store is overwritten in place, truncated first: when the disk is full
    an [Add] to a store with any containers fails, and after it the store reads
    as empty, without an error. *)
Theorem full_disk_loses_containers {M} (codec : MapCodec M) path handle ip (metadata : option M) f
    pool bytes :
  Decode codec [] = EOF -> validate handle ip = Ok tt -> holds codec f pool ->
  Encode codec (<[handle := container handle ip metadata]> pool) = Ok bytes ->
  let '(f', (added, read)) := run full_disk
    (added <- Add codec path handle ip metadata ;; read <- ReadAll codec path ;; Ret (added, read)) f in
  added = Err (Errorf "encode and overwrite: no space left on device") /\ read = Ok ∅.
Proof.
  intros Hc Hv Hp He. unfold Add. rewrite Hv. unfold closing, DecodeAll, EncodeAndOverwrite, ReadAll.
  step_run. simpl. rewrite drop_0.
  assert (forall q, match Decode codec (bytes_of f) with
    | EOF => Ret (Ok ∅) | Malformed err => Ret (Err err) | Decoded p => Ret (Ok p) end = q ->
    q = Ret (E := fileE) (Ok pool)) as Hq.
  { intros q <-. by destruct Hp as [->|[-> ->]]. }
  rewrite (Hq _ eq_refl). simpl. unfold container in He. rewrite He. simpl.
  unfold DecodeAll. simpl. rewrite Hc. done.
Qed.

(** ** A codec that keeps the laws *)

Global Instance Container_eq_dec : EqDecision (Container unit).
Proof. solve_decision. Defined.

Global Instance Container_countable : Countable (Container unit).
Proof.
  refine (inj_countable'
    (fun c => (Handle c, Container_IP c, Container_Metadata c))
    (fun '(h, i, m) => {| Handle := h; Container_IP := i; Container_Metadata := m |}) _).
  by intros [].
Defined.

(** A number in binary, lowest digit first, after its highest one. *)
Fixpoint bits (p : positive) : list ascii :=
  match p with
  | xH => ["1"]
  | xO p => "0" :: bits p
  | xI p => "1" :: bits p
  end%char.

Fixpoint unbits (s : list ascii) : option positive :=
  match s with
  | [] => None
  | [a] => if Ascii.eqb a "1" then Some xH else None
  | a :: s' =>
      match unbits s' with
      | Some p => Some (if Ascii.eqb a "1" then xI p else xO p)
      | None => None
      end
  end.

Lemma unbits_bits p : unbits (bits p) = Some p.
Proof.
  assert (forall p, bits p <> []) as Hne by (by intros []).
  induction p as [p IH|p IH|]; [..|done]; cbn [bits unbits]; rewrite IH;
    (destruct (bits p) eqn:E; [by apply Hne in E|done]).
Qed.

Definition binary_codec : MapCodec unit := {|
  Encode pool := Ok (bits (encode pool));
  Decode s :=
    match s with
    | [] => EOF
    | _ => match unbits s ≫= decode with
           | Some pool => Decoded pool
           | None => Malformed (Errorf "invalid character")
           end
    end
|}.

Definition any_entry (handle : string) (c : Container unit) : Prop := True.

Lemma binary_codec_laws : CodecLaws binary_codec any_entry.
Proof.
  split; [|by intros ????|done]. intros pool s _ [= <-]. cbn [binary_codec Decode].
  destruct (bits (encode pool)) eqn:E; [by destruct (encode pool)|].
  rewrite <- E, unbits_bits. simpl. by rewrite decode_encode.
Qed.

Lemma datastore_is_a_map_witness :
  let f := {| offset := 0; bytes_of := [] |} in
  let c := container "h" "10.255.0.5" None in
  wp file_step
    (try _ <- Add binary_codec "store" "h" "10.255.0.5" None catch id ;; ReadAll binary_codec "store") f
    (fun f' x => forall pool', x = Ok pool' -> exists pool,
       holds binary_codec f pool /\ pool' = <["h" := c]> pool) /\
  wp working_step
    (try _ <- Add binary_codec "store" "h" "10.255.0.5" None catch id ;;
     try pool1 <- ReadAll binary_codec "store" catch id ;;
     deleted <- Delete binary_codec "store" "h" ;;
     try pool2 <- ReadAll binary_codec "store" catch id ;;
     Ret (Ok (pool1, deleted, pool2))) f
    (fun _ x => x = Ok ({["h" := c]}, (c, Ok tt), ∅)).
Proof.
  intros f c.
  destruct (datastore_is_a_map binary_codec any_entry "store" "h" "10.255.0.5" None f binary_codec_laws I)
    as (_ & _ & H1 & H2).
  split; [exact H1|]. refine (H2 ∅ _ eq_refl _); [by eexists|by right].
Defined.

Lemma full_disk_loses_containers_witness :
  let old : gmap string (Container unit) := {["g" := container "g" "10.255.0.4" None]} in
  let f := {| offset := 0; bytes_of := bits (encode old) |} in
  let '(f', (added, read)) := run full_disk
    (added <- Add binary_codec "store" "h" "10.255.0.5" None ;;
     read <- ReadAll binary_codec "store" ;; Ret (added, read)) f in
  added = Err (Errorf "encode and overwrite: no space left on device") /\ read = Ok ∅.
Proof.
  intros old f.
  refine (full_disk_loses_containers binary_codec "store" "h" "10.255.0.5" None f old _
    eq_refl eq_refl _ eq_refl).
  left. exact (decode_of_encode binary_codec any_entry binary_codec_laws old _ (fun _ _ _ => I) eq_refl).
Defined.
