(* ===== verification/Metrics.v ===== *)
(** * The controller's lease metrics (src/controller/server_metrics)

    Each source is a getter over the lease database; the number is the float64
    of an integer. A getter returns its number next to its error. *)

From Stdlib Require Import ZArith Lia.
From S2P Require Import Prelude GoFmt CidrPool Types Sql Store Database LeaseFacts LeaseController.
From S2P Require Import LeaseSafety Concurrency LeaseWitnesses.

(** [len(leases)] when the error is ignored: the slice is nil then. *)
Definition len_of (r : result (list Lease)) : Z :=
  match r with Ok ls => Z.of_nat (length ls) | Err _ => 0 end.

Definition err_of {A} (r : result A) : option error :=
  match r with Ok _ => None | Err e => Some e end.

Definition totalLeases_Getter : prog storeE (Z * option error) :=
  allLeases <- trigger All ;;
  Ret (len_of allLeases, err_of allLeases).

Definition freeLeases_Getter (pool : CIDRPool) : prog storeE (Z * option error) :=
  allLeases <- trigger All ;;
  let size := BlockPoolSize pool in
  Ret (size - len_of allLeases, err_of allLeases).

(** The second assignment to [err] overwrites the first. *)
Definition staleLeases_Getter (seconds : Z) : prog storeE (Z * option error) :=
  allLeases <- trigger All ;;
  allActiveLeases <- trigger (AllActive seconds) ;;
  Ret (len_of allLeases - len_of allActiveLeases, err_of allActiveLeases).

(** On a database that answers, the metrics are counts of rows. *)
Lemma totalLeases_up w :
  wp store_up_step totalLeases_Getter w (fun _ x =>
    x = (Z.of_nat (length (w_table w)), None)).
Proof.
  unfold totalLeases_Getter. apply wp_bind, wp_trigger. intros w1 [ls|e] [[_ [_ Hls]] Ha]; [|done].
  simpl in *. apply Permutation_length in Hls. by rewrite Hls, length_map.
Qed.

Lemma filter_split {A} (P : A -> bool) l :
  (length (filter (fun x => P x = true) l) + length (filter (fun x => P x = false) l) = length l)%nat.
Proof.
  induction l as [|x l IH]; [done|]. rewrite !filter_cons. destruct (P x) eqn:E.
  - rewrite decide_True, decide_False by done. simpl. lia.
  - rewrite decide_False, decide_True by done. simpl. lia.
Qed.

(** On a database that answers, [totalLeases] is the number of leases and
    [staleLeases] the number of those not renewed for the given time. *)
Theorem metrics_count_leases seconds w :
  wp store_up_step totalLeases_Getter w (fun _ x =>
    x = (Z.of_nat (length (w_table w)), None)) /\
  wp store_up_step (staleLeases_Getter seconds) w (fun w' x =>
    x = (Z.of_nat (length (filter (fun r => expired (w_clock w') seconds r = true) (w_table w))), None)).
Proof.
  split; [apply totalLeases_up|]. unfold staleLeases_Getter.
  apply wp_bind, wp_trigger. intros w1 [ls|e] [[_ [Ht Hls]] Ha]; [|done].
  apply wp_bind, wp_trigger. intros w2 [ls'|e] [[_ [_ Hls']] Ha']; [|done].
  simpl in *. apply Permutation_length in Hls, Hls'. rewrite Ht in Hls'.
  rewrite Hls, Hls', !length_map.
  pose proof (filter_split (expired (w_clock w2) seconds) (w_table w)). do 2 f_equal. lia.
Qed.

(** [staleLeases] drops the error of its first query: when that query fails
    and the second does not, it reports a negative number and no error. *)
Theorem stale_metric_hides_error :
  exists (srv : memory) n,
    snd (run store_handle (staleLeases_Getter 100) srv) = (n, None) /\ n < 0.
Proof.
  exists (example_server [cell_row "10.0.0.1" 990] [LostBefore]), (-1).
  split; [vm_compute; reflexivity|lia].
Qed.
