(* ===== verification/Config.v ===== *)
(** * The configuration files (src/controller/config, src/client/config)

    silk-controller, silk-daemon and silk-teardown read a JSON file into a struct
    and check it against the struct's [validate] tags with the package
    validator.v2. A struct is shown to the validator as the list of its fields,
    each with its name, its tags and its value; the JSON codec is an argument. *)

From Stdlib Require Import ZArith Lia Ascii.
From S2P Require Import Prelude GoFmt GoNet Types Netlink HttpFacts Vtep Datastore.

(** ** The validator

    The tags the structs use. [TMin] comes with integers only. *)
Inductive tag := TNonzero | TMin (p : Z).

(** A field as [reflect] shows it; a nested struct is the list of its fields. *)
Inductive shown :=
| VString (s : string)
| VInt (z : Z)
| VUint16 (z : Z)
| VBool (b : bool)
| VStruct (fields : list (string * list tag * shown)).

Definition tag_error (t : tag) (v : shown) : option string :=
  match t, v with
  | TNonzero, VString s => if decide (s = "") then Some "zero value" else None
  | TNonzero, VInt z | TNonzero, VUint16 z => if z =? 0 then Some "zero value" else None
  | TNonzero, VBool b => if b then None else Some "zero value"
  | TNonzero, VStruct _ => None
  | TMin p, VInt z | TMin p, VUint16 z => if z <? p then Some "less than min" else None
  | TMin _, _ => Some "unsupported type"
  end.

(** The errors of a struct, by the name of the field; those of a nested struct
    come under the name of the field that holds it. *)
Fixpoint field_errors (v : shown) : list (string * list string) :=
  match v with
  | VStruct fields =>
      (fix go fs :=
         match fs with
         | [] => []
         | (name, tags, w) :: fs' =>
             map (fun '(sub, errs) => (name +:+ "." +:+ sub, errs)) (field_errors w) ++
             match omap (fun t => tag_error t w) tags with
             | [] => []
             | errs => [(name, errs)]
             end ++ go fs'
         end) fields
  | _ => []
  end.

(** Every tag of the struct and of the structs in it holds. *)
Fixpoint tags_hold (v : shown) : bool :=
  match v with
  | VStruct fields =>
      (fix go fs :=
         match fs with
         | [] => true
         | (_, tags, w) :: fs' =>
             tags_hold w && forallb (fun t => bool_decide (tag_error t w = None)) tags && go fs'
         end) fields
  | _ => true
  end.

Lemma tags_no_error tags v :
  omap (fun t => tag_error t v) tags = [] <->
  forallb (fun t => bool_decide (tag_error t v = None)) tags = true.
Proof.
  induction tags as [|t tags IH]; simpl; [done|].
  rewrite andb_true_iff, bool_decide_eq_true, <- IH.
  destruct (tag_error t v); naive_solver.
Qed.

(** Induction over the nested structs. *)
Lemma shown_deep_ind (P : shown -> Prop) :
  (forall v, field_errors v = [] -> tags_hold v = true -> P v) ->
  P (VStruct []) ->
  (forall name tags w fs, P w -> P (VStruct fs) -> P (VStruct ((name, tags, w) :: fs))) ->
  forall v, P v.
Proof.
  intros Hleaf Hnil Hcons. fix IH 1. intros [s|z|z|b|fields].
  1-4: apply Hleaf; reflexivity.
  induction fields as [|[[name tags] w] fs IHfs].
  - exact Hnil.
  - apply Hcons; [apply IH|exact IHfs].
Qed.

Lemma field_errors_nil v : field_errors v = [] <-> tags_hold v = true.
Proof.
  induction v as [v He Ht| |name tags w fs IHw IHfs] using shown_deep_ind; [by rewrite He, Ht|done|].
  cbn [field_errors tags_hold] in *.
  rewrite !andb_true_iff, <- IHfs, <- tags_no_error, <- IHw.
  destruct (field_errors w) as [|[]], (omap _ tags); naive_solver.
Qed.

(** Values of the field's Go type whose text JSON carries over unchanged. *)
Fixpoint representable (v : shown) : bool :=
  match v with
  | VString s => printable s
  | VInt z => (- 2 ^ 63 <=? z) && (z <? 2 ^ 63)
  | VUint16 z => (0 <=? z) && (z <? 2 ^ 16)
  | VBool _ => true
  | VStruct fields =>
      (fix go fs :=
         match fs with
         | [] => true
         | (_, _, w) :: fs' => representable w && go fs'
         end) fields
  end.

(** ** The structs *)

(** db.Config of the package cf-networking-helpers *)
Record DbConfig := {
  Type_ : string;
  User : string;
  Password : string;
  Host : string;
  Port : Z;
  Timeout : Z;
  DatabaseName : string;
  RequireSSL : bool;
  CACert : string;
  SkipHostnameValidation : bool
}.

Definition show_DbConfig (c : DbConfig) : shown := VStruct [
  ("Type", [TNonzero], VString (Type_ c));
  ("User", [TNonzero], VString (User c));
  ("Password", [], VString (Password c));
  ("Host", [TNonzero], VString (Host c));
  ("Port", [TNonzero], VUint16 (Port c));
  ("Timeout", [TMin 1], VInt (Timeout c));
  ("DatabaseName", [], VString (DatabaseName c));
  ("RequireSSL", [], VBool (RequireSSL c));
  ("CACert", [], VString (CACert c));
  ("SkipHostnameValidation", [], VBool (SkipHostnameValidation c))
].

Record ControllerConfig := {
  DebugServerPort : Z;
  ListenHost : string;
  ListenPort : Z;
  CACertFile : string;
  ServerCertFile : string;
  ServerKeyFile : string;
  Network : string;
  SubnetPrefixLength : Z;
  Database_ : DbConfig;
  ConfLeaseExpirationSeconds : Z;
  MetronPort : Z;
  HealthCheckPort : Z;
  MetricsEmitSeconds : Z;
  StalenessThresholdSeconds : Z;
  LogPrefix : string;
  MaxIdleConnections : Z;
  MaxOpenConnections : Z;
  MaxConnectionsLifetimeSeconds : Z
}.

Definition show_ControllerConfig (c : ControllerConfig) : shown := VStruct [
  ("DebugServerPort", [TMin 1], VInt (DebugServerPort c));
  ("ListenHost", [TNonzero], VString (ListenHost c));
  ("ListenPort", [TNonzero], VInt (ListenPort c));
  ("CACertFile", [TNonzero], VString (CACertFile c));
  ("ServerCertFile", [TNonzero], VString (ServerCertFile c));
  ("ServerKeyFile", [TNonzero], VString (ServerKeyFile c));
  ("Network", [TNonzero], VString (Network c));
  ("SubnetPrefixLength", [TNonzero], VInt (SubnetPrefixLength c));
  ("Database", [TNonzero], show_DbConfig (Database_ c));
  ("LeaseExpirationSeconds", [TMin 1], VInt (ConfLeaseExpirationSeconds c));
  ("MetronPort", [TMin 1], VInt (MetronPort c));
  ("HealthCheckPort", [TMin 1], VInt (HealthCheckPort c));
  ("MetricsEmitSeconds", [TMin 1], VInt (MetricsEmitSeconds c));
  ("StalenessThresholdSeconds", [TMin 1], VInt (StalenessThresholdSeconds c));
  ("LogPrefix", [TNonzero], VString (LogPrefix c));
  ("MaxIdleConnections", [TMin 0], VInt (MaxIdleConnections c));
  ("MaxOpenConnections", [TMin 0], VInt (MaxOpenConnections c));
  ("MaxConnectionsLifetimeSeconds", [TMin 0], VInt (MaxConnectionsLifetimeSeconds c))
].

(** client/config.Config is [ClientConfig] of Vtep. *)
Definition show_ClientConfig (c : ClientConfig) : shown := VStruct [
  ("UnderlayIP", [TNonzero], VString (cfg_UnderlayIP c));
  ("VxlanInterfaceName", [], VString (cfg_VxlanInterfaceName c));
  ("SubnetPrefixLength", [TNonzero], VInt (cfg_SubnetPrefixLength c));
  ("OverlayNetwork", [TNonzero], VString (cfg_OverlayNetwork c));
  ("HealthCheckPort", [TNonzero], VUint16 (cfg_HealthCheckPort c));
  ("VTEPName", [TNonzero], VString (cfg_VTEPName c));
  ("ConnectivityServerURL", [TNonzero], VString (cfg_ConnectivityServerURL c));
  ("ServerCACertFile", [TNonzero], VString (cfg_ServerCACertFile c));
  ("ClientCertFile", [TNonzero], VString (cfg_ClientCertFile c));
  ("ClientKeyFile", [TNonzero], VString (cfg_ClientKeyFile c));
  ("VNI", [TNonzero], VInt (cfg_VNI c));
  ("VTEPPort", [TMin 1], VInt (cfg_VTEPPort c));
  ("PollInterval", [TNonzero], VInt (cfg_PollInterval c));
  ("DebugServerPort", [TNonzero], VInt (cfg_DebugServerPort c));
  ("Datastore", [TNonzero], VString (cfg_Datastore c));
  ("PartitionToleranceSeconds", [TNonzero], VInt (cfg_PartitionToleranceSeconds c));
  ("ClientTimeoutSeconds", [TNonzero], VInt (cfg_ClientTimeoutSeconds c));
  ("MetronPort", [TMin 1], VInt (cfg_MetronPort c));
  ("LogPrefix", [TNonzero], VString (cfg_LogPrefix c));
  ("LogLevel", [], VString (cfg_LogLevel c));
  ("SingleIPOnly", [], VBool (cfg_SingleIPOnly c))
].

(** ** Reading and writing the files *)

(** ioutil.ReadFile and ioutil.WriteFile. *)
Inductive osE : Type -> Type :=
| ReadFile (filename : string) : osE (result string)
| WriteFile (filename : string) (data : string) (perm : Z) : osE (result unit).

(** json.Marshal and json.Unmarshal at a struct. *)
Record StructJson (C : Type) := {
  Marshal : C -> result string;
  Unmarshal : string -> result C
}.
Arguments Marshal {C}.
Arguments Unmarshal {C}.

Section Files.
Context (error_text : list (string * list string) -> string).

(** validator.Validate; [error_text] is [ErrorMap.Error], which lists the fields
    in the order the runtime walks a map. *)
Definition Validate (v : shown) : result unit :=
  match field_errors v with
  | [] => Ok tt
  | errs => Err (Errorf (error_text errs))
  end.

Definition WriteToFile (json : StructJson ControllerConfig) (c : ControllerConfig)
    (configFilePath : string) : prog osE (result unit) :=
  try bytes <- Ret (Marshal json c) catch wrap "marshal config" ;;
  try _ <- trigger (WriteFile configFilePath bytes 384)
    catch wrap ("write config to " +:+ configFilePath) ;;
  Ret (Ok tt).

Definition ReadFromFile (json : StructJson ControllerConfig) (configFilePath : string)
    : prog osE (result ControllerConfig) :=
  try bytes <- trigger (ReadFile configFilePath) catch wrap "read config" ;;
  try conf <- Ret (Unmarshal json bytes) catch wrap "unmarshal config" ;;
  try _ <- Ret (Validate (show_ControllerConfig conf)) catch wrap "invalid config" ;;
  Ret (Ok conf).

Definition LoadConfig (json : StructJson ClientConfig) (filePath : string)
    : prog osE (result ClientConfig) :=
  try contents <- trigger (ReadFile filePath) catch wrap ("reading file " +:+ filePath) ;;
  try cfg <- Ret (Unmarshal json contents) catch wrap "unmarshaling contents" ;;
  try _ <- Ret (Validate (show_ClientConfig cfg)) catch wrap "invalid config" ;;
  Ret (Ok cfg).

Lemma Validate_Ok v : Validate v = Ok tt <-> tags_hold v = true.
Proof.
  rewrite <- field_errors_nil. unfold Validate. by destruct (field_errors v).
Qed.

Lemma Validate_Err v : tags_hold v = false ->
  exists errs, errs <> [] /\ Validate v = Err (Errorf (error_text errs)).
Proof.
  intros Hv. unfold Validate. destruct (field_errors v) as [|e l] eqn:E; [|by exists (e :: l)].
  apply field_errors_nil in E. congruence.
Qed.

End Files.

(** The disk: any call can fail; a failed write may have changed the file. *)
Abbreviation disk := (gmap string string).

Definition disk_step (X : Type) (e : osE X) (w w' : disk) : X -> Prop :=
  match e in osE X return X -> Prop with
  | ReadFile f => fun r => w' = w /\ match r with Ok s => w !! f = Some s | Err _ => True end
  | WriteFile f data _ => fun r =>
      match r with
      | Ok _ => w' = <[f := data]> w
      | Err _ => forall g, g <> f -> w' !! g = w !! g
      end
  end.

(** A disk that works: reading fails on a file that is not there only. *)
Definition working_disk : handler osE disk := fun X e w =>
  match e in osE X return disk * X with
  | ReadFile f =>
      (w, match w !! f with
          | Some s => Ok s
          | None => Err (Errorf ("open " +:+ f +:+ ": no such file or directory"))
          end)
  | WriteFile f data _ => (<[f := data]> w, Ok tt)
  end.

Lemma working_disk_keeps X (e : osE X) w :
  disk_step X e w (fst (working_disk X e w)) (snd (working_disk X e w)).
Proof. destruct e as [f|f d p]; simpl; [|done]. split; [done|]. by destruct (w !! f). Qed.

(** encoding/json reads back what it writes of a struct. *)
Definition StructJsonLaw {C} (show : C -> shown) (json : StructJson C) : Prop :=
  forall c, representable (show c) = true ->
  exists text, Marshal json c = Ok text /\ Unmarshal json text = Ok c.

(** ** What an accepted configuration satisfies *)

Record db_config_valid (c : DbConfig) : Prop := {
  valid_Type : Type_ c <> "";
  valid_User : User c <> "";
  valid_Host : Host c <> "";
  valid_Port : Port c <> 0;
  valid_Timeout : 1 <= Timeout c
}.

Record controller_config_valid (c : ControllerConfig) : Prop := {
  valid_DebugServerPort : 1 <= DebugServerPort c;
  valid_ListenHost : ListenHost c <> "";
  valid_ListenPort : ListenPort c <> 0;
  valid_CACertFile : CACertFile c <> "";
  valid_ServerCertFile : ServerCertFile c <> "";
  valid_ServerKeyFile : ServerKeyFile c <> "";
  valid_Network : Network c <> "";
  valid_SubnetPrefixLength : SubnetPrefixLength c <> 0;
  valid_Database : db_config_valid (Database_ c);
  valid_LeaseExpirationSeconds : 1 <= ConfLeaseExpirationSeconds c;
  valid_MetronPort : 1 <= MetronPort c;
  valid_HealthCheckPort : 1 <= HealthCheckPort c;
  valid_MetricsEmitSeconds : 1 <= MetricsEmitSeconds c;
  valid_StalenessThresholdSeconds : 1 <= StalenessThresholdSeconds c;
  valid_LogPrefix : LogPrefix c <> "";
  valid_MaxIdleConnections : 0 <= MaxIdleConnections c;
  valid_MaxOpenConnections : 0 <= MaxOpenConnections c;
  valid_MaxConnectionsLifetimeSeconds : 0 <= MaxConnectionsLifetimeSeconds c
}.

Record client_config_valid (c : ClientConfig) : Prop := {
  valid_cfg_UnderlayIP : cfg_UnderlayIP c <> "";
  valid_cfg_SubnetPrefixLength : cfg_SubnetPrefixLength c <> 0;
  valid_cfg_OverlayNetwork : cfg_OverlayNetwork c <> "";
  valid_cfg_HealthCheckPort : cfg_HealthCheckPort c <> 0;
  valid_cfg_VTEPName : cfg_VTEPName c <> "";
  valid_cfg_ConnectivityServerURL : cfg_ConnectivityServerURL c <> "";
  valid_cfg_ServerCACertFile : cfg_ServerCACertFile c <> "";
  valid_cfg_ClientCertFile : cfg_ClientCertFile c <> "";
  valid_cfg_ClientKeyFile : cfg_ClientKeyFile c <> "";
  valid_cfg_VNI : cfg_VNI c <> 0;
  valid_cfg_VTEPPort : 1 <= cfg_VTEPPort c;
  valid_cfg_PollInterval : cfg_PollInterval c <> 0;
  valid_cfg_DebugServerPort : cfg_DebugServerPort c <> 0;
  valid_cfg_Datastore : cfg_Datastore c <> "";
  valid_cfg_PartitionToleranceSeconds : cfg_PartitionToleranceSeconds c <> 0;
  valid_cfg_ClientTimeoutSeconds : cfg_ClientTimeoutSeconds c <> 0;
  valid_cfg_MetronPort : 1 <= cfg_MetronPort c;
  valid_cfg_LogPrefix : cfg_LogPrefix c <> ""
}.

Lemma nonzero_string s : tag_error TNonzero (VString s) = None <-> s <> "".
Proof. simpl. case_decide; naive_solver. Qed.

Lemma nonzero_int z : tag_error TNonzero (VInt z) = None <-> z <> 0.
Proof. simpl. destruct (Z.eqb_spec z 0); naive_solver. Qed.

Lemma nonzero_uint z : tag_error TNonzero (VUint16 z) = None <-> z <> 0.
Proof. exact (nonzero_int z). Qed.

Lemma min_int p z : tag_error (TMin p) (VInt z) = None <-> p <= z.
Proof. simpl. destruct (Z.ltb_spec z p); split; intros; [done|lia|done|done]. Qed.

Create Rewrite HintDb tags.
#[export] Hint Rewrite andb_true_iff bool_decide_eq_true nonzero_string nonzero_int nonzero_uint
  min_int : tags.

(** The tags of a struct, spelled out. *)
Ltac spell_tags show :=
  unfold show; cbn [tags_hold forallb];
  autorewrite with tags;
  split; [intros; destruct_and?; by constructor | intros []; by split_and?].

Lemma db_tags c : tags_hold (show_DbConfig c) = true <-> db_config_valid c.
Proof. spell_tags show_DbConfig. Qed.

(** The tag of a nested struct itself always holds. *)
Lemma nonzero_struct fs : tag_error TNonzero (VStruct fs) = None <-> True.
Proof. done. Qed.
#[export] Hint Rewrite nonzero_struct : tags.

Lemma controller_tags c : tags_hold (show_ControllerConfig c) = true <-> controller_config_valid c.
Proof.
  unfold show_ControllerConfig. cbn [tags_hold forallb].
  change (tags_hold (VStruct _)) with (tags_hold (show_DbConfig (Database_ c))).
  autorewrite with tags. rewrite db_tags.
  split; [intros; destruct_and?; by constructor | intros []; by split_and?].
Qed.

Lemma client_tags c : tags_hold (show_ClientConfig c) = true <-> client_config_valid c.
Proof. spell_tags show_ClientConfig. Qed.

Section Reading.
Context (error_text : list (string * list string) -> string).

(** Both readers, as one: what is in the file, decoded and checked. *)
Definition read_checked {C} (json : StructJson C) (show : C -> shown) (path : string)
    (w1 w2 w3 : error -> error) : prog osE (result C) :=
  try bytes <- trigger (ReadFile path) catch w1 ;;
  try conf <- Ret (Unmarshal json bytes) catch w2 ;;
  try _ <- Ret (Validate error_text (show conf)) catch w3 ;;
  Ret (Ok conf).

Lemma read_checked_wp {C} (json : StructJson C) (show : C -> shown) path w1 w2 w3 w :
  wp disk_step (read_checked json show path w1 w2 w3) w
    (fun w' r => w' = w /\
       match w !! path with
       | Some text =>
           (exists e, r = Err (w1 e)) \/
           match Unmarshal json text with
           | Ok conf =>
               if tags_hold (show conf) then r = Ok conf
               else exists errs, errs <> [] /\ r = Err (w3 (Errorf (error_text errs)))
           | Err e => r = Err (w2 e)
           end
       | None => exists e, r = Err (w1 e)
       end).
Proof.
  intros w' [text|e] [-> Hr]; cbn [bind_err bind wp]; [|split; [done|]; destruct (w !! path); eauto].
  rewrite Hr. cbn [bind_err bind]. destruct (Unmarshal json text) as [conf|e]; cbn [bind_err bind wp]; [|eauto].
  destruct (tags_hold (show conf)) eqn:Ht.
  - apply (Validate_Ok error_text) in Ht as Hv. rewrite Hv. simpl. eauto.
  - apply (Validate_Err error_text) in Ht as (errs & Hne & Hv). rewrite Hv. simpl. eauto.
Qed.

Lemma read_accepted_wp {C} (json : StructJson C) (show : C -> shown) path w1 w2 w3 w :
  wp disk_step (read_checked json show path w1 w2 w3) w (fun w' r => w' = w /\
    forall conf, r = Ok conf -> tags_hold (show conf) = true /\
    exists text, w !! path = Some text /\ Unmarshal json text = Ok conf).
Proof.
  eapply wp_mono; [apply read_checked_wp|]. intros w' r [-> Hr]. split; [done|]. intros conf ->.
  destruct (w !! path) as [text|]; [|naive_solver]. destruct Hr as [?|Hr]; [naive_solver|].
  destruct (Unmarshal json text) as [c|] eqn:E; [|done].
  destruct (tags_hold (show c)) eqn:Ht; [|naive_solver]. simplify_eq. eauto.
Qed.

(** C30. A configuration the programs start with is the one in the file, and every
    field of it satisfies its [validate] tag: names, addresses and files are not
    empty, ports, prefix lengths and intervals are not zero, durations of the
    controller are positive, and so are the fields of the nested database
    configuration. The files are left as they are. *)
Theorem accepted_configs_valid (cj : StructJson ControllerConfig) (dj : StructJson ClientConfig)
    path (w : disk) :
  wp disk_step (ReadFromFile error_text cj path) w (fun w' r => w' = w /\
    forall conf, r = Ok conf ->
    controller_config_valid conf /\ exists text, w !! path = Some text /\ Unmarshal cj text = Ok conf) /\
  wp disk_step (LoadConfig error_text dj path) w (fun w' r => w' = w /\
    forall cfg, r = Ok cfg ->
    client_config_valid cfg /\ exists text, w !! path = Some text /\ Unmarshal dj text = Ok cfg).
Proof.
  split; (eapply wp_mono; [apply read_accepted_wp|]); intros w' r [-> Hr];
    (split; [done|]); intros conf Hc; destruct (Hr conf Hc) as [Ht Htext]; split; try done.
  - by apply controller_tags.
  - by apply client_tags.
Qed.

(** A configuration written by [WriteToFile] and read by [ReadFromFile] comes
    back unchanged when its tags hold, and is refused with the fields at fault
    when they do not; only the disk can make it fail otherwise. *)
Theorem config_roundtrip (json : StructJson ControllerConfig) (c : ControllerConfig) path (w : disk) :
  StructJsonLaw show_ControllerConfig json -> representable (show_ControllerConfig c) = true ->
  wp disk_step
    (r <- WriteToFile json c path ;; s <- ReadFromFile error_text json path ;; Ret (r, s)) w
    (fun w' '(r, s) =>
       (exists e, r = Err (wrap ("write config to " +:+ path) e)) \/
       r = Ok tt /\
       ((exists e, s = Err (wrap "read config" e)) \/
        controller_config_valid c /\ s = Ok c \/
        ~ controller_config_valid c /\
        exists errs, errs <> [] /\ s = Err (wrap "invalid config" (Errorf (error_text errs))))).
Proof.
  intros Hlaw Hrep. destruct (Hlaw c Hrep) as (text & Hm & Hu).
  unfold WriteToFile. rewrite Hm. intros w1 [[]|e] Hw; cbn [bind_err bind].
  2:{ apply wp_bind. eapply wp_mono; [apply wp_true|]. simpl. eauto. }
  apply wp_bind. eapply wp_mono; [apply read_checked_wp|]. intros w' r [-> Hr]. right. split; [done|].
  cbn [disk_step] in Hw. subst w1. rewrite lookup_insert_eq, Hu in Hr.
  destruct Hr as [Hr|Hr]; [by left|]. right. rewrite <- controller_tags.
  destruct (tags_hold (show_ControllerConfig c)); [left|right]; done.
Qed.

End Reading.

(** ** What the programs make of their configuration *)

(** *tls.Config: the files it was made from. *)
Record TLSConfig := { tls_Cert : string; tls_Key : string; tls_CA : string }.

(** time.Duration(n) * time.Second, on int64. *)
Definition seconds (n : Z) : Z := wraps 64 (n * 1000000000).

(** ** A codec, and a configuration *)

Definition DbConfig_tuple (c : DbConfig) :=
  (Type_ c, User c, Password c, Host c, Port c,
   (Timeout c, DatabaseName c, RequireSSL c, CACert c, SkipHostnameValidation c)).

Definition DbConfig_untuple t : DbConfig :=
  let '(ty, user, password, host, port, (timeout, name, ssl, ca, skip)) := t in
  {| Type_ := ty; User := user; Password := password; Host := host; Port := port;
     Timeout := timeout; DatabaseName := name; RequireSSL := ssl; CACert := ca;
     SkipHostnameValidation := skip |}.

Definition ControllerConfig_tuple (c : ControllerConfig) :=
  (DebugServerPort c, ListenHost c, ListenPort c, CACertFile c, ServerCertFile c, ServerKeyFile c,
   (Network c, SubnetPrefixLength c, DbConfig_tuple (Database_ c), ConfLeaseExpirationSeconds c,
    MetronPort c, HealthCheckPort c),
   (MetricsEmitSeconds c, StalenessThresholdSeconds c, LogPrefix c, MaxIdleConnections c,
    MaxOpenConnections c, MaxConnectionsLifetimeSeconds c)).

Definition ControllerConfig_untuple t : ControllerConfig :=
  let '(dbg, lhost, lport, ca, cert, key, (net, plen, db, lease, metron, health),
        (emit, stale, prefix, idle, open, lifetime)) := t in
  {| DebugServerPort := dbg; ListenHost := lhost; ListenPort := lport; CACertFile := ca;
     ServerCertFile := cert; ServerKeyFile := key; Network := net; SubnetPrefixLength := plen;
     Database_ := DbConfig_untuple db; ConfLeaseExpirationSeconds := lease; MetronPort := metron;
     HealthCheckPort := health; MetricsEmitSeconds := emit; StalenessThresholdSeconds := stale;
     LogPrefix := prefix; MaxIdleConnections := idle; MaxOpenConnections := open;
     MaxConnectionsLifetimeSeconds := lifetime |}.

(** Structs written in binary. *)
Definition binary_json {C T} `{Countable T} (f : C -> T) (g : T -> C) : StructJson C := {|
  Marshal c := Ok (String.string_of_list_ascii (bits (encode (f c))));
  Unmarshal s :=
    match unbits (String.list_ascii_of_string s) ≫= decode with
    | Some t => Ok (g t)
    | None => Err (Errorf "invalid character")
    end
|}.

Lemma binary_json_law {C T} `{Countable T} (f : C -> T) (g : T -> C) show :
  (forall c, g (f c) = c) -> StructJsonLaw show (binary_json f g).
Proof.
  intros Hgf c _. eexists. split; [done|]. unfold binary_json, Unmarshal.
  rewrite String.list_ascii_of_string_of_list_ascii, unbits_bits. simpl.
  by rewrite decode_encode, Hgf.
Qed.

Definition controller_json : StructJson ControllerConfig :=
  binary_json ControllerConfig_tuple ControllerConfig_untuple.

Lemma controller_json_law : StructJsonLaw show_ControllerConfig controller_json.
Proof. apply binary_json_law. by intros [????????[]?????????]. Qed.

Definition example_controller_config : ControllerConfig := {|
  DebugServerPort := 46455; ListenHost := "0.0.0.0"; ListenPort := 4103; CACertFile := "ca.crt";
  ServerCertFile := "server.crt"; ServerKeyFile := "server.key"; Network := "10.255.0.0/30";
  SubnetPrefixLength := 31;
  Database_ := {| Type_ := "postgres"; User := "silk"; Password := ""; Host := "10.0.0.9";
                  Port := 5432; Timeout := 5; DatabaseName := "silk"; RequireSSL := false;
                  CACert := ""; SkipHostnameValidation := false |};
  ConfLeaseExpirationSeconds := 10; MetronPort := 3457; HealthCheckPort := 19683;
  MetricsEmitSeconds := 30; StalenessThresholdSeconds := 5; LogPrefix := "cfnetworking";
  MaxIdleConnections := 0; MaxOpenConnections := 0; MaxConnectionsLifetimeSeconds := 0
|}.

Lemma config_roundtrip_witness :
  representable (show_ControllerConfig example_controller_config) = true /\
  tags_hold (show_ControllerConfig example_controller_config) = true /\
  wp disk_step
    (r <- WriteToFile controller_json example_controller_config "silk.json" ;;
     s <- ReadFromFile (fun _ => "fields") controller_json "silk.json" ;; Ret (r, s)) ∅
    (fun w' '(r, s) =>
       (exists e, r = Err (wrap ("write config to " +:+ "silk.json") e)) \/
       r = Ok tt /\
       ((exists e, s = Err (wrap "read config" e)) \/
        controller_config_valid example_controller_config /\ s = Ok example_controller_config \/
        ~ controller_config_valid example_controller_config /\
        exists errs : list (string * list string),
          errs <> [] /\ s = Err (wrap "invalid config" (Errorf "fields")))).
Proof.
  split; [reflexivity|]. split; [reflexivity|].
  exact (config_roundtrip (fun _ => "fields") controller_json example_controller_config "silk.json" ∅
    controller_json_law eq_refl).
Defined.

(** The validation lets a prefix length through that no network has. *)
Definition long_prefix_config : ControllerConfig := {|
  DebugServerPort := 46455; ListenHost := "0.0.0.0"; ListenPort := 4103; CACertFile := "ca.crt";
  ServerCertFile := "server.crt"; ServerKeyFile := "server.key"; Network := "10.255.0.0/30";
  SubnetPrefixLength := 33; Database_ := Database_ example_controller_config;
  ConfLeaseExpirationSeconds := 10; MetronPort := 3457; HealthCheckPort := 19683;
  MetricsEmitSeconds := 30; StalenessThresholdSeconds := 5; LogPrefix := "cfnetworking";
  MaxIdleConnections := 0; MaxOpenConnections := 0; MaxConnectionsLifetimeSeconds := 0
|}.
