(* ===== verification/ControllerMain.v ===== *)
(** * silk-controller's main (src/cmd/silk-controller/main.go)

    [mainWithError] reads its configuration, prepares TLS, opens the database,
    builds the pool of subnets, migrates the database, builds the routers, and
    hands the servers to the process group. Loggers are left out, and so are the
    metrics the wrappers of the handlers send. *)

From Stdlib Require Import ZArith Lia Ascii.
From S2P Require Import Prelude GoFmt GoNet NetFacts HwAddr CidrPool Types Sql Store Database LeaseFacts.
From S2P Require Import LeaseController LeaseSafety LeaseWitnesses Http HttpFacts FullStack Vtep Config.

(** ** rata.NewRouter *)

Definition serving : Type := string -> string -> result string -> prog apiE response.

Record Route := { Name : string; Method : string; Path : string }.

Definition methods : list string :=
  ["GET"; "HEAD"; "POST"; "PUT"; "PATCH"; "DELETE"; "CONNECT"; "OPTIONS"; "TRACE"].

(** A request goes to the first route with its method and path (the paths of this
    program have no parameters); [not_found] answers the others. Methods are
    written in capitals. *)
Fixpoint NewRouter (not_found : string -> string -> response) (routes : list Route)
    (handlers : list (string * (result string -> prog apiE response))) : result serving :=
  match routes with
  | [] => Ok (fun method path _ => Ret (not_found method path))
  | route :: routes' =>
      match find (fun h => bool_decide (h.1 = Name route)) handlers with
      | None => Err (Errorf ("missing handler " +:+ Name route))
      | Some (_, handler) =>
          if bool_decide (Method route ∈ methods) then
            match NewRouter not_found routes' handlers with
            | Err err => Err err
            | Ok next => Ok (fun method path body =>
                if decide (method = Method route /\ path = Path route) then handler body
                else next method path body)
            end
          else Err (Errorf ("invalid verb: " +:+ Method route))
      end
  end.

(** ** What main calls *)

Inductive MetricSource :=
| UptimeSource
| TotalLeasesSource
| FreeLeasesSource (pool : CIDRPool)
| StaleLeasesSource (seconds : Z)
| DBMonitorSource.

(** ifrit.Runner. The handlers of a server reach the lease controller, or the
    database, through [apiE]. *)
Inductive Runner :=
| TLSServer (address : string) (handler : serving) (repository : LeaseController) (tls : TLSConfig)
| HTTPServer (address : string) (handler : serving)
| DebugServer (address : string)
| MetricsEmitter (interval : Z) (sources : list MetricSource).

Inductive controllerE : Type -> Type :=
| OnOS {X} (e : osE X) : controllerE X
| NewServerTLSConfig (certFile keyFile caFile : string) : controllerE (result TLSConfig)
| NewConnectionPool (conf : DbConfig) (maxOpen maxIdle lifetime : Z) (logPrefix jobPrefix : string)
    : controllerE (result string)
| RandInt : controllerE (result Z)
| OnDb {X} (e : dbE X) : controllerE X
| Time_Sleep (d : Z) : controllerE unit
| Dropsonde_Initialize (address origin : string) : controllerE (result unit)
| Invoke_Wait (members : list (string * Runner)) : controllerE (result unit).

Definition on_os {A} (p : prog osE A) : prog controllerE A :=
  interp (fun X e => trigger (@OnOS X e)) p.

(** The migrator calls [databaseHandler.Migrate] on the connection pool. *)
Definition migrator_impl (driver : string) {X} (e : migratorE X) : prog controllerE X :=
  match e in migratorE X return prog controllerE X with
  | DatabaseMigrator_Migrate =>
      interp (fun X e => trigger (@OnDb X e)) (DatabaseHandler.Migrate driver)
  | Sleep => trigger (Time_Sleep (seconds 1))
  end.

Section Main.
Context (error_text : list (string * list string) -> string).
Context (conf_json : StructJson ControllerConfig) (json : Json).
Context (not_found : string -> string -> response).

Definition main_router : result serving :=
  NewRouter not_found
    [{| Name := "leases-index"; Method := "GET"; Path := "/leases" |};
     {| Name := "leases-acquire"; Method := "PUT"; Path := "/leases/acquire" |};
     {| Name := "leases-release"; Method := "PUT"; Path := "/leases/release" |};
     {| Name := "leases-renew"; Method := "PUT"; Path := "/leases/renew" |}]
    [("leases-index", LogWrap (fun _ => LeasesIndex_ServeHTTP json));
     ("leases-acquire", LogWrap (LeasesAcquire_ServeHTTP json));
     ("leases-release", LogWrap (ReleaseLease_ServeHTTP json));
     ("leases-renew", LogWrap (RenewLease_ServeHTTP json))].

Definition health_router : result serving :=
  NewRouter not_found
    [{| Name := "health"; Method := "GET"; Path := "/health" |}]
    [("health", LogWrap (fun _ => Health_ServeHTTP))].

Definition controller_members (conf : ControllerConfig) (leaseController : LeaseController)
    (router healthRouter : serving) (tlsConfig : TLSConfig) : list (string * Runner) :=
  let metricSources :=
    [UptimeSource; TotalLeasesSource; FreeLeasesSource (Pool leaseController);
     StaleLeasesSource (StalenessThresholdSeconds conf); DBMonitorSource] in
  [("http_server", TLSServer (ListenHost conf +:+ ":" +:+ itoa (ListenPort conf)) router
                     leaseController tlsConfig);
   ("health-server", HTTPServer ("127.0.0.1:" +:+ itoa (HealthCheckPort conf)) healthRouter);
   ("debug-server", DebugServer ("127.0.0.1:" +:+ itoa (DebugServerPort conf)));
   ("metrics-emitter", MetricsEmitter (seconds (MetricsEmitSeconds conf)) metricSources)].

(** From the routers on. *)
Definition start_servers (conf : ControllerConfig) (leaseController : LeaseController)
    (tlsConfig : TLSConfig) : prog controllerE (result unit) :=
  try router <- Ret main_router catch wrap "creating router" ;;
  try healthRouter <- Ret health_router catch wrap "creating health router" ;;
  try _ <- trigger (Dropsonde_Initialize ("127.0.0.1:" +:+ itoa (MetronPort conf)) "silk-controller")
    catch wrap "initializing dropsonde" ;;
  try _ <- trigger (Invoke_Wait (controller_members conf leaseController router healthRouter tlsConfig))
    catch wrap "wait returned error" ;;
  Ret (Ok tt).

(** From the TLS files on. *)
Definition run_controller (fuel : nat) (conf : ControllerConfig) (logPrefix : string)
    : prog controllerE (outcome (result unit)) :=
  call tlsConfig <- returning (trigger (NewServerTLSConfig (ServerCertFile conf) (ServerKeyFile conf)
                                         (CACertFile conf))) or wrap "mutual tls config" ;;
  call driver <- returning (trigger (NewConnectionPool (Database_ conf) (MaxOpenConnections conf)
                    (MaxIdleConnections conf) (seconds (MaxConnectionsLifetimeSeconds conf))
                    logPrefix "silk-controller")) or wrap "connecting to database" ;;
  random <- trigger RandInt ;;
  match NewCIDRPool fuel random (Network conf) (SubnetPrefixLength conf) with
  | Panics msg => Ret (Panics msg)
  | OutOfFuel => Ret OutOfFuel
  | Returns cidrPool =>
      let leaseController := main_LeaseController cidrPool (ConfLeaseExpirationSeconds conf) in
      call _ <- returning (interp (@migrator_impl driver) (TryMigrations 5))
        or wrap "migrating database" ;;
      returning (start_servers conf leaseController tlsConfig)
  end.

(** The result, and the value of the global [logPrefix]. *)
Definition mainWithError (fuel : nat) (configFilePath : string)
    : prog controllerE (string * outcome (result unit)) :=
  r <- on_os (ReadFromFile error_text conf_json configFilePath) ;;
  match r with
  | Err err => Ret ("cfnetworking", Returns (Err (wrap "load config" err)))
  | Ok conf =>
      let logPrefix := if decide (LogPrefix conf <> "") then LogPrefix conf else "cfnetworking" in
      res <- run_controller fuel conf logPrefix ;;
      Ret (logPrefix, res)
  end.

(** What [log.Fatalf] prints before the process exits with status 1. *)
Definition main (fuel : nat) (configFilePath : string) : prog controllerE (outcome (option string)) :=
  ended <- mainWithError fuel configFilePath ;;
  let '(logPrefix, res) := ended in
  Ret (match res with
       | Returns (Ok _) => Returns None
       | Returns (Err err) => Returns (Some (logPrefix +:+ ".silk-controller error: " +:+ Error err))
       | Panics msg => Panics msg
       | OutOfFuel => OutOfFuel
       end).

End Main.

(** ** The process and its surroundings

    The files; whether a call has failed; the driver of the open database and the
    migrations applied to it; what the process group runs. *)
Record process := {
  p_disk : disk;
  p_failed : bool;
  p_driver : option string;
  p_schema : option (list Migration);
  p_serving : option (list (string * Runner))
}.

Definition set_disk (d : disk) (w : process) : process :=
  {| p_disk := d; p_failed := p_failed w; p_driver := p_driver w; p_schema := p_schema w;
     p_serving := p_serving w |}.
Definition set_failed (w : process) : process :=
  {| p_disk := p_disk w; p_failed := true; p_driver := p_driver w; p_schema := p_schema w;
     p_serving := p_serving w |}.
Definition set_driver (d : string) (w : process) : process :=
  {| p_disk := p_disk w; p_failed := p_failed w; p_driver := Some d; p_schema := p_schema w;
     p_serving := p_serving w |}.
Definition set_schema (m : list Migration) (w : process) : process :=
  {| p_disk := p_disk w; p_failed := p_failed w; p_driver := p_driver w; p_schema := Some m;
     p_serving := p_serving w |}.
Definition set_serving (ms : list (string * Runner)) (w : process) : process :=
  {| p_disk := p_disk w; p_failed := p_failed w; p_driver := p_driver w; p_schema := p_schema w;
     p_serving := Some ms |}.

(** A call that fails leaves everything as it is but is remembered; one that
    succeeds has the effect [f]. *)
Definition effect {A} (f : A -> process -> process) (w w' : process) (r : result A) : Prop :=
  w' = match r with Ok a => f a w | Err _ => set_failed w end.

Definition os_effect (X : Type) (e : osE X) (w w' : process) : X -> Prop :=
  match e in osE X return X -> Prop with
  | ReadFile f => fun r => effect (fun _ => id) w w' r /\
      match r with Ok s => p_disk w !! f = Some s | Err _ => True end
  | WriteFile f data _ => effect (fun _ w => set_disk (<[f := data]> (p_disk w)) w) w w'
  end.

Definition db_effect (X : Type) (e : dbE X) (w w' : process) : X -> Prop :=
  match e in dbE X return X -> Prop with
  | MigrateExec _ ms => effect (fun _ => set_schema ms) w w'
  | _ => fun _ => w' = w
  end.

(** What the calls do. [NewConnectionPool] opens the databases of its two drivers
    only; [ifrit.Invoke] starts every member, and its answer is how they ended. *)
Definition controller_step (X : Type) (e : controllerE X) (w w' : process) : X -> Prop :=
  match e in controllerE X return X -> Prop with
  | @OnOS X e => os_effect X e w w'
  | NewServerTLSConfig cert key ca => fun r => effect (fun _ => id) w w' r /\
      match r with
      | Ok t => t = {| tls_Cert := cert; tls_Key := key; tls_CA := ca |}
      | Err _ => True
      end
  | NewConnectionPool conf _ _ _ _ _ => fun r => effect set_driver w w' r /\
      match r with Ok d => d = Type_ conf /\ supported d | Err _ => True end
  | RandInt => effect (fun _ => id) w w'
  | @OnDb X e => db_effect X e w w'
  | Time_Sleep _ => fun _ => w' = w
  | Dropsonde_Initialize _ _ => effect (fun _ => id) w w'
  | Invoke_Wait ms => fun _ => w' = set_serving ms w
  end.

Lemma NewCIDRPool_needs_seed fuel random range m p :
  NewCIDRPool fuel random range m = Returns p -> exists seed, random = Ok seed.
Proof.
  unfold NewCIDRPool. destruct (ParseCIDR range) as [[ip net]|]; [|done].
  destruct (Mask_Size _) as [c b]. destruct random; [eauto|done].
Qed.

(** The router main builds is the one of the theorems on the HTTP API. *)
Lemma main_router_built json not_found :
  exists r, main_router json not_found = Ok r /\ forall m p b, r m p b = router json not_found m p b.
Proof. eexists. split; [reflexivity|done]. Qed.

Lemma health_router_built not_found :
  exists r, health_router not_found = Ok r /\
    forall m p b, r m p b = if decide (m = "GET" /\ p = "/health") then Health_ServeHTTP
                            else Ret (not_found m p).
Proof. eexists. split; [reflexivity|done]. Qed.

(** Everything but the schema is as before, and failures are not forgotten. *)
Record quiet_since (w w' : process) : Prop := {
  qs_driver : p_driver w' = p_driver w;
  qs_serving : p_serving w' = p_serving w;
  qs_failed : p_failed w = true -> p_failed w' = true
}.

Lemma quiet_since_refl w : quiet_since w w.
Proof. by split. Qed.

Lemma quiet_since_trans w1 w2 w3 : quiet_since w1 w2 -> quiet_since w2 w3 -> quiet_since w1 w3.
Proof. intros [] []. split; [congruence..|auto]. Qed.

Lemma quiet_since_effect (w w' : process) (r : result Z) ms :
  effect (fun _ => set_schema ms) w w' r -> quiet_since w w'.
Proof. intros ->. destruct r; by split. Qed.

#[local] Hint Resolve quiet_since_refl quiet_since_trans quiet_since_effect : silk.

(** The migrations are applied when the migrator says so, and only failures of the
    database make it give up. *)
Lemma try_loop_main driver n err w :
  wp controller_step (interp (@migrator_impl driver) (try_loop n err)) w (fun w' r =>
    quiet_since w w' /\
    match r with
    | Ok _ => p_schema w' = Some (DatabaseHandler.NewDatabaseHandler_migrations driver)
    | Err _ => n <> 0%nat -> p_failed w' = true
    end).
Proof.
  revert err w. induction n as [|n IH]; intros err w; simpl; [by split; [auto with silk|]|].
  intros w1 [k|e] He; simpl in *.
  - split; [by eauto with silk|]. by rewrite He.
  - intros w2 _ ->. eapply wp_mono; [apply IH|]. intros w3 r [Hq Hr].
    split; [by eauto with silk|]. destruct r; [done|]. intros _. apply Hq. by rewrite He.
Qed.

Lemma start_servers_wp json not_found conf c tls w :
  wp controller_step (start_servers json not_found conf c tls) w (fun w' r =>
    (p_failed w' = true /\ p_serving w' = p_serving w) \/
    exists router health,
      main_router json not_found = Ok router /\ health_router not_found = Ok health /\
      w' = set_serving (controller_members conf c router health tls) w).
Proof.
  unfold start_servers.
  destruct (main_router_built json not_found) as (r & -> & _).
  destruct (health_router_built not_found) as (h & -> & _). cbn [bind_err bind].
  intros w1 [[]|e] ->; cbn [bind_err bind wp]; [|by left].
  intros w2 [[]|e] ->; cbn [bind_err bind wp]; right; eauto.
Qed.

(** How the controller stands when it serves under the configuration [conf]. *)
Record in_service json not_found (fuel : nat) (conf : ControllerConfig) (w : process)
    (ms : list (string * Runner)) (pool : CIDRPool) (serve health : serving) : Prop := {
  is_driver : supported (Type_ (Database_ conf)) /\ p_driver w = Some (Type_ (Database_ conf));
  is_schema : p_schema w =
    Some (DatabaseHandler.NewDatabaseHandler_migrations (Type_ (Database_ conf)));
  is_pool : exists seed, NewCIDRPool fuel (Ok seed) (Network conf) (SubnetPrefixLength conf) = Returns pool;
  is_router : main_router json not_found = Ok serve;
  is_health : health_router not_found = Ok health;
  is_members : ms = controller_members conf
    (main_LeaseController pool (ConfLeaseExpirationSeconds conf)) serve health
    {| tls_Cert := ServerCertFile conf; tls_Key := ServerKeyFile conf; tls_CA := CACertFile conf |}
}.

Lemma NewCIDRPool_any_seed fuel seed seed' range m :
  NewCIDRPool fuel (Ok seed) range m = NewCIDRPool fuel (Ok seed') range m.
Proof. done. Qed.

Lemma run_controller_wp json not_found fuel conf prefix w :
  wp controller_step (run_controller json not_found fuel conf prefix) w (fun w' res =>
    (p_failed w' = true /\ p_serving w' = p_serving w) \/
    (p_serving w' = p_serving w /\ exists seed,
       match NewCIDRPool fuel (Ok seed) (Network conf) (SubnetPrefixLength conf) with
       | Returns _ => False
       | Panics msg => res = Panics msg
       | OutOfFuel => res = OutOfFuel
       end) \/
    exists ms pool serve health,
      p_serving w' = Some ms /\ in_service json not_found fuel conf w' ms pool serve health).
Proof.
  unfold run_controller. wp_call. intros w1 [tls|e] [-> Htls]; [|by left].
  wp_call. intros w2 [driver|e] [-> Hd]; [|by left]. destruct Hd as [-> Hd].
  wp_call. intros w3 random ->.
  destruct (NewCIDRPool fuel random _ _) as [pool|msg|] eqn:Hpool.
  2,3: destruct random as [seed|e]; [right; left; split; [done|];
         exists seed; by rewrite Hpool|by left].
  destruct (NewCIDRPool_needs_seed _ _ _ _ _ Hpool) as [seed ->].
  apply wp_bind_out, wp_returning. eapply wp_mono; [apply try_loop_main|].
  intros w4 [[]|e] [Hq Hs]; [|left; split; [by apply Hs|by apply Hq]].
  apply wp_returning. eapply wp_mono; [apply start_servers_wp|].
  intros w5 r [[Hf Hv]|(serve & health & Hr & Hh & ->)].
  { left. split; [done|]. rewrite Hv. apply Hq. }
  right. right. do 4 eexists. split; [done|]. split; [|done|by exists seed|done|done|by rewrite Htls].
  split; [done|]. simpl. rewrite (qs_driver _ _ Hq). done.
Qed.

Lemma on_os_wp {A} (p : prog osE A) w Q :
  wp os_effect p w Q -> wp controller_step (on_os p) w Q.
Proof. by apply wp_embed. Qed.

Lemma ReadFromFile_main error_text conf_json path w :
  wp os_effect (ReadFromFile error_text conf_json path) w (fun w' r =>
    match r with
    | Ok conf => w' = w /\ controller_config_valid conf /\
        exists text, p_disk w !! path = Some text /\ Unmarshal conf_json text = Ok conf
    | Err _ => p_serving w' = p_serving w /\
        (p_failed w' = true \/ forall text conf, p_disk w !! path = Some text ->
           Unmarshal conf_json text = Ok conf -> ~ controller_config_valid conf)
    end).
Proof.
  unfold ReadFromFile. wp_call. intros w1 [text|e] [-> Ht]; [|by split; [|left]].
  cbn [bind_err bind]. destruct (Unmarshal conf_json text) as [conf|e] eqn:Hu; cbn [bind wp].
  2:{ split; [done|]. right. intros. simpl in *. congruence. }
  destruct (tags_hold (show_ControllerConfig conf)) eqn:Htags.
  - apply (Validate_Ok error_text) in Htags as Hv. rewrite Hv. simpl.
    apply controller_tags in Htags. eauto.
  - destruct (Validate_Err error_text _ Htags) as (errs & _ & Hv). rewrite Hv. simpl.
    split; [done|]. right. intros t c Hc Hu'. rewrite <- controller_tags.
    rewrite Ht in Hc. injection Hc as <-. rewrite Hu in Hu'. injection Hu' as <-. by rewrite Htags.
Qed.

(** C23. silk-controller serves requests only under a configuration of its file
    whose tags hold, on a database of a supported kind to which the migrations
    have been applied, with its handlers on a lease controller that draws from the
    pool of the configured network (so that the theorems on leases apply to it
    when the prefix length is between the network's and 32). It fails to serve
    only if a call fails, the file is not accepted, or the pool is not built. *)
Theorem controller_serves_when_ready error_text conf_json json not_found fuel path (w : process) :
  wp controller_step (mainWithError error_text conf_json json not_found fuel path) w
  (fun w' '(logPrefix, _) => p_serving w = None ->
    match p_serving w' with
    | Some ms => exists conf text pool serve health,
        p_disk w !! path = Some text /\ Unmarshal conf_json text = Ok conf /\
        controller_config_valid conf /\ logPrefix = LogPrefix conf /\
        in_service json not_found fuel conf w' ms pool serve health /\
        (forall m p b, serve m p b = router json not_found m p b) /\
        (forall base len, overlay_network (Network conf) base len ->
           len <= SubnetPrefixLength conf <= 32 ->
           pool_fuel len (SubnetPrefixLength conf) <= Z.of_nat fuel ->
           configured (main_LeaseController pool (ConfLeaseExpirationSeconds conf))
             base len (SubnetPrefixLength conf))
    | None =>
        p_failed w' = true \/
        forall text conf, p_disk w !! path = Some text -> Unmarshal conf_json text = Ok conf ->
          controller_config_valid conf -> forall seed pool,
          NewCIDRPool fuel (Ok seed) (Network conf) (SubnetPrefixLength conf) <> Returns pool
    end).
Proof.
  unfold mainWithError. apply wp_bind, on_os_wp. eapply wp_mono; [apply ReadFromFile_main|].
  intros w1 [conf|e]; [|intros [Hs Hr] Hn; rewrite Hs, Hn; destruct Hr as [Hr|Hr]; [by left|right]; naive_solver].
  intros (-> & Hv & text & Ht & Hu). cbv zeta.
  rewrite decide_True by apply (valid_LogPrefix _ Hv).
  apply wp_bind. eapply wp_mono; [apply run_controller_wp|].
  intros w2 r [[Hf Hs]|[[Hs Hp]|(ms & pool & serve & health & Hs & Hin)]] Hn; rewrite Hs.
  - rewrite Hn. by left.
  - rewrite Hn. right. intros t c Hc Hu'. rewrite Ht in Hc. injection Hc as <-.
    rewrite Hu in Hu'. injection Hu' as <-. destruct Hp as [seed Hp]. intros _ seed' pool E.
    by rewrite (NewCIDRPool_any_seed _ _ seed'), E in Hp.
  - exists conf, text, pool, serve, health. do 5 (split; [done|]). split.
    + destruct (main_router_built json not_found) as (r' & Hr & Hser).
      rewrite (is_router _ _ _ _ _ _ _ _ _ Hin) in Hr. by injection Hr as <-.
    + intros base len Hnet Hm Hfuel. destruct (is_pool _ _ _ _ _ _ _ _ _ Hin) as [seed Hpool].
      destruct (NewCIDRPool_pool_of fuel seed _ _ _ _ Hnet Hm Hfuel) as (p & Hp & Hof).
      rewrite Hpool in Hp. injection Hp as <-. split; [|done]. by eapply overlay_network_cut.
Qed.

(** C35. A subnet prefix length above 32 passes the validation of the configuration,
    and the controller then never serves: building the pool does not end, however
    many iterations it is given. *)
Theorem long_prefix_never_serves error_text conf_json json not_found fuel path text conf base len w :
  p_disk w !! path = Some text -> Unmarshal conf_json text = Ok conf ->
  controller_config_valid conf -> overlay_network (Network conf) base len ->
  32 < SubnetPrefixLength conf < 2 ^ 63 -> p_serving w = None ->
  wp controller_step (mainWithError error_text conf_json json not_found fuel path) w
    (fun w' '(_, res) => p_serving w' = None /\ (p_failed w' = true \/ res = OutOfFuel)).
Proof.
  intros Ht Hu Hv Hnet Hm Hn. unfold mainWithError. apply wp_bind, on_os_wp.
  eapply wp_mono; [apply ReadFromFile_main|]. intros w1 [c|e].
  2:{ intros [Hs [Hf|Hbad]]; [split; [congruence|by left]|]. by destruct (Hbad text conf Ht Hu). }
  intros (-> & _ & t & Ht' & Hu'). rewrite Ht in Ht'. injection Ht' as <-.
  rewrite Hu in Hu'. injection Hu' as <-. apply wp_bind.
  eapply wp_mono; [apply run_controller_wp|].
  pose proof (fun seed => long_prefix_loops fuel seed _ _ _ _ Hnet Hm) as Hloop.
  intros w2 r [[Hf Hs]|[[Hs [seed Hp]]|(ms & pool & serve & health & _ & Hin)]].
  - split; [congruence|by left].
  - rewrite Hloop in Hp. split; [congruence|by right].
  - destruct (is_pool _ _ _ _ _ _ _ _ _ Hin) as [seed Hp]. by rewrite Hloop in Hp.
Qed.

(** ** At concrete inputs *)

Definition file_of (c : ControllerConfig) : disk :=
  match Marshal controller_json c with Ok text => {["silk.json" := text]} | Err _ => ∅ end.

Definition start_of (c : ControllerConfig) : process :=
  {| p_disk := file_of c; p_failed := false; p_driver := None; p_schema := None; p_serving := None |}.

Lemma long_prefix_never_serves_witness :
  wp controller_step
    (mainWithError (fun _ => "fields") controller_json canonical_json not_found_page 1000 "silk.json")
    (start_of long_prefix_config)
    (fun w' '(_, res) => p_serving w' = None /\ (p_failed w' = true \/ res = OutOfFuel)).
Proof.
  eapply (long_prefix_never_serves (fun _ => "fields") controller_json canonical_json not_found_page
    1000 "silk.json" _ long_prefix_config 184483840 30).
  - reflexivity.
  - vm_compute. reflexivity.
  - apply controller_tags. reflexivity.
  - exact overlay_example.
  - vm_compute. split; reflexivity.
  - reflexivity.
Defined.

(** Surroundings in which every call succeeds and the servers run until they are
    told to stop. *)
Definition all_well : handler controllerE process := fun X e w =>
  match e in controllerE X return process * X with
  | @OnOS X e =>
      match e in osE X return process * X with
      | ReadFile f =>
          match p_disk w !! f with
          | Some text => (w, Ok text)
          | None => (set_failed w, Err (Errorf "no such file"))
          end
      | WriteFile f data _ => (set_disk (<[f := data]> (p_disk w)) w, Ok tt)
      end
  | NewServerTLSConfig cert key ca => (w, Ok {| tls_Cert := cert; tls_Key := key; tls_CA := ca |})
  | NewConnectionPool conf _ _ _ _ _ =>
      if decide (supported (Type_ conf)) then (set_driver (Type_ conf) w, Ok (Type_ conf))
      else (set_failed w, Err (Errorf "database type is not supported"))
  | RandInt => (w, Ok 7)
  | @OnDb X e =>
      match e in dbE X return process * X with
      | MigrateExec _ ms => (set_schema ms w, Ok 1)
      | Exec _ _ => (w, Err (Errorf "not called"))
      | Query _ _ => (w, Err (Errorf "not called"))
      | QueryRow _ _ => (w, Err (Errorf "not called"))
      end
  | Time_Sleep _ => (w, tt)
  | Dropsonde_Initialize _ _ => (w, Ok tt)
  | Invoke_Wait ms => (set_serving ms w, Ok tt)
  end.

Lemma all_well_keeps X (e : controllerE X) w : True ->
  True /\ controller_step X e w (fst (all_well X e w)) (snd (all_well X e w)).
Proof.
  intros _. split; [done|]. destruct e as [X [f|f d p]| |conf| |X []| | |]; try done; simpl.
  - by destruct (p_disk w !! f) eqn:E.
  - by case_decide.
Qed.

Local Abbreviation example_main := (run all_well
  (mainWithError (fun _ => "fields") controller_json canonical_json not_found_page 8 "silk.json")
  (start_of example_controller_config)).

Lemma example_run :
  example_main.2 = ("cfnetworking", Returns (Ok tt)) /\ is_Some (p_serving example_main.1).
Proof. split; vm_compute; [reflexivity|eauto]. Qed.

Lemma controller_serves_when_ready_witness :
  let '(w', (logPrefix, res)) := example_main in
  logPrefix = "cfnetworking" /\ res = Returns (Ok tt) /\
  exists ms pool serve health conf,
    p_serving w' = Some ms /\ controller_config_valid conf /\
    in_service canonical_json not_found_page 8 conf w' ms pool serve health.
Proof.
  pose proof (wp_sound controller_step all_well (fun _ => True) id _ (start_of example_controller_config)
    _ all_well_keeps I
    (controller_serves_when_ready (fun _ => "fields") controller_json canonical_json not_found_page
       8 "silk.json" (start_of example_controller_config))) as [H _].
  destruct example_main as [w' [logPrefix res]] eqn:E.
  destruct example_run as (Hr & Hs). rewrite E in Hr, Hs. cbn [fst snd] in Hr, Hs. injection Hr as -> ->.
  destruct Hs as [ms Hs]. split; [done|]. split; [done|].
  specialize (H eq_refl). unfold id in H. cbn [fst snd] in H. rewrite Hs in H.
  destruct H as (conf & text & pool & serve & health & _ & _ & Hv & _ & Hin & _).
  exists ms, pool, serve, health, conf. exact (conj Hs (conj Hv Hin)).
Defined.
