(* ===== verification/DaemonMain.v ===== *)
(** * The mains of silk-daemon and silk-teardown

    src/cmd/silk-daemon/main.go: [daemon_mainWithError] reads the configuration,
    prepares TLS and the metrics client, settles the lease and the device
    ([daemon_start] of Daemon), and hands its servers and the poll loop to the
    process group. src/cmd/silk-teardown/main.go: [teardown_mainWithError].
    Loggers are left out. *)

From Stdlib Require Import ZArith Lia Ascii.
From S2P Require Import Prelude GoFmt GoNet NetFacts HwAddr Types Netlink Vtep Converger Planner.
From S2P Require Import Daemon DaemonFacts Config.

(** ** What the mains call *)

Inductive DaemonRunner :=
| HealthServer (server : health_server)
| VxlanPoller (pollInterval : Z) (lease : Lease) (converger : Converger) (detector : gracefulDetector)
| DaemonDebugServer (address : string)
| UptimeEmitter (interval : Z).

Inductive daemonMainE : Type -> Type :=
| D_OS {X} (e : osE X) : daemonMainE X
| NewClientTLSConfig (certFile keyFile caFile : string) : daemonMainE (result TLSConfig)
| D_Dropsonde_Initialize (address origin : string) : daemonMainE (result unit)
| D_daemon {X} (e : daemonE X) : daemonMainE X
| D_Now : daemonMainE Z
| D_Invoke_Wait (members : list (string * DaemonRunner)) : daemonMainE (result unit).

Definition d_os {A} (p : prog osE A) : prog daemonMainE A :=
  interp (fun X e => trigger (@D_OS X e)) p.

Definition d_daemon {A} (p : prog daemonE A) : prog daemonMainE A :=
  interp (fun X e => trigger (@D_daemon X e)) p.

Section Mains.
Context (error_text : list (string * list string) -> string).
Context (cfg_json : StructJson ClientConfig) (marshal : NetworkInfo -> result string).

(** ** silk-daemon *)

Definition daemon_members (cfg : ClientConfig) (s : started) (now : Z) : list (string * DaemonRunner) :=
  [("server", HealthServer (started_health s));
   ("vxlan-poller", VxlanPoller (seconds (cfg_PollInterval cfg)) (started_lease s)
      {| OverlayNetwork := started_network s; LocalSubnet := started_subnet s;
         LocalVTEP_Index := Interface_Index (started_vtep s) |}
      {| graceDuration := seconds (cfg_PartitionToleranceSeconds cfg); lastSuccessTime := now |});
   ("debug-server", DaemonDebugServer ("127.0.0.1:" +:+ itoa (cfg_DebugServerPort cfg)));
   ("metrics-emitter", UptimeEmitter (seconds 30))].

Definition run_daemon (cfg : ClientConfig) : prog daemonMainE (result unit) :=
  try _ <- trigger (NewClientTLSConfig (cfg_ClientCertFile cfg) (cfg_ClientKeyFile cfg)
                      (cfg_ServerCACertFile cfg)) catch wrap "create tls config" ;;
  try _ <- trigger (D_Dropsonde_Initialize ("127.0.0.1:" +:+ itoa (cfg_MetronPort cfg)) "silk-daemon")
    catch wrap "initializing dropsonde" ;;
  try s <- d_daemon (daemon_start cfg marshal) catch id ;;
  now <- trigger D_Now ;;
  trigger (D_Invoke_Wait (daemon_members cfg s now)).

(** The result, and the value of the global [logPrefix]. *)
Definition daemon_mainWithError (configFilePath : string) : prog daemonMainE (string * result unit) :=
  r <- d_os (LoadConfig error_text cfg_json configFilePath) ;;
  match r with
  | Err err => Ret ("cfnetworking", Err (wrap "load config file" err))
  | Ok cfg =>
      let logPrefix := if decide (cfg_LogPrefix cfg <> "") then cfg_LogPrefix cfg else "cfnetworking" in
      res <- run_daemon cfg ;;
      Ret (logPrefix, res)
  end.

(** What [log.Fatalf] prints before the process exits with status 1. *)
Definition daemon_main (configFilePath : string) : prog daemonMainE (option string) :=
  ended <- daemon_mainWithError configFilePath ;;
  let '(logPrefix, res) := ended in
  Ret (match res with
       | Ok _ => None
       | Err err => Some (logPrefix +:+ ".silk-daemon error: " +:+ Error err)
       end).

(** ** silk-teardown *)

(** multierror's text of the errors collected. *)
Definition newline_tab : string := String (chr 10) (String (chr 9) "").
Definition two_newlines : string := String (chr 10) (String (chr 10) "").

Definition multierror_Error (es : list error) : string :=
  match es with
  | [e] => "1 error occurred:" +:+ newline_tab +:+ "* " +:+ Error e +:+ two_newlines
  | _ => itoa (Z.of_nat (length es)) +:+ " errors occurred:" +:+ newline_tab +:+
         String.concat newline_tab (map (fun e => "* " +:+ Error e) es) +:+ two_newlines
  end.

(** [errList] as an [error]: nil when nothing was appended to it. *)
Definition errList_error (es : list error) : result unit :=
  match es with [] => Ok tt | _ => Err (Errorf (multierror_Error es)) end.

Definition teardown_mainWithError (configFilePath : string) : prog daemonMainE (result unit) :=
  try cfg <- d_os (LoadConfig error_text cfg_json configFilePath) catch wrap "load config file" ;;
  try _ <- trigger (NewClientTLSConfig (cfg_ClientCertFile cfg) (cfg_ClientKeyFile cfg)
                      (cfg_ServerCACertFile cfg)) catch wrap "create tls config" ;;
  errList <- d_daemon (teardown cfg) ;;
  Ret (errList_error errList).

Definition teardown_main (configFilePath : string) : prog daemonMainE (option string) :=
  r <- teardown_mainWithError configFilePath ;;
  Ret (match r with Ok _ => None | Err err => Some ("silk-teardown error: " +:+ Error err) end).

End Mains.

(** ** The cell

    The files; the leases the controller has granted to the daemon or confirmed by
    a renewal; what the process group runs. *)
Record cell := {
  c_disk : disk;
  c_confirmed : list Lease;
  c_serving : option (list (string * DaemonRunner))
}.

Definition confirm (l : Lease) (c : cell) : cell :=
  {| c_disk := c_disk c; c_confirmed := l :: c_confirmed c; c_serving := c_serving c |}.

(** Any answer is possible; only the controller's are remembered. *)
Definition client_effect (X : Type) (e : clientE X) (c c' : cell) : X -> Prop :=
  match e in clientE X return X -> Prop with
  | C_AcquireSubnetLease _ | C_AcquireSingleOverlayIPLease _ => fun r =>
      c' = match r with Ok l => confirm l c | Err _ => c end
  | C_RenewSubnetLease l => fun r => c' = match r with Ok _ => confirm l c | Err _ => c end
  | C_ReleaseSubnetLease _ => fun _ => c' = c
  | C_ReadAll _ => fun _ => c' = c
  end.

Definition daemon_effect (X : Type) (e : daemonE X) (c c' : cell) : X -> Prop :=
  match e in daemonE X return X -> Prop with
  | @OnClient X e => client_effect X e c c'
  | OnKernel _ | OnNet _ => fun _ => c' = c
  end.

Definition cell_step (X : Type) (e : daemonMainE X) (c c' : cell) : X -> Prop :=
  match e in daemonMainE X return X -> Prop with
  | @D_OS X e => fun x =>
      disk_step X e (c_disk c) (c_disk c') x /\
      c' = {| c_disk := c_disk c'; c_confirmed := c_confirmed c; c_serving := c_serving c |}
  | NewClientTLSConfig cert key ca => fun r => c' = c /\
      match r with
      | Ok t => t = {| tls_Cert := cert; tls_Key := key; tls_CA := ca |}
      | Err _ => True
      end
  | D_Dropsonde_Initialize _ _ => fun _ => c' = c
  | @D_daemon X e => daemon_effect X e c c'
  | D_Now => fun _ => c' = c
  | D_Invoke_Wait ms => fun _ =>
      c' = {| c_disk := c_disk c; c_confirmed := c_confirmed c; c_serving := Some ms |}
  end.

(** ** The lease the daemon serves *)

(** Nothing but answers of the controller lies between the two. *)
Record grown (c c' : cell) : Prop := {
  grown_disk : c_disk c' = c_disk c;
  grown_serving : c_serving c' = c_serving c;
  grown_confirmed : c_confirmed c ⊆ c_confirmed c'
}.

Lemma grown_refl c : grown c c.
Proof. by split. Qed.

Lemma grown_trans c1 c2 c3 : grown c1 c2 -> grown c2 c3 -> grown c1 c3.
Proof. intros [] []. split; [congruence..|]. by etrans. Qed.

Lemma grown_confirm l c : grown c (confirm l c).
Proof. split; [done..|]. simpl. set_solver. Qed.

#[local] Hint Resolve grown_refl grown_trans grown_confirm : silk.

Lemma on_kernel_effect {A} (p : prog netlinkE A) c :
  wp daemon_effect (on_kernel p) c (fun c' _ => c' = c).
Proof. unfold on_kernel. induction p as [a|X e k IH]; [done|]. intros c' x ->. apply IH. Qed.

Lemma on_net_effect {A} (p : prog netE A) c :
  wp daemon_effect (on_net p) c (fun c' _ => c' = c).
Proof. unfold on_net. induction p as [a|X e k IH]; [done|]. intros c' x ->. apply IH. Qed.

(** A program that ends with a lease the controller has granted or confirmed. *)
Definition confirms (p : prog daemonE (result Lease)) : Prop := forall c,
  wp daemon_effect p c (fun c' r => grown c c' /\
    match r with Ok l => l ∈ c_confirmed c' | Err _ => True end).

Lemma confirms_acquireLease cfg : confirms (acquireLease cfg).
Proof.
  intros c. unfold acquireLease. apply wp_bind_err.
  apply wp_mono with (fun c' r => grown c c' /\
    match r with Ok l => l ∈ c_confirmed c' | Err _ => True end).
  { destruct (cfg_SingleIPOnly cfg); apply wp_trigger; intros c' [l|e] ->;
      (split; [auto with silk|]); simpl; set_solver. }
  intros c1 [l|e] [Hg Hl]; [|done].
  destruct (cfg_HealthCheckPort cfg =? 0); [done|].
  apply wp_bind_err. eapply wp_mono; [apply on_net_effect|]. intros c2 [conf|e] ->; [|done].
  apply wp_bind_err. eapply wp_mono; [apply on_kernel_effect|]. by intros c2 [u|e] ->.
Qed.

Lemma confirms_replace cfg complaint : confirms (replace_if_unused cfg complaint).
Proof.
  intros c. unfold replace_if_unused. apply wp_bind_err, wp_trigger. intros c1 [n|e] ->; [|by auto with silk].
  destruct (negb (n =? 0)); [by auto with silk|].
  apply wp_bind_err. eapply wp_mono; [apply on_kernel_effect|].
  intros c2 [u|e] ->; [|by auto with silk]. apply confirms_acquireLease.
Qed.

Lemma confirms_establish cfg net : confirms (establishLease cfg net).
Proof.
  intros c. unfold establishLease, discoverLocalLease. apply wp_bind, wp_bind_err.
  eapply wp_mono; [apply on_kernel_effect|].
  intros c1 [[[hw ip] mtu]|e] ->; [|apply confirms_acquireLease]. cbn [bind wp].
  destruct (ParseCIDR _) as [[ip' subnet]|e]; [|by auto with silk].
  apply wp_bind_err. apply wp_mono with (fun c' _ => grown c c').
  { destruct (negb _); [|by auto with silk]. eapply wp_mono; [apply confirms_replace|]. naive_solver. }
  intros c1 [l|e] Hg; [|done]. apply wp_bind, wp_trigger. intros c2 [u|e] ->.
  - split; [by eauto with silk|]. simpl. set_solver.
  - eapply wp_mono; [apply confirms_replace|]. intros c3 r [Hg' Hr]. split; [by eauto with silk|done].
Qed.

(** What the daemon has settled before it serves. *)
Record settled (cfg : ClientConfig) (marshal : NetworkInfo -> result string) (s : started) (c : cell)
    : Prop := {
  st_confirmed : started_lease s ∈ c_confirmed c;
  st_network : exists ip, ParseCIDR (cfg_OverlayNetwork cfg) = Ok (ip, started_network s);
  st_subnet : exists ip, ParseCIDR (OverlaySubnet (started_lease s)) = Ok (ip, started_subnet s);
  st_info : exists mtu,
    marshal {| Info_OverlaySubnet := OverlaySubnet (started_lease s); Info_MTU := mtu |}
    = Ok (health_body (started_health s));
  st_health : health_status (started_health s) = 200 /\
    health_address (started_health s) = "127.0.0.1:" +:+ itoa (cfg_HealthCheckPort cfg)
}.

Lemma daemon_start_settles cfg marshal c :
  wp daemon_effect (daemon_start cfg marshal) c (fun c' r => grown c c' /\
    match r with Ok s => settled cfg marshal s c' | Err _ => True end).
Proof.
  unfold daemon_start. destruct (ParseCIDR (cfg_OverlayNetwork cfg)) as [[ip net]|e] eqn:Hnet;
    [|by split; [auto with silk|]].
  apply wp_bind_err. eapply wp_mono; [apply confirms_establish|]. intros c1 [l|e] [Hg Hl]; [|done].
  apply wp_bind_err. unfold getNetworkInfo. apply wp_bind_err.
  eapply wp_mono; [apply on_kernel_effect|]. intros c2 [[[hw ip'] mtu]|e] ->; [|done].
  cbn [wp]. unfold buildHealthCheckServer.
  destruct (marshal _) as [bytes|e] eqn:Hm; [|done]. cbn [bind_err bind].
  destruct (ParseCIDR (OverlaySubnet l)) as [[ip2 subnet]|e] eqn:Hs; [|done].
  apply wp_bind_err, wp_trigger. intros c3 [iface|e] ->; [|done].
  split; [done|]. split; simpl; eauto.
Qed.

Lemma d_daemon_wp {A} (p : prog daemonE A) c Q :
  wp daemon_effect p c Q -> wp cell_step (d_daemon p) c Q.
Proof. by apply wp_embed. Qed.

(** Reading the configuration leaves the cell as it is. *)
Lemma LoadConfig_main error_text cfg_json path c :
  wp cell_step (d_os (LoadConfig error_text cfg_json path)) c (fun c' r => c' = c /\
    match r with
    | Ok cfg => client_config_valid cfg /\
        exists text, c_disk c !! path = Some text /\ Unmarshal cfg_json text = Ok cfg
    | Err _ => True
    end).
Proof.
  apply (wp_zoom cell_step disk_step (@D_OS) c_disk
    (fun d c => {| c_disk := d; c_confirmed := c_confirmed c; c_serving := c_serving c |})).
  - intros X e w w' x [Hs Hw]. split; [done|exact Hw].
  - done.
  - by intros [].
  - eapply wp_mono; [apply read_accepted_wp|]. intros d r [-> Hr]. split; [by destruct c|].
    destruct r as [cfg|e]; [|done]. destruct (Hr cfg eq_refl) as [Ht Htext].
    split; [by apply client_tags|done].
Qed.

(** C24. silk-daemon serves, and polls for, only a lease that the controller has
    granted or renewed since the daemon started, under a configuration of its file
    whose tags hold: its health check port answers 200 with the network
    information of that lease, its poll loop renews that lease, and its converger
    works on the lease's subnet within the overlay network. If it does not serve it
    ends with an error. *)
Theorem daemon_serves_confirmed_lease error_text cfg_json marshal path (c : cell) :
  wp cell_step (daemon_mainWithError error_text cfg_json marshal path) c (fun c' '(logPrefix, res) =>
    c_serving c = None ->
    match c_serving c' with
    | None => exists e, res = Err e
    | Some ms => exists cfg text s now,
        c_disk c !! path = Some text /\ Unmarshal cfg_json text = Ok cfg /\
        client_config_valid cfg /\ logPrefix = cfg_LogPrefix cfg /\
        settled cfg marshal s c' /\ ms = daemon_members cfg s now
    end).
Proof.
  unfold daemon_mainWithError. apply wp_bind. eapply wp_mono; [apply LoadConfig_main|].
  intros c1 [cfg|e] [-> H]; [|by intros ->; eauto]. destruct H as (Hv & text & Ht & Hu). cbv zeta.
  rewrite decide_True by apply (valid_cfg_LogPrefix _ Hv).
  apply wp_bind, wp_bind_err, wp_trigger. intros c1 [tls|e] [-> _]; [|by intros ->; eauto].
  apply wp_bind_err, wp_trigger. intros c1 [[]|e] ->; [|by intros ->; eauto].
  apply wp_bind_err, d_daemon_wp. eapply wp_mono; [apply daemon_start_settles|].
  intros c2 [s|e] [Hg Hs]; [|by intros Hn; rewrite (grown_serving _ _ Hg), Hn; eauto].
  apply wp_bind, wp_trigger. intros c3 now ->. apply wp_trigger. intros c4 res -> _. simpl.
  exists cfg, text, s, now. do 4 (split; [done|]). split; [|done]. by destruct Hs.
Qed.

(** ** A cell whose device is still there after a restart *)

Definition ClientConfig_tuple (c : ClientConfig) :=
  (cfg_UnderlayIP c, cfg_VxlanInterfaceName c, cfg_SubnetPrefixLength c, cfg_OverlayNetwork c,
   cfg_HealthCheckPort c, cfg_VTEPName c, cfg_ConnectivityServerURL c,
   (cfg_ServerCACertFile c, cfg_ClientCertFile c, cfg_ClientKeyFile c, cfg_VNI c, cfg_VTEPPort c,
    cfg_PollInterval c, cfg_DebugServerPort c),
   (cfg_Datastore c, cfg_PartitionToleranceSeconds c, cfg_ClientTimeoutSeconds c, cfg_MetronPort c,
    cfg_LogPrefix c, cfg_LogLevel c, cfg_SingleIPOnly c)).

Definition ClientConfig_untuple t : ClientConfig :=
  let '(ip, iface, plen, net, health, vtep, url, (ca, cert, key, vni, port, poll, dbg),
        (store, tolerance, timeout, metron, prefix, level, single)) := t in
  {| cfg_UnderlayIP := ip; cfg_VxlanInterfaceName := iface; cfg_SubnetPrefixLength := plen;
     cfg_OverlayNetwork := net; cfg_HealthCheckPort := health; cfg_VTEPName := vtep;
     cfg_ConnectivityServerURL := url; cfg_ServerCACertFile := ca; cfg_ClientCertFile := cert;
     cfg_ClientKeyFile := key; cfg_VNI := vni; cfg_VTEPPort := port; cfg_PollInterval := poll;
     cfg_DebugServerPort := dbg; cfg_Datastore := store; cfg_PartitionToleranceSeconds := tolerance;
     cfg_ClientTimeoutSeconds := timeout; cfg_MetronPort := metron; cfg_LogPrefix := prefix;
     cfg_LogLevel := level; cfg_SingleIPOnly := single |}.

Definition client_json : StructJson ClientConfig := binary_json ClientConfig_tuple ClientConfig_untuple.

(** The controller renews what it is asked to; the device is as a previous run
    left it. *)
Definition restarted_client : handler clientE cell := fun X e c =>
  match e in clientE X return cell * X with
  | C_AcquireSubnetLease _ => (c, Err (Errorf "no lease available"))
  | C_AcquireSingleOverlayIPLease _ => (c, Err (Errorf "no lease available"))
  | C_RenewSubnetLease l => (confirm l c, Ok tt)
  | C_ReleaseSubnetLease _ => (c, Ok tt)
  | C_ReadAll _ => (c, Ok 2)
  end.

Definition old_device : Link :=
  {| Link_Name := "silk-vtep"; Link_Index := 7; Link_HardwareAddr := [238; 238; 10; 255; 0; 2];
     Link_MTU := 1450 |}.

Definition restarted_kernel {X} (e : netlinkE X) : X :=
  match e in netlinkE X return X with
  | LinkByName _ | LinkByIndex _ => Ok old_device
  | AddrList _ _ => Ok [{| IPNet_IP := [10; 255; 0; 2]; IPNet_Mask := [255; 255; 255; 255] |}]
  | RouteList _ _ => Ok []
  | NeighList _ _ => Ok []
  | LinkAdd _ | LinkSetUp _ | LinkDel _ | AddrAdd _ _ | RouteReplace _ | RouteDel _ | NeighSet _
  | NeighDel _ => Ok tt
  end.

Definition restarted_net {X} (e : netE X) : X :=
  match e in netE X return X with
  | Interfaces => Ok []
  | InterfaceAddrs _ => Ok []
  | InterfaceByName name => Ok {| Interface_Index := 7; Interface_Name := name |}
  end.

Definition restarted : handler daemonMainE cell := fun X e c =>
  match e in daemonMainE X return cell * X with
  | @D_OS X e =>
      let '(d, x) := working_disk X e (c_disk c) in
      ({| c_disk := d; c_confirmed := c_confirmed c; c_serving := c_serving c |}, x)
  | NewClientTLSConfig cert key ca => (c, Ok {| tls_Cert := cert; tls_Key := key; tls_CA := ca |})
  | D_Dropsonde_Initialize _ _ => (c, Ok tt)
  | @D_daemon X e =>
      match e in daemonE X return cell * X with
      | @OnClient X e => restarted_client X e c
      | OnKernel e => (c, restarted_kernel e)
      | OnNet e => (c, restarted_net e)
      end
  | D_Now => (c, 1000)
  | D_Invoke_Wait ms =>
      ({| c_disk := c_disk c; c_confirmed := c_confirmed c; c_serving := Some ms |}, Ok tt)
  end.

Lemma restarted_keeps X (e : daemonMainE X) c : True ->
  True /\ cell_step X e c (fst (restarted X e c)) (snd (restarted X e c)).
Proof.
  intros _. split; [done|]. destruct e as [Y e| | |Y [Z' []|Z' e|Z' e]| |]; try done.
  simpl. pose proof (working_disk_keeps Y e (c_disk c)) as Hd.
  by destruct (working_disk Y e (c_disk c)).
Qed.

Definition restarted_cell : cell :=
  {| c_disk := match Marshal client_json example_config with
               | Ok text => {["silk.json" := text]}
               | Err _ => ∅
               end;
     c_confirmed := []; c_serving := None |}.

Definition subnet_json (i : NetworkInfo) : result string := Ok (Info_OverlaySubnet i).

Local Abbreviation example_daemon := (run restarted
  (daemon_mainWithError (fun _ => "fields") client_json subnet_json "silk.json") restarted_cell).

Lemma example_daemon_run :
  snd example_daemon = ("p", Ok tt) /\ is_Some (c_serving (fst example_daemon)).
Proof. split; vm_compute; [reflexivity|eauto]. Qed.

Lemma daemon_serves_confirmed_lease_witness :
  exists ms cfg s now,
    c_serving (fst example_daemon) = Some ms /\ client_config_valid cfg /\
    settled cfg subnet_json s (fst example_daemon) /\ ms = daemon_members cfg s now.
Proof.
  pose proof (wp_sound cell_step restarted (fun _ => True) id _ restarted_cell _ restarted_keeps I
    (daemon_serves_confirmed_lease (fun _ => "fields") client_json subnet_json "silk.json" restarted_cell))
    as [H _].
  destruct example_daemon_run as [Hr [ms Hs]]. rewrite Hr in H. unfold id in H. specialize (H eq_refl).
  rewrite Hs in H. destruct H as (cfg & text & s & now & _ & _ & Hv & _ & Hset & Hms).
  exists ms, cfg, s, now. exact (conj Hs (conj Hv (conj Hset Hms))).
Defined.
