(* ===== verification/GoPath.v ===== *)
(** * Paths and quoted strings

    The parts of Go's path/filepath (on Unix) and strconv the CNI plugin uses:
    [Clean], [Join], [Base], [Quote]. *)

From Stdlib Require Import ZArith Lia Ascii.
From S2P Require Import Prelude GoFmt.

(** ** path/filepath *)

Definition slash : ascii := "/"%char.

(** The elements of a path between its slashes. *)
Fixpoint split_path (s : string) : list string :=
  match s with
  | EmptyString => [""]
  | String c s' =>
      if Ascii.eqb c slash then "" :: split_path s'
      else match split_path s' with
           | e :: es => String c e :: es
           | [] => [String c ""]
           end
  end.

(** [out] holds the elements kept so far, the last one first. *)
Fixpoint clean_loop (rooted : bool) (es out : list string) : list string :=
  match es with
  | [] => out
  | e :: es' =>
      if decide (e = "" \/ e = ".") then clean_loop rooted es' out
      else if decide (e = "..") then
        match out with
        | o :: out' =>
            if decide (o = "..") then clean_loop rooted es' (e :: out)
            else clean_loop rooted es' out'
        | [] => clean_loop rooted es' (if rooted then [] else [e])
        end
      else clean_loop rooted es' (e :: out)
  end.

Definition rooted (s : string) : bool :=
  match s with String c _ => Ascii.eqb c slash | EmptyString => false end.

Fixpoint join_path (es : list string) : string :=
  match es with
  | [] => ""
  | [e] => e
  | e :: es' => e +:+ "/" +:+ join_path es'
  end.

Definition Clean (path : string) : string :=
  let out := (if rooted path then "/" else "")
             +:+ join_path (reverse (clean_loop (rooted path) (split_path path) [])) in
  if decide (out = "") then "." else out.

(** [Join(dir, elem)] with an [elem] that is not empty. *)
Definition Join (dir elem : string) : string :=
  if decide (dir = "") then Clean elem else Clean (dir +:+ "/" +:+ elem).

(** [Base]: the last element that is not empty. *)
Definition Base (path : string) : string :=
  if decide (path = "") then "."
  else match filter (fun e => e <> "") (reverse (split_path path)) with
       | e :: _ => e
       | [] => "/"
       end.

Example Clean_ex : map Clean ["a//b/./c/.."; "/../a"; "../../x"; ""; "/"; "a/.."]
  = ["a/b"; "/a"; "../../x"; "."; "/"; "."].
Proof. reflexivity. Qed.

Example Join_ex : map (fun d => Join d "ipam") ["/var/data"; ""; "/var/data/"; "d/.."]
  = ["/var/data/ipam"; "ipam"; "/var/data/ipam"; "ipam"].
Proof. reflexivity. Qed.

Example Base_ex : map Base ["/var/run/netns/x"; "a/b//"; "///"; ""; "x"] = ["x"; "b"; "/"; "."; "x"].
Proof. reflexivity. Qed.

(** The base of a path is never empty. *)
Lemma Base_nonempty path : Base path <> "".
Proof.
  unfold Base. case_decide; [done|].
  destruct (filter _ _) as [|e es] eqn:E; [done|].
  assert (e ∈ filter (fun e => e <> "") (reverse (split_path path))) as [He _]%list_elem_of_filter
    by (rewrite E; left).
  done.
Qed.

(** ** strconv.Quote, the verb [%q]

    ASCII text; the bytes of other characters are kept. *)

Definition quote_char (c : ascii) : string :=
  let n := code c in
  let esc (d : ascii) := String "\" (String d "") in
  if (n =? 34) || (n =? 92) then esc c
  else if n =? 7 then esc "a"%char
  else if n =? 8 then esc "b"%char
  else if n =? 9 then esc "t"%char
  else if n =? 10 then esc "n"%char
  else if n =? 11 then esc "v"%char
  else if n =? 12 then esc "f"%char
  else if n =? 13 then esc "r"%char
  else if (n <? 32) || (n =? 127) then String "\" (String "x" (hex2 n))
  else String c "".

Fixpoint quote_chars (s : string) : string :=
  match s with
  | EmptyString => ""
  | String c s' => quote_char c +:+ quote_chars s'
  end.

Definition Quote (s : string) : string :=
  let q := String (chr 34) "" in q +:+ quote_chars s +:+ q.
