(* ===== verification/TestHelpers.v ===== *)
(** * The helpers of the controller's integration tests

    src/controller/integration/helpers: the configuration the tests give the
    controller, writing its file, starting and stopping the process, and the client
    they talk to it with. A failed expectation ends the test: it is a panic, as in
    Gomega. [Eventually] polls until it succeeds or its time is over; it takes fuel,
    one unit per poll. *)

From Stdlib Require Import ZArith Lia.
From S2P Require Import Prelude GoFmt Types Http GoPath Config.

Section Helpers.
Context {Session Certificate : Type}.

(** What the helpers call: ports, the file system, processes, the network, the
    certificates, and the clock of [Eventually]. *)
Inductive helperE : Type -> Type :=
| PickAPort : helperE Z
| TempFile (dir pattern : string) : helperE (result string)
| CloseFile (name : string) : helperE (result unit)
| Helper_OS {X} (e : osE X) : helperE X
| Helper_Http {X} (e : httpE X) : helperE X
| Gexec_Start (path : string) (args : list string) : helperE (result Session)
| Interrupt (session : Session) : helperE unit
| ExitCode (session : Session) : helperE (option Z)
| LoadX509KeyPair (certFile keyFile : string) : helperE (result Certificate)
| TimedOut (timeout : string) : helperE bool.

Definition DEFAULT_TIMEOUT : string := "5s".

Definition returns {A} (a : A) : prog helperE (outcome A) := Ret (Returns a).

(** [Expect(err).NotTo(HaveOccurred())] on the error of [p]. *)
Definition expect {A B} (p : prog helperE (result A)) (k : A -> prog helperE (outcome B))
    : prog helperE (outcome B) :=
  r <- p ;;
  match r with
  | Ok a => k a
  | Err err => Ret (Panics ("Unexpected error: " +:+ Error err))
  end.

Definition and_then {A B} (p : prog helperE (outcome A)) (k : A -> prog helperE (outcome B))
    : prog helperE (outcome B) :=
  o <- p ;;
  match o with
  | Returns a => k a
  | Panics msg => Ret (Panics msg)
  | OutOfFuel => Ret OutOfFuel
  end.

Fixpoint Eventually (fuel : nat) (p : prog helperE bool) (timeout : string) : prog helperE (outcome unit) :=
  match fuel with
  | O => Ret OutOfFuel
  | S fuel' =>
      succeeded <- p ;;
      if (succeeded : bool) then returns tt
      else
        late <- trigger (TimedOut timeout) ;;
        if (late : bool) then Ret (Panics "Timed out") else Eventually fuel' p timeout
  end.

(** The ports are picked in the order of the fields. *)
Definition DefaultTestConfig (dbConf : DbConfig) (fixturesPath : string) : prog helperE ControllerConfig :=
  listenPort <- trigger PickAPort ;;
  debugServerPort <- trigger PickAPort ;;
  healthCheckPort <- trigger PickAPort ;;
  Ret {| ListenHost := "127.0.0.1";
         ListenPort := listenPort;
         DebugServerPort := debugServerPort;
         HealthCheckPort := healthCheckPort;
         CACertFile := Join fixturesPath "ca.crt";
         ServerCertFile := Join fixturesPath "server.crt";
         ServerKeyFile := Join fixturesPath "server.key";
         Network := "10.255.0.0/16";
         SubnetPrefixLength := 24;
         Database_ := dbConf;
         ConfLeaseExpirationSeconds := 60;
         StalenessThresholdSeconds := 5;
         MetronPort := 5432;
         MetricsEmitSeconds := 1;
         LogPrefix := "potato-prefix";
         MaxIdleConnections := 0;
         MaxOpenConnections := 0;
         MaxConnectionsLifetimeSeconds := 0 |}.

Definition WriteConfigFile (json : StructJson ControllerConfig) (conf : ControllerConfig)
    : prog helperE (outcome string) :=
  expect (trigger (TempFile "" "config-")) (fun configFilePath =>
  expect (trigger (CloseFile configFilePath)) (fun _ =>
  expect (interp (fun _ e => trigger (Helper_OS e)) (WriteToFile json conf configFilePath)) (fun _ =>
  returns configFilePath))).

Definition StartServer (controllerBinaryPath configFilePath : string) : prog helperE (outcome Session) :=
  expect (trigger (Gexec_Start controllerBinaryPath ["-config"; configFilePath])) returns.

Definition serverIsUp (json : Json) (baseURL : string) : prog helperE bool :=
  r <- interp (fun _ e => trigger (Helper_Http e)) (Client.GetActiveLeases json baseURL) ;;
  Ret (is_Ok r).

Definition StartAndWaitForServer (fuel : nat) (cfg_json : StructJson ControllerConfig) (json : Json)
    (controllerBinaryPath : string) (conf : ControllerConfig) (baseURL : string)
    : prog helperE (outcome Session) :=
  and_then (WriteConfigFile cfg_json conf) (fun configFilePath =>
  and_then (StartServer controllerBinaryPath configFilePath) (fun session =>
  and_then (Eventually fuel (serverIsUp json baseURL) DEFAULT_TIMEOUT) (fun _ =>
  returns session))).

Definition StopServer (fuel : nat) (session : Session) : prog helperE (outcome unit) :=
  _ <- trigger (Interrupt session) ;;
  Eventually fuel (code <- trigger (ExitCode session) ;; Ret (bool_decide (code = Some 0))) DEFAULT_TIMEOUT.

(** The certificates of the tests' client; [RootCAs] is the text the pool is filled
    from. *)
Record ClientTLS := { Certificates : list Certificate; RootCAs : string }.

Definition makeClientTLSConfig (fixturesPath : string) : prog helperE (outcome ClientTLS) :=
  let clientCertPath := Join fixturesPath "client.crt" in
  let clientKeyPath := Join fixturesPath "client.key" in
  expect (trigger (LoadX509KeyPair clientCertPath clientKeyPath)) (fun cert =>
  let clientCAPath := Join fixturesPath "ca.crt" in
  expect (trigger (Helper_OS (ReadFile clientCAPath))) (fun clientCACert =>
  returns {| Certificates := [cert]; RootCAs := clientCACert |})).

(** The base URL and the TLS configuration the client is made with. *)
Definition TestClient (conf : ControllerConfig) (fixturesPath : string)
    : prog helperE (outcome (string * ClientTLS)) :=
  let baseURL := "https://" +:+ ListenHost conf +:+ ":" +:+ itoa (ListenPort conf) in
  and_then (makeClientTLSConfig fixturesPath) (fun tls => returns (baseURL, tls)).

(** ** The tests' controller accepts its configuration *)

Lemma Clean_nonempty path : Clean path <> "".
Proof using Type. unfold Clean. cbv zeta. by case_decide. Qed.

Lemma Join_nonempty dir elem : Join dir elem <> "".
Proof using Type. unfold Join. case_decide; apply Clean_nonempty. Qed.

(** Files as in [disk_step]; the ports picked are ports; anything else answers as it
    likes. *)
Definition helper_step (X : Type) (e : helperE X) (d d' : disk) : X -> Prop :=
  match e in helperE X return X -> Prop with
  | PickAPort => fun port => d' = d /\ 1 <= port < 2 ^ 16
  | Helper_OS e => disk_step _ e d d'
  | _ => fun _ => d' = d
  end.

Lemma DefaultTestConfig_valid dbConf fixturesPath d :
  db_config_valid dbConf ->
  wp helper_step (DefaultTestConfig dbConf fixturesPath) d (fun d' conf =>
    d' = d /\ controller_config_valid conf).
Proof using Type.
  intros Hdb. unfold DefaultTestConfig.
  do 3 (wp_call; intros ? ? [-> ?]).
  split; [done|]. split; cbn; try done; try lia; apply Join_nonempty.
Qed.

Lemma expect_wp {A B} (p : prog helperE (result A)) (k : A -> prog helperE (outcome B)) d Q :
  wp helper_step p d (fun d' r => match r with Ok a => wp helper_step (k a) d' Q
    | Err err => Q d' (Panics ("Unexpected error: " +:+ Error err)) end) ->
  wp helper_step (expect p k) d Q.
Proof using Type. intros H. apply wp_bind. eapply wp_mono; [exact H|]. by intros d' [a|e]. Qed.

(** The file the tests' controller is started with holds its configuration. *)
Lemma WriteConfigFile_writes json conf d :
  StructJsonLaw show_ControllerConfig json -> representable (show_ControllerConfig conf) = true ->
  wp helper_step (WriteConfigFile json conf) d (fun d' o =>
    forall path, o = Returns path ->
      exists text, d' !! path = Some text /\ Unmarshal json text = Ok conf).
Proof using Type.
  intros Hjson Hrep. destruct (Hjson conf Hrep) as (text & Hm & Hu). unfold WriteConfigFile.
  apply expect_wp, wp_trigger. intros d1 [path|e] ->; [|done].
  apply expect_wp, wp_trigger. intros d1 [u|e] ->; [|done].
  apply expect_wp, (wp_embed helper_step disk_step); [done|]. unfold WriteToFile. rewrite Hm. cbn.
  intros d1 [u'|e] Hd; [|done]. cbn. intros ? [= <-]. simpl in Hd. subst d1.
  exists text. split; [by rewrite lookup_insert_eq|done].
Qed.

(** [Eventually] ends: a clock that shows the end of the time after [n] looks at it
    leaves room for [n + 1] polls. *)
Definition clock_step (X : Type) (e : helperE X) (n n' : nat) : X -> Prop :=
  match e in helperE X return X -> Prop with
  | TimedOut _ => fun late => (n = 0%nat -> late = true) /\ n' = Nat.pred n
  | _ => fun _ => n' = n
  end.

Lemma clock_runs {A} (p : prog helperE A) n : wp clock_step p n (fun n' _ => (n' <= n)%nat).
Proof using Type.
  revert n. induction p as [a|X e k IH]; intros n; [simpl; lia|]. intros n' x Hx.
  eapply wp_mono; [apply IH|]. intros n2 a Hn2. destruct e; simpl in Hx; subst; try done.
  destruct Hx as [_ ->]. lia.
Qed.

Lemma Eventually_ends fuel p timeout n :
  (n < fuel)%nat ->
  wp clock_step (Eventually fuel p timeout) n (fun _ o => o = Returns tt \/ o = Panics "Timed out").
Proof using Type.
  revert n. induction fuel as [|fuel IH]; intros n Hn; [lia|]. cbn [Eventually]. apply wp_bind.
  eapply wp_mono; [apply clock_runs|]. intros n1 [|] Hn1; [left; reflexivity|].
  wp_call. intros n2 late [Hlate ->]. destruct late; [right; reflexivity|].
  assert (n1 <> 0%nat) by (intros E; by specialize (Hlate E)). apply IH. lia.
Qed.

End Helpers.
