(* ===== verification/CniConfig.v ===== *)
(** * The configuration of a container's network (src/cni/config, src/cni/netinfo)

    Which network the cell has ([Discover], from the daemon or from flannel's
    file), the configuration of the host-local IPAM plugin, and the names and
    addresses of the two ends of a container's veth pair. *)

From Stdlib Require Import ZArith Lia Ascii.
From S2P Require Import Prelude GoFmt GoPath GoNet NetFacts HwAddr Types.

(** ** Values of the CNI library *)

(** skel.CmdArgs *)
Record CmdArgs := {
  ContainerID : string;
  Netns : string;
  IfName : string;
  StdinData : string
}.

(** types.Route *)
Record CniRoute := { CniRoute_Dst : IPNet; CniRoute_GW : IP }.

(** current.Interface, current.IPConfig, current.Result *)
Record CniInterface := { Iface_Name : string; Iface_Mac : string; Iface_Sandbox : string }.

Record IPConfig := {
  IPConfig_Interface : option Z;
  IPConfig_Address : IPNet;
  IPConfig_Gateway : IP
}.

Record CniResult := {
  Interfaces : list CniInterface;
  IPs : list IPConfig;
  Routes : list CniRoute
}.

(** ns.NetNS: an open network namespace. *)
Record NetNS := { NS_Path : string; NS_Fd : Z }.

(** ** config.go *)

Record DualAddress := { Hardware : HardwareAddr; Dual_IP : IP }.

Record Config := {
  Container_DeviceName : string;
  Container_TemporaryDeviceName : string;
  Container_Namespace : NetNS;
  Container_Address : DualAddress;
  Container_MTU : Z;
  Container_Routes : list CniRoute;
  Host_DeviceName : string;
  Host_Namespace : NetNS;
  Host_Address : DualAddress
}.

Definition AsCNIResult (c : Config) : CniResult := {|
  Interfaces :=
    [{| Iface_Name := Host_DeviceName c;
        Iface_Mac := HardwareAddr_String (Hardware (Host_Address c));
        Iface_Sandbox := "" |};
     {| Iface_Name := Container_DeviceName c;
        Iface_Mac := HardwareAddr_String (Hardware (Container_Address c));
        Iface_Sandbox := NS_Path (Container_Namespace c) |}];
  IPs := [{| IPConfig_Interface := Some 1;
             IPConfig_Address := {| IPNet_IP := Dual_IP (Container_Address c);
                                    IPNet_Mask := [255; 255; 255; 255] |};
             IPConfig_Gateway := Dual_IP (Host_Address c) |}];
  Routes := Container_Routes c
|}.

(** ** config_creator.go *)

(** namespaceAdapter *)
Inductive nsE : Type -> Type :=
| GetNS (path : string) : nsE (result NetNS).

Definition hostIP : IP := [169; 254; 0; 1].

Definition default_route : CniRoute :=
  {| CniRoute_Dst := {| IPNet_IP := IPv4 0 0 0 0; IPNet_Mask := CIDRMask 0 32 |};
     CniRoute_GW := hostIP |}.

Definition ConfigCreator_Create (hostNS : NetNS) (addCmdArgs : CmdArgs) (ipamResult : CniResult)
    (mtu : Z) : prog nsE (result Config) :=
  if decide (IfName addCmdArgs = "") then Ret (Err (Errorf "IfName cannot be empty"))
  else if decide (15 < String.length (IfName addCmdArgs))%nat then
    Ret (Err (Errorf "IfName cannot be longer than 15 characters"))
  else
    try containerNS <- trigger (GetNS (Netns addCmdArgs)) catch wrap "getting container namespace" ;;
    match IPs ipamResult with
    | [] => Ret (Err (Errorf "no IP address in IPAM result"))
    | ip0 :: _ =>
        let ip := IPNet_IP (IPConfig_Address ip0) in
        match DeviceName.GenerateTemporaryForContainer ip with
        | Err err => Ret (Err (wrap "generating temporary container device name" err))
        | Ok temporary =>
            match Cni.GenerateForContainer ip with
            | Err err => Ret (Err (wrap "generating container veth hardware address" err))
            | Ok containerHw =>
                match DeviceName.GenerateForHost ip with
                | Err err => Ret (Err (wrap "generating host device name" err))
                | Ok hostName =>
                    match Cni.GenerateForHost ip with
                    | Err err => Ret (Err (wrap "generating host veth hardware address" err))
                    | Ok hostHw =>
                        Ret (Ok {|
                          Container_DeviceName := IfName addCmdArgs;
                          Container_TemporaryDeviceName := temporary;
                          Container_Namespace := containerNS;
                          Container_Address := {| Hardware := containerHw; Dual_IP := ip |};
                          Container_MTU := mtu;
                          Container_Routes := [default_route];
                          Host_DeviceName := hostName;
                          Host_Namespace := hostNS;
                          Host_Address := {| Hardware := hostHw; Dual_IP := hostIP |} |})
                    end
                end
            end
        end
    end.

(** ** ipam.go *)

Record Range := {
  RangeStart : IP;
  RangeEnd : IP;
  Range_Subnet : IPNet;
  Range_Gateway : IP
}.

(** The embedded [*Range] is never set. *)
Record IPAMConfig := {
  IPAM_Range : option Range;
  IPAM_Name : string;
  IPAM_Type : string;
  IPAM_Routes : list CniRoute;
  DataDir : string;
  ResolvConf : string;
  Ranges : list (list Range);
  IPArgs : list IP
}.

Record HostLocalIPAM := {
  CNIVersion : string;
  HostLocal_Name : string;
  IPAM : IPAMConfig
}.

(** types.ParseCIDR of the CNI library: the address is kept, not masked. *)
Definition types_ParseCIDR (s : string) : result IPNet :=
  match ParseCIDR s with
  | Err err => Err err
  | Ok (ip, ipn) => Ok {| IPNet_IP := ip; IPNet_Mask := IPNet_Mask ipn |}
  end.

Definition GenerateConfig (subnet network dataDirPath : string) : result HostLocalIPAM :=
  match types_ParseCIDR subnet with
  | Err err => Err (wrap "invalid subnet" err)
  | Ok subnetAsIPNet =>
      Ok {| CNIVersion := "1.0.0";
            HostLocal_Name := network;
            IPAM := {| IPAM_Range := None;
                       IPAM_Name := "";
                       IPAM_Type := "host-local";
                       IPAM_Routes := [];
                       DataDir := Join dataDirPath "ipam";
                       ResolvConf := "";
                       Ranges := [[{| RangeStart := []; RangeEnd := [];
                                      Range_Subnet := subnetAsIPNet; Range_Gateway := [] |}]];
                       IPArgs := [] |} |}
  end.

(** ** netinfo/flannel.go *)

Module Flannel.

(** Up to [n] digits at the start of [s], as [[0-9]{0,n}] takes them, and the rest. *)
Fixpoint take_digits (n : nat) (s : string) : string * string :=
  match n, s with
  | S n', String c s' =>
      if is_digit c then let '(d, r) := take_digits n' s' in (String c d, r) else ("", s)
  | _, _ => ("", s)
  end.

(** [[0-9]{1,n}] *)
Definition match_digits (n : nat) (s : string) : option (string * string) :=
  let '(d, r) := take_digits n s in if decide (d = "") then None else Some (d, r).

Definition match_char (c : ascii) (s : string) : option string :=
  match s with
  | String d s' => if Ascii.eqb d c then Some s' else None
  | EmptyString => None
  end.

Fixpoint match_prefix (p s : string) : option string :=
  match p, s with
  | EmptyString, _ => Some s
  | String c p', String d s' => if Ascii.eqb d c then match_prefix p' s' else None
  | String _ _, EmptyString => None
  end.

(** [(?:[0-9]{1,3}\.){k}]. A digit is not a dot, so that taking all digits at
    once never misses a match. *)
Fixpoint match_octets (k : nat) (s : string) : option (string * string) :=
  match k with
  | O => Some ("", s)
  | S k' =>
      match match_digits 3 s with
      | None => None
      | Some (d, r) =>
          match match_char "." r with
          | None => None
          | Some r' =>
              match match_octets k' r' with
              | None => None
              | Some (t, r'') => Some (d +:+ "." +:+ t, r'')
              end
          end
      end
  end.

(** flannelSubnetRegex at the start of [s]: what its group matches. *)
Definition match_subnet (s : string) : option string :=
  match match_prefix "FLANNEL_SUBNET=" s with
  | None => None
  | Some s1 =>
      match match_octets 3 s1 with
      | None => None
      | Some (octets, s2) =>
          match match_digits 3 s2 with
          | None => None
          | Some (d, s3) =>
              match match_char "/" s3 with
              | None => None
              | Some s4 =>
                  match match_digits 2 s4 with
                  | None => None
                  | Some (len, _) => Some (octets +:+ d +:+ "/" +:+ len)
                  end
              end
          end
      end
  end.

(** flannelMTURegex at the start of [s]. *)
Definition match_mtu (s : string) : option string :=
  match match_prefix "FLANNEL_MTU=" s with
  | None => None
  | Some s1 => option_map fst (match_digits 5 s1)
  end.

(** [FindStringSubmatch]: the leftmost match. *)
Fixpoint find (m : string -> option string) (s : string) : option string :=
  match m s with
  | Some x => Some x
  | None => match s with EmptyString => None | String _ s' => find m s' end
  end.

(** [strconv.Atoi] on text without a sign, which is all the expression lets
    through: an error when it is not a number or does not fit an [int]. *)
Definition Atoi (s : string) : result Z :=
  if bool_decide (s = "") || negb (str_all is_digit s) then
    Err (Errorf ("strconv.Atoi: parsing " +:+ Quote s +:+ ": invalid syntax"))
  else if 2 ^ 63 <=? dec_value s 0 then
    Err (Errorf ("strconv.Atoi: parsing " +:+ Quote s +:+ ": value out of range"))
  else Ok (dec_value s 0).

(** [contents] is what [ioutil.ReadFile] gives. *)
Definition Get (contents : result string) : result NetworkInfo :=
  match contents with
  | Err err => Err err
  | Ok fileContents =>
      match find match_subnet fileContents with
      | None => Err (Errorf "unable to parse flannel subnet file")
      | Some subnet =>
          match find match_mtu fileContents with
          | None => Err (Errorf "unable to parse MTU from subnet file")
          | Some mtu =>
              match Atoi mtu with
              | Err err => Err err
              | Ok mtu => Ok {| Info_OverlaySubnet := subnet; Info_MTU := mtu |}
              end
          end
      end
  end.

End Flannel.

(** ** netinfo/discover.go *)

(** [info] is what [NetInfo.Get] returns. *)
Definition Discover (info : result NetworkInfo) (mtu : Z) : result NetworkInfo :=
  match info with
  | Err err => Err (wrap "get netinfo" err)
  | Ok info =>
      Ok (if negb (mtu =? 0) then
            {| Info_OverlaySubnet := Info_OverlaySubnet info; Info_MTU := mtu |}
          else info)
  end.
