(* ===== verification/CniLib.v ===== *)
(** * Setting up the two ends of a veth pair (src/cni/lib)

    [VethPairCreator.Create] makes the pair in the host's namespace and moves one
    end into the container's; [Host.Setup] and [Container.Setup] configure the
    ends, each in its namespace; [Container.Teardown] deletes the container's end.
    The operations are programs over [linkE], the calls of netlink and sysctl in
    the current namespace; [Do] runs such a program in a given namespace. *)

From Stdlib Require Import ZArith Lia Ascii.
From S2P Require Import Prelude GoFmt GoPath GoNet HwAddr Types Netlink CniConfig.

Definition nil_dereference : string :=
  "runtime error: invalid memory address or nil pointer dereference".

(** ** interface.go: netlinkAdapter and sysctlAdapter *)

Record Veth := {
  Veth_Name : string;
  Veth_FlagUp : bool;
  Veth_MTU : Z;
  Veth_HardwareAddr : HardwareAddr;
  PeerName : string;
  PeerHardwareAddr : HardwareAddr
}.

(** netlink.Addr with a peer *)
Record PeerAddr := { Local : IPNet; Peer : IPNet; Scope : Z }.

Module Nl.

(** The calls this program makes. A failing [LinkByName] gives no link. *)
Inductive linkE : Type -> Type :=
| LinkByName (name : string) : linkE (result Link)
| ParseAddr (s : string) : linkE (result IPNet)
| AddrAdd (link : Link) (addr : PeerAddr) : linkE (result unit)
| LinkSetHardwareAddr (link : Link) (hwaddr : HardwareAddr) : linkE (result unit)
| NeighAdd (neigh : Neigh) : linkE (result unit)
| LinkSetARPOff (link : Link) : linkE (result unit)
| LinkSetName (link : Link) (name : string) : linkE (result unit)
| LinkSetUp (link : Link) : linkE (result unit)
| LinkDel (link : Link) : linkE (result unit)
| LinkAdd (veth : Veth) : linkE (result unit)
| LinkSetNsFd (link : Link) (fd : Z) : linkE (result unit)
| RouteAdd (route : Route) : linkE (result unit)
| Sysctl (name param : string) : linkE (result string).

End Nl.
Abbreviation linkE := Nl.linkE.

(** lib/adapter.NetlinkAdapter: the calls that do more than pass on. *)
Definition NeighAddPermanentIPv4 (index : Z) (destIP : IP) (hwAddr : HardwareAddr)
    : prog linkE (result unit) :=
  trigger (Nl.NeighAdd {| Neigh_LinkIndex := index; Neigh_Family := FAMILY_V4;
                          Neigh_State := NUD_PERMANENT; Neigh_Type := 0; Neigh_Flags := 0;
                          Neigh_IP := destIP; Neigh_HardwareAddr := hwAddr |}).

Definition PeerAddrAddScopeLink (link : Link) (addr : PeerAddr) : prog linkE (result unit) :=
  trigger (Nl.AddrAdd link {| Local := Local addr; Peer := Peer addr; Scope := SCOPE_LINK |}).

(** ** link_operations.go *)

Definition DisableIPv6 (deviceName : string) : prog linkE (result unit) :=
  try _ <- trigger (Nl.Sysctl ("net.ipv6.conf." +:+ deviceName +:+ ".disable_ipv6") "1")
    catch wrap ("sysctl for " +:+ deviceName) ;;
  Ret (Ok tt).

Definition EnableReversePathFiltering (deviceName : string) : prog linkE (result unit) :=
  try _ <- trigger (Nl.Sysctl ("net.ipv4.conf." +:+ deviceName +:+ ".rp_filter") "1")
    catch wrap ("sysctl for " +:+ deviceName) ;;
  Ret (Ok tt).

Definition EnableIPv4Forwarding : prog linkE (result unit) :=
  try _ <- trigger (Nl.Sysctl "net.ipv4.ip_forward" "1") catch wrap "enabling IPv4 forwarding" ;;
  Ret (Ok tt).

Definition StaticNeighborNoARP (link : Link) (destIP : IP) (hwAddr : HardwareAddr)
    : prog linkE (result unit) :=
  try _ <- trigger (Nl.LinkSetARPOff link) catch wrap "set ARP off" ;;
  try _ <- NeighAddPermanentIPv4 (Link_Index link) destIP hwAddr catch wrap "neigh add" ;;
  Ret (Ok tt).

Definition host_net (ip : IP) : IPNet := {| IPNet_IP := ip; IPNet_Mask := [255; 255; 255; 255] |}.

Definition SetPointToPointAddress (link : Link) (localIPAddr peerIPAddr : IP)
    : prog linkE (result unit) :=
  let localAddr := host_net localIPAddr in
  let peerAddr := host_net peerIPAddr in
  try addr <- trigger (Nl.ParseAddr (IPNet_String localAddr))
    catch wrap ("parsing address " +:+ IPNet_String localAddr) ;;
  try _ <- PeerAddrAddScopeLink link {| Local := addr; Peer := peerAddr; Scope := 0 |}
    catch wrap ("adding IP address " +:+ IPNet_String localAddr) ;;
  Ret (Ok tt).

Definition RenameLink (oldName newName : string) : prog linkE (result unit) :=
  try link <- trigger (Nl.LinkByName oldName) catch wrap ("failed to find link " +:+ Quote oldName) ;;
  try _ <- trigger (Nl.LinkSetName link newName) catch wrap "set link name" ;;
  Ret (Ok tt).

Definition DeleteLinkByName (deviceName : string) : prog linkE (result unit) :=
  link <- trigger (Nl.LinkByName deviceName) ;;
  match link with
  | Err _ => Ret (Ok tt)
  | Ok link => trigger (Nl.LinkDel link)
  end.

Fixpoint RouteAddAll (routes : list CniRoute) (sourceIP : IP) : prog linkE (result unit) :=
  match routes with
  | [] => Ret (Ok tt)
  | r :: routes' =>
      try _ <- trigger (Nl.RouteAdd {| Route_LinkIndex := 0; Route_Scope := 0;
                                       Route_Dst := Some (CniRoute_Dst r);
                                       Route_Gw := CniRoute_GW r; Route_Src := sourceIP |})
        catch wrap "adding route" ;;
      RouteAddAll routes' sourceIP
  end.

(** ** common.go *)

Definition MAX_ATTEMPTS : nat := 10.

(** The loop that sets the hardware address: [left] attempts are left. It gives
    back the address it has found last. *)
Fixpoint hw_loop (left : nat) (link : Link) (deviceName : string) (hw : HardwareAddr)
    (got expected : string) : prog linkE (outcome (result string)) :=
  if decide (got = expected) then Ret (Returns (Ok got))
  else
    match left with
    | O => Ret (Returns (Ok got))
    | S left' =>
        call _ <- returning (trigger (Nl.LinkSetHardwareAddr link hw))
          or wrap "setting hardware address" ;;
        l <- trigger (Nl.LinkByName deviceName) ;;
        match l with
        | Err _ => Ret (Panics nil_dereference)
        | Ok l => hw_loop left' link deviceName hw (HardwareAddr_String (Link_HardwareAddr l)) expected
        end
    end.

(** What follows the loop. *)
Definition setup_link (link : Link) (deviceName : string) (local peer : DualAddress)
    : prog linkE (result unit) :=
  _ <- DisableIPv6 deviceName ;;
  try _ <- StaticNeighborNoARP link (Dual_IP peer) (Hardware peer)
    catch wrap "replace ARP with permanent neighbor rule" ;;
  try _ <- SetPointToPointAddress link (Dual_IP local) (Dual_IP peer)
    catch wrap "setting point to point address" ;;
  try _ <- EnableReversePathFiltering deviceName catch wrap "enable reverse path filtering" ;;
  try _ <- trigger (Nl.LinkSetUp link) catch wrap ("setting link " +:+ deviceName +:+ " up") ;;
  Ret (Ok tt).

Definition BasicSetup (deviceName : string) (local peer : DualAddress)
    : prog linkE (outcome (result unit)) :=
  call link <- returning (trigger (Nl.LinkByName deviceName))
    or wrap ("failed to find link " +:+ Quote deviceName) ;;
  l <- trigger (Nl.LinkByName deviceName) ;;
  match l with
  | Err _ => Ret (Panics nil_dereference)
  | Ok l =>
      let expected := HardwareAddr_String (Hardware local) in
      call got <- hw_loop MAX_ATTEMPTS link deviceName (Hardware local)
                    (HardwareAddr_String (Link_HardwareAddr l)) expected or id ;;
      if decide (got <> expected) then
        Ret (Returns (Err (Errorf ("failed to set hardware addr after "
          +:+ itoa (Z.of_nat MAX_ATTEMPTS) +:+ " attempts"))))
      else returning (setup_link link deviceName local peer)
  end.

(** ** ns.NetNS.Do

    The program runs in the namespace; entering it can fail, and then nothing
    runs. *)

Inductive hostE : Type -> Type :=
| Enter (ns : NetNS) : hostE (result unit)
| In_ns (ns : NetNS) {X} (e : linkE X) : hostE X.

Definition Do (ns : NetNS) (p : prog linkE (outcome (result unit)))
    : prog hostE (outcome (result unit)) :=
  call _ <- returning (trigger (Enter ns)) or id ;;
  interp (fun X e => trigger (@In_ns ns X e)) p.

(** ** pair_creator.go *)

Definition VethPairCreator_Create (cfg : Config) : prog hostE (outcome (result unit)) :=
  let hostName := Host_DeviceName cfg in
  let containerName := Container_TemporaryDeviceName cfg in
  let vethDeviceRequest :=
    {| Veth_Name := hostName; Veth_FlagUp := true; Veth_MTU := Container_MTU cfg;
       Veth_HardwareAddr := Hardware (Host_Address cfg);
       PeerName := containerName;
       PeerHardwareAddr := Hardware (Container_Address cfg) |} in
  Do (Host_Namespace cfg) (returning (
    try _ <- trigger (Nl.LinkAdd vethDeviceRequest) catch wrap "creating veth pair" ;;
    try containerVeth <- trigger (Nl.LinkByName containerName)
      catch wrap ("failed to find newly-created veth device " +:+ Quote containerName) ;;
    try _ <- trigger (Nl.LinkSetNsFd containerVeth (NS_Fd (Container_Namespace cfg)))
      catch wrap "failed to move veth to container namespace" ;;
    Ret (Ok tt))).

(** ** host_setup.go *)

Definition Host_Setup (cfg : Config) : prog hostE (outcome (result unit)) :=
  Do (Host_Namespace cfg) (
    call _ <- BasicSetup (Host_DeviceName cfg) (Host_Address cfg) (Container_Address cfg)
      or wrap "setting up device in host" ;;
    call _ <- returning EnableIPv4Forwarding or wrap "enabling packet forwarding on host" ;;
    Ret (Returns (Ok tt))).

(** ** container_setup.go *)

Definition Container_Teardown (containerNS : NetNS) (deviceName : string)
    : prog hostE (outcome (result unit)) :=
  Do containerNS (returning (
    try _ <- DeleteLinkByName deviceName catch wrap "deleting link" ;;
    Ret (Ok tt))).

Definition Container_Setup (cfg : Config) : prog hostE (outcome (result unit)) :=
  Do (Container_Namespace cfg) (
    call _ <- returning (RenameLink (Container_TemporaryDeviceName cfg) (Container_DeviceName cfg))
      or wrap "renaming link in container" ;;
    call _ <- BasicSetup (Container_DeviceName cfg) (Container_Address cfg) (Host_Address cfg)
      or wrap "setting up device in container" ;;
    call _ <- returning (RouteAddAll (Container_Routes cfg) (Dual_IP (Container_Address cfg)))
      or wrap "adding route in container" ;;
    Ret (Returns (Ok tt))).
