(* ===== verification/CniPlugin.v ===== *)
(** * The CNI plugin (src/cmd/silk-cni/main.go)

    [cmdAdd] connects a container: it asks for the cell's network, has host-local
    choose an address, creates and configures the veth pair, and records the
    container in the datastore the daemon reads. [cmdDel] takes it down again. *)

From Stdlib Require Import ZArith Lia Ascii.
From S2P Require Import Prelude GoFmt GoPath GoNet HwAddr Types Netlink Http Datastore Config CniConfig CniLib.

(** Of the embedded types.NetConf, the fields the plugin reads. *)
Record NetConf := {
  NetConf_CNIVersion : string;
  NetConf_Name : string;
  NetConf_DataDir : string;
  SubnetFile : string;
  NetConf_MTU : Z;
  NetConf_Datastore : string;
  DaemonPort : Z
}.

(** encoding/json on the plugin's types. [Marshal] is only called where its error
    is dropped: it gives the bytes, none if it fails; a nil pointer is [None]. *)
Record PluginJson := {
  Unmarshal_NetConf : string -> result NetConf;
  Unmarshal_NetworkInfo : string -> result NetworkInfo;
  Marshal_HostLocalIPAM : option HostLocalIPAM -> string
}.

(** Everything the plugin calls. The result of another plugin is a types.Result,
    an interface; it is known here by its text. *)
Inductive pluginE : Type -> Type :=
| OnHost {X} (e : hostE X) : pluginE X
| OnNs {X} (e : nsE X) : pluginE X
| OnHttp {X} (e : httpE X) : pluginE X
| OnFile {X} (e : fileE X) : pluginE X
| ReadFile (path : string) : pluginE (result string)
| DelegateAdd (plugin netconf : string) : pluginE (result string)
| DelegateDel (plugin netconf : string) : pluginE (result unit)
| NewResultFromResult (res : string) : pluginE (result CniResult)
| PrintResult (res : CniResult) (version : string) : pluginE (result unit).

Definition on_host {A} (p : prog hostE A) : prog pluginE A := interp (fun X e => trigger (@OnHost X e)) p.
Definition on_ns {A} (p : prog nsE A) : prog pluginE A := interp (fun X e => trigger (@OnNs X e)) p.
Definition on_http {A} (p : prog httpE A) : prog pluginE A := interp (fun X e => trigger (@OnHttp X e)) p.
Definition on_file {A} (p : prog fileE A) : prog pluginE A := interp (fun X e => trigger (@OnFile X e)) p.

(** The struct as the validator sees it: the embedded types.NetConf has no tags. *)
Definition show_NetConf (c : NetConf) : shown := VStruct [
  ("NetConf", [], VStruct [("CNIVersion", [], VString (NetConf_CNIVersion c));
                           ("Name", [], VString (NetConf_Name c))]);
  ("DataDir", [], VString (NetConf_DataDir c));
  ("SubnetFile", [], VString (SubnetFile c));
  ("MTU", [TMin 0], VInt (NetConf_MTU c));
  ("Datastore", [], VString (NetConf_Datastore c));
  ("DaemonPort", [], VInt (DaemonPort c))].

Section Plugin.
Context {M : Type} (codec : MapCodec M) (json : Json) (pjson : PluginJson) (HostNS : NetNS).
Context (error_text : list (string * list string) -> string).

(** netinfo/daemon.go *)
Definition Daemon_Get (port : Z) : prog pluginE (result NetworkInfo) :=
  try info <- on_http (Client.Do json ("http://127.0.0.1:" +:+ itoa port) "GET" "/" None
                         (Unmarshal_NetworkInfo pjson))
    catch wrap "json client do" ;;
  Ret (Ok info).

Definition getNetworkInfo (netConf : NetConf) : prog pluginE (result NetworkInfo) :=
  try _ <- Ret (Validate error_text (show_NetConf netConf)) catch wrap "invalid config" ;;
  info <- (if decide (SubnetFile netConf <> "") then
             contents <- trigger (ReadFile (SubnetFile netConf)) ;;
             Ret (Flannel.Get contents)
           else Daemon_Get (DaemonPort netConf)) ;;
  Ret (Discover info (NetConf_MTU netConf)).

Definition typedError (msg : string) (err : error) : error := TypesError 100 msg (Error err).

(** From the address to the end. *)
Definition connect (args : CmdArgs) (netConf : NetConf) (cniResult : CniResult) (mtu : Z)
    : prog pluginE (outcome (result unit)) :=
  call cfg <- returning (on_ns (ConfigCreator_Create HostNS args cniResult mtu))
    or typedError "create config" ;;
  call _ <- on_host (VethPairCreator_Create cfg) or typedError "create veth pair" ;;
  call _ <- on_host (Host_Setup cfg) or typedError "set up host" ;;
  call _ <- on_host (Container_Setup cfg) or typedError "set up container" ;;
  call _ <- returning (on_file (Add codec (NetConf_Datastore netConf) (Base (Netns args))
                                  (IP_String (Dual_IP (Container_Address cfg))) None))
    or typedError "write container metadata" ;;
  returning (trigger (PrintResult (AsCNIResult cfg) (NetConf_CNIVersion netConf))).

Definition cmdAdd (args : CmdArgs) : prog pluginE (outcome (result unit)) :=
  match Unmarshal_NetConf pjson (StdinData args) with
  | Err err => Ret (Returns (Err err))
  | Ok netConf =>
      call networkInfo <- returning (getNetworkInfo netConf) or typedError "discover network info" ;;
      match GenerateConfig (Info_OverlaySubnet networkInfo) (NetConf_Name netConf)
              (NetConf_DataDir netConf) with
      | Err err => Ret (Returns (Err (typedError "generate ipam config" err)))
      | Ok ipamConfig =>
          let ipamConfigBytes := Marshal_HostLocalIPAM pjson (Some ipamConfig) in
          call res <- returning (trigger (DelegateAdd "host-local" ipamConfigBytes))
            or typedError "run ipam plugin" ;;
          call cniResult <- returning (trigger (NewResultFromResult res))
            or wrap "convert result to current CNI version" ;;
          connect args netConf cniResult (Info_MTU networkInfo)
      end
  end.

Definition cmdDel (args : CmdArgs) : prog pluginE (outcome (result unit)) :=
  match Unmarshal_NetConf pjson (StdinData args) with
  | Err err => Ret (Returns (Err err))
  | Ok netConf =>
      let ipamConfig :=
        match GenerateConfig "0.0.0.0/0" (NetConf_Name netConf) (NetConf_DataDir netConf) with
        | Err _ => None
        | Ok c => Some c
        end in
      let ipamConfigBytes := Marshal_HostLocalIPAM pjson ipamConfig in
      _ <- trigger (DelegateDel "host-local" ipamConfigBytes) ;;
      containerNS <- trigger (OnNs (GetNS (Netns args))) ;;
      match containerNS with
      | Err _ => Ret (Returns (Ok tt))
      | Ok containerNS =>
          call _ <- on_host (Container_Teardown containerNS (IfName args)) or typedError "teardown failed" ;;
          _ <- on_file (Delete codec (NetConf_Datastore netConf) (Base (Netns args))) ;;
          Ret (Returns (Ok tt))
      end
  end.

Definition cmdCheck (args : CmdArgs) : result unit :=
  Err (Errorf "Meow this isn't implemented yet").

End Plugin.
