(* ===== verification/CniMain.v ===== *)
(** * silk-cni's main (src/cmd/silk-cni/main.go)

    [cni_main] opens the host's network namespace and the log file, chooses the log
    level, and gives the three commands to the CNI library, which reads from the
    environment which one to run. *)

From Stdlib Require Import ZArith Lia Ascii.
From S2P Require Import Prelude GoFmt GoPath GoNet HwAddr Types Netlink Http Datastore CniConfig CniLib CniPlugin.

(** The command skel.PluginMain finds in CNI_COMMAND, with its arguments; VERSION
    and mistakes of the caller are answered by the library. *)
Inductive cni_command :=
| ADD (args : CmdArgs)
| CHECK (args : CmdArgs)
| DEL (args : CmdArgs)
| Answered_by_skel (answer : result unit).

Inductive log_level := INFO | DEBUG.

Inductive cniMainE : Type -> Type :=
| GetCurrentNS : cniMainE (result NetNS)
| OpenFile (name : string) : cniMainE (result unit)
| Stat (name : string) : cniMainE (result unit)
| RegisterSink (file : bool) (level : log_level) : cniMainE unit
| Skel_command : cniMainE cni_command
| OnPlugin {X} (e : pluginE X) : cniMainE X.

(** How the process ends: [log.Fatal], or what the command returned. *)
Inductive main_end :=
| Fatal (message : string)
| Exited (res : result unit).

Section CniMain.
Context {M : Type} (codec : MapCodec M) (json : Json) (pjson : PluginJson).
Context (error_text : list (string * list string) -> string).

(** The compile-time variable; "vcapLog" unless the build says otherwise. *)
Context (LoggingDevice : string).

Definition run_command (HostNS : NetNS) (c : cni_command) : prog pluginE (outcome (result unit)) :=
  match c with
  | ADD args => cmdAdd codec json pjson HostNS error_text args
  | CHECK args => Ret (Returns (cmdCheck args))
  | DEL args => cmdDel codec pjson args
  | Answered_by_skel answer => Ret (Returns answer)
  end.

Definition cni_main : prog cniMainE (outcome main_end) :=
  ns <- trigger GetCurrentNS ;;
  match ns with
  | Err err => Ret (Returns (Fatal (Error err)))
  | Ok hostNS =>
      let to_file := bool_decide (LoggingDevice <> "stderr") in
      opened <- (if to_file then
                   trigger (OpenFile "/var/vcap/sys/log/silk-cni/silk-cni.stdout.log")
                 else Ret (Ok tt)) ;;
      match opened with
      | Err err => Ret (Returns (Fatal ("can't open log file: " +:+ Error err)))
      | Ok _ =>
          debug <- trigger (Stat "/var/vcap/jobs/silk-cni/config/enable_debug") ;;
          _ <- trigger (RegisterSink to_file (match debug with Ok _ => DEBUG | Err _ => INFO end)) ;;
          command <- trigger Skel_command ;;
          r <- interp (fun X e => trigger (@OnPlugin X e)) (run_command hostNS command) ;;
          Ret (match r with
               | Returns res => Returns (Exited res)
               | Panics msg => Panics msg
               | OutOfFuel => OutOfFuel
               end)
      end
  end.

(** Whether the plugin has acted. *)
Definition acts (X : Type) (e : cniMainE X) (before after : bool) (x : X) : Prop :=
  after = match e with OnPlugin _ => true | _ => before end.

(** A process that ends in [log.Fatal] has left the container and the host alone. *)
Lemma fatal_before_acting :
  wp acts cni_main false (fun acted r => forall msg, r = Returns (Fatal msg) -> acted = false).
Proof.
  intros w1 [hostNS|err] ->; simpl; [|by intros].
  destruct (bool_decide _); simpl.
  1: intros w2 [[]|err] ->; simpl; [|by intros].
  all: intros w3 debug -> w4 [] -> w5 command ->; apply wp_bind;
    (eapply wp_mono; [apply wp_true|]); intros w6 [res|m|] _ msg [=].
Qed.

End CniMain.
