(* ===== verification/CniKernel.v ===== *)
(** * The kernel, seen from the CNI plugin

    Network namespaces with devices, and the contract [link_spec] of the calls in
    [linkE]. Any call may fail and then changes nothing; a kernel that is
    [healthy] fails only when the call cannot be carried out. The hardware address
    of a device is left open where a device is made, moved or given an address,
    as the comments of src/cni/lib/common.go report it: only a healthy kernel
    sets the address it is told. *)

From Stdlib Require Import ZArith Lia Ascii.
From S2P Require Import Prelude GoFmt GoPath GoNet HwAddr Types Netlink CniConfig CniLib.

(** The two ends of a veth pair know each other by [dev_peer]. *)
Record device := {
  dev_id : Z;
  dev_peer : option Z;
  dev_name : string;
  dev_mtu : Z;
  dev_hw : HardwareAddr;
  dev_up : bool;
  dev_arp : bool;
  dev_addrs : list PeerAddr;
  dev_neighs : list Neigh;
  dev_routes : list Route
}.

(** A device is found by its namespace and its index there. *)
Abbreviation devices :=
  (@gmap (Z * Z) (@prod_eq_dec Z Z.eq_dec Z Z.eq_dec)
     (@prod_countable Z Z.eq_dec Z_countable Z Z.eq_dec Z_countable) device).

Record knet := {
  k_devs : devices;
  k_sysctls : gmap (Z * string) string
}.

Definition set_hw (hw : HardwareAddr) (d : device) : device :=
  {| dev_id := dev_id d; dev_peer := dev_peer d; dev_name := dev_name d; dev_mtu := dev_mtu d;
     dev_hw := hw; dev_up := dev_up d; dev_arp := dev_arp d; dev_addrs := dev_addrs d;
     dev_neighs := dev_neighs d; dev_routes := dev_routes d |}.

Definition set_name (name : string) (d : device) : device :=
  {| dev_id := dev_id d; dev_peer := dev_peer d; dev_name := name; dev_mtu := dev_mtu d;
     dev_hw := dev_hw d; dev_up := dev_up d; dev_arp := dev_arp d; dev_addrs := dev_addrs d;
     dev_neighs := dev_neighs d; dev_routes := dev_routes d |}.

Definition set_up (d : device) : device :=
  {| dev_id := dev_id d; dev_peer := dev_peer d; dev_name := dev_name d; dev_mtu := dev_mtu d;
     dev_hw := dev_hw d; dev_up := true; dev_arp := dev_arp d; dev_addrs := dev_addrs d;
     dev_neighs := dev_neighs d; dev_routes := dev_routes d |}.

Definition set_arp_off (d : device) : device :=
  {| dev_id := dev_id d; dev_peer := dev_peer d; dev_name := dev_name d; dev_mtu := dev_mtu d;
     dev_hw := dev_hw d; dev_up := dev_up d; dev_arp := false; dev_addrs := dev_addrs d;
     dev_neighs := dev_neighs d; dev_routes := dev_routes d |}.

Definition add_addr (a : PeerAddr) (d : device) : device :=
  {| dev_id := dev_id d; dev_peer := dev_peer d; dev_name := dev_name d; dev_mtu := dev_mtu d;
     dev_hw := dev_hw d; dev_up := dev_up d; dev_arp := dev_arp d; dev_addrs := a :: dev_addrs d;
     dev_neighs := dev_neighs d; dev_routes := dev_routes d |}.

Definition add_neigh (n : Neigh) (d : device) : device :=
  {| dev_id := dev_id d; dev_peer := dev_peer d; dev_name := dev_name d; dev_mtu := dev_mtu d;
     dev_hw := dev_hw d; dev_up := dev_up d; dev_arp := dev_arp d; dev_addrs := dev_addrs d;
     dev_neighs := n :: dev_neighs d; dev_routes := dev_routes d |}.

Definition add_route (r : Route) (d : device) : device :=
  {| dev_id := dev_id d; dev_peer := dev_peer d; dev_name := dev_name d; dev_mtu := dev_mtu d;
     dev_hw := dev_hw d; dev_up := dev_up d; dev_arp := dev_arp d; dev_addrs := dev_addrs d;
     dev_neighs := dev_neighs d; dev_routes := r :: dev_routes d |}.

(** A device that has just been made or moved: nothing is configured on it. *)
Definition bare (id peer : Z) (name : string) (mtu : Z) (d : device) : Prop :=
  dev_id d = id /\ dev_peer d = Some peer /\ dev_name d = name /\ (0 < mtu -> dev_mtu d = mtu) /\
  dev_addrs d = [] /\ dev_neighs d = [] /\ dev_routes d = [].

(** No device of the namespace has the name. *)
Definition name_free (ns : Z) (name : string) (D : devices) : Prop :=
  forall i d, D !! (ns, i) = Some d -> dev_name d <> name.

(** No device at all has the identity. *)
Definition id_free (id : Z) (D : devices) : Prop := forall key d, D !! key = Some d -> dev_id d <> id.

(** The device can reach [gw] directly. *)
Definition on_link (gw : IP) (d : device) : Prop :=
  dev_up d = true /\ exists a, a ∈ dev_addrs d /\ IP_String (IPNet_IP (Peer a)) = IP_String gw.

(** What is left when [d] is deleted: its peer goes with it. *)
Definition without (d : device) (D : devices) : devices :=
  filter (fun '(_, e) => dev_id e <> dev_id d /\ dev_peer d <> Some (dev_id e)) D.

(** What [LinkByName] shows of a device. *)
Definition shows (ns : Z) (name : string) (l : Link) (D : devices) : Prop :=
  exists d, D !! (ns, Link_Index l) = Some d /\ dev_name d = name /\
    Link_HardwareAddr l = dev_hw d /\ Link_Name l = name /\ Link_MTU l = dev_mtu d.

Section Contract.
Context (healthy : Prop) (ns_of_fd : Z -> Z).

(** The call has the effect [eff], or fails and changes nothing; a healthy kernel
    fails only if [pre] does not hold. *)
Definition acts {A : Type} (pre : Prop) (eff : devices -> Prop) (k k' : knet) (x : result A) : Prop :=
  k_sysctls k' = k_sysctls k /\
  match x with
  | Ok _ => eff (k_devs k')
  | Err _ => k_devs k' = k_devs k /\ (healthy -> ~ pre)
  end.

Definition exists_at (ns : Z) (l : Link) (k : knet) : Prop := is_Some (k_devs k !! (ns, Link_Index l)).

Definition touches (ns i : Z) (f : device -> device) (D D' : devices) : Prop :=
  exists d, D !! (ns, i) = Some d /\ D' = <[(ns, i) := f d]> D.

Definition veth_added (ns : Z) (v : Veth) (D D' : devices) : Prop :=
  exists i j h c, i <> j /\ D !! (ns, i) = None /\ D !! (ns, j) = None /\
    name_free ns (Veth_Name v) D /\ name_free ns (PeerName v) D /\ Veth_Name v <> PeerName v /\
    dev_id h <> dev_id c /\ id_free (dev_id h) D /\ id_free (dev_id c) D /\
    bare (dev_id h) (dev_id c) (Veth_Name v) (Veth_MTU v) h /\
    bare (dev_id c) (dev_id h) (PeerName v) (Veth_MTU v) c /\
    D' = <[(ns, i) := h]> (<[(ns, j) := c]> D).

Definition moved (ns i ns' : Z) (D D' : devices) : Prop :=
  exists d d' j, D !! (ns, i) = Some d /\ delete (ns, i) D !! (ns', j) = None /\
    name_free ns' (dev_name d) (delete (ns, i) D) /\
    dev_id d' = dev_id d /\ dev_peer d' = dev_peer d /\ dev_name d' = dev_name d /\
    dev_mtu d' = dev_mtu d /\ dev_addrs d' = [] /\ dev_neighs d' = [] /\ dev_routes d' = [] /\
    D' = <[(ns', j) := d']> (delete (ns, i) D).

Definition link_spec (ns : Z) {X} (e : linkE X) (k k' : knet) : X -> Prop :=
  match e with
  | Nl.LinkByName name => fun x => k' = k /\
      match x with
      | Ok l => shows ns name l (k_devs k)
      | Err _ => healthy -> name_free ns name (k_devs k)
      end
  | Nl.ParseAddr s => fun x => k' = k /\
      match x with
      | Ok a => types_ParseCIDR s = Ok a
      | Err _ => healthy -> forall a, types_ParseCIDR s <> Ok a
      end
  | Nl.AddrAdd l a => acts (exists_at ns l k) (touches ns (Link_Index l) (add_addr a) (k_devs k)) k k'
  | Nl.LinkSetHardwareAddr l hw => acts (exists_at ns l k)
      (fun D' => exists hw', (healthy -> hw' = hw) /\
         touches ns (Link_Index l) (set_hw hw') (k_devs k) D') k k'
  | Nl.NeighAdd n => acts (is_Some (k_devs k !! (ns, Neigh_LinkIndex n)))
      (touches ns (Neigh_LinkIndex n) (add_neigh n) (k_devs k)) k k'
  | Nl.LinkSetARPOff l => acts (exists_at ns l k)
      (touches ns (Link_Index l) set_arp_off (k_devs k)) k k'
  | Nl.LinkSetName l name => acts (exists_at ns l k /\ name_free ns name (k_devs k))
      (fun D' => name_free ns name (delete (ns, Link_Index l) (k_devs k)) /\
         touches ns (Link_Index l) (set_name name) (k_devs k) D') k k'
  | Nl.LinkSetUp l => acts (exists_at ns l k)
      (touches ns (Link_Index l) set_up (k_devs k)) k k'
  | Nl.LinkDel l => acts (exists_at ns l k)
      (fun D' => exists d, k_devs k !! (ns, Link_Index l) = Some d /\ D' = without d (k_devs k)) k k'
  | Nl.LinkAdd v => acts (name_free ns (Veth_Name v) (k_devs k) /\
                          name_free ns (PeerName v) (k_devs k) /\ Veth_Name v <> PeerName v)
      (veth_added ns v (k_devs k)) k k'
  | Nl.LinkSetNsFd l fd =>
      acts (exists d, k_devs k !! (ns, Link_Index l) = Some d /\
              name_free (ns_of_fd fd) (dev_name d) (delete (ns, Link_Index l) (k_devs k)))
        (moved ns (Link_Index l) (ns_of_fd fd) (k_devs k)) k k'
  | Nl.RouteAdd r =>
      let via i d := k_devs k !! (ns, i) = Some d /\ on_link (Route_Gw r) d /\
                     (Route_LinkIndex r = 0 \/ Route_LinkIndex r = i) in
      acts (exists i d, via i d)
        (fun D' => exists i d, via i d /\ D' = <[(ns, i) := add_route r d]> (k_devs k)) k k'
  | Nl.Sysctl name v => fun x => k_devs k' = k_devs k /\
      match x with
      | Ok _ => k_sysctls k' = <[(ns, name) := v]> (k_sysctls k)
      | Err _ => k_sysctls k' = k_sysctls k /\ ~ healthy
      end
  end.

Definition link_step (ns : Z) (X : Type) (e : linkE X) (k k' : knet) (x : X) : Prop :=
  link_spec ns e k k' x.

(** Calls in namespaces. *)
Definition host_step (X : Type) (e : hostE X) (k k' : knet) : X -> Prop :=
  match e with
  | Enter ns => fun x => k' = k /\ match x with Ok _ => True | Err _ => ~ healthy end
  | In_ns ns e => fun x => link_step (ns_of_fd (NS_Fd ns)) _ e k k' x
  end.

End Contract.
