(* ===== verification/CniLibFacts.v ===== *)
(** * What the set-up of a veth pair does to the kernel

    One lemma per operation of CniLib: which devices it can change, what a
    success leaves behind, and that a healthy kernel makes it succeed. *)

From Stdlib Require Import ZArith Lia Ascii.
From S2P Require Import Prelude GoFmt GoPath GoNet NetFacts HwAddr Types Netlink CniConfig CniLib CniKernel.

(** ** One device *)

(** The device is the same one, whatever is configured on it. *)
Record same_device (d d' : device) : Prop := {
  same_id : dev_id d' = dev_id d;
  same_peer : dev_peer d' = dev_peer d;
  same_name : dev_name d' = dev_name d;
  same_mtu : dev_mtu d' = dev_mtu d
}.

Lemma same_device_refl d : same_device d d.
Proof. done. Qed.

Lemma same_device_trans d d' d'' : same_device d d' -> same_device d' d'' -> same_device d d''.
Proof. intros [] []. split; congruence. Qed.

Lemma same_set_hw hw d : same_device d (set_hw hw d). Proof. done. Qed.
Lemma same_set_up d : same_device d (set_up d). Proof. done. Qed.
Lemma same_set_arp_off d : same_device d (set_arp_off d). Proof. done. Qed.
Lemma same_add_addr a d : same_device d (add_addr a d). Proof. done. Qed.
Lemma same_add_neigh n d : same_device d (add_neigh n d). Proof. done. Qed.
Lemma same_add_route r d : same_device d (add_route r d). Proof. done. Qed.

#[export] Hint Resolve same_device_refl same_set_hw same_set_up same_set_arp_off same_add_addr
  same_add_neigh same_add_route : silk.

Lemma set_hw_same d : set_hw (dev_hw d) d = d.
Proof. by destruct d. Qed.

(** Every parameter that was "1" still is. *)
Definition keeps (k k' : knet) : Prop :=
  forall key, k_sysctls k !! key = Some "1" -> k_sysctls k' !! key = Some "1".

Lemma keeps_eq k k' : k_sysctls k' = k_sysctls k -> keeps k k'.
Proof. by intros H key; rewrite H. Qed.

Lemma keeps_trans k k' k'' : keeps k k' -> keeps k' k'' -> keeps k k''.
Proof. intros H H' key Hk. auto. Qed.

Lemma keeps_set k k' key : k_sysctls k' = <[key := "1"]> (k_sysctls k) -> keeps k k'.
Proof.
  intros H key' Hk. rewrite H. destruct (decide (key = key')) as [->|Hne].
  - by rewrite lookup_insert_eq.
  - by rewrite lookup_insert_ne.
Qed.

#[export] Hint Resolve keeps_eq keeps_trans keeps_set : silk.

(** The end of the pair as it is when [BasicSetup] has succeeded. *)
Definition ptp_addr (local peer : DualAddress) : PeerAddr :=
  {| Local := {| IPNet_IP := v4InV6Prefix ++ To4 (Dual_IP local); IPNet_Mask := [255; 255; 255; 255] |};
     Peer := host_net (Dual_IP peer); Scope := SCOPE_LINK |}.

Definition peer_neigh (i : Z) (peer : DualAddress) : Neigh :=
  {| Neigh_LinkIndex := i; Neigh_Family := FAMILY_V4; Neigh_State := NUD_PERMANENT; Neigh_Type := 0;
     Neigh_Flags := 0; Neigh_IP := Dual_IP peer; Neigh_HardwareAddr := Hardware peer |}.

Definition set_up_end (i : Z) (local peer : DualAddress) (d : device) : device :=
  set_up (add_addr (ptp_addr local peer) (add_neigh (peer_neigh i peer) (set_arp_off d))).

Definition rp_filter (name : string) : string := "net.ipv4.conf." +:+ name +:+ ".rp_filter".

Lemma host_net_parses ip : is_ipv4 ip ->
  types_ParseCIDR (IPNet_String (host_net ip))
  = Ok {| IPNet_IP := v4InV6Prefix ++ To4 ip; IPNet_Mask := [255; 255; 255; 255] |}.
Proof.
  intros Hip. unfold host_net. change [255; 255; 255; 255] with (CIDRMask 32 32).
  rewrite IPNet_String_v4 by (try lia; apply Hip). unfold types_ParseCIDR.
  rewrite ParseCIDR_text by (try lia; apply Hip). done.
Qed.

Section Lib.
Context (healthy : Prop) (ns_of_fd : Z -> Z).
Abbreviation step := (link_step healthy ns_of_fd).

(** A call that changes the one device. *)
Lemma touches_at {A : Type} ns i (d : device) (D : devices) pre f k k' (x : result A) :
  k_devs k = <[(ns, i) := d]> D ->
  acts healthy pre (touches ns i f (k_devs k)) k k' x -> (healthy -> pre) ->
  k_sysctls k' = k_sysctls k /\
  match x with
  | Ok _ => k_devs k' = <[(ns, i) := f d]> D
  | Err _ => k_devs k' = <[(ns, i) := d]> D /\ ~ healthy
  end.
Proof.
  intros HD [Hs Hx] Hpre. split; [done|]. destruct x as [a|e].
  - destruct Hx as (d0 & Hd0 & ->). rewrite HD in *. rewrite lookup_insert_eq in Hd0.
    injection Hd0 as <-. by rewrite insert_insert_eq.
  - destruct Hx as [-> Hno]. split; [done|]. intros H. by apply Hno; auto.
Qed.

Lemma exists_here ns i (d : device) (D : devices) k l :
  k_devs k = <[(ns, i) := d]> D -> Link_Index l = i -> exists_at ns l k.
Proof. intros HD Hi. unfold exists_at. rewrite HD, Hi, lookup_insert_eq. eauto. Qed.

(** After a program on the device at [(ns, i)], among the others [D]: only this
    device has changed, and if [ok] it satisfies [P]. *)
Definition only_changed (ns i : Z) (D : devices) (d : device) (k k' : knet) (ok : Prop)
    (P : device -> Prop) : Prop :=
  keeps k k' /\
  exists d', k_devs k' = <[(ns, i) := d']> D /\ same_device d d' /\ (ok -> P d').

Lemma only_changed_failed (ns i : Z) (D : devices) d d' k k' (ok : Prop) P :
  keeps k k' -> k_devs k' = <[(ns, i) := d']> D -> same_device d d' -> (ok -> False) ->
  only_changed ns i D d k k' ok P.
Proof. intros Hk HD Hs Hok. split; [done|]. exists d'. split_and!; [done..|]. by intros []%Hok. Qed.

(** Steps of a proof about calls that change one device. *)
Ltac touch H :=
  eapply touches_at in H; [|eassumption|intros _; eapply exists_here; eassumption].

(** A call that changes the device, at the head of a program. *)
Lemma wp_touch ns i d (D : devices) f (e : linkE (result unit)) g (p : unit -> prog linkE (result unit)) k Q :
  k_devs k = <[(ns, i) := d]> D ->
  (forall k' x, link_step healthy ns_of_fd ns _ e k k' x ->
     acts healthy (is_Some (k_devs k !! (ns, i))) (touches ns i f (k_devs k)) k k' x) ->
  (forall k', keeps k k' -> k_devs k' = <[(ns, i) := f d]> D -> k_sysctls k' = k_sysctls k ->
     wp (step ns) (p tt) k' Q) ->
  (forall k' err, keeps k k' -> k_devs k' = <[(ns, i) := d]> D -> ~ healthy -> Q k' (Err (g err))) ->
  wp (step ns) (bind_err (trigger e) g p) k Q.
Proof.
  intros HD He Hok Herr. wp_call. intros k' x Hx%He.
  eapply touches_at in Hx as [Hs Hx]; [|exact HD|intros _; rewrite HD, lookup_insert_eq; eauto].
  destruct x as [[]|err]; [by eauto with silk|]. destruct Hx. eauto with silk.
Qed.

Lemma StaticNeighborNoARP_wp ns i d (D : devices) link ip hw k Q :
  k_devs k = <[(ns, i) := d]> D -> Link_Index link = i ->
  (forall k' d', keeps k k' -> k_devs k' = <[(ns, i) := d']> D ->
     d' = add_neigh (peer_neigh i {| Hardware := hw; Dual_IP := ip |}) (set_arp_off d) -> Q k' (Ok tt)) ->
  (forall k' d' err, keeps k k' -> k_devs k' = <[(ns, i) := d']> D -> same_device d d' ->
     ~ healthy -> Q k' (Err err)) ->
  wp (step ns) (StaticNeighborNoARP link ip hw) k Q.
Proof.
  intros HD <- Hok Herr. unfold StaticNeighborNoARP.
  eapply wp_touch; [exact HD|by intros k' x H|..]; [|eauto with silk].
  intros k1 Hk1 HD1 _. unfold NeighAddPermanentIPv4.
  eapply wp_touch; [exact HD1|by intros k' x H|..].
  - intros k2 Hk2 HD2 _. eapply Hok; eauto with silk.
  - intros k2 err Hk2 HD2 Hh. eapply Herr; eauto with silk.
Qed.

Lemma SetPointToPointAddress_wp ns i d (D : devices) link local peer k Q :
  k_devs k = <[(ns, i) := d]> D -> Link_Index link = i -> is_ipv4 (Dual_IP local) ->
  (forall k', keeps k k' -> k_devs k' = <[(ns, i) := add_addr (ptp_addr local peer) d]> D -> Q k' (Ok tt)) ->
  (forall k' err, keeps k k' -> k_devs k' = <[(ns, i) := d]> D -> ~ healthy -> Q k' (Err err)) ->
  wp (step ns) (SetPointToPointAddress link (Dual_IP local) (Dual_IP peer)) k Q.
Proof.
  intros HD <- Hip Hok Herr. unfold SetPointToPointAddress. wp_call.
  intros k1 x1 [-> Hx1]. rewrite host_net_parses in Hx1 by done. destruct x1 as [a|err].
  - injection Hx1 as <-. eapply wp_touch; [exact HD|by intros k' x H|..]; [|by eauto].
    intros k2 Hk2 HD2 _. by apply Hok.
  - apply Herr; [by apply keeps_eq|done|]. intros H. by eapply Hx1.
Qed.

Lemma Sysctl_wp ns name g k Q :
  (forall k', keeps k k' -> k_devs k' = k_devs k -> k_sysctls k' !! (ns, name) = Some "1" -> Q k' (Ok tt)) ->
  (forall k' err, keeps k k' -> k_devs k' = k_devs k -> ~ healthy -> Q k' (Err (g err))) ->
  wp (step ns) (try _ <- trigger (Nl.Sysctl name "1") catch g ;; Ret (Ok tt)) k Q.
Proof.
  intros Hok Herr. wp_call. intros k' [x|err] [HD Hx].
  - apply Hok; [by eauto with silk|done|]. by rewrite Hx, lookup_insert_eq.
  - destruct Hx. apply Herr; [by apply keeps_eq|done..].
Qed.

Lemma setup_link_wp ns i d (D : devices) link name local peer k :
  k_devs k = <[(ns, i) := d]> D -> Link_Index link = i -> is_ipv4 (Dual_IP local) ->
  wp (step ns) (setup_link link name local peer) k (fun k' x =>
    only_changed ns i D d k k' (x = Ok tt) (fun d' => d' = set_up_end i local peer d) /\
    (x = Ok tt -> k_sysctls k' !! (ns, rp_filter name) = Some "1") /\ (healthy -> x = Ok tt)).
Proof.
  intros HD Hi Hip. unfold setup_link. apply wp_bind.
  assert (forall k' d' err, keeps k k' -> k_devs k' = <[(ns, i) := d']> D -> same_device d d' ->
    ~ healthy -> only_changed ns i D d k k' (@Err unit err = Ok tt)
      (fun d' => d' = set_up_end i local peer d) /\
    (@Err unit err = Ok tt -> k_sysctls k' !! (ns, rp_filter name) = Some "1") /\
    (healthy -> Err err = Ok tt)) as Hfail.
  { intros k' d' err Hk' HD' Hs Hh. split_and!; [by eapply only_changed_failed|done|done]. }
  assert (forall k1, keeps k k1 -> k_devs k1 = k_devs k -> wp (step ns) (
    try _ <- StaticNeighborNoARP link (Dual_IP peer) (Hardware peer)
      catch wrap "replace ARP with permanent neighbor rule" ;;
    try _ <- SetPointToPointAddress link (Dual_IP local) (Dual_IP peer)
      catch wrap "setting point to point address" ;;
    try _ <- EnableReversePathFiltering name catch wrap "enable reverse path filtering" ;;
    try _ <- trigger (Nl.LinkSetUp link) catch wrap ("setting link " +:+ name +:+ " up") ;;
    Ret (Ok tt)) k1 (fun k' x =>
    only_changed ns i D d k k' (x = Ok tt) (fun d' => d' = set_up_end i local peer d) /\
    (x = Ok tt -> k_sysctls k' !! (ns, rp_filter name) = Some "1") /\ (healthy -> x = Ok tt))) as Hrest.
  { intros k1 Hk1 HD1. rewrite HD in HD1. apply wp_bind_err.
    eapply StaticNeighborNoARP_wp; [exact HD1|exact Hi|..]; [|eauto with silk].
    intros k2 d2 Hk2 HD2 ->. apply wp_bind_err.
    eapply SetPointToPointAddress_wp; [exact HD2|exact Hi|exact Hip|..];
      [|by intros k3 err Hk3 HD3 Hh; eapply Hfail; [eauto with silk|exact HD3|done|done]].
    intros k3 Hk3 HD3. apply wp_bind_err, Sysctl_wp.
    2: { intros k4 err Hk4 HD4 Hh. rewrite HD3 in HD4. eapply Hfail; [by eauto 6 with silk|exact HD4|done|done]. }
    intros k4 Hk4 HD4 Hrp. rewrite HD3 in HD4.
    eapply wp_touch; [exact HD4|by subst i; intros k' x H|..]; 
      [|by intros k5 err Hk5 HD5 Hh; eapply Hfail; [eauto 7 with silk|exact HD5|done|done]].
    intros k5 Hk5 HD5 Hs5. split_and!; [|by rewrite Hs5|done].
    split; [by eauto 7 with silk|]. eexists. split_and!; [exact HD5|done|done]. }
  apply Sysctl_wp; auto.
Qed.

(** The only device of that name is the one shown. *)
Lemma shows_sole ns i d (D : devices) name l :
  name_free ns name (delete (ns, i) D) -> shows ns name l (<[(ns, i) := d]> D) ->
  Link_Index l = i /\ Link_HardwareAddr l = dev_hw d.
Proof.
  intros Hfree (e & He & Hn & Hhw & _). destruct (decide (Link_Index l = i)) as [Hi|Hi].
  - rewrite Hi, lookup_insert_eq in He. injection He as <-. done.
  - assert ((ns, i) <> (ns, Link_Index l)) as Hne by (intros [= E]; congruence).
    rewrite lookup_insert_ne in He by done. exfalso. eapply Hfree; [|exact Hn].
    rewrite lookup_delete_ne by done. exact He.
Qed.

(** A healthy kernel finds the device. *)
Lemma LinkByName_wp ns i d (D : devices) name k Q :
  k_devs k = <[(ns, i) := d]> D -> dev_name d = name -> name_free ns name (delete (ns, i) D) ->
  (forall l, Link_Index l = i -> Link_HardwareAddr l = dev_hw d -> Q k (Ok l)) ->
  (forall err, ~ healthy -> Q k (Err err)) ->
  forall k' x, step ns _ (Nl.LinkByName name) k k' x -> Q k' x.
Proof.
  intros HD Hn Hfree Hok Herr k' [l|err] [-> Hx].
  - rewrite HD in Hx. destruct (shows_sole _ _ _ _ _ _ Hfree Hx). auto.
  - apply Herr. intros Hh. eapply (Hx Hh); [|exact Hn]. by rewrite HD, lookup_insert_eq.
Qed.

(** Only the hardware address changes; what the loop gives back is the address
    the device has. *)
Lemma hw_loop_wp ns i d (D : devices) link name hw left k :
  Link_Index link = i -> dev_name d = name -> name_free ns name (delete (ns, i) D) ->
  k_devs k = <[(ns, i) := d]> D ->
  wp (step ns) (hw_loop left link name hw (HardwareAddr_String (dev_hw d)) (HardwareAddr_String hw)) k
    (fun k' o => keeps k k' /\
       (exists hw', k_devs k' = <[(ns, i) := set_hw hw' d]> D /\
          forall got, o = Returns (Ok got) -> got = HardwareAddr_String hw') /\
       (healthy -> dev_hw d = hw \/ (0 < left)%nat -> o = Returns (Ok (HardwareAddr_String hw)))).
Proof.
  intros Hi. revert d k. induction left as [|left IH]; intros d k Hn Hfree HD; cbn [hw_loop].
  - case_decide as He; cbn [wp]; (split_and!; [by apply keeps_eq| |by intros _ [<-|?]; [|lia]]);
      exists (dev_hw d); rewrite set_hw_same; naive_solver.
  - case_decide as He; cbn [wp].
    { split_and!; [by apply keeps_eq| |by rewrite He]. exists (dev_hw d). rewrite set_hw_same. naive_solver. }
    wp_call. intros k1 x1 [Hs1 Hx1]. destruct x1 as [u|err].
    2: { destruct Hx1 as [HD1 Hno]. rewrite HD in HD1. split_and!; [by apply keeps_eq| |].
         - exists (dev_hw d). rewrite set_hw_same. naive_solver.
         - intros Hh _. exfalso. apply (Hno Hh). by eapply exists_here. }
    destruct Hx1 as (hw1 & Hhw1 & d0 & Hd0 & HD1). rewrite HD, Hi, lookup_insert_eq in Hd0.
    injection Hd0 as <-. rewrite HD, Hi, insert_insert_eq in HD1. wp_call.
    eapply (LinkByName_wp ns i (set_hw hw1 d)); [exact HD1|exact Hn|exact Hfree|..].
    + intros l Hl ->. eapply wp_mono; [by eapply (IH (set_hw hw1 d))|].
      intros k' o (Hk & (hw' & HD' & Hgot) & Hh). split_and!; [by eauto with silk|by exists hw'|].
      intros H _. apply Hh; [done|]. left. by apply Hhw1.
    + intros err Hh. split_and!; [by apply keeps_eq|by exists hw1|by intros []%Hh].
Qed.

(** [BasicSetup] changes no device but its own. When it succeeds the device has
    the hardware address asked for, whatever the kernel did with it meanwhile. *)
Lemma BasicSetup_wp ns i d (D : devices) name local peer k :
  k_devs k = <[(ns, i) := d]> D -> dev_name d = name -> name_free ns name (delete (ns, i) D) ->
  is_ipv4 (Dual_IP local) ->
  wp (step ns) (BasicSetup name local peer) k (fun k' o =>
    only_changed ns i D d k k' (o = Returns (Ok tt)) (fun d' => exists hw,
      HardwareAddr_String hw = HardwareAddr_String (Hardware local) /\
      d' = set_up_end i local peer (set_hw hw d)) /\
    (o = Returns (Ok tt) -> k_sysctls k' !! (ns, rp_filter name) = Some "1") /\
    (healthy -> o = Returns (Ok tt))).
Proof.
  intros HD Hn Hfree Hip. unfold BasicSetup.
  assert (forall k' hw' (o : outcome (result unit)), keeps k k' -> k_devs k' = <[(ns, i) := set_hw hw' d]> D ->
    o <> Returns (Ok tt) -> ~ healthy ->
    only_changed ns i D d k k' (o = Returns (Ok tt)) (fun d' => exists hw,
      HardwareAddr_String hw = HardwareAddr_String (Hardware local) /\
      d' = set_up_end i local peer (set_hw hw d)) /\
    (o = Returns (Ok tt) -> k_sysctls k' !! (ns, rp_filter name) = Some "1") /\
    (healthy -> o = Returns (Ok tt))) as Hfail.
  { intros k' hw' o Hk' HD' Ho Hh. split_and!; [by eapply only_changed_failed|done|done]. }
  pose proof HD as HD'. rewrite <- (set_hw_same d) in HD'.
  wp_call. eapply LinkByName_wp; [exact HD|exact Hn|exact Hfree|..];
    [|by intros err Hh; eapply Hfail; [apply keeps_eq|exact HD'|..]].
  intros link Hi _. wp_call. eapply LinkByName_wp; [exact HD|exact Hn|exact Hfree|..];
    [|by intros err Hh; eapply Hfail; [apply keeps_eq|exact HD'|..]].
  intros l _ ->. apply wp_bind_out. eapply wp_mono; [by eapply hw_loop_wp|].
  intros k1 o1 (Hk1 & (hw1 & HD1 & Hgot) & Hh1).
  assert (healthy -> o1 = Returns (Ok (HardwareAddr_String (Hardware local)))) as Hok
    by (intros H; apply Hh1; [done|right; unfold MAX_ATTEMPTS; lia]).
  destruct o1 as [[got|err]|m|]; [|by eapply Hfail; eauto; intros H%Hok..].
  specialize (Hgot _ eq_refl). subst got. case_decide as Hne.
  { eapply Hfail; [done|done|done|]. intros [= H]%Hok. by apply Hne. }
  apply wp_returning. eapply wp_mono; [by eapply setup_link_wp|].
  intros k2 x2 ((Hk2 & d2 & HD2 & Hs2 & Hx2) & Hrp & Hh2). split_and!.
  - split; [by eauto with silk|]. exists d2. split_and!; [done|by eapply same_device_trans; [apply same_set_hw|]|].
    intros [= Hx]. exists hw1. auto.
  - intros [= Hx]. auto.
  - intros H. by rewrite Hh2.
Qed.

End Lib.
