(* ===== verification/CniPairFacts.v ===== *)
(** * The whole pair

    [VethPairCreator.Create], [Host.Setup], [Container.Setup] and
    [Container.Teardown]: what they leave of the pair, and that they leave every
    other device alone. *)

From Stdlib Require Import ZArith Lia Ascii.
From S2P Require Import Prelude GoFmt GoPath GoNet NetFacts HwAddr Types Netlink CniConfig CniLib.
From S2P Require Import CniKernel CniLibFacts.

(** Keys that differ in the namespace or in the index. *)
Ltac key_ne := let E := fresh in intros E; injection E; intros; congruence.

(** Two places for the ends of a pair, in different namespaces and free in [D]. *)
Record places (hns i cns j : Z) (D : devices) : Prop := {
  places_ns : hns <> cns;
  places_host : D !! (hns, i) = None;
  places_container : D !! (cns, j) = None
}.

(** The pair [h], [c] among the other devices [D]. *)
Record paired (hns i cns j : Z) (D : devices) (h c : device) : Prop := {
  paired_places : places hns i cns j D;
  paired_h : dev_peer h = Some (dev_id c);
  paired_c : dev_peer c = Some (dev_id h);
  paired_ids : dev_id h <> dev_id c;
  paired_h_free : id_free (dev_id h) D;
  paired_c_free : id_free (dev_id c) D;
  paired_name : name_free hns (dev_name h) D
}.

Definition with_pair (hns i cns j : Z) (h c : device) (D : devices) : devices :=
  <[(hns, i) := h]> (<[(cns, j) := c]> D).

Lemma with_pair_subseteq hns i cns j h c D : places hns i cns j D -> D ⊆ with_pair hns i cns j h c D.
Proof.
  intros [Hne Hh Hc]. unfold with_pair. etrans; [by apply insert_subseteq|].
  apply insert_subseteq. rewrite lookup_insert_ne; [done|key_ne].
Qed.

Lemma with_pair_swap hns i cns j h c D : hns <> cns ->
  with_pair hns i cns j h c D = <[(cns, j) := c]> (<[(hns, i) := h]> D).
Proof. intros Hne. apply insert_insert_ne. key_ne. Qed.

Lemma paired_same hns i cns j D h c h' c' :
  paired hns i cns j D h c -> same_device h h' -> dev_id c' = dev_id c -> dev_peer c' = dev_peer c ->
  paired hns i cns j D h' c'.
Proof. intros [] [E1 E2 E3 _] E5 E6. by split; rewrite ?E1, ?E2, ?E3, ?E5, ?E6. Qed.

(** Devices of other namespaces do not count. *)
Lemma name_free_insert_ne ns ns' i name d (D : devices) :
  ns <> ns' -> name_free ns name (<[(ns', i) := d]> D) <-> name_free ns name D.
Proof.
  intros Hne. split; intros H j e He; apply (H j).
  - by rewrite lookup_insert_ne by key_ne.
  - by rewrite lookup_insert_ne in He by key_ne.
Qed.

Lemma name_free_delete ns name key (D : devices) : name_free ns name D -> name_free ns name (delete key D).
Proof. intros H i d [_ Hd]%lookup_delete_Some. eauto. Qed.

Lemma name_free_insert ns i name d (D : devices) :
  dev_name d <> name -> name_free ns name D -> name_free ns name (<[(ns, i) := d]> D).
Proof. intros Hd H j e [[_ <-]|[_ He]]%lookup_insert_Some; eauto. Qed.

(** One end of a pair of the namespace [hns] moves to [cns]. *)
Lemma moved_pair hns i j cns h c (D D' : devices) :
  hns <> cns -> i <> j -> D !! (hns, i) = None -> D !! (hns, j) = None ->
  moved hns j cns (<[(hns, j) := c]> (<[(hns, i) := h]> D)) D' ->
  exists c' j', D !! (cns, j') = None /\ name_free cns (dev_name c) D /\ same_device c c' /\
    (dev_addrs c' = [] /\ dev_neighs c' = [] /\ dev_routes c' = []) /\
    D' = with_pair hns i cns j' h c' D.
Proof.
  intros Hns Hij Hi Hj (d & c' & j' & Hd & Hj' & Hf & Hid & Hpeer & Hname & Hmtu & Ha & Hn & Hr & HD').
  rewrite lookup_insert_eq in Hd. injection Hd as <-.
  rewrite delete_insert_id in Hj', Hf, HD' by (rewrite lookup_insert_ne; [done|key_ne]).
  exists c', j'. split_and!; try done.
  - rewrite lookup_insert_ne in Hj'; [done|key_ne].
  - by apply name_free_insert_ne in Hf.
  - by rewrite with_pair_swap.
Qed.

#[export] Hint Resolve name_free_delete name_free_insert : silk.

(** Deleting one end deletes the pair, and nothing else. *)
Lemma without_pair hns i cns j h c (D : devices) :
  paired hns i cns j D h c -> without c (with_pair hns i cns j h c D) = D.
Proof.
  intros [[Hne Hi Hj] Hh Hc Hids Hfh Hfc _]. unfold without, with_pair.
  rewrite map_filter_insert_False, delete_insert_ne by (try key_ne; rewrite Hc; naive_solver).
  rewrite delete_id by done. rewrite map_filter_insert_False by naive_solver. rewrite delete_id by done.
  apply map_filter_id. intros key d Hd. rewrite Hc. split; [by eapply Hfc|].
  intros [= E]. by eapply Hfh.
Qed.

Section Pair.
Context (healthy : Prop) (ns_of_fd : Z -> Z).
Abbreviation step := (link_step healthy ns_of_fd).
Abbreviation hstep := (host_step healthy ns_of_fd).
Abbreviation ns_of := (fun n => ns_of_fd (NS_Fd n)).

Lemma Do_wp ns p k Q :
  (forall err, ~ healthy -> Q k (Returns (Err err))) -> wp (step (ns_of ns)) p k Q -> wp hstep (Do ns p) k Q.
Proof.
  intros Herr Hp. unfold Do. wp_call. intros k' [u|err] [-> Hx]; [|by apply Herr].
  eapply (wp_zoom _ (step (ns_of ns)) (@In_ns ns) id (fun v _ => v)); done.
Qed.

(** The pair has been made and one end moved. *)
Definition created (cfg : Config) (D : devices) (k' : knet) : Prop :=
  exists i j h c, paired (ns_of (Host_Namespace cfg)) i (ns_of (Container_Namespace cfg)) j D h c /\
    k_devs k' = with_pair (ns_of (Host_Namespace cfg)) i (ns_of (Container_Namespace cfg)) j h c D /\
    bare (dev_id h) (dev_id c) (Host_DeviceName cfg) (Container_MTU cfg) h /\
    bare (dev_id c) (dev_id h) (Container_TemporaryDeviceName cfg) (Container_MTU cfg) c /\
    name_free (ns_of (Container_Namespace cfg)) (Container_TemporaryDeviceName cfg) D.

Definition names_free (cfg : Config) (D : devices) : Prop :=
  name_free (ns_of (Host_Namespace cfg)) (Host_DeviceName cfg) D /\
  name_free (ns_of (Host_Namespace cfg)) (Container_TemporaryDeviceName cfg) D /\
  name_free (ns_of (Container_Namespace cfg)) (Container_TemporaryDeviceName cfg) D /\
  name_free (ns_of (Container_Namespace cfg)) (Container_DeviceName cfg) D /\
  Host_DeviceName cfg <> Container_TemporaryDeviceName cfg /\
  Container_DeviceName cfg <> Container_TemporaryDeviceName cfg.

Lemma Create_wp cfg k :
  ns_of (Host_Namespace cfg) <> ns_of (Container_Namespace cfg) ->
  wp hstep (VethPairCreator_Create cfg) k (fun k' o =>
    keeps k k' /\ k_devs k ⊆ k_devs k' /\
    (o = Returns (Ok tt) -> created cfg (k_devs k) k') /\
    (healthy -> names_free cfg (k_devs k) -> o = Returns (Ok tt))).
Proof.
  intros Hne. unfold VethPairCreator_Create. set (hns := ns_of (Host_Namespace cfg)) in *.
  set (cns := ns_of (Container_Namespace cfg)) in *.
  apply Do_wp; [by intros err Hh; split_and!; [apply keeps_eq|..]|]. apply wp_returning.
  wp_call. intros k1 [u|err] [Hs1 Hx1].
  2: { destruct Hx1 as [HD1 Hno]. split_and!; [by apply keeps_eq|by rewrite HD1|done|].
       intros Hh (? & ? & _ & _ & ? & _). exfalso. by apply (Hno Hh). }
  destruct Hx1 as (i & j & h & c & Hij & Hi & Hj & Hfh & Hfc & Hnn & Hids & Hih & Hic & Hbh & Hbc & HD1).
  cbn [Veth_Name PeerName Veth_MTU] in *. fold hns in HD1, Hi, Hj, Hfh, Hfc.
  pose proof HD1 as HD1'. rewrite insert_insert_ne in HD1' by key_ne.
  assert (k_devs k ⊆ k_devs k1) as Hsub.
  { rewrite HD1. etrans; [by apply insert_subseteq|]. apply insert_subseteq.
    rewrite lookup_insert_ne; [done|key_ne]. }
  wp_call. eapply LinkByName_wp; [exact HD1'|apply Hbc|..].
  { apply name_free_delete, name_free_insert; [|done]. destruct Hbh as (_ & _ & -> & _). done. }
  2: { intros err Hh. split_and!; [by apply keeps_eq|done..]. }
  intros l Hl _. wp_call. intros k2 [v|err] [Hs2 Hx2]; fold hns cns in Hx2.
  2: { destruct Hx2 as [HD2 Hno]. split_and!; [by apply keeps_eq; congruence|by rewrite HD2|done|].
       intros Hh (_ & _ & Hf & _). fold cns in Hf. exfalso. apply (Hno Hh). exists c.
       rewrite HD1', Hl, lookup_insert_eq. split; [done|]. destruct Hbc as (_ & _ & -> & _).
       rewrite delete_insert_eq. apply name_free_delete, name_free_insert_ne; [congruence|done]. }
  rewrite HD1', Hl in Hx2. apply moved_pair in Hx2 as (c' & j' & Hj' & Hf & Hsame & Hbare & HD2); [|done..].
  destruct Hbh as (Eh1 & Eh2 & Eh3 & Eh4 & Eh5), Hbc as (Ec1 & Ec2 & Ec3 & Ec4 & Ec5), Hsame as [S1 S2 S3 S4].
  assert (paired hns i cns j' (k_devs k) h c') as Hp.
  { split; rewrite ?S1, ?S2, ?Eh3; done. }
  split_and!; [by apply keeps_eq; congruence|by rewrite HD2; apply with_pair_subseteq, Hp| |done].
  intros _. exists i, j', h, c'. fold hns cns. split_and!; [exact Hp|exact HD2| | |by rewrite <- Ec3].
  - unfold bare. by rewrite S1.
  - unfold bare. by rewrite S1, S2, S3, S4.
Qed.

Definition ip_forward : string := "net.ipv4.ip_forward".

(** The host's end as [Host.Setup] leaves it. *)
Definition host_ready (cfg : Config) (i : Z) (h h' : device) (k' : knet) : Prop :=
  (exists hw, HardwareAddr_String hw = HardwareAddr_String (Hardware (Host_Address cfg)) /\
     h' = set_up_end i (Host_Address cfg) (Container_Address cfg) (set_hw hw h)) /\
  k_sysctls k' !! (ns_of (Host_Namespace cfg), rp_filter (Host_DeviceName cfg)) = Some "1" /\
  k_sysctls k' !! (ns_of (Host_Namespace cfg), ip_forward) = Some "1".

Lemma Host_Setup_wp cfg i cns j h c D k :
  let hns := ns_of (Host_Namespace cfg) in
  paired hns i cns j D h c -> k_devs k = with_pair hns i cns j h c D ->
  dev_name h = Host_DeviceName cfg -> is_ipv4 (Dual_IP (Host_Address cfg)) ->
  wp hstep (Host_Setup cfg) k (fun k' o => keeps k k' /\ exists h', same_device h h' /\
    k_devs k' = with_pair hns i cns j h' c D /\
    (o = Returns (Ok tt) -> host_ready cfg i h h' k') /\ (healthy -> o = Returns (Ok tt))).
Proof.
  intros hns Hp HD Hname Hip. unfold Host_Setup.
  apply Do_wp. { intros err Hh. split; [by apply keeps_eq|]. by exists h. }
  fold hns. apply wp_bind_out. eapply wp_mono.
  { eapply BasicSetup_wp; [exact HD|done| |done]. apply name_free_delete, name_free_insert_ne.
    - apply Hp.
    - rewrite <- Hname. apply Hp. }
  intros k1 o1 ((Hk1 & h1 & HD1 & Hs1 & Hx1) & Hrp & Hh1).
  destruct o1 as [[[]|err]|m|]; [|by (split; [done|]; exists h1; split_and!; [done|done|done|by intros H%Hh1])..].
  destruct (Hx1 eq_refl) as (hw & Hhw & ->). apply wp_bind_out, wp_returning, Sysctl_wp.
  - intros k2 Hk2 HD2 Hf. cbn [wp]. split; [by eauto with silk|]. eexists. rewrite HD2.
    split_and!; [exact Hs1|exact HD1| |done]. intros _. split_and!; [by exists hw|by apply Hk2, Hrp|done].
  - intros k2 err Hk2 HD2 Hh. split; [by eauto with silk|]. eexists. rewrite HD2. by split_and!.
Qed.

(** The container's end as [Container.Setup] leaves it. *)
Definition container_route (cfg : Config) : Route :=
  {| Route_LinkIndex := 0; Route_Scope := 0; Route_Dst := Some (CniRoute_Dst default_route);
     Route_Gw := hostIP; Route_Src := Dual_IP (Container_Address cfg) |}.

Definition container_ready (cfg : Config) (j : Z) (c c' : device) (D : devices) (k' : knet) : Prop :=
  (exists hw, HardwareAddr_String hw = HardwareAddr_String (Hardware (Container_Address cfg)) /\
     c' = add_route (container_route cfg)
            (set_up_end j (Container_Address cfg) (Host_Address cfg)
               (set_hw hw (set_name (Container_DeviceName cfg) c)))) /\
  name_free (ns_of (Container_Namespace cfg)) (Container_DeviceName cfg) D /\
  k_sysctls k' !! (ns_of (Container_Namespace cfg), rp_filter (Container_DeviceName cfg)) = Some "1".

(** The gateway is reached through the pair only. *)
Lemma route_via (cns j : Z) c (hns i : Z) h (D : devices) gw i' d :
  hns <> cns -> (forall i' d, D !! (cns, i') = Some d -> ~ on_link gw d) ->
  <[(cns, j) := c]> (<[(hns, i) := h]> D) !! (cns, i') = Some d -> on_link gw d -> i' = j /\ d = c.
Proof.
  intros Hne Hno [[[= <-] <-]|[_ [[[= E _] _]|[_ Hd]]%lookup_insert_Some]]%lookup_insert_Some Hon;
    [done|by destruct Hne|by destruct (Hno _ _ Hd)].
Qed.

Lemma RouteAdd_wp cns j c hns i h (D : devices) cfg k Q :
  hns <> cns -> (forall i' d, D !! (cns, i') = Some d -> ~ on_link hostIP d) -> on_link hostIP c ->
  k_devs k = with_pair hns i cns j h c D ->
  (forall k', keeps k k' ->
     k_devs k' = with_pair hns i cns j h (add_route (container_route cfg) c) D -> Q k' (Ok tt)) ->
  (forall k' err, keeps k k' -> k_devs k' = k_devs k -> ~ healthy -> Q k' (Err err)) ->
  wp (step cns) (RouteAddAll [default_route] (Dual_IP (Container_Address cfg))) k Q.
Proof.
  intros Hne Hno Hon HD Hok Herr. cbn [RouteAddAll]. rewrite with_pair_swap in HD by done.
  wp_call. intros k' [u|err] [Hs Hx]; cbn [Route_Gw Route_LinkIndex] in Hx.
  - destruct Hx as (i' & d & (Hd & Hond & _) & HD'). rewrite HD in Hd, HD'.
    destruct (route_via _ _ _ _ _ _ _ _ _ _ Hne Hno Hd Hond) as [-> ->].
    rewrite insert_insert_eq in HD'. apply Hok; [by apply keeps_eq|]. by rewrite with_pair_swap.
  - destruct Hx as [HD' Hn]. apply Herr; [by apply keeps_eq|done|]. intros Hh. apply (Hn Hh).
    exists j, c. rewrite HD, lookup_insert_eq. auto.
Qed.

Lemma RenameLink_wp cns j c (D : devices) old new k Q :
  k_devs k = <[(cns, j) := c]> D -> dev_name c = old -> name_free cns old (delete (cns, j) D) ->
  (forall k', keeps k k' -> name_free cns new (delete (cns, j) D) ->
     k_devs k' = <[(cns, j) := set_name new c]> D -> Q k' (Ok tt)) ->
  (forall k' err, keeps k k' -> k_devs k' = k_devs k ->
     (healthy -> name_free cns new (<[(cns, j) := c]> D) -> False) -> Q k' (Err err)) ->
  wp (step cns) (RenameLink old new) k Q.
Proof.
  intros HD Hn Hf Hok Herr. unfold RenameLink. wp_call.
  eapply LinkByName_wp; [exact HD|exact Hn|exact Hf|..]; [|by intros err Hh; apply Herr; [apply keeps_eq|..]].
  intros l Hl _. wp_call. intros k' [u|err] [Hs Hx].
  - destruct Hx as (Hf' & d & Hd & HD'). rewrite HD, Hl in *. rewrite lookup_insert_eq in Hd.
    injection Hd as <-. rewrite insert_insert_eq in HD'. rewrite delete_insert_eq in Hf'.
    apply Hok; [by apply keeps_eq|done..].
  - destruct Hx as [HD' Hno]. apply Herr; [by apply keeps_eq|done|]. intros Hh Hf'.
    apply (Hno Hh). rewrite HD. split; [by eapply exists_here|done].
Qed.

(** What the set-up of the container's end needs to know of its configuration. *)
Record well_formed (cfg : Config) : Prop := {
  wf_container_ip : is_ipv4 (Dual_IP (Container_Address cfg));
  wf_host_ip : Dual_IP (Host_Address cfg) = hostIP;
  wf_routes : Container_Routes cfg = [default_route]
}.

Lemma Container_Setup_wp cfg hns i j h c (D : devices) k :
  let cns := ns_of (Container_Namespace cfg) in
  paired hns i cns j D h c -> k_devs k = with_pair hns i cns j h c D -> well_formed cfg ->
  dev_name c = Container_TemporaryDeviceName cfg -> name_free cns (Container_TemporaryDeviceName cfg) D ->
  (forall i' d, D !! (cns, i') = Some d -> ~ on_link hostIP d) ->
  wp hstep (Container_Setup cfg) k (fun k' o => keeps k k' /\ exists c',
    dev_id c' = dev_id c /\ dev_peer c' = dev_peer c /\ k_devs k' = with_pair hns i cns j h c' D /\
    (o = Returns (Ok tt) -> container_ready cfg j c c' D k') /\
    (healthy -> name_free cns (Container_DeviceName cfg) D ->
     Container_DeviceName cfg <> Container_TemporaryDeviceName cfg -> o = Returns (Ok tt))).
Proof.
  intros cns Hp HD [Hip Hhost Hroutes] Hname Hf Hno. unfold Container_Setup.
  assert (hns <> cns) as Hne by apply Hp. pose proof HD as HD0. rewrite with_pair_swap in HD0 by done.
  assert (forall name, name_free cns name (delete (cns, j) (<[(hns, i) := h]> D)) <-> name_free cns name D) as Hfree.
  { intros name. rewrite delete_insert_ne by key_ne. rewrite delete_id by apply Hp.
    by apply name_free_insert_ne. }
  apply Do_wp. { intros err Hh. split; [by apply keeps_eq|]. by exists c. }
  fold cns. apply wp_bind_out, wp_returning. eapply RenameLink_wp; [exact HD0|done|by apply Hfree|..].
  2: { intros k1 err Hk1 HD1 Hh. split; [done|]. exists c. rewrite HD1. split_and!; [done..|].
       intros H Hn1 Hn2. destruct (Hh H). apply name_free_insert; [congruence|]. by apply name_free_insert_ne. }
  intros k1 Hk1 Hn1 HD1. apply wp_bind_out. eapply wp_mono; [by eapply BasicSetup_wp|].
  intros k2 o2 ((Hk2 & c2 & HD2 & Hs2 & Hx2) & Hrp & Hh2).
  assert (keeps k k2) as Hk by eauto with silk. rewrite <- with_pair_swap in HD2 by done.
  destruct o2 as [[[]|err]|m|];
    [|by (split; [done|]; exists c2; split_and!; [apply Hs2|apply Hs2|done|done|by intros H%Hh2])..].
  destruct (Hx2 eq_refl) as (hw & Hhw & ->). apply wp_bind_out, wp_returning. rewrite Hroutes.
  eapply RouteAdd_wp; [exact Hne|exact Hno| |exact HD2|..].
  - split; [done|]. eexists. split; [left|]. by rewrite <- Hhost.
  - intros k3 Hk3 HD3. split; [by eauto with silk|]. eexists. split_and!; [..|exact HD3| |done]; [done|done|].
    intros _. split_and!; [by exists hw|by apply Hfree|by apply Hk3, Hrp].
  - intros k3 err Hk3 HD3 Hh. split; [by eauto with silk|]. eexists. rewrite HD3.
    by split_and!; [..|exact HD2| |].
Qed.

Lemma Container_Teardown_wp ns hns i j h c (D : devices) name k :
  let cns := ns_of ns in
  paired hns i cns j D h c -> k_devs k = with_pair hns i cns j h c D ->
  dev_name c = name -> name_free cns name D ->
  wp hstep (Container_Teardown ns name) k (fun k' o => keeps k k' /\
    (k_devs k' = k_devs k \/ k_devs k' = D) /\
    (healthy -> o = Returns (Ok tt) /\ k_devs k' = D)).
Proof.
  intros cns Hp HD Hn Hf. unfold Container_Teardown, DeleteLinkByName.
  assert (hns <> cns) as Hne by apply Hp. pose proof HD as HD0. rewrite with_pair_swap in HD0 by done.
  apply Do_wp; [by intros err Hh; split_and!; [apply keeps_eq|left|]|].
  apply wp_returning, wp_bind_err. fold cns. wp_call. eapply LinkByName_wp; [exact HD0|done|..].
  - apply name_free_delete, name_free_insert_ne; done.
  - intros l Hl _. wp_call. intros k' [u|err] [Hs Hx].
    + destruct Hx as (d & Hd & HD'). rewrite HD0, Hl, lookup_insert_eq in Hd. injection Hd as <-.
      rewrite HD, without_pair in HD' by done. split_and!; [by apply keeps_eq|by right|done].
    + destruct Hx as [HD' Hno]. split_and!; [by apply keeps_eq|by left|].
      intros H. destruct (Hno H). by eapply exists_here.
  - intros err Hh. split_and!; [by apply keeps_eq|by left|by intros []%Hh].
Qed.

End Pair.
