(* ===== verification/CniConfigFacts.v ===== *)
(** * What the configuration of a container is

    [ConfigCreator.Create] succeeds exactly on a usable interface name and an IPv4
    address, and then fixes every name and address; flannel's file is read back. *)

From Stdlib Require Import ZArith Lia Ascii.
From S2P Require Import Prelude GoFmt GoPath GoNet NetFacts HwAddr Types CniConfig.

(** An address is a slice of bytes. *)
Definition byte_addresses (r : CniResult) : Prop :=
  Forall (fun c => Forall is_byte (IPNet_IP (IPConfig_Address c))) (IPs r).

(** The address the container gets: the first one of the IPAM plugin's result. *)
Definition container_ip (r : CniResult) : IP :=
  match IPs r with ip0 :: _ => IPNet_IP (IPConfig_Address ip0) | [] => [] end.

Definition can_configure (args : CmdArgs) (r : CniResult) : Prop :=
  IfName args <> "" /\ (String.length (IfName args) <= 15)%nat /\ To4 (container_ip r) <> [].

Record config_of (hostNS : NetNS) (args : CmdArgs) (r : CniResult) (mtu : Z) (n : NetNS)
    (cfg : Config) : Prop := {
  of_name : Container_DeviceName cfg = IfName args;
  of_namespace : Container_Namespace cfg = n;
  of_ip : Dual_IP (Container_Address cfg) = container_ip r;
  of_hw : Hardware (Container_Address cfg) = [238; 238] ++ To4 (container_ip r);
  of_temporary :
    DeviceName.GenerateTemporaryForContainer (container_ip r) = Ok (Container_TemporaryDeviceName cfg);
  of_mtu : Container_MTU cfg = mtu;
  of_routes : Container_Routes cfg = [default_route];
  of_host_name : DeviceName.GenerateForHost (container_ip r) = Ok (Host_DeviceName cfg);
  of_host_namespace : Host_Namespace cfg = hostNS;
  of_host_ip : Dual_IP (Host_Address cfg) = hostIP;
  of_host_hw : Hardware (Host_Address cfg) = [170; 170] ++ To4 (container_ip r)
}.

Lemma is_ipv4_bytes ip : To4 ip <> [] -> Forall is_byte ip -> is_ipv4 ip.
Proof.
  intros Hne Hb. split; [by destruct (To4_length ip)|]. unfold To4 in *.
  repeat case_decide; try done. by apply Forall_drop.
Qed.

Lemma container_ip_ipv4 r : byte_addresses r -> To4 (container_ip r) <> [] -> is_ipv4 (container_ip r).
Proof.
  intros Hb Hne. apply is_ipv4_bytes; [done|]. unfold container_ip, byte_addresses in *.
  destruct (IPs r) as [|ip0 rest]; [constructor|]. by inversion Hb.
Qed.

(** On inputs it can configure, [Create] is one call of [GetNS]. *)
Lemma Create_configures hostNS args r mtu :
  byte_addresses r -> can_configure args r ->
  exists mk : NetNS -> Config, (forall n, config_of hostNS args r mtu n (mk n)) /\
    ConfigCreator_Create hostNS args r mtu =
      (try n <- trigger (GetNS (Netns args)) catch wrap "getting container namespace" ;; Ret (Ok (mk n))).
Proof.
  intros Hb (Hne & Hlen & H4). assert (is_ipv4 (container_ip r)) as Hip by by apply container_ip_ipv4.
  destruct (device_name_form "c" _ Hip) as (? & ? & ? & ? & _ & _ & Ht).
  destruct (device_name_form "s" _ Hip) as (? & ? & ? & ? & _ & _ & Hh).
  pose proof (GenerateHardwareAddr4_ok _ 238 238 Hip) as Hc.
  pose proof (GenerateHardwareAddr4_ok _ 170 170 Hip) as Hhost.
  assert (exists ip0 rest, IPs r = ip0 :: rest /\ IPNet_IP (IPConfig_Address ip0) = container_ip r)
    as (ip0 & rest & Er & Eip).
  { unfold container_ip in *. destruct (IPs r) as [|ip0 rest]; [done|]. eauto. }
  unfold ConfigCreator_Create. rewrite decide_False by done. rewrite decide_False by lia.
  rewrite Er, Eip. unfold DeviceName.GenerateTemporaryForContainer, DeviceName.GenerateForHost,
    Cni.GenerateForContainer, Cni.GenerateForHost. rewrite Ht, Hh, Hc, Hhost.
  eexists (fun n => _). split; [|reflexivity]. intros n. by split.
Qed.

Lemma Create_refuses {W} (step : forall X, nsE X -> W -> W -> X -> Prop) hostNS args r mtu w :
  ~ can_configure args r ->
  wp step (ConfigCreator_Create hostNS args r mtu) w (fun _ x => exists e, x = Err e).
Proof.
  intros Hno. unfold ConfigCreator_Create.
  case_decide as H1; [by eexists|]. case_decide as H2; [by eexists|].
  apply wp_bind_err, wp_trigger. intros w' [n|e] _; [|by eexists].
  assert (To4 (container_ip r) = []) as H4.
  { destruct (decide (To4 (container_ip r) = [])) as [|Hne]; [done|]. destruct Hno. split_and!; [done|lia|done]. }
  unfold container_ip in H4. destruct (IPs r) as [|ip0 rest]; [by eexists|].
  unfold DeviceName.GenerateTemporaryForContainer, DeviceName.generate. rewrite H4. by eexists.
Qed.

(** C27. [ConfigCreator.Create], whatever [GetNS] answers. For an interface name of
    1 to 15 bytes and an IPv4 address it returns the configuration that [config_of]
    fixes field by field, or the error of [GetNS]; on anything else it fails. *)
Theorem config_creator_correct {S} (h : handler nsE S) s hostNS args r mtu :
  byte_addresses r ->
  let x := snd (run h (ConfigCreator_Create hostNS args r mtu) s) in
  (can_configure args r ->
     match snd (h _ (GetNS (Netns args)) s) with
     | Ok n => exists cfg, x = Ok cfg /\ config_of hostNS args r mtu n cfg
     | Err e => x = Err (wrap "getting container namespace" e)
     end) /\
  (~ can_configure args r -> exists e, x = Err e).
Proof.
  intros Hb x. subst x. split.
  - intros (mk & Hmk & ->)%(Create_configures hostNS args r mtu Hb). rewrite run_bind_err, run_trigger.
    destruct (h _ (GetNS (Netns args)) s) as [s' [n|e]]; cbn; eauto.
  - intros Hno.
    pose proof (wp_sound (fun _ _ _ _ _ => True) h (fun _ => True) (fun _ => tt)
      (ConfigCreator_Create hostNS args r mtu) s _ ltac:(done) I
      (Create_refuses _ hostNS args r mtu tt Hno)) as [H _]. exact H.
Qed.

(** ** Flannel's file *)

Module FlannelFacts.
Import Flannel.

Lemma take_digits_app n d rest :
  str_all is_digit d = true -> (String.length d <= n)%nat -> no_digit_first rest ->
  take_digits n (d +:+ rest) = (d, rest).
Proof.
  revert n. induction d as [|c d IH]; intros n Hd Hlen Hrest; cbn in *.
  - destruct n, rest as [|c r]; try done. cbn in *. by rewrite Hrest.
  - apply andb_prop in Hd as [Hc Hd]. destruct n as [|n]; [lia|]. cbn. rewrite Hc.
    by rewrite IH by (done || lia).
Qed.

Lemma match_digits_utoa k v rest :
  0 <= v < 10 ^ Z.of_nat (S k) -> no_digit_first rest ->
  match_digits (S k) (utoa v +:+ rest) = Some (utoa v, rest).
Proof.
  intros Hv Hrest. unfold match_digits.
  rewrite take_digits_app; [|apply utoa_all_digits; lia|by apply utoa_length|done].
  by rewrite decide_False by apply utoa_nonempty.
Qed.

(** What the expression for digits matches: between 1 and [n] of them. *)
Lemma match_digits_digits n s d rest :
  match_digits n s = Some (d, rest) ->
  d <> "" /\ str_all is_digit d = true /\ (String.length d <= n)%nat.
Proof.
  unfold match_digits. destruct (take_digits n s) as [d' r] eqn:E. case_decide as Hd; [done|].
  intros [= <- <-]. split; [done|]. clear Hd. revert s d' r E.
  induction n as [|n IH]; intros s d' r E; cbn in E; [by injection E as <- <-; cbn|].
  destruct s as [|c s]; [by injection E as <- <-; cbn; auto with lia|].
  destruct (is_digit c) eqn:Hc; [|by injection E as <- <-; cbn; auto with lia].
  destruct (take_digits n s) as [d1 r1] eqn:E1. injection E as <- <-.
  destruct (IH _ _ _ E1). cbn. rewrite Hc. auto with lia.
Qed.

Lemma find_Some m s x : find m s = Some x -> exists t, m t = Some x.
Proof.
  induction s as [|c s IH]; cbn.
  - destruct (m "") eqn:E; [|done]. intros [= <-]. eauto.
  - destruct (m (String c s)) eqn:E; [|done]. intros [= <-]. eauto.
Qed.

Lemma find_here m s x : m s = Some x -> find m s = Some x.
Proof. intros H. by destruct s; cbn; rewrite H. Qed.

(** A match can only start at an F. *)
Lemma find_skip m p s :
  (forall c t, c <> "F"%char -> m (String c t) = None) ->
  str_all (fun c => negb (Ascii.eqb c "F")) p = true -> find m (p +:+ s) = find m s.
Proof.
  intros Hm. induction p as [|c p IH]; cbn; [done|]. intros [Hc Hp]%andb_prop.
  destruct (Ascii.eqb_spec c "F"); [done|]. rewrite Hm by done. auto.
Qed.

Lemma subnet_starts c t : c <> "F"%char -> match_subnet (String c t) = None.
Proof. intros Hc. unfold match_subnet. cbn. by destruct (Ascii.eqb_spec c "F"). Qed.

Lemma mtu_starts c t : c <> "F"%char -> match_mtu (String c t) = None.
Proof. intros Hc. unfold match_mtu. cbn. by destruct (Ascii.eqb_spec c "F"). Qed.

Lemma match_octets_dotted a b c d rest :
  Forall is_byte [a; b; c; d] ->
  match_octets 3 (dotted [a; b; c; d] +:+ rest)
  = Some (utoa a +:+ "." +:+ utoa b +:+ "." +:+ utoa c +:+ "." +:+ "", utoa d +:+ rest).
Proof.
  rewrite !Forall_cons. unfold is_byte. intros (Ha & Hb & Hc & _ & _). cbn [dotted match_octets].
  rewrite !str_app_assoc. rewrite match_digits_utoa by (cbn; done || lia). cbn.
  rewrite match_digits_utoa by (cbn; done || lia). cbn.
  rewrite match_digits_utoa by (cbn; done || lia). cbn. done.
Qed.

Lemma match_subnet_text b n rest :
  v4 b -> 0 <= n <= 32 -> no_digit_first rest ->
  match_subnet ("FLANNEL_SUBNET=" +:+ cidr_text b n +:+ rest) = Some (cidr_text b n).
Proof.
  intros (b0 & b1 & b2 & b3 & -> & Hb)%v4_inv Hn Hrest. unfold match_subnet.
  change (match_prefix _ _) with (Some (cidr_text [b0; b1; b2; b3] n +:+ rest)). unfold cidr_text.
  rewrite !str_app_assoc, match_octets_dotted by done.
  rewrite !Forall_cons in Hb. unfold is_byte in Hb. destruct Hb as (_ & _ & _ & Hb3 & _).
  rewrite match_digits_utoa by (cbn; done || lia). cbn [match_char String.append].
  rewrite Ascii.eqb_refl, match_digits_utoa by (done || cbn; lia).
  cbn [dotted]. repeat first [rewrite str_app_assoc | progress cbn [String.append]]. done.
Qed.

Lemma match_mtu_text mtu rest :
  0 <= mtu < 100000 -> no_digit_first rest ->
  match_mtu ("FLANNEL_MTU=" +:+ utoa mtu +:+ rest) = Some (utoa mtu).
Proof.
  intros Hm Hrest. unfold match_mtu.
  change (match_prefix _ _) with (Some (utoa mtu +:+ rest)). cbn iota.
  by rewrite match_digits_utoa by (done || cbn; lia).
Qed.

(** A number of at most five digits is read without an error. *)
Lemma Atoi_digits s :
  s <> "" -> str_all is_digit s = true -> (String.length s <= 5)%nat ->
  Atoi s = Ok (dec_value s 0) /\ 0 <= dec_value s 0 < 100000.
Proof.
  intros Hne Hd Hlen. destruct (dec_value_bound s 0 Hd ltac:(lia)) as [H0 H1].
  assert (10 ^ Z.of_nat (String.length s) <= 100000).
  { change 100000 with (10 ^ 5). apply Z.pow_le_mono_r; lia. }
  split; [|lia]. unfold Atoi. rewrite bool_decide_false, Hd by done. cbn [orb negb].
  destruct (Z.leb_spec (2 ^ 63) (dec_value s 0)); [lia|done].
Qed.

Lemma Atoi_mtu s mtu : find match_mtu s = Some mtu ->
  exists v, Atoi mtu = Ok v /\ 0 <= v < 100000.
Proof.
  intros [t Ht]%find_Some. unfold match_mtu in Ht. destruct (match_prefix _ t) as [t1|]; [|done].
  destruct (match_digits 5 t1) as [[d r]|] eqn:E; [|done]. injection Ht as <-.
  destruct (match_digits_digits _ _ _ _ E) as (H1 & H2 & H3). exists (dec_value d 0). by apply Atoi_digits.
Qed.

End FlannelFacts.

(** The file flannel writes. *)
Definition nl : string := String (chr 10) "".
Definition flannel_file (network subnet mtu ipmasq : string) : string :=
  "FLANNEL_NETWORK=" +:+ network +:+ nl +:+ "FLANNEL_SUBNET=" +:+ subnet +:+ nl +:+
  "FLANNEL_MTU=" +:+ mtu +:+ nl +:+ "FLANNEL_IPMASQ=" +:+ ipmasq +:+ nl.

(** Text without an F. *)
Definition F_free (s : string) : Prop := str_all (fun c => negb (Ascii.eqb c "F")) s = true.

Lemma cidr_text_F_free b n : v4 b -> 0 <= n -> F_free (cidr_text b n).
Proof.
  intros Hb Hn. unfold F_free, cidr_text. rewrite !str_all_app.
  rewrite dotted_free by done. by rewrite utoa_free.
Qed.

Section File.
Import FlannelFacts.
Context (b : list Z) (n mtu : Z) (network ipmasq : string).
Hypotheses (Hb : v4 b) (Hn : 0 <= n <= 32) (Hm : 0 <= mtu < 100000) (Hnet : F_free network).
Abbreviation text := (flannel_file network (cidr_text b n) (utoa mtu) ipmasq).

Lemma find_subnet : Flannel.find Flannel.match_subnet text = Some (cidr_text b n).
Proof.
  unfold flannel_file.
  assert (forall p s, F_free p -> Flannel.find Flannel.match_subnet (p +:+ s) = Flannel.find Flannel.match_subnet s)
    as Hskip by (intros; by apply find_skip; [apply subnet_starts|]).
  change (Flannel.find Flannel.match_subnet ("LANNEL_NETWORK=" +:+ network +:+ nl +:+ "FLANNEL_SUBNET="
    +:+ cidr_text b n +:+ nl +:+ "FLANNEL_MTU=" +:+ utoa mtu +:+ nl +:+ "FLANNEL_IPMASQ=" +:+ ipmasq +:+ nl)
    = Some (cidr_text b n)).
  rewrite !Hskip by done. apply find_here, match_subnet_text; [done..|reflexivity].
Qed.

Lemma find_mtu : Flannel.find Flannel.match_mtu text = Some (utoa mtu).
Proof.
  unfold flannel_file.
  assert (forall p s, F_free p -> Flannel.find Flannel.match_mtu (p +:+ s) = Flannel.find Flannel.match_mtu s)
    as Hskip by (intros; by apply find_skip; [apply mtu_starts|]).
  change (Flannel.find Flannel.match_mtu ("LANNEL_NETWORK=" +:+ network +:+ nl +:+ "FLANNEL_SUBNET="
    +:+ cidr_text b n +:+ nl +:+ "FLANNEL_MTU=" +:+ utoa mtu +:+ nl +:+ "FLANNEL_IPMASQ=" +:+ ipmasq +:+ nl)
    = Some (utoa mtu)).
  rewrite !Hskip by done.
  change (Flannel.find Flannel.match_mtu ("LANNEL_SUBNET=" +:+ cidr_text b n +:+ nl +:+
    "FLANNEL_MTU=" +:+ utoa mtu +:+ nl +:+ "FLANNEL_IPMASQ=" +:+ ipmasq +:+ nl) = Some (utoa mtu)).
  rewrite !Hskip by (done || apply cidr_text_F_free; done || lia).
  apply find_here, match_mtu_text; [done|reflexivity].
Qed.

End File.

(** Reading flannel's file. A file as flannel writes it, with any IPv4 subnet and
    any MTU of up to five digits, is read back; and for any contents whatever, the
    only errors are the two of a file without a subnet or without an MTU: the
    conversion of the MTU to a number, whose error the source calls impossible,
    never fails, and gives less than 100000. *)
Theorem flannel_file_reads_back b n mtu network ipmasq :
  v4 b -> 0 <= n <= 32 -> 0 <= mtu < 100000 ->
  F_free network ->
  Flannel.Get (Ok (flannel_file network (cidr_text b n) (utoa mtu) ipmasq))
    = Ok {| Info_OverlaySubnet := cidr_text b n; Info_MTU := mtu |} /\
  forall contents,
    match Flannel.Get (Ok contents) with
    | Ok info => 0 <= Info_MTU info < 100000
    | Err e => e = Errorf "unable to parse flannel subnet file" \/
               e = Errorf "unable to parse MTU from subnet file"
    end.
Proof.
  intros Hb Hn Hm Hnet. split.
  - unfold Flannel.Get. rewrite find_subnet, find_mtu by done.
    destruct (FlannelFacts.Atoi_digits (utoa mtu)) as [-> _].
    + apply utoa_nonempty.
    + apply utoa_all_digits. lia.
    + apply utoa_length. cbn. lia.
    + by rewrite utoa_value by lia.
  - intros contents. unfold Flannel.Get. destruct (Flannel.find _ contents) as [subnet|]; [|by left].
    destruct (Flannel.find Flannel.match_mtu contents) as [m|] eqn:E; [|by right].
    destruct (FlannelFacts.Atoi_mtu _ _ E) as (v & -> & Hv). done.
Qed.

Lemma flannel_file_reads_back_witness :
  Flannel.Get (Ok (flannel_file "10.240.0.0/12" "10.255.19.1/24" "1450" "false"))
    = Ok {| Info_OverlaySubnet := "10.255.19.1/24"; Info_MTU := 1450 |}.
Proof.
  refine (proj1 (flannel_file_reads_back [10; 255; 19; 1] 24 1450 "10.240.0.0/12" "false" _ _ _ _));
    [split; [reflexivity|repeat constructor; discriminate]|lia|lia|reflexivity].
Defined.

Lemma config_creator_correct_witness :
  let args := {| ContainerID := "c"; Netns := "/var/netns/c"; IfName := "eth0"; StdinData := "" |} in
  let r := {| Interfaces := []; Routes := [];
              IPs := [{| IPConfig_Interface := None; IPConfig_Gateway := [];
                         IPConfig_Address := {| IPNet_IP := [10; 255; 30; 5];
                                                IPNet_Mask := [255; 255; 255; 255] |} |}] |} in
  let host := {| NS_Path := "/proc/1/ns/net"; NS_Fd := 3 |} in
  let n := {| NS_Path := "/var/netns/c"; NS_Fd := 4 |} in
  exists cfg,
    snd (run (fun X (e : nsE X) (s : unit) => match e with GetNS _ => (s, Ok n) end)
           (ConfigCreator_Create host args r 1450) tt) = Ok cfg /\
    config_of host args r 1450 n cfg /\ Host_DeviceName cfg = "s-010255030005".
Proof.
  intros args r host n.
  destruct (config_creator_correct (fun X (e : nsE X) (s : unit) => match e with GetNS _ => (s, Ok n) end)
    tt host args r 1450) as [H _].
  - repeat constructor; discriminate.
  - destruct H as (cfg & Hx & Hcfg); [split_and!; [discriminate|cbn; lia|discriminate]|].
    exists cfg. split_and!; [exact Hx|exact Hcfg|]. cbn in Hx. injection Hx as <-. reflexivity.
Defined.
