(* ===== verification/CniFleet.v ===== *)
(** * Containers of different cells

    The subnets of two leases of the pool do not overlap, the IPAM plugin of a cell chooses
    within the subnet of its lease: containers of cells with such leases have different
    addresses, and with them different hardware addresses and device names. *)

From Stdlib Require Import ZArith Lia Ascii.
From S2P Require Import Prelude GoFmt GoNet NetFacts HwAddr CidrPool Types Sql Store.
From S2P Require Import LeaseFacts LeaseController Concurrency LeaseWitnesses CniConfig.

(** host-local answers an address of a range of its configuration. *)
Definition given_by (c : HostLocalIPAM) (ip : IP) : Prop :=
  is_ipv4 ip /\ exists ranges range, ranges ∈ Ranges (IPAM c) /\ range ∈ ranges /\
    Contains (Range_Subnet range) ip = true.

Lemma land_bytes_idem b m : land_bytes (land_bytes b m) m = land_bytes b m.
Proof.
  revert m. induction b as [|x b IH]; intros [|y m]; cbn; [done..|].
  f_equal; [|apply IH]. rewrite <- Z.land_assoc. by rewrite Z.land_diag.
Qed.

(** A network contains the same addresses whether or not its own address is masked. *)
Lemma Contains_masked b n x :
  v4 b -> 0 <= n <= 32 ->
  Contains {| IPNet_IP := v4InV6Prefix ++ b; IPNet_Mask := CIDRMask n 32 |} x
  = Contains {| IPNet_IP := land_bytes b (CIDRMask n 32); IPNet_Mask := CIDRMask n 32 |} x.
Proof.
  intros [Hl Hf] Hn. pose proof (CIDRMask_length32 n Hn) as Hm. unfold Contains.
  rewrite networkNumberAndMask_To4 by (rewrite ?To4_prefix; done). rewrite To4_prefix by done.
  rewrite networkNumberAndMask_v4 by (rewrite ?land_bytes_length; congruence).
  cbn [default from_option id]. rewrite land_bytes_idem, land_bytes_length by congruence. done.
Qed.

(** The address lies in the subnet the lease names. *)
Lemma given_in_subnet base len m p s name dir c ip :
  cut_network base len m -> pool_of base len m p -> IsMember p s = true ->
  GenerateConfig s name dir = Ok c -> given_by c ip ->
  exists ip0 net, ParseCIDR s = Ok (ip0, net) /\ Contains net (To4 ip) = true.
Proof.
  intros Hcut Hp (n & i & k & -> & Hi & _ & Hform)%(member_form _ _ _ _ _ Hcut Hp) Hc (Hip & ranges & range & Hrs & Hr & Hin).
  assert (0 <= n <= 32) as Hn by (destruct Hcut; destruct Hform as [[-> _]|[-> _]]; lia).
  pose proof (ParseCIDR_text _ n (be_bytes4_v4 (base + i)) Hn) as Htext.
  unfold GenerateConfig, types_ParseCIDR in Hc. unfold subnet_at in *. rewrite Htext in Hc.
  apply (f_equal (fun x => match x with Ok c' => c' | Err _ => c end)) in Hc. cbv beta iota in Hc. subst c.
  cbn [Ranges IPAM] in Hrs. apply list_elem_of_singleton in Hrs as ->.
  apply list_elem_of_singleton in Hr as ->. cbn [Range_Subnet IPNet_Mask] in Hin.
  do 2 eexists. split; [exact Htext|].
  rewrite Contains_masked in Hin by auto using be_bytes4_v4. rewrite <- Contains_To4; [exact Hin|].
  intros E. destruct Hip as [Hl _]. by rewrite E in Hl.
Qed.

Lemma generated_differ ip ip' p0 p1 :
  is_ipv4 ip -> is_ipv4 ip' -> To4 ip <> To4 ip' ->
  GenerateHardwareAddr4 ip [p0; p1] <> GenerateHardwareAddr4 ip' [p0; p1].
Proof. intros H H' Hne. rewrite !GenerateHardwareAddr4_ok by done. intros [= E]. done. Qed.

(** C17. From the controller's table to the containers' interfaces. Take two different
    rows of the table at any moment of any run of the controllers, and on each of the
    two cells a container whose address host-local has chosen in the range that
    silk-cni passes it for the cell's lease. The two containers have different
    addresses, and the hardware addresses of both ends of their veth pairs and the
    names of the devices on the host are different too, unless one of the two rows is
    foreign: a request to renew has named its subnet, which is not of the pool ([R] are
    the leases that requests to renew name, any leases at all). *)
Theorem containers_never_collide fuel seed range base len m p R s s' r r' name dir name' dir' c c' ip ip' :
  overlay_network range base len -> len <= m <= 32 -> pool_fuel len m <= Z.of_nat fuel ->
  NewCIDRPool fuel (Ok seed) range m = Returns p ->
  holds_all (known p R) (w_table (world s)) -> unique_table (w_table (world s)) -> threads s = [] ->
  rtc (sys_step p R) s s' ->
  r ∈ w_table (world s') -> r' ∈ w_table (world s') -> r <> r' ->
  GenerateConfig (row_overlay_subnet r) name dir = Ok c ->
  GenerateConfig (row_overlay_subnet r') name' dir' = Ok c' ->
  given_by c ip -> given_by c' ip' ->
  (To4 ip <> To4 ip' /\ Cni.GenerateForContainer ip <> Cni.GenerateForContainer ip' /\
   Cni.GenerateForHost ip <> Cni.GenerateForHost ip' /\
   DeviceName.GenerateForHost ip <> DeviceName.GenerateForHost ip') \/
  foreign p R r \/ foreign p R r'.
Proof.
  intros Hnet Hm Hfuel Hp Hwf Hu Hth Hrtc Hr Hr' Hne Hc Hc' Hip Hip'.
  destruct (run_known p R s s') as [Hwf' Hu']; [done..|].
  destruct (known_cases _ _ _ _ Hwf' Hr) as [Hin|]; [|by auto].
  destruct (known_cases _ _ _ _ Hwf' Hr') as [Hin'|]; [|by auto]. left.
  assert (disjoint_subnets (row_overlay_subnet r) (row_overlay_subnet r')) as Hdis by by eapply rows_apart.
  destruct (NewCIDRPool_pool_of fuel seed range base len m) as (p' & Hp' & Hpool); [done..|].
  assert (p' = p) as -> by congruence. pose proof (overlay_network_cut _ _ _ m Hnet Hm) as Hcut.
  destruct (given_in_subnet _ _ _ _ _ _ _ _ _ Hcut Hpool Hin Hc Hip) as (? & net & E & Hx).
  destruct (given_in_subnet _ _ _ _ _ _ _ _ _ Hcut Hpool Hin' Hc' Hip') as (? & net' & E' & Hx').
  destruct Hdis as (? & n1 & ? & n2 & E1 & E2 & Hdis).
  assert (n1 = net) as -> by congruence. assert (n2 = net') as -> by congruence.
  destruct Hip as [Hv _], Hip' as [Hv' _].
  assert (To4 ip <> To4 ip') as H4.
  { intros E4. rewrite <- E4 in Hx'. by rewrite (Hdis (To4 ip)) in Hx'. }
  split_and!; [done|by apply generated_differ..|].
  intros EN. apply H4. by apply (device_name_inj "s").
Qed.

Lemma containers_never_collide_witness :
  DeviceName.GenerateForHost [10; 255; 0; 1] <> DeviceName.GenerateForHost [10; 255; 0; 3].
Proof.
  destruct empty_table_ok as [_ Hu].
  destruct (containers_never_collide 8 7 "10.255.0.0/30" 184483840 30 31 small_pool no_renewal
    (system_of (server [], [])) (system_of (execute (server []) two_cells))
    {| row_underlay_ip := "10.0.0.2"; row_overlay_subnet := "10.255.0.1/32";
       row_overlay_hwaddr := "ee:ee:0a:ff:00:01"; row_last_renewed_at := 1005 |}
    (cell_row "10.0.0.1" 1006) "silk" "/d" "silk" "/d" _ _ [10; 255; 0; 1] [10; 255; 0; 3]
    overlay_example ltac:(lia) ltac:(vm_compute; discriminate) small_pool_new (List.Forall_nil _) Hu eq_refl two_cells_run
    ltac:(rewrite two_cells_table; apply list_elem_of_here)
    ltac:(rewrite two_cells_table; apply list_elem_of_further, list_elem_of_here)
    ltac:(discriminate) eq_refl eq_refl) as [(_ & _ & _ & H)|[H|H]].
  - split; [by split; [reflexivity|repeat constructor; discriminate]|].
    do 2 eexists. split_and!; [apply list_elem_of_here|apply list_elem_of_here|reflexivity].
  - split; [by split; [reflexivity|repeat constructor; discriminate]|].
    do 2 eexists. split_and!; [apply list_elem_of_here|apply list_elem_of_here|reflexivity].
  - exact H.
  - by destruct (no_foreign _ _ H).
  - by destruct (no_foreign _ _ H).
Defined.
