(* ===== verification/CniFacts.v ===== *)
(** * What the CNI plugin guarantees

    A container that [cmdAdd] reports as connected is wired to the host exactly as
    configured, and recorded; no other device is touched, whatever fails; and
    [cmdDel] restores the devices and the record. *)

From Stdlib Require Import ZArith Lia Ascii.
From S2P Require Import Prelude GoFmt GoPath GoNet NetFacts HwAddr Types Netlink Http Datastore Config.
From S2P Require Import CniConfig CniConfigFacts CniLib CniPlugin CniKernel CniLibFacts CniPairFacts.

(** ** The world of the plugin

    The kernel, the datastore's file, the last result of the IPAM plugin and the
    last result printed. *)

Record world := {
  w_net : knet;
  w_file : file;
  w_ipam : option CniResult;
  w_printed : option CniResult
}.

Definition set_net (k : knet) (w : world) : world :=
  {| w_net := k; w_file := w_file w; w_ipam := w_ipam w; w_printed := w_printed w |}.
Definition set_file (f : file) (w : world) : world :=
  {| w_net := w_net w; w_file := f; w_ipam := w_ipam w; w_printed := w_printed w |}.
Definition set_ipam (r : CniResult) (w : world) : world :=
  {| w_net := w_net w; w_file := w_file w; w_ipam := Some r; w_printed := w_printed w |}.
Definition set_printed (r : CniResult) (w : world) : world :=
  {| w_net := w_net w; w_file := w_file w; w_ipam := w_ipam w; w_printed := Some r |}.

Section Contract.
Context (healthy : Prop) (ns_of_fd : Z -> Z) (ns_of_path : string -> Z).

Definition ns_spec {X} (e : nsE X) : X -> Prop :=
  match e with
  | GetNS path => fun x =>
      match x with
      | Ok n => ns_of_fd (NS_Fd n) = ns_of_path path /\ NS_Path n = path
      | Err _ => ~ healthy
      end
  end.

Definition plugin_step (X : Type) (e : pluginE X) (w w' : world) : X -> Prop :=
  match e with
  | OnHost e => fun x =>
      host_step healthy ns_of_fd _ e (w_net w) (w_net w') x /\ w' = set_net (w_net w') w
  | OnNs e => fun x => ns_spec e x /\ w' = w
  | OnFile e => fun x =>
      (file_step _ e (w_file w) (w_file w') x /\ (healthy -> answers e x)) /\
      w' = set_file (w_file w') w
  | NewResultFromResult _ => fun x =>
      match x with Ok r => byte_addresses r /\ w' = set_ipam r w | Err _ => w' = w end
  | PrintResult r _ => fun x =>
      match x with Ok _ => w' = set_printed r w | Err _ => w' = w /\ ~ healthy end
  | _ => fun _ => w' = w
  end.

Abbreviation step := plugin_step.

Lemma on_host_wp {A} (p : prog hostE A) w Q :
  wp (host_step healthy ns_of_fd) p (w_net w) (fun k a => Q (set_net k w) a) -> wp step (on_host p) w Q.
Proof. intros H. apply (wp_zoom _ (host_step healthy ns_of_fd) (@OnHost) w_net set_net); try done. by intros []. Qed.

Lemma on_ns_wp {A} (p : prog nsE A) w Q :
  wp (fun X e (_ _ : unit) x => ns_spec e x) p tt (fun _ a => Q w a) -> wp step (on_ns p) w Q.
Proof.
  intros H. apply (wp_zoom _ (fun X e (_ _ : unit) x => ns_spec e x) (@OnNs) (fun _ => tt) (fun _ w => w)); try done.
Qed.

Lemma on_file_wp {A} (p : prog fileE A) w Q :
  wp (fun X e f f' x => file_step X e f f' x /\ (healthy -> answers e x)) p (w_file w)
    (fun f a => Q (set_file f w) a) -> wp step (on_file p) w Q.
Proof.
  intros H. by apply (wp_zoom _ (fun X e f f' x => file_step X e f f' x /\ (healthy -> answers e x))
    (@OnFile) w_file set_file); try done; intros [].
Qed.

(** ** What a connected container looks like *)

Abbreviation ns_of := (fun n => ns_of_fd (NS_Fd n)).

Definition end_wired (name : string) (mtu i : Z) (local peer : DualAddress) (routes : list Route)
    (d : device) : Prop :=
  dev_name d = name /\ (0 < mtu -> dev_mtu d = mtu) /\
  HardwareAddr_String (dev_hw d) = HardwareAddr_String (Hardware local) /\
  dev_up d = true /\ dev_arp d = false /\
  dev_addrs d = [ptp_addr local peer] /\ dev_neighs d = [peer_neigh i peer] /\ dev_routes d = routes.

(** A pair of devices added to [D], one end in the host's namespace and the other in
    the container's, each with its addresses and the static entry for the other. *)
Definition wired (cfg : Config) (D : devices) (k : knet) : Prop :=
  let hns := ns_of (Host_Namespace cfg) in
  let cns := ns_of (Container_Namespace cfg) in
  exists i j h c, paired hns i cns j D h c /\ k_devs k = with_pair hns i cns j h c D /\
    name_free cns (Container_DeviceName cfg) D /\
    end_wired (Host_DeviceName cfg) (Container_MTU cfg) i (Host_Address cfg) (Container_Address cfg) [] h /\
    end_wired (Container_DeviceName cfg) (Container_MTU cfg) j (Container_Address cfg) (Host_Address cfg)
      [container_route cfg] c /\
    k_sysctls k !! (hns, rp_filter (Host_DeviceName cfg)) = Some "1" /\
    k_sysctls k !! (cns, rp_filter (Container_DeviceName cfg)) = Some "1" /\
    k_sysctls k !! (hns, ip_forward) = Some "1".

(** No device of the namespace leads to the gateway. *)
Definition no_gateway (ns : Z) (D : devices) : Prop :=
  forall i d, D !! (ns, i) = Some d -> ~ on_link hostIP d.

Lemma hostIP_ipv4 : is_ipv4 hostIP.
Proof. split; [reflexivity|]. repeat constructor; discriminate. Qed.

Lemma set_up_end_wired name mtu i local peer hw (d : device) id pid :
  bare id pid name mtu d -> HardwareAddr_String hw = HardwareAddr_String (Hardware local) ->
  end_wired name mtu i local peer [] (set_up_end i local peer (set_hw hw d)).
Proof.
  intros (_ & _ & Hn & Hm & Ha & Hg & Hr) Hhw. unfold end_wired, set_up_end. cbn.
  by rewrite Ha, Hg, Hr.
Qed.

Lemma add_route_wired name mtu i local peer r d :
  end_wired name mtu i local peer [] d -> end_wired name mtu i local peer [r] (add_route r d).
Proof. intros (? & ? & ? & ? & ? & ? & ? & Hr). split_and!; try done. cbn. by rewrite Hr. Qed.

Lemma bare_renamed id pid old new mtu d : bare id pid old mtu d -> bare id pid new mtu (set_name new d).
Proof. intros (? & ? & _ & ? & ? & ? & ?). by repeat split. Qed.

(** Creating and configuring the pair, as [connect] does before it goes on with [p]. *)
Lemma wire_wp cfg (p : prog pluginE (outcome (result unit))) w Q :
  ns_of (Host_Namespace cfg) <> ns_of (Container_Namespace cfg) -> well_formed cfg ->
  no_gateway (ns_of (Container_Namespace cfg)) (k_devs (w_net w)) ->
  (forall k, wired cfg (k_devs (w_net w)) k -> wp step p (set_net k w) Q) ->
  (forall k o, k_devs (w_net w) ⊆ k_devs k -> o <> Returns (Ok tt) ->
     (healthy -> ~ names_free ns_of_fd cfg (k_devs (w_net w))) -> Q (set_net k w) o) ->
  wp step (
    call _ <- on_host (VethPairCreator_Create cfg) or typedError "create veth pair" ;;
    call _ <- on_host (Host_Setup cfg) or typedError "set up host" ;;
    call _ <- on_host (Container_Setup cfg) or typedError "set up container" ;; p) w Q.
Proof.
  intros Hne Hwf Hgw Hok Hfail. set (D := k_devs (w_net w)) in *.
  apply wp_bind_out, on_host_wp. eapply wp_mono; [by apply Create_wp|].
  intros k1 o1 (_ & Hsub1 & Hc1 & Hh1).
  destruct o1 as [[[]|e]|m|]; [|by apply Hfail; [..|intros H Hn; specialize (Hh1 H Hn)]..].
  destruct (Hc1 eq_refl) as (i & j & h & c & Hp & HD1 & Hbh & Hbc & Hfree). clear Hc1 Hh1.
  apply wp_bind_out, on_host_wp. eapply wp_mono.
  { eapply Host_Setup_wp; [exact Hp|exact HD1|apply Hbh|]. rewrite (wf_host_ip cfg Hwf). apply hostIP_ipv4. }
  intros k2 o2 (_ & h2 & Hs2 & HD2 & Hr2 & Hh2).
  assert (paired (ns_of (Host_Namespace cfg)) i (ns_of (Container_Namespace cfg)) j D h2 c) as Hp2
    by (by eapply paired_same).
  destruct o2 as [[[]|e]|m|];
    [|by apply Hfail; [rewrite HD2; apply with_pair_subseteq, Hp|..|intros H%Hh2]..].
  destruct (Hr2 eq_refl) as ((hw & Hhw & ->) & Hrp & Hfw).
  apply wp_bind_out, on_host_wp. eapply wp_mono; [by eapply Container_Setup_wp; [..|apply Hbc| |]|].
  intros k3 o3 (Hk3 & c3 & Hid & Hpeer & HD3 & Hr3 & Hh3).
  destruct o3 as [[[]|e]|m|];
    [|by apply Hfail; [rewrite HD3; apply with_pair_subseteq, Hp|..|intros H (_ & _ & _ & Hn1 & _ & Hn2); specialize (Hh3 H Hn1 Hn2)]..].
  apply Hok. destruct (Hr3 eq_refl) as ((hw' & Hhw' & E) & Hfree' & Hrp').
  eexists i, j, _, c3. split_and!; [by eapply paired_same|exact HD3|done| | |by apply Hk3|done|by apply Hk3].
  - by eapply set_up_end_wired.
  - rewrite E. apply add_route_wired. eapply set_up_end_wired; [|done]. by eapply bare_renamed.
Qed.

(** ** The plugin *)

Context {M : Type} (codec : MapCodec M) (stable : string -> Container M -> Prop).
Context (Hcodec : CodecLaws codec stable).
Context (json : Json) (pjson : PluginJson) (HostNS : NetNS).
Context (error_text : list (string * list string) -> string).

(** The datastore's file holds one container more. *)
Definition recorded (args : CmdArgs) (ip : IP) (f f' : file) : Prop :=
  forall pool, holds codec f pool ->
    holds codec f' (<[Base (Netns args) := container (Base (Netns args)) (IP_String ip) None]> pool).

(** JSON keeps the record of the container, whatever IPv4 address it has. *)
Definition recordable (args : CmdArgs) : Prop :=
  forall ip, is_ipv4 ip -> stable (Base (Netns args)) (container (Base (Netns args)) (IP_String ip) None).

Definition connected (args : CmdArgs) (r : CniResult) (mtu : Z) (w w' : world) : Prop :=
  exists cfg n, config_of HostNS args r mtu n cfg /\ ns_of n = ns_of_path (Netns args) /\
    wired cfg (k_devs (w_net w)) (w_net w') /\
    recorded args (container_ip r) (w_file w) (w_file w') /\
    w_printed w' = Some (AsCNIResult cfg).

Lemma validate_container args ip : is_ipv4 ip -> validate (Base (Netns args)) (IP_String ip) = Ok tt.
Proof.
  intros Hip. unfold validate. rewrite decide_False by apply Base_nonempty.
  rewrite IP_String_v4 by apply Hip. by rewrite ParseIP_dotted.
Qed.

Lemma Add_container_wp path args ip w (p : unit -> prog pluginE (outcome (result unit))) g Q :
  recordable args -> is_ipv4 ip ->
  (forall f, recorded args ip (w_file w) f -> wp step (p tt) (set_file f w) Q) ->
  (forall f err, (healthy -> encodable codec stable -> (exists pool, holds codec (w_file w) pool) -> False) ->
     Q (set_file f w) (Returns (Err err))) ->
  wp step (call u <- returning (on_file (Add codec path (Base (Netns args)) (IP_String ip) None)) or g ;; p u) w Q.
Proof.
  intros Hrec Hip Hok Herr. apply wp_bind_out, wp_returning, on_file_wp. eapply wp_mono.
  - apply wp_and.
    + eapply wp_step_mono; [|by eapply Add_wp; [|apply Hrec]]. by intros X e f f' x [H _].
    + apply (wp_impl _ (healthy /\ encodable codec stable /\ exists pool, holds codec (w_file w) pool) _ _
        (fun _ x => x = Ok tt)).
      intros (Hh & Henc & pool & Hp). apply (wp_step_mono working_step); [intros X e f f' x [Hs Ha]; split; [exact Hs|by apply Ha]|].
      eapply wp_mono; [eapply Add_works; [exact Hcodec|exact Henc|by apply Hrec|by apply validate_container|exact Hp]|].
      by intros f x [_ Hx].
  - intros f [[]|e] [Hadd Hlive].
    + apply Hok. destruct (Hadd eq_refl) as (_ & pool & Hp & Hp'). intros pool' Hpool'.
      by rewrite (holds_fun _ _ _ _ Hpool' Hp).
    + apply Herr. intros H1 H2 H3. by specialize (Hlive (conj H1 (conj H2 H3))).
Qed.

(** What is free for the devices of the container. *)
Definition room_for (args : CmdArgs) (r : CniResult) (D : devices) : Prop :=
  forall host temp, DeviceName.GenerateForHost (container_ip r) = Ok host ->
    DeviceName.GenerateTemporaryForContainer (container_ip r) = Ok temp ->
    name_free (ns_of HostNS) host D /\ name_free (ns_of HostNS) temp D /\
    name_free (ns_of_path (Netns args)) temp D /\ name_free (ns_of_path (Netns args)) (IfName args) D /\
    IfName args <> temp.

Lemma room_names args r mtu n cfg D :
  config_of HostNS args r mtu n cfg -> ns_of n = ns_of_path (Netns args) ->
  room_for args r D -> names_free ns_of_fd cfg D.
Proof.
  intros Hcfg Hn Hroom. destruct (Hroom _ _ (of_host_name _ _ _ _ _ _ Hcfg) (of_temporary _ _ _ _ _ _ Hcfg))
    as (H1 & H2 & H3 & H4 & H5).
  unfold names_free. destruct Hcfg as [E1 -> _ _ Ht _ _ Hh -> _ _]. rewrite Hn, E1. split_and!; try done.
  intros E. rewrite <- E in Ht. unfold DeviceName.GenerateForHost, DeviceName.GenerateTemporaryForContainer,
    DeviceName.generate in Ht, Hh. destruct (To4 (container_ip r)) as [|? [|? [|? [|? []]]]]; try done.
  rewrite <- Hh in Ht. discriminate.
Qed.

Lemma connect_wp args netConf r mtu w :
  recordable args -> byte_addresses r -> ns_of HostNS <> ns_of_path (Netns args) ->
  no_gateway (ns_of_path (Netns args)) (k_devs (w_net w)) ->
  wp step (connect codec HostNS args netConf r mtu) w (fun w' o =>
    k_devs (w_net w) ⊆ k_devs (w_net w') /\ w_ipam w' = w_ipam w /\
    (o = Returns (Ok tt) -> connected args r mtu w w') /\
    (healthy -> can_configure args r -> room_for args r (k_devs (w_net w)) -> encodable codec stable ->
     (exists pool, holds codec (w_file w) pool) -> o = Returns (Ok tt))).
Proof.
  intros Hrec Hb Hne Hgw. unfold connect.
  assert (can_configure args r \/ ~ can_configure args r) as [Hcan|Hno].
  { unfold can_configure. destruct (decide (IfName args = "")), (decide (String.length (IfName args) <= 15)%nat),
      (decide (To4 (container_ip r) = [])); tauto. }
  2: { apply wp_bind_out, wp_returning, on_ns_wp. eapply wp_mono; [by apply Create_refuses|].
       intros _ x [e ->]. by split_and!. }
  destruct (Create_configures HostNS args r mtu Hb Hcan) as (mk & Hmk & ->).
  apply wp_bind_out, wp_returning, on_ns_wp. wp_call. intros [] [n|e] Hn; [|by split_and!].
  destruct Hn as [Hn _]. pose proof (Hmk n) as Hcfg. set (cfg := mk n) in *.
  assert (is_ipv4 (container_ip r)) as Hip by (apply container_ip_ipv4; [done|apply Hcan]).
  assert (ns_of (Container_Namespace cfg) = ns_of_path (Netns args)) as Hcns by (by rewrite (of_namespace _ _ _ _ _ _ Hcfg)).
  cbn [wp]. apply wire_wp.
  - by rewrite Hcns, (of_host_namespace _ _ _ _ _ _ Hcfg).
  - split; [by rewrite (of_ip _ _ _ _ _ _ Hcfg)|apply Hcfg|apply Hcfg].
  - by rewrite Hcns.
  - intros k Hk. rewrite (of_ip _ _ _ _ _ _ Hcfg). apply Add_container_wp; [done|done|..].
    + intros f Hf. apply wp_returning, wp_trigger. intros w' [[]|e] Hw'.
      * cbn in Hw'. subst w'. cbn. split_and!; [|done| |done].
        -- destruct Hk as (i & j & h & c & Hp & -> & _). apply with_pair_subseteq, Hp.
        -- intros _. exists cfg, n. by split_and!.
      * destruct Hw' as [-> Hnh]. cbn. split_and!; [|done..].
        destruct Hk as (i & j & h & c & Hp & -> & _). apply with_pair_subseteq, Hp.
    + intros f err Hnh. cbn. split_and!; [|done|done|by intros; exfalso; eauto].
      destruct Hk as (i & j & h & c & Hp & -> & _). apply with_pair_subseteq, Hp.
  - intros k o Hsub Ho Hnh. cbn. split_and!; [done|done|done|].
    intros Hh _ Hroom _ _. destruct (Hnh Hh). by eapply room_names.
Qed.

(** The MTU of the plugin's configuration is used if there is one. *)
Definition mtu_chosen (netConf : NetConf) (mtu : Z) : Prop :=
  0 <= NetConf_MTU netConf /\ (NetConf_MTU netConf <> 0 -> mtu = NetConf_MTU netConf).

Lemma Discover_mtu info netConf i :
  0 <= NetConf_MTU netConf -> Discover info (NetConf_MTU netConf) = Ok i -> mtu_chosen netConf (Info_MTU i).
Proof.
  intros Hm. unfold Discover, mtu_chosen. destruct info as [i0|e]; [|done].
  case_match; intros [= <-]; split; done || lia.
Qed.

(** Finding out the network changes nothing, and a negative MTU is refused. *)
Lemma getNetworkInfo_wp netConf w :
  wp step (getNetworkInfo json pjson error_text netConf) w (fun w' x => w' = w /\
    forall i, x = Ok i -> mtu_chosen netConf (Info_MTU i)).
Proof.
  unfold getNetworkInfo. destruct (Validate error_text (show_NetConf netConf)) as [[]|e] eqn:Hv; [|done].
  apply Validate_Ok in Hv. cbn in Hv.
  assert (0 <= NetConf_MTU netConf) as Hm.
  { destruct (Z.ltb_spec (NetConf_MTU netConf) 0); [discriminate Hv|done]. }
  cbn [bind_err bind]. apply wp_bind. case_decide.
  - wp_call. intros w2 x ->. cbn [wp]. split; [done|]. intros i. by apply Discover_mtu.
  - unfold Daemon_Get. apply wp_bind_err.
    apply (wp_zoom _ (fun _ _ (_ _ : unit) _ => True) (@OnHttp) (fun _ => tt) (fun _ w => w)); try done.
    eapply wp_mono; [apply wp_true|].
    intros _ [i|e] _; (split; [done|]); intros j; by apply Discover_mtu.
Qed.

Lemma cmdAdd_wp args w :
  recordable args -> ns_of HostNS <> ns_of_path (Netns args) -> no_gateway (ns_of_path (Netns args)) (k_devs (w_net w)) ->
  wp step (cmdAdd codec json pjson HostNS error_text args) w (fun w' o =>
    k_devs (w_net w) ⊆ k_devs (w_net w') /\
    (o = Returns (Ok tt) -> exists netConf r mtu, Unmarshal_NetConf pjson (StdinData args) = Ok netConf /\
       mtu_chosen netConf mtu /\ w_ipam w' = Some r /\ connected args r mtu w w')).
Proof.
  intros Hrec Hne Hgw. unfold cmdAdd. destruct (Unmarshal_NetConf pjson (StdinData args)) as [netConf|e]; [|done].
  apply wp_bind_out, wp_returning. eapply wp_mono; [apply getNetworkInfo_wp|].
  intros w1 [info|e] [-> Hmtu]; [|done]. destruct (GenerateConfig _ _ _) as [ipam|e]; [|done].
  wp_call. intros w2 [res|e] ->; [|done]. wp_call. intros w3 [r|e] Hw3; cbn in Hw3; [|by subst w3].
  destruct Hw3 as [Hb ->]. eapply wp_mono; [by apply connect_wp|].
  intros w4 o (Hsub & Hipam & Hok & _). split; [done|]. intros Ho. exists netConf, r, (Info_MTU info). auto 8.
Qed.

(** Taking down a container that is wired. Its devices go together or not at all. *)
Lemma cmdDel_wp args cfg D w :
  is_Ok (Unmarshal_NetConf pjson (StdinData args)) = true ->
  wired cfg D (w_net w) -> Container_DeviceName cfg = IfName args ->
  ns_of (Container_Namespace cfg) = ns_of_path (Netns args) ->
  wp step (cmdDel codec pjson args) w (fun w' o =>
    (k_devs (w_net w') = k_devs (w_net w) \/ k_devs (w_net w') = D) /\
    (healthy -> encodable codec stable -> o = Returns (Ok tt) /\ k_devs (w_net w') = D /\
      forall pool, holds codec (w_file w) pool -> holds codec (w_file w') (delete (Base (Netns args)) pool))).
Proof.
  intros Hun (i & j & h & c & Hp & HD & Hfree & _ & Hc & _) Hname Hns. unfold cmdDel.
  destruct (Unmarshal_NetConf pjson (StdinData args)) as [netConf|e]; [|done].
  wp_call. intros w1 _ ->. wp_call. intros w2 [n|e] [Hn ->]; [|split_and!; [by left|by intros []%Hn]].
  destruct Hn as [Hn _]. rewrite Hns, <- Hn in *.
  apply wp_bind_out, on_host_wp. eapply wp_mono.
  { eapply Container_Teardown_wp; [exact Hp|exact HD|rewrite <- Hname; apply Hc|by rewrite <- Hname]. }
  intros k o (_ & Hk & Ho).
  destruct o as [[[]|e]|msg|]; [|split_and!; [exact Hk|intros Hh; by destruct (Ho Hh)]..].
  apply wp_bind, on_file_wp.
  eapply (wp_mono _ _ _ (fun f' _ => healthy -> encodable codec stable -> forall pool, holds codec (w_file w) pool ->
    holds codec f' (delete (Base (Netns args)) pool))); [|by intros f x Hx; split; [exact Hk|intros Hh ?; destruct (Ho Hh); split_and!; auto]].
  apply (wp_impl _ healthy _ _ (fun f' _ => encodable codec stable -> forall pool, _ -> holds codec f' _)). intros Hh.
  apply (wp_impl _ (encodable codec stable) _ _ (fun f' _ => forall pool, _ -> holds codec f' _)). intros Henc.
  apply wp_forall. intros pool. apply (wp_impl _ _ _ _ (fun f' _ => holds codec f' _)). intros Hpool.
  apply (wp_step_mono working_step); [intros X e f f' x [Hs Ha]; split; [exact Hs|by apply Ha]|].
  eapply wp_mono; [by eapply Delete_works; [..|apply Base_nonempty|]|]. by intros f x [Hx _].
Qed.

End Contract.

(** C15. [cmdAdd] connects the container it reports as connected, when the container's
    namespace is not the host's and has no device that leads to 169.254.0.1 yet.
    Whatever fails on the way, and even if it panics, it changes no device that was
    there before. If it succeeds, exactly one pair of devices has been added: one end in
    the host's namespace and one in the container's, each named as [config_of] says from
    the first address of the IPAM plugin, up, without ARP, with its point-to-point
    address, the permanent neighbour entry of the other end and the hardware
    address derived from the container's IP, even if the kernel set another one
    at first; the container has its default route; reverse path filtering and
    forwarding are on; the datastore lists the container; and the result printed
    describes this configuration. The plugin's own MTU is not negative, and is the
    one used unless it is 0. *)
Theorem cmdAdd_connects {M} (codec : MapCodec M) stable json pjson HostNS error_text healthy ns_of_fd ns_of_path
    args w :
  CodecLaws codec stable -> recordable stable args -> ns_of_fd (NS_Fd HostNS) <> ns_of_path (Netns args) ->
  no_gateway (ns_of_path (Netns args)) (k_devs (w_net w)) ->
  wp (plugin_step healthy ns_of_fd ns_of_path) (cmdAdd codec json pjson HostNS error_text args) w (fun w' o =>
    k_devs (w_net w) ⊆ k_devs (w_net w') /\
    (o = Returns (Ok tt) ->
       exists netConf r mtu, Unmarshal_NetConf pjson (StdinData args) = Ok netConf /\
         mtu_chosen netConf mtu /\ w_ipam w' = Some r /\
         connected ns_of_fd ns_of_path codec HostNS args r mtu w w')).
Proof. intros Hc Hrec Hne Hgw. by eapply cmdAdd_wp. Qed.

(** C26. With a kernel and a disk that do what they are asked if they can, [connect], the
    part of [cmdAdd] after the IPAM plugin, succeeds and connects the container, for
    every interface name and address [ConfigCreator] accepts, provided that: the
    container's namespace is not the host's and has no device that leads to 169.254.0.1;
    the four names are free, those of the host's device and of the temporary one in the
    host's namespace, and the temporary one and the interface's in the container's; the
    interface is not named like the temporary device; and the datastore can be read. *)
Theorem connect_succeeds {M} (codec : MapCodec M) stable HostNS ns_of_fd ns_of_path args netConf r mtu pool w :
  CodecLaws codec stable -> encodable codec stable -> recordable stable args -> holds codec (w_file w) pool ->
  ns_of_fd (NS_Fd HostNS) <> ns_of_path (Netns args) ->
  no_gateway (ns_of_path (Netns args)) (k_devs (w_net w)) ->
  byte_addresses r -> can_configure args r -> room_for ns_of_fd ns_of_path HostNS args r (k_devs (w_net w)) ->
  wp (plugin_step True ns_of_fd ns_of_path) (connect codec HostNS args netConf r mtu) w (fun w' o =>
    o = Returns (Ok tt) /\ connected ns_of_fd ns_of_path codec HostNS args r mtu w w').
Proof.
  intros Hc Henc Hrec Hpool Hne Hgw Hb Hcan Hroom. eapply wp_mono; [by eapply connect_wp|].
  intros w' o (_ & _ & Hok & Hlive). assert (o = Returns (Ok tt)) as Ho by (apply Hlive; eauto). auto.
Qed.

(** C16. [cmdDel] undoes [cmdAdd]. After a [cmdAdd] that succeeded (in a namespace that is
    not the host's and had no device leading to 169.254.0.1), whatever failed during it:
    a [cmdDel] of the same container, if its calls may fail too, leaves the devices as
    they are or brings back exactly those from before [cmdAdd] (it may report success
    in both cases: a namespace or a device it cannot find is none to delete); and with
    a kernel and a disk that do what they are asked if they can, and the namespace
    still there, it succeeds, the devices are those from before, and the datastore has
    lost the container's handle and nothing else, so that it is the one from before
    [cmdAdd] if the handle was new. *)
Theorem cmdDel_undoes_cmdAdd {M} (codec : MapCodec M) stable json pjson HostNS error_text healthy
    ns_of_fd ns_of_path args w :
  CodecLaws codec stable -> encodable codec stable -> recordable stable args ->
  ns_of_fd (NS_Fd HostNS) <> ns_of_path (Netns args) ->
  no_gateway (ns_of_path (Netns args)) (k_devs (w_net w)) ->
  wp (plugin_step healthy ns_of_fd ns_of_path) (cmdAdd codec json pjson HostNS error_text args) w (fun w1 added =>
    added = Returns (Ok tt) ->
    wp (plugin_step healthy ns_of_fd ns_of_path) (cmdDel codec pjson args) w1 (fun w' _ =>
      k_devs (w_net w') = k_devs (w_net w1) \/ k_devs (w_net w') = k_devs (w_net w)) /\
    wp (plugin_step True ns_of_fd ns_of_path) (cmdDel codec pjson args) w1 (fun w' deleted =>
      deleted = Returns (Ok tt) /\ k_devs (w_net w') = k_devs (w_net w) /\
      forall pool, holds codec (w_file w) pool ->
        holds codec (w_file w') (delete (Base (Netns args)) pool) /\
        (pool !! Base (Netns args) = None -> holds codec (w_file w') pool))).
Proof.
  intros Hc Henc Hrec Hne Hgw. eapply wp_mono; [by eapply cmdAdd_wp|].
  intros w1 o [_ Hok] Ho.
  destruct (Hok Ho) as (netConf & r & mtu & Hun & _ & _ & cfg & n & Hcfg & Hn & Hw & Hfile & _).
  assert (ns_of_fd (NS_Fd (Container_Namespace cfg)) = ns_of_path (Netns args)) as Hcns
    by (by rewrite (of_namespace _ _ _ _ _ _ Hcfg)).
  assert (is_Ok (Unmarshal_NetConf pjson (StdinData args)) = true) as Hunok by (by rewrite Hun).
  split.
  - eapply wp_mono; [eapply cmdDel_wp; [exact Hc|done|exact Hw|apply Hcfg|done]|].
    by intros w2 x [Hk _].
  - eapply wp_mono; [eapply (cmdDel_wp True); [exact Hc|done|exact Hw|apply Hcfg|done]|].
    intros w2 x [_ Hh]. destruct (Hh I Henc) as (-> & HD & Hdel). split_and!; [done..|].
    intros pool Hpool. specialize (Hdel _ (Hfile pool Hpool)). rewrite delete_insert_eq in Hdel.
    split; [done|]. intros Hnew. by rewrite delete_id in Hdel.
Qed.

(** ** Two defects *)

(** The network namespace of the container is gone. *)
Definition netns_gone {X} (e : pluginE X) : X -> Prop :=
  match e with
  | OnNs e => match e with GetNS _ => fun x => is_Ok x = false end
  | _ => fun _ => True
  end.

(** When the container's network namespace is already gone, [cmdDel] reports
    success but leaves the container in the datastore: the file keeps every byte.
    The daemon, which replaces its lease only while the datastore is empty
    ([replace_if_unused] in Daemon), counts that container from then on. *)
Theorem cmdDel_without_netns_keeps_record {M} (codec : MapCodec M) pjson ns_of_fd ns_of_path args netConf w :
  Unmarshal_NetConf pjson (StdinData args) = Ok netConf ->
  wp (fun X e w w' x => plugin_step False ns_of_fd ns_of_path X e w w' x /\ netns_gone e x)
    (cmdDel codec pjson args) w (fun w' o => o = Returns (Ok tt) /\ w_file w' = w_file w).
Proof.
  intros Hun. unfold cmdDel. rewrite Hun. wp_call. intros w1 _ [-> _].
  wp_call. intros w2 [n|e] [[_ ->] Hg]; done.
Qed.

(** A device that is found once and not again. *)
Definition vanishing (l : Link) : handler linkE nat := fun X e n =>
  match e in Nl.linkE X return nat * X with
  | Nl.LinkByName _ => (S n, match n with O => Ok l | S _ => Err (Errorf "Link not found") end)
  | Nl.ParseAddr _ => (n, Err (Errorf "invalid address"))
  | Nl.AddrAdd _ _ => (n, Ok tt)
  | Nl.LinkSetHardwareAddr _ _ => (n, Ok tt)
  | Nl.NeighAdd _ => (n, Ok tt)
  | Nl.LinkSetARPOff _ => (n, Ok tt)
  | Nl.LinkSetName _ _ => (n, Ok tt)
  | Nl.LinkSetUp _ => (n, Ok tt)
  | Nl.LinkDel _ => (n, Ok tt)
  | Nl.LinkAdd _ => (n, Ok tt)
  | Nl.LinkSetNsFd _ _ => (n, Ok tt)
  | Nl.RouteAdd _ => (n, Ok tt)
  | Nl.Sysctl _ v => (n, Ok v)
  end.

(** [BasicSetup] looks its device up a second time and drops the error: if the
    device is found the first time and not the second, the plugin panics on a nil
    link instead of reporting that the device is gone. *)
Theorem basic_setup_panics name local peer l :
  snd (run (vanishing l) (BasicSetup name local peer) 0%nat) = Panics nil_dereference.
Proof. reflexivity. Qed.
