(* ===== verification/CniSim.v ===== *)
(** * A kernel in memory

    An executable kernel, disk and set of plugins that keep the contract
    [plugin_step], and the theorems on the CNI plugin at concrete inputs. *)

From Stdlib Require Import ZArith Lia Ascii.
From S2P Require Import Prelude GoFmt GoPath GoNet NetFacts HwAddr Types Netlink Http HttpFacts Datastore.
From S2P Require Import CniConfig CniConfigFacts CniLib CniPlugin CniKernel CniLibFacts CniPairFacts CniFacts.

(** ** Searching devices *)

Definition find_dev (ns : Z) (p : Z -> device -> bool) (D : devices) : option (Z * device) :=
  head (omap (fun '((n, i), d) => if (n =? ns) && p i d then Some (i, d) else None) (map_to_list D)).

Lemma find_dev_Some ns p D i d : find_dev ns p D = Some (i, d) -> D !! (ns, i) = Some d /\ p i d = true.
Proof.
  unfold find_dev. intros H%head_Some_elem_of.
  apply list_elem_of_omap in H as ([[n i'] d'] & Hin & Hx).
  destruct (Z.eqb_spec n ns) as [->|]; [|done]. destruct (p i' d') eqn:E; [|done].
  injection Hx as <- <-. split; [|done]. by apply elem_of_map_to_list.
Qed.

Lemma find_dev_None ns p D : find_dev ns p D = None -> forall i d, D !! (ns, i) = Some d -> p i d = false.
Proof.
  unfold find_dev. intros H%head_None i d Hd%elem_of_map_to_list.
  destruct (p i d) eqn:E; [|done].
  assert ((i, d) ∈ omap (fun '((n, i), d) => if (n =? ns) && p i d then Some (i, d) else None) (map_to_list D))
    as Hin; [|rewrite H in Hin; by apply not_elem_of_nil in Hin].
  apply list_elem_of_omap. exists ((ns, i), d). by rewrite Z.eqb_refl, E.
Qed.

Definition named (name : string) (_ : Z) (d : device) : bool := bool_decide (dev_name d = name).

Lemma find_named_None ns name D : find_dev ns (named name) D = None -> name_free ns name D.
Proof. intros H i d Hd. apply (find_dev_None _ _ _ H) in Hd. by apply bool_decide_eq_false in Hd. Qed.

(** Numbers above all those in use. *)
Definition above (f : Z * Z * device -> Z) (D : devices) : Z :=
  1 + foldr Z.max 0 (map f (map_to_list D)).

Lemma above_spec f D key d : D !! key = Some d -> f (key, d) < above f D.
Proof.
  intros Hin%elem_of_map_to_list. unfold above. induction (map_to_list D) as [|x l IH]; [by apply not_elem_of_nil in Hin|].
  cbn. apply elem_of_cons in Hin as [<-|Hin]; [lia|]. specialize (IH Hin). lia.
Qed.

Definition fresh_index : devices -> Z := above (fun x => x.1.2).
Definition fresh_id : devices -> Z := above (fun x => dev_id x.2).

Lemma fresh_index_None D ns i : fresh_index D <= i -> D !! (ns, i) = None.
Proof.
  intros Hi. destruct (D !! (ns, i)) as [d|] eqn:E; [|done].
  apply (above_spec (fun x => x.1.2)) in E. cbn in E. unfold fresh_index in Hi. lia.
Qed.

Lemma fresh_id_free D id : fresh_id D <= id -> id_free id D.
Proof. intros Hid key d Hd%(above_spec (fun x => dev_id x.2)). cbn in Hd. unfold fresh_id in Hid. lia. Qed.

(** ** The calls *)

Definition with_devs (k : knet) (D : devices) : knet := {| k_devs := D; k_sysctls := k_sysctls k |}.

Definition refused : error := Errorf "operation not permitted".

Definition sim_touch (ns i : Z) (f : device -> device) (k : knet) : knet * result unit :=
  match k_devs k !! (ns, i) with
  | Some d => (with_devs k (<[(ns, i) := f d]> (k_devs k)), Ok tt)
  | None => (k, Err refused)
  end.

Definition link_of (i : Z) (d : device) : Link :=
  {| Link_Index := i; Link_Name := dev_name d; Link_MTU := dev_mtu d; Link_HardwareAddr := dev_hw d |}.

Definition new_device (id peer : Z) (name : string) (mtu : Z) (hw : HardwareAddr) : device :=
  {| dev_id := id; dev_peer := Some peer; dev_name := name; dev_mtu := mtu; dev_hw := hw;
     dev_up := false; dev_arp := true; dev_addrs := []; dev_neighs := []; dev_routes := [] |}.

Definition unconfigured (d : device) : device :=
  {| dev_id := dev_id d; dev_peer := dev_peer d; dev_name := dev_name d; dev_mtu := dev_mtu d;
     dev_hw := dev_hw d; dev_up := false; dev_arp := dev_arp d; dev_addrs := []; dev_neighs := [];
     dev_routes := [] |}.

Definition on_linkb (gw : IP) (d : device) : bool :=
  dev_up d && existsb (fun a => bool_decide (IP_String (IPNet_IP (Peer a)) = IP_String gw)) (dev_addrs d).

Lemma on_linkb_spec gw d : on_linkb gw d = true <-> on_link gw d.
Proof.
  unfold on_linkb, on_link. rewrite andb_true_iff, existsb_exists. apply and_iff_compat_l.
  split; intros (a & Ha & E); exists a; (split; [by apply list_elem_of_In|]).
  - by apply bool_decide_eq_true in E.
  - by apply bool_decide_eq_true.
Qed.

Definition sim_link (ns_of_fd : Z -> Z) (ns : Z) {X} (e : linkE X) (k : knet) : knet * X :=
  match e in Nl.linkE X return knet * X with
  | Nl.LinkByName name =>
      (k, match find_dev ns (named name) (k_devs k) with
          | Some (i, d) => Ok (link_of i d)
          | None => Err (Errorf "Link not found")
          end)
  | Nl.ParseAddr s => (k, types_ParseCIDR s)
  | Nl.AddrAdd l a => sim_touch ns (Link_Index l) (add_addr a) k
  | Nl.LinkSetHardwareAddr l hw => sim_touch ns (Link_Index l) (set_hw hw) k
  | Nl.NeighAdd n => sim_touch ns (Neigh_LinkIndex n) (add_neigh n) k
  | Nl.LinkSetARPOff l => sim_touch ns (Link_Index l) set_arp_off k
  | Nl.LinkSetName l name =>
      match find_dev ns (named name) (k_devs k) with
      | Some _ => (k, Err (Errorf "file exists"))
      | None => sim_touch ns (Link_Index l) (set_name name) k
      end
  | Nl.LinkSetUp l => sim_touch ns (Link_Index l) set_up k
  | Nl.LinkDel l =>
      match k_devs k !! (ns, Link_Index l) with
      | Some d => (with_devs k (without d (k_devs k)), Ok tt)
      | None => (k, Err refused)
      end
  | Nl.LinkAdd v =>
      match find_dev ns (named (Veth_Name v)) (k_devs k), find_dev ns (named (PeerName v)) (k_devs k) with
      | None, None =>
          if decide (Veth_Name v = PeerName v) then (k, Err refused)
          else
            let i := fresh_index (k_devs k) in
            let id := fresh_id (k_devs k) in
            (with_devs k
               (<[(ns, i) := new_device id (id + 1) (Veth_Name v) (Veth_MTU v) (Veth_HardwareAddr v)]>
                  (<[(ns, i + 1) := new_device (id + 1) id (PeerName v) (Veth_MTU v) (PeerHardwareAddr v)]>
                     (k_devs k))), Ok tt)
      | _, _ => (k, Err (Errorf "file exists"))
      end
  | Nl.LinkSetNsFd l fd =>
      match k_devs k !! (ns, Link_Index l) with
      | Some d =>
          let D := delete (ns, Link_Index l) (k_devs k) in
          match find_dev (ns_of_fd fd) (named (dev_name d)) D with
          | None => (with_devs k (<[(ns_of_fd fd, fresh_index D) := unconfigured d]> D), Ok tt)
          | Some _ => (k, Err (Errorf "file exists"))
          end
      | None => (k, Err refused)
      end
  | Nl.RouteAdd r =>
      match find_dev ns (fun i d => on_linkb (Route_Gw r) d &&
                           ((Route_LinkIndex r =? 0) || (Route_LinkIndex r =? i))) (k_devs k) with
      | Some (i, d) => (with_devs k (<[(ns, i) := add_route r d]> (k_devs k)), Ok tt)
      | None => (k, Err (Errorf "network is unreachable"))
      end
  | Nl.Sysctl name v =>
      ({| k_devs := k_devs k; k_sysctls := <[(ns, name) := v]> (k_sysctls k) |}, Ok v)
  end.

(** ** The contract is kept *)

Lemma sim_touch_acts ns i f k :
  acts True (is_Some (k_devs k !! (ns, i))) (touches ns i f (k_devs k)) k
    (fst (sim_touch ns i f k)) (snd (sim_touch ns i f k)).
Proof.
  unfold sim_touch. destruct (k_devs k !! (ns, i)) as [d|] eqn:E; split; try done.
  by exists d.
Qed.

Lemma sim_fails {A : Type} (pre : Prop) eff k e :
  ~ pre -> acts (A := A) True pre eff k k (Err e).
Proof. intros H. split; [done|]. split; [done|]. by intros _. Qed.

Lemma find_named_taken ns name D x : find_dev ns (named name) D = Some x -> ~ name_free ns name D.
Proof.
  destruct x as [i d]. intros [Hd Hn]%find_dev_Some H. apply (H i d Hd). by apply bool_decide_eq_true in Hn.
Qed.

Section Kept.
Context (ns_of_fd : Z -> Z).

Lemma sim_LinkAdd ns v k :
  link_step True ns_of_fd ns _ (Nl.LinkAdd v) k
    (fst (sim_link ns_of_fd ns (Nl.LinkAdd v) k)) (snd (sim_link ns_of_fd ns (Nl.LinkAdd v) k)).
Proof.
  cbn. destruct (find_dev ns (named (Veth_Name v)) (k_devs k)) eqn:E1.
  { apply sim_fails. intros [H _]. by eapply find_named_taken. }
  destruct (find_dev ns (named (PeerName v)) (k_devs k)) eqn:E2.
  { apply sim_fails. intros (_ & H & _). by eapply find_named_taken. }
  case_decide as Hd; [by apply sim_fails; intros (_ & _ & H)|].
  split; [done|]. cbn. set (i := fresh_index (k_devs k)). set (id := fresh_id (k_devs k)).
  eexists i, (i + 1), _, _.
  split_and!; [lia|apply fresh_index_None; lia|apply fresh_index_None; lia|by apply find_named_None..|done| | | | | |
    reflexivity].
  - cbn. lia.
  - apply fresh_id_free. cbn. lia.
  - apply fresh_id_free. cbn. lia.
  - by repeat split.
  - by repeat split.
Qed.

Lemma sim_link_keeps ns X (e : linkE X) k :
  link_step True ns_of_fd ns X e k (fst (sim_link ns_of_fd ns e k)) (snd (sim_link ns_of_fd ns e k)).
Proof.
  destruct e; try (apply sim_touch_acts).
  - cbn. destruct (find_dev _ _ _) as [[i d]|] eqn:E; (split; [done|]); cbn.
    + apply find_dev_Some in E as [Hd Hn]. apply bool_decide_eq_true in Hn. by exists d.
    + intros _. by apply find_named_None.
  - cbn. split; [done|]. destruct (types_ParseCIDR s) eqn:E; [done|]. by intros _ a.
  - cbn. destruct (sim_touch_acts ns (Link_Index link) (set_hw hwaddr) k) as [H1 H2]. split; [done|].
    destruct (snd _); [by exists hwaddr|done].
  - cbn. destruct (find_dev _ _ _) eqn:E.
    + apply sim_fails. intros [_ H]. by eapply find_named_taken.
    + destruct (sim_touch_acts ns (Link_Index link) (set_name name) k) as [H1 H2]. split; [done|].
      destruct (snd _).
      * split; [by apply name_free_delete, find_named_None|done].
      * destruct H2 as [H2 H3]. split; [done|]. intros H [H4 _]. by apply H3.
  - cbn. destruct (k_devs k !! (ns, Link_Index link)) as [d|] eqn:E.
    + split; [done|]. by exists d.
    + apply sim_fails. unfold exists_at. rewrite E. by intros [].
  - apply sim_LinkAdd.
  - cbn. destruct (k_devs k !! (ns, Link_Index link)) as [d|] eqn:E.
    2: { apply sim_fails. by intros (d & H & _). }
    destruct (find_dev _ _ _) eqn:E1.
    + apply sim_fails. intros (d' & [= <-] & H). by eapply find_named_taken.
    + split; [done|]. exists d, (unconfigured d), (fresh_index (delete (ns, Link_Index link) (k_devs k))).
      split_and!; try done; [by apply fresh_index_None|by apply find_named_None].
  - cbn. destruct (find_dev _ _ _) as [[i d]|] eqn:E.
    + apply find_dev_Some in E as [Hd Hp]. apply andb_true_iff in Hp as [Hon Hi].
      apply on_linkb_spec in Hon. apply orb_true_iff in Hi. rewrite !Z.eqb_eq in Hi.
      split; [done|]. exists i, d. by split_and!.
    + apply sim_fails. intros (i & d & Hd & Hon & Hi). apply (find_dev_None _ _ _ E) in Hd.
      apply on_linkb_spec in Hon. rewrite Hon in Hd. cbn in Hd. apply orb_false_iff in Hd as [H1 H2].
      apply Z.eqb_neq in H1, H2. by destruct Hi.
  - done.
Qed.

End Kept.

(** ** The whole world *)

Definition sim_file {X} (e : fileE X) (f : file) : file * X :=
  match e in fileE X return file * X with
  | Locker_Open _ => ({| offset := 0; bytes_of := bytes_of f |}, Ok tt)
  | Seek_Start => ({| offset := 0; bytes_of := bytes_of f |}, Ok tt)
  | Read => ({| offset := length (bytes_of f); bytes_of := bytes_of f |}, Ok (drop (offset f) (bytes_of f)))
  | Truncate_0 => ({| offset := offset f; bytes_of := [] |}, Ok tt)
  | Write s => (written_at f s, Ok tt)
  | Close => (f, tt)
  end.

Definition sim_host (ns_of_fd : Z -> Z) {X} (e : hostE X) (k : knet) : knet * X :=
  match e in hostE X return knet * X with
  | Enter _ => (k, Ok tt)
  | In_ns ns e => sim_link ns_of_fd (ns_of_fd (NS_Fd ns)) e k
  end.

(** The host is namespace 1, every other path leads to namespace 2. *)
Definition host_path : string := "/proc/self/ns/net".
Definition sim_ns (path : string) : Z := if decide (path = host_path) then 1 else 2.

Definition ipam_answer : CniResult :=
  {| Interfaces := []; Routes := [];
     IPs := [{| IPConfig_Interface := None; IPConfig_Gateway := [];
                IPConfig_Address := {| IPNet_IP := [10; 255; 30; 5];
                                       IPNet_Mask := [255; 255; 255; 0] |} |}] |}.

Definition sim : handler pluginE world := fun X e w =>
  match e in pluginE X return world * X with
  | OnHost e => let '(k, x) := sim_host id e (w_net w) in (set_net k w, x)
  | OnNs e => (w, match e in nsE X return X with
                  | GetNS path => Ok {| NS_Path := path; NS_Fd := sim_ns path |}
                  end)
  | OnHttp e => (w, match e in httpE X return X with
                    | NewRequest _ _ => Ok tt
                    | Http_Do _ _ _ => Ok (200, Ok "info")
                    end)
  | OnFile e => let '(f, x) := sim_file e (w_file w) in (set_file f w, x)
  | ReadFile _ => (w, Err (Errorf "no such file or directory"))
  | DelegateAdd _ _ => (w, Ok "ipam")
  | DelegateDel _ _ => (w, Ok tt)
  | NewResultFromResult _ => (set_ipam ipam_answer w, Ok ipam_answer)
  | PrintResult r _ => (set_printed r w, Ok tt)
  end.

Lemma sim_keeps X (e : pluginE X) w :
  plugin_step True id sim_ns X e w (fst (sim X e w)) (snd (sim X e w)).
Proof.
  destruct e; cbn; try done.
  - destruct e as [n|n Y e]; cbn; [done|].
    pose proof (sim_link_keeps id (NS_Fd n) Y e (w_net w)) as H.
    change (id (NS_Fd n)) with (NS_Fd n). by destruct (sim_link id (NS_Fd n) e (w_net w)) as [k x].
  - by destruct e.
  - by destruct e.
  - split; [|done]. repeat constructor; discriminate.
Qed.

(** What holds for every kernel of the contract holds for this one. *)
Lemma sim_sound {A} (p : prog pluginE A) w Q :
  wp (plugin_step True id sim_ns) p w Q -> Q (fst (run sim p w)) (snd (run sim p w)).
Proof.
  intros H. apply (wp_sound (plugin_step True id sim_ns) sim (fun _ => True) id p w Q); try done.
  intros X e w' _. split; [done|]. apply sim_keeps.
Qed.

(** ** At concrete inputs *)

Definition sim_args : CmdArgs :=
  {| ContainerID := "c1"; Netns := "/var/netns/c1"; IfName := "eth0"; StdinData := "{}" |}.

Definition sim_conf : NetConf :=
  {| NetConf_CNIVersion := "1.0.0"; NetConf_Name := "silk"; NetConf_DataDir := "/var/data";
     SubnetFile := ""; NetConf_MTU := 0; NetConf_Datastore := "/var/store.json"; DaemonPort := 23954 |}.

Definition sim_json : PluginJson := {|
  Unmarshal_NetConf _ := Ok sim_conf;
  Unmarshal_NetworkInfo _ := Ok {| Info_OverlaySubnet := "10.255.30.0/24"; Info_MTU := 1450 |};
  Marshal_HostLocalIPAM _ := "{}"
|}.

Definition sim_host_ns : NetNS := {| NS_Path := host_path; NS_Fd := 1 |}.

(** A host with one device, and no container yet. *)
Definition sim_world : world :=
  {| w_net := {| k_devs := {[(1, 2) := {|
                   dev_id := 7; dev_peer := None; dev_name := "eth0"; dev_mtu := 1500;
                   dev_hw := [2; 0; 0; 0; 0; 1]; dev_up := true; dev_arp := true; dev_addrs := [];
                   dev_neighs := []; dev_routes := [] |}]};
                 k_sysctls := ∅ |};
     w_file := {| offset := 0; bytes_of := [] |}; w_ipam := None; w_printed := None |}.

Lemma sim_no_gateway : no_gateway (sim_ns (Netns sim_args)) (k_devs (w_net sim_world)).
Proof. intros i d Hd. cbn in Hd. apply lookup_singleton_Some in Hd as [[=] _]. Qed.

Definition sim_errors (errs : list (string * list string)) : string := String.concat ", " (map fst errs).

Lemma sim_encodable : encodable binary_codec any_entry.
Proof. intros pool _. by eexists. Qed.

Lemma sim_recordable args : recordable any_entry args.
Proof. by intros ip _. Qed.

Lemma cmdAdd_connects_witness :
  let '(w', o) := run sim (cmdAdd binary_codec canonical_json sim_json sim_host_ns sim_errors sim_args) sim_world in
  o = Returns (Ok tt) /\
  exists r mtu, connected id sim_ns binary_codec sim_host_ns sim_args r mtu sim_world w'.
Proof.
  pose proof (sim_sound _ _ _ (cmdAdd_connects binary_codec any_entry canonical_json sim_json sim_host_ns sim_errors True id sim_ns
    sim_args sim_world binary_codec_laws (sim_recordable _) ltac:(discriminate) sim_no_gateway)) as [_ H].
  destruct (run sim _ sim_world) as [w' o] eqn:E. cbn [fst snd] in H.
  assert (o = Returns (Ok tt)) as Ho.
  { apply (f_equal snd) in E. cbn [snd] in E. rewrite <- E. vm_compute. reflexivity. }
  split; [exact Ho|]. destruct (H Ho) as (_ & r & mtu & _ & _ & _ & Hc). exists r, mtu. exact Hc.
Defined.

Lemma connect_succeeds_witness :
  snd (run sim (connect binary_codec sim_host_ns sim_args sim_conf ipam_answer 1450) sim_world) = Returns (Ok tt).
Proof.
  refine (proj1 (sim_sound _ _ _ (connect_succeeds binary_codec any_entry sim_host_ns id sim_ns sim_args sim_conf
    ipam_answer 1450 ∅ sim_world binary_codec_laws sim_encodable (sim_recordable _) (or_intror (conj eq_refl eq_refl))
    ltac:(discriminate) sim_no_gateway _ _ _))).
  - repeat constructor; discriminate.
  - split_and!; [discriminate|cbn; lia|discriminate].
  - intros host temp [= <-] [= <-].
    split_and!; try (intros i d Hd; cbn in Hd; apply lookup_singleton_Some in Hd as [[=] <-]); discriminate.
Defined.

Lemma cmdDel_undoes_cmdAdd_witness :
  let '(w1, added) := run sim (cmdAdd binary_codec canonical_json sim_json sim_host_ns sim_errors sim_args) sim_world in
  let '(w', deleted) := run sim (cmdDel binary_codec sim_json sim_args) w1 in
  added = Returns (Ok tt) /\ deleted = Returns (Ok tt) /\ k_devs (w_net w') = k_devs (w_net sim_world) /\
  holds binary_codec (w_file w') ∅.
Proof.
  pose proof (sim_sound _ _ _ (cmdDel_undoes_cmdAdd binary_codec any_entry canonical_json sim_json sim_host_ns
    sim_errors True id sim_ns sim_args sim_world binary_codec_laws sim_encodable (sim_recordable _)
    ltac:(discriminate) sim_no_gateway)) as H.
  destruct (run sim (cmdAdd _ _ _ _ _ _) sim_world) as [w1 o1] eqn:E. cbn [fst snd] in H.
  assert (o1 = Returns (Ok tt)) as ->.
  { apply (f_equal snd) in E. cbn [snd] in E. rewrite <- E. vm_compute. reflexivity. }
  destruct (H eq_refl) as [_ H2]. apply sim_sound in H2.
  destruct (run sim (cmdDel _ _ _) w1) as [w' o2]. cbn [fst snd] in H2. destruct H2 as (-> & HD & Hf).
  split_and!; [reflexivity|reflexivity|exact HD|].
  destruct (Hf ∅) as [_ Hnew]; [right; split; reflexivity|]. apply Hnew. reflexivity.
Defined.

Lemma cmdDel_without_netns_keeps_record_witness :
  wp (fun X e w w' x => plugin_step False id sim_ns X e w w' x /\ netns_gone e x)
    (cmdDel binary_codec sim_json sim_args) sim_world
    (fun w' o => o = Returns (Ok tt) /\ w_file w' = w_file sim_world).
Proof.
  exact (cmdDel_without_netns_keeps_record binary_codec sim_json id sim_ns sim_args sim_conf sim_world eq_refl).
Defined.
