(* ===== verification/Overlay.v ===== *)
(** * Packets between cells

    What the routes and neighbour entries that the converger sets are for: a packet
    to an address of another cell's lease leaves through the VXLAN device to that
    cell's underlay address. [forward] is what the kernel does with a destination:
    the most specific route, the link-layer address of its gateway, and the
    forwarding entry of that address on the VXLAN device. *)

From Stdlib Require Import ZArith Lia.
From S2P Require Import Prelude GoFmt GoNet NetFacts HwAddr CidrPool Types Sql Store LeaseFacts.
From S2P Require Import Database LeaseController LeaseSafety Concurrency LeaseWitnesses.
From S2P Require Import Netlink Converger ConvergerFacts.

(** ** The kernel's forwarding decision *)

(** How specific the route is for the destination, if it matches. *)
Definition route_match (x : IP) (r : Route) : option Z :=
  match Route_Dst r with
  | None => Some 0
  | Some _ =>
      match ParseCIDR (dst_key r) with
      | Ok (_, net) => if Contains net x then Some (fst (Mask_Size (IPNet_Mask net))) else None
      | Err _ => None
      end
  end.

(** The first of the most specific routes. *)
Fixpoint best_route (x : IP) (rs : list Route) : option (Route * Z) :=
  match rs with
  | [] => None
  | r :: rs' =>
      match route_match x r, best_route x rs' with
      | Some n, Some (r', n') => if n' <=? n then Some (r, n) else Some (r', n')
      | Some n, None => Some (r, n)
      | None, best => best
      end
  end.

Definition find_neigh (key : Z * bool * string) (ns : list Neigh) : option Neigh :=
  find (fun n => bool_decide (neigh_key n = key)) ns.

Definition forward (k : kernel) (x : IP) : option IP :=
  '(r, _) ← best_route x (k_routes k);
  arp ← find_neigh (Route_LinkIndex r, false, IP_String (Route_Gw r)) (k_neighs k);
  fdb ← find_neigh (Route_LinkIndex r, true, HardwareAddr_String (Neigh_HardwareAddr arp)) (k_neighs k);
  Some (Neigh_IP fdb).

(** One entry per key. *)
Record keyed_kernel (k : kernel) : Prop := {
  keyed_routes : NoDup (map dst_key (k_routes k));
  keyed_neighs : NoDup (map neigh_key (k_neighs k))
}.

(** The kernel keeps it so. *)
Definition keyed_step (X : Type) (e : netlinkE X) (k k' : kernel) (x : X) : Prop :=
  netlink_step X e k k' x /\ (keyed_kernel k -> keyed_kernel k').

Lemma keyed_wp {A} (p : prog netlinkE A) k :
  keyed_kernel k -> wp keyed_step p k (fun k' _ => keyed_kernel k').
Proof.
  revert k. induction p as [a|X e f IH]; intros k Hk; [done|].
  intros k' x [_ Hk']. apply IH. auto.
Qed.

Lemma best_route_from x rs r n :
  best_route x rs = Some (r, n) -> r ∈ rs /\ route_match x r = Some n.
Proof.
  revert r n. induction rs as [|q rs IH]; [done|]. intros r n. cbn [best_route].
  destruct (route_match x q) as [nq|] eqn:Eq, (best_route x rs) as [[b nb]|] eqn:Eb; intros H;
    rewrite ?elem_of_cons; try (destruct (nb <=? nq)); simplify_eq; auto;
    destruct (IH _ _ eq_refl); auto.
Qed.

(** A route that is more specific than every other match is the one taken. *)
Lemma best_route_unique x rs r n :
  r ∈ rs -> route_match x r = Some n ->
  (forall r' n', r' ∈ rs -> route_match x r' = Some n' -> r' = r \/ n' < n) ->
  best_route x rs = Some (r, n).
Proof.
  induction rs as [|q rs IH]; [by intros ?%not_elem_of_nil|].
  intros Hr Hn Hbest. cbn [best_route]. apply elem_of_cons in Hr as [<-|Hr].
  - rewrite Hn. destruct (best_route x rs) as [[b nb]|] eqn:Eb; [|done].
    apply best_route_from in Eb as [Hb Hbn].
    destruct (Hbest b nb) as [->|Hlt]; [by apply elem_of_cons; right|done| |].
    + rewrite Hn in Hbn. simplify_eq. by rewrite Z.leb_refl.
    + by replace (nb <=? n) with true by lia.
  - rewrite IH; [|done..|intros; apply Hbest; [by apply elem_of_cons; right|done]].
    destruct (route_match x q) as [nq|] eqn:Eq; [|done].
    destruct (Hbest q nq) as [->|Hlt]; [apply elem_of_cons; by left|done| |].
    + rewrite Eq in Hn. simplify_eq. by rewrite Z.leb_refl.
    + by replace (n <=? nq) with false by lia.
Qed.

Lemma find_neigh_keyed key ns n :
  NoDup (map neigh_key ns) -> n ∈ ns -> neigh_key n = key -> find_neigh key ns = Some n.
Proof.
  intros Hnd Hn Hk. unfold find_neigh. destruct (find _ ns) as [n'|] eqn:E.
  - apply find_some in E as [Hn' Hk']. apply bool_decide_eq_true in Hk'.
    apply list_elem_of_In in Hn'. f_equal. eapply NoDup_map_inj; [done..|congruence].
  - apply list_elem_of_In in Hn. pose proof (find_none _ _ E n Hn) as H.
    by apply bool_decide_eq_false in H.
Qed.

(** ** The leases of the network *)

(** The daemon's converger: its overlay network and its own subnet, as
    [mainWithError] parses them. *)
Record converger_of (range own : string) (c : Converger) : Prop := {
  of_network : exists ip, ParseCIDR range = Ok (ip, OverlayNetwork c);
  of_subnet : exists ip, ParseCIDR own = Ok (ip, LocalSubnet c)
}.

Section Network.
Context {base len m : Z} {p : CIDRPool}.
Hypothesis Hcut : cut_network base len m.
Hypothesis Hpool : pool_of base len m p.

(** A subnet of the pool is the text of its first address and its length, which
    parsing and printing keep. *)
Lemma member_text s :
  IsMember p s = true ->
  exists b n, v4 b /\ 0 <= n <= 32 /\ base <= be_value b < base + 2 ^ (32 - len) /\
    s = cidr_text b n /\
    ParseCIDR s = Ok (v4InV6Prefix ++ b, {| IPNet_IP := b; IPNet_Mask := CIDRMask n 32 |}).
Proof.
  intros (n & i & k & -> & Hi & Hk & Hf)%(member_form base len m); [|done..].
  pose proof (cut_c _ _ _ Hcut). pose proof (cut_m _ _ _ Hcut).
  assert (0 <= n <= 32) as Hn by lia. pose proof (be_bytes4_v4 (base + i)) as Hb.
  exists (be_bytes4 (base + i)), n. split_and!; [done|lia..| | |done|].
  1,2: rewrite (cut_offset Hcut) by done; lia.
  unfold subnet_at. rewrite ParseCIDR_text by done. do 3 f_equal.
  destruct (masked_network _ n Hb Hn) as ([Hl' Hf'] & _). destruct Hb as [Hl Hfb].
  apply be_value_inj; [done..|congruence|]. rewrite be_value_masked by done.
  rewrite (cut_offset Hcut) by done. pose proof (pow_pos n ltac:(lia)).
  assert ((base + i) mod 2 ^ (32 - n) = 0) as Hmod.
  { destruct Hf as [(-> & _ & ->)|(-> & _)]; [|by rewrite Z.mod_1_r].
    destruct (base_block Hcut) as [q ->]. rewrite <- Z.mul_add_distr_r. apply Z.mod_mul. lia. }
  pose proof (Z.div_mod (base + i) (2 ^ (32 - n)) ltac:(lia)). lia.
Qed.

(** What a well-formed lease of the network says. *)
Record read_lease (l : Lease) (b : IP) (n : Z) : Prop := {
  read_v4 : v4 b;
  read_len : 0 <= n <= 32;
  read_in : base <= be_value b < base + 2 ^ (32 - len);
  read_subnet : OverlaySubnet l = cidr_text b n;
  read_cidr : ParseCIDR (OverlaySubnet l) =
    Ok (v4InV6Prefix ++ b, {| IPNet_IP := b; IPNet_Mask := CIDRMask n 32 |});
  read_masked : land_bytes b (CIDRMask n 32) = b;
  read_mac : ParseMAC (OverlayHardwareAddr l) = Ok (238 :: 238 :: b);
  read_hw : OverlayHardwareAddr l = HardwareAddr_String (238 :: 238 :: b)
}.

Lemma lease_read l : lease_wf p l -> exists b n, read_lease l b n.
Proof.
  intros [Hm Hhw]. destruct (member_text _ Hm) as (b & n & Hb & Hn & Hin & E & Hp).
  exists b, n. rewrite E, vtep_addr_text in Hhw by done. apply (inj Some) in Hhw.
  split; [done..| | |done].
  { rewrite E, ParseCIDR_text in Hp by done. by injection Hp. }
  rewrite <- Hhw. destruct Hb as [Hl Hf].
  apply ParseMAC_String; [simpl; congruence|]. by repeat constructor.
Qed.

Lemma read_text b n : v4 b -> 0 <= n <= 32 ->
  IPNet_String {| IPNet_IP := b; IPNet_Mask := CIDRMask n 32 |} = cidr_text b n.
Proof. intros [Hl _] Hn. rewrite IPNet_String_v4; rewrite ?To4_v4; done. Qed.

Lemma read_contains l b n x :
  read_lease l b n -> v4 x ->
  Contains {| IPNet_IP := b; IPNet_Mask := CIDRMask n 32 |} x
  = bool_decide (be_value b / 2 ^ (32 - n) = be_value x / 2 ^ (32 - n)).
Proof.
  intros Hl Hx. rewrite <- (Contains_prefix b n x) by (done || apply Hl).
  by rewrite (read_masked _ _ _ Hl).
Qed.

(** A packet's address belongs to one lease. *)
Lemma address_of_one_lease l l' b n b' n' x :
  lease_wf p l -> lease_wf p l' -> read_lease l b n -> read_lease l' b' n' -> v4 x ->
  Contains {| IPNet_IP := b; IPNet_Mask := CIDRMask n 32 |} x = true ->
  Contains {| IPNet_IP := b'; IPNet_Mask := CIDRMask n' 32 |} x = true ->
  OverlaySubnet l = OverlaySubnet l'.
Proof.
  intros [Hm _] [Hm' _] Hl Hl' Hx Hin Hin'.
  destruct (decide (OverlaySubnet l = OverlaySubnet l')) as [|Hne]; [done|].
  destruct (members_disjoint _ _ _ _ _ _ Hcut Hpool Hm Hm' Hne) as (? & n1 & ? & n2 & E1 & E2 & Hdis).
  rewrite (read_cidr _ _ _ Hl) in E1. rewrite (read_cidr _ _ _ Hl') in E2.
  injection E1 as _ <-. injection E2 as _ <-. rewrite Hdis in Hin'; done.
Qed.

Lemma same_address l l' b n n' :
  lease_wf p l -> lease_wf p l' -> read_lease l b n -> read_lease l' b n' ->
  OverlaySubnet l = OverlaySubnet l'.
Proof.
  intros Hw Hw' Hl Hl'. pose proof (read_v4 _ _ _ Hl) as Hb.
  eapply (address_of_one_lease l l' b n b n' b); [done..| |];
    [rewrite (read_contains l)|rewrite (read_contains l')]; try done; by apply bool_decide_eq_true.
Qed.

Context {range own : string} {c : Converger}.
Hypothesis Hnet : overlay_network range base len.
Hypothesis Hc : converger_of range own c.
Hypothesis Hown : IsMember p own = true.

(** Every address of the network is in the converger's overlay network. *)
Lemma network_contains b :
  v4 b -> base <= be_value b < base + 2 ^ (32 - len) -> Contains (OverlayNetwork c) b = true.
Proof.
  intros Hb Hin. destruct Hnet as (ip & net & Hp & Hs & Hbase).
  destruct (of_network _ _ _ Hc) as [ip' Hp']. rewrite Hp in Hp'. injection Hp' as _ <-.
  destruct (ParseCIDR_v4_inv _ _ _ Hp (Mask_Size_32 _ _ Hs)) as (b0 & n & Hb0 & Hn & _ & ->).
  cbn [IPNet_Mask IPNet_IP] in *. rewrite Mask_Size_CIDRMask in Hs by done. injection Hs as <-.
  rewrite Contains_prefix, bool_decide_eq_true by done.
  rewrite be_value_masked in Hbase by done.
  apply Z.div_unique with (be_value b - base); [left|]; lia.
Qed.

(** What the converger makes of a lease of the network that is not its own. *)
Lemma lease_route_remote l b n :
  read_lease l b n -> OverlaySubnet l <> own ->
  lease_route c l = Some (route_to c {| IPNet_IP := b; IPNet_Mask := CIDRMask n 32 |} (v4InV6Prefix ++ b)).
Proof.
  intros [Hb Hn Hin Hs Hp _ _ _] Hne. unfold lease_route. rewrite Hp.
  destruct (member_text _ Hown) as (b' & n' & Hb' & Hn' & _ & E' & Hp').
  destruct (of_subnet _ _ _ Hc) as [ip' Hl]. rewrite Hp' in Hl. injection Hl as _ Hl.
  rewrite decide_False by (rewrite <- Hl, !read_text by done; congruence).
  cbn [IPNet_IP]. by rewrite network_contains.
Qed.

Lemma lease_route_own l : OverlaySubnet l = own -> lease_route c l = None.
Proof.
  intros E. unfold lease_route. rewrite E. destruct (of_subnet _ _ _ Hc) as [ip' Hl]. rewrite Hl.
  by rewrite decide_True.
Qed.

(** ** What the converger wants, for leases of the network *)

Lemma gateway_text b : v4 b -> IP_String (v4InV6Prefix ++ b) = dotted b.
Proof. intros [Hl _]. rewrite IP_String_v4; rewrite To4_prefix; done. Qed.

Lemma dotted_inj b b' : v4 b -> v4 b' -> dotted b = dotted b' -> b = b'.
Proof.
  intros Hb Hb' E. apply (cidr_text_inj b 0 b' 0); [done..|lia|lia|]. unfold cidr_text. by rewrite E.
Qed.

Lemma hwaddr_inj b b' : v4 b -> v4 b' ->
  HardwareAddr_String (238 :: 238 :: b) = HardwareAddr_String (238 :: 238 :: b') -> b = b'.
Proof.
  intros [Hl Hf] [Hl' Hf'] E. apply HardwareAddr_String_inj in E;
    [by injection E|simpl; congruence..|by repeat constructor|by repeat constructor].
Qed.

Lemma wanted_route_inv ls q :
  Forall (lease_wf p) ls -> q ∈ wanted_routes c ls ->
  exists l b n, l ∈ ls /\ lease_wf p l /\ read_lease l b n /\ OverlaySubnet l <> own /\
    q = route_to c {| IPNet_IP := b; IPNet_Mask := CIDRMask n 32 |} (v4InV6Prefix ++ b).
Proof.
  intros Hwf (l & Hl & Hq)%list_elem_of_omap. rewrite Forall_forall in Hwf.
  destruct (lease_read l (Hwf l Hl)) as (b & n & Hr). exists l, b, n.
  assert (OverlaySubnet l <> own) as Hne by (intros E; by rewrite lease_route_own in Hq).
  rewrite (lease_route_remote l b n Hr Hne) in Hq. injection Hq as <-. auto.
Qed.

Lemma lease_neighs_remote l b n :
  read_lease l b n -> OverlaySubnet l <> own ->
  lease_neighs c l = [arp_entry c (v4InV6Prefix ++ b) (238 :: 238 :: b);
                      fdb_entry c (ParseIP (UnderlayIP l)) (238 :: 238 :: b)].
Proof.
  intros Hr Hne. unfold lease_neighs. by rewrite (lease_route_remote l b n), (read_mac _ _ _ Hr).
Qed.

Lemma dst_key_lease l b n gw : read_lease l b n ->
  dst_key (route_to c {| IPNet_IP := b; IPNet_Mask := CIDRMask n 32 |} gw) = OverlaySubnet l.
Proof.
  intros Hr. unfold dst_key, route_to, Dst_String. cbn [Route_Dst].
  rewrite (read_subnet _ _ _ Hr). apply read_text; apply Hr.
Qed.

Lemma wanted_routes_keys ls :
  Forall (lease_wf p) ls -> map dst_key (wanted_routes c ls) `sublist_of` map OverlaySubnet ls.
Proof.
  induction 1 as [|l ls Hl Hls IH]; [done|]. rewrite wanted_routes_cons, map_app.
  destruct (decide (OverlaySubnet l = own)) as [E|Hne].
  - rewrite lease_route_own by done. by apply sublist_cons.
  - destruct (lease_read l Hl) as (b & n & Hr). rewrite (lease_route_remote l b n) by done. simpl.
    rewrite (dst_key_lease l) by done. by apply sublist_skip.
Qed.

Lemma arp_key b hw : v4 b ->
  neigh_key (arp_entry c (v4InV6Prefix ++ b) hw) = (LocalVTEP_Index c, false, dotted b).
Proof. intros Hb. by rewrite <- gateway_text. Qed.

Lemma fdb_key ip hw : neigh_key (fdb_entry c ip hw) = (LocalVTEP_Index c, true, HardwareAddr_String hw).
Proof. done. Qed.

Lemma wanted_neigh_inv ls key :
  Forall (lease_wf p) ls -> key ∈ map neigh_key (wanted_neighs c ls) ->
  exists l b n, l ∈ ls /\ lease_wf p l /\ read_lease l b n /\
    (key = (LocalVTEP_Index c, false, dotted b) \/
     key = (LocalVTEP_Index c, true, HardwareAddr_String (238 :: 238 :: b))).
Proof.
  intros Hwf (q & -> & Hq)%list_elem_of_fmap. apply list_elem_of_bind in Hq as (l & Hq & Hl).
  rewrite Forall_forall in Hwf. destruct (lease_read l (Hwf l Hl)) as (b & n & Hr).
  exists l, b, n. do 3 (split; [by auto|]).
  destruct (decide (OverlaySubnet l = own)) as [E|Hne].
  { unfold lease_neighs in Hq. rewrite lease_route_own in Hq by done. by apply not_elem_of_nil in Hq. }
  rewrite (lease_neighs_remote l b n), !elem_of_cons in Hq by done.
  destruct Hq as [->|[->|[]%not_elem_of_nil]]; [left|by right]. apply arp_key, Hr.
Qed.

Lemma wanted_neighs_keys ls :
  Forall (lease_wf p) ls -> NoDup (map OverlaySubnet ls) -> NoDup (map neigh_key (wanted_neighs c ls)).
Proof.
  induction ls as [|l ls IH]; intros Hwf Hnd; [apply NoDup_nil_2|].
  apply Forall_cons in Hwf as [Hl Hls]. simpl in Hnd. apply NoDup_cons in Hnd as [Hni Hnd].
  rewrite wanted_neighs_cons, map_app. destruct (lease_read l Hl) as (b & n & Hr).
  destruct (decide (OverlaySubnet l = own)) as [E|Hne].
  { unfold lease_neighs. rewrite lease_route_own by done. by apply IH. }
  rewrite (lease_neighs_remote l b n) by done.
  assert (forall key, key ∈ map neigh_key (wanted_neighs c ls) ->
    key <> (LocalVTEP_Index c, false, dotted b) /\
    key <> (LocalVTEP_Index c, true, HardwareAddr_String (238 :: 238 :: b))) as Hother.
  { intros key (l' & b' & n' & Hl' & Hw' & Hr' & Hk)%wanted_neigh_inv; [|done].
    assert (b <> b') as Hbb.
    { intros <-. apply Hni. rewrite (same_address l l' b n n') by done. by apply list_elem_of_fmap_2. }
    pose proof (dotted_inj b b' (read_v4 _ _ _ Hr) (read_v4 _ _ _ Hr')).
    pose proof (hwaddr_inj b b' (read_v4 _ _ _ Hr) (read_v4 _ _ _ Hr')).
    destruct Hk as [-> | ->]; split; intros E;
      pose proof (f_equal snd E) as E2; pose proof (f_equal (fun t => snd (fst t)) E) as E1;
      cbn [fst snd] in E1, E2; try discriminate E1; apply Hbb; auto using eq_sym. }
  cbn [map app]. rewrite arp_key, fdb_key by apply Hr. apply NoDup_cons. split.
  { intros [E|H]%elem_of_cons; [done|]. apply Hother in H as [H _]. by apply H. }
  apply NoDup_cons. split; [|by apply IH]. intros H. apply Hother in H as [_ H]. by apply H.
Qed.

(** ** The packet's way *)

Lemma nil_no_subnet l b n r : read_lease l b n -> dst_key r = OverlaySubnet l -> Route_Dst r <> None.
Proof.
  intros Hr E Hd. unfold dst_key, Dst_String in E. rewrite Hd in E.
  pose proof (read_cidr _ _ _ Hr) as Hp. rewrite <- E in Hp. by vm_compute in Hp.
Qed.

Lemma route_match_lease l b n r x :
  read_lease l b n -> dst_key r = OverlaySubnet l ->
  route_match x r =
    if Contains {| IPNet_IP := b; IPNet_Mask := CIDRMask n 32 |} x then Some n else None.
Proof.
  intros Hr E. pose proof (nil_no_subnet l b n r Hr E) as Hd. unfold route_match.
  destruct (Route_Dst r); [|done]. rewrite E, (read_cidr _ _ _ Hr). cbn [IPNet_Mask].
  by rewrite Mask_Size_CIDRMask by apply Hr.
Qed.

Lemma same_route_eligible l b n r :
  read_lease l b n ->
  same_route (route_to c {| IPNet_IP := b; IPNet_Mask := CIDRMask n 32 |} (v4InV6Prefix ++ b)) r ->
  route_eligible c r = true.
Proof.
  intros Hr Hs. unfold route_eligible. rewrite <- (same_route_link _ _ Hs). cbn [route_to Route_LinkIndex].
  rewrite Z.eqb_refl, andb_true_l, <- (Contains_canon _ _ _ (same_route_canon _ _ Hs)).
  cbn [route_to Route_Gw]. destruct (read_v4 _ _ _ Hr) as [Hl Hf].
  rewrite Contains_To4 by (rewrite To4_prefix by done; by destruct b).
  rewrite To4_prefix by done. by apply network_contains; [|apply Hr].
Qed.

(** The most specific match is the lease's route. *)
Lemma lease_route_best ls k k' l b n r x :
  Forall (lease_wf p) ls -> routes_converged c ls k k' -> keyed_kernel k' ->
  lease_wf p l -> read_lease l b n -> v4 x ->
  Contains {| IPNet_IP := b; IPNet_Mask := CIDRMask n 32 |} x = true ->
  (forall r n', r ∈ k_routes k -> route_eligible c r = false -> route_match x r = Some n' -> n' < n) ->
  r ∈ k_routes k' -> dst_key r = OverlaySubnet l ->
  best_route x (k_routes k') = Some (r, n).
Proof.
  intros Hwf Hconv Hkey Hlw Hr Hx Hin Hshort Hrk Hdst.
  apply best_route_unique; [done|by rewrite (route_match_lease l b n), Hin|].
  intros r' n' Hr' Hm'. destruct (route_eligible c r') eqn:He.
  - left. destruct (routes_not_stale _ _ _ _ Hconv r' Hr' He) as (q & Hq & E%route_agrees_id).
    destruct (wanted_route_inv ls q Hwf Hq) as (l' & b' & n1 & Hl' & Hlw' & Hrd' & _ & ->).
    assert (dst_key r' = OverlaySubnet l') as Hd'.
    { rewrite <- (dst_key_lease l' b' n1 (v4InV6Prefix ++ b') Hrd'). unfold dst_key.
      unfold route_id in E. congruence. }
    rewrite (route_match_lease l' b' n1) in Hm' by done.
    destruct (Contains _ x) eqn:Hin' in Hm'; [|done].
    pose proof (address_of_one_lease l l' b n b' n1 x Hlw Hlw' Hr Hrd' Hx Hin Hin') as Esub.
    apply (NoDup_map_inj dst_key (k_routes k')); [apply Hkey|done..|congruence].
  - right. destruct (routes_from _ _ _ _ Hconv r' Hr') as [Hk|(q & Hq & Hs)]; [by eauto|].
    destruct (wanted_route_inv ls q Hwf Hq) as (l' & b' & n1 & _ & _ & Hrd' & _ & ->).
    by rewrite (same_route_eligible l' b' n1) in He.
Qed.

Lemma forward_remote ls k k' l b n x :
  Forall (lease_wf p) ls -> NoDup (map OverlaySubnet ls) ->
  routes_converged c ls k k' -> neighs_converged c ls k k' -> keyed_kernel k' ->
  l ∈ ls -> read_lease l b n -> OverlaySubnet l <> own -> v4 x ->
  Contains {| IPNet_IP := b; IPNet_Mask := CIDRMask n 32 |} x = true ->
  (forall r n', r ∈ k_routes k -> route_eligible c r = false -> route_match x r = Some n' -> n' < n) ->
  exists u, forward k' x = Some u /\ IP_String u = IP_String (ParseIP (UnderlayIP l)).
Proof.
  intros Hwf Hnd Hrc Hnc Hkey Hl Hr Hne Hx Hin Hshort.
  assert (lease_wf p l) as Hlw by (rewrite Forall_forall in Hwf; auto).
  destruct (routes_present _ _ _ _ Hrc (sublist_NoDup _ _ Hnd (wanted_routes_keys ls Hwf))
    (route_to c {| IPNet_IP := b; IPNet_Mask := CIDRMask n 32 |} (v4InV6Prefix ++ b)))
    as (r & Hrk & Hs).
  { apply list_elem_of_omap. exists l. split; [done|]. by apply lease_route_remote. }
  assert (dst_key r = OverlaySubnet l) as Hdst.
  { rewrite <- (dst_key_lease l b n (v4InV6Prefix ++ b) Hr). symmetry. by apply same_route_key. }
  pose proof (lease_neighs_remote l b n Hr Hne) as Hns.
  assert (forall q, q ∈ lease_neighs c l -> exists n, n ∈ k_neighs k' /\ same_neigh q n) as Hpres.
  { intros q Hq. apply (neighs_present _ _ _ _ Hnc (wanted_neighs_keys ls Hwf Hnd)).
    apply list_elem_of_bind. eauto. }
  rewrite Hns in Hpres.
  destruct (Hpres (arp_entry c (v4InV6Prefix ++ b) (238 :: 238 :: b))) as (arp & Harp & Hsa);
    [by apply list_elem_of_here|].
  destruct (Hpres (fdb_entry c (ParseIP (UnderlayIP l)) (238 :: 238 :: b))) as (fdb & Hfdb & Hsf);
    [by apply list_elem_of_further, list_elem_of_here|].
  exists (Neigh_IP fdb). split; [|symmetry; apply (same_neigh_ip _ _ Hsf)].
  unfold forward. rewrite (lease_route_best ls k k' l b n r x) by done. cbn [mbind option_bind].
  rewrite <- (same_route_link _ _ Hs), <- (same_route_gw _ _ Hs). cbn [route_to Route_LinkIndex Route_Gw].
  rewrite gateway_text by apply Hr.
  rewrite (find_neigh_keyed _ _ arp); [|apply Hkey|done|].
  2:{ rewrite <- (same_neigh_key _ _ Hsa). apply arp_key, Hr. }
  cbn [mbind option_bind]. rewrite <- (same_neigh_hw _ _ Hsa).
  rewrite (find_neigh_keyed _ _ fdb); [done|apply Hkey|done|].
  rewrite <- (same_neigh_key _ _ Hsf). apply fdb_key.
Qed.

(** Every address of a remote lease leads to the lease's cell, unless a route that
    is not silk's is at least as specific. *)
Definition delivers (ls : list Lease) (k k' : kernel) : Prop :=
  forall l ip net x, l ∈ ls -> OverlaySubnet l <> own ->
    ParseCIDR (OverlaySubnet l) = Ok (ip, net) -> v4 x -> Contains net x = true ->
    (forall r n', r ∈ k_routes k -> route_eligible c r = false -> route_match x r = Some n' ->
       n' < fst (Mask_Size (IPNet_Mask net))) ->
    exists u, forward k' x = Some u /\ IP_String u = IP_String (ParseIP (UnderlayIP l)).

Lemma converged_delivers ls k k' :
  Forall (lease_wf p) ls -> NoDup (map OverlaySubnet ls) ->
  routes_converged c ls k k' -> neighs_converged c ls k k' -> keyed_kernel k' -> delivers ls k k'.
Proof.
  intros Hwf Hnd Hr Hn Hk l ip net x Hl Hne Hp Hx Hin Hshort.
  assert (lease_wf p l) as Hlw by (rewrite Forall_forall in Hwf; auto).
  destruct (lease_read l Hlw) as (b & n & Hread). rewrite (read_cidr _ _ _ Hread) in Hp.
  injection Hp as _ <-. cbn [IPNet_Mask] in Hshort.
  rewrite Mask_Size_CIDRMask in Hshort by apply Hread.
  by apply (forward_remote ls k k' l b n x).
Qed.

Lemma Converge_delivers ls k :
  Forall (lease_wf p) ls -> NoDup (map OverlaySubnet ls) -> keyed_kernel k ->
  wp keyed_step (Converge c ls) k (fun k' x => keyed_kernel k' /\ (x = Ok tt -> delivers ls k k')).
Proof.
  intros Hwf Hnd Hk. eapply wp_mono.
  - apply wp_and; [by apply keyed_wp|]. eapply wp_step_mono; [|apply Converge_wp]. by intros ????? [? _].
  - intros k' x [Hk' Hx]. split; [done|]. intros Hok. destruct (Hx Hok). by apply converged_delivers.
Qed.
End Network.

Arguments delivers : clear implicits.

(** What the overlay is for. On a cell whose converger has the network and
    the subnet the daemon parsed, and for leases of the network with one lease
    per subnet, a [Converge] that reports success leaves the kernel forwarding
    every address of every other cell's lease (most specific route, its gateway's
    hardware address, that address's forwarding entry) to that cell's underlay
    IP, where no foreign route is as specific as the lease; and the tables keep
    one entry per key whatever fails. *)
Theorem converge_delivers base len m p range own c ls k :
  cut_network base len m -> pool_of base len m p -> overlay_network range base len ->
  converger_of range own c -> IsMember p own = true ->
  Forall (lease_wf p) ls -> NoDup (map OverlaySubnet ls) -> keyed_kernel k ->
  wp keyed_step (Converge c ls) k (fun k' x =>
    keyed_kernel k' /\ (x = Ok tt -> delivers own c ls k k')).
Proof. intros. by eapply Converge_delivers. Qed.

(** ** At concrete inputs *)

(** The cell with the block of the small network, and a cell with its single IP. *)
Definition small_converger : Converger :=
  {| OverlayNetwork := {| IPNet_IP := [10; 255; 0; 0]; IPNet_Mask := CIDRMask 30 32 |};
     LocalSubnet := {| IPNet_IP := [10; 255; 0; 2]; IPNet_Mask := CIDRMask 31 32 |};
     LocalVTEP_Index := 7 |}.

Definition single_cell : Lease :=
  {| UnderlayIP := "10.0.0.2"; OverlaySubnet := "10.255.0.1/32";
     OverlayHardwareAddr := "ee:ee:0a:ff:00:01" |}.

Definition default_kernel : kernel := {| k_routes := [other_route]; k_neighs := [] |}.

Lemma small_converger_of : converger_of "10.255.0.0/30" "10.255.0.2/31" small_converger.
Proof. split; eexists; vm_compute; reflexivity. Qed.

Lemma small_leases_wf : Forall (lease_wf small_pool) [single_cell; cell_lease "10.0.0.1"].
Proof. apply (bool_decide_unpack _). vm_compute. exact I. Qed.

Lemma NoDup_map_filter {A B} (f : A -> B) (P : A -> Prop) `{forall x, Decision (P x)} l :
  NoDup (map f l) -> NoDup (map f (filter P l)).
Proof. intros Hl. apply (sublist_NoDup _ _ Hl). apply fmap_sublist, sublist_filter. Qed.

Lemma NoDup_map_set {A B} (f : A -> B) `{EqDecision B} x l :
  NoDup (map f l) -> NoDup (map f (x :: filter (fun y => f y <> f x) l)).
Proof.
  intros Hl. simpl. apply NoDup_cons. split; [|by apply NoDup_map_filter].
  intros (y & E & [Hne _]%list_elem_of_filter)%list_elem_of_fmap. congruence.
Qed.

Lemma kernel_handle_keyed X (e : netlinkE X) k :
  keyed_step X e k (fst (kernel_handle X e k)) (snd (kernel_handle X e k)).
Proof.
  split; [apply kernel_handle_spec|]. intros [Hr Hn].
  destruct e; cbn [kernel_handle fst]; (done || split; cbn [k_routes k_neighs]; try done);
    (by apply NoDup_map_set) || by apply NoDup_map_filter.
Qed.

Lemma converge_delivers_witness :
  let '(k', x) := run kernel_handle
    (Converge small_converger [single_cell; cell_lease "10.0.0.1"]) default_kernel in
  x = Ok tt /\
  exists u, forward k' [10; 255; 0; 1] = Some u /\ IP_String u = IP_String (ParseIP "10.0.0.2").
Proof.
  assert (keyed_kernel default_kernel) as Hk.
  { split; [apply NoDup_singleton|apply NoDup_nil_2]. }
  destruct (wp_sound keyed_step kernel_handle (fun _ => True) id
    (Converge small_converger [single_cell; cell_lease "10.0.0.1"]) default_kernel _
    (fun X e s _ => conj I (kernel_handle_keyed X e s)) I
    (converge_delivers 184483840 30 31 small_pool "10.255.0.0/30" "10.255.0.2/31" small_converger
       [single_cell; cell_lease "10.0.0.1"] default_kernel
       (conf_cut _ _ _ _ small_configured) (conf_pool _ _ _ _ small_configured) overlay_example
       small_converger_of ltac:(vm_compute; reflexivity) small_leases_wf
       ltac:(apply (bool_decide_unpack _); vm_compute; exact I) Hk)) as [[_ H] _].
  assert (snd (run kernel_handle (Converge small_converger [single_cell; cell_lease "10.0.0.1"])
    default_kernel) = Ok tt) as E by (vm_compute; reflexivity).
  specialize (H E). unfold id in H.
  destruct (run kernel_handle _ default_kernel) as [k' x]. split; [exact E|].
  refine (H single_cell (v4InV6Prefix ++ [10; 255; 0; 1])
    {| IPNet_IP := [10; 255; 0; 1]; IPNet_Mask := CIDRMask 32 32 |} [10; 255; 0; 1]
    (list_elem_of_here _ _) _ _ _ _ _).
  - discriminate.
  - vm_compute. reflexivity.
  - split; [reflexivity|]. repeat constructor; lia.
  - vm_compute. reflexivity.
  - intros r n' ->%list_elem_of_singleton _ [= <-]. vm_compute. reflexivity.
Defined.
