(* ===== verification/CycleStack.v ===== *)
(** * A cycle of the daemon, from the lease table to the packets

    [main_planner] is the wiring of src/cmd/silk-daemon/main.go: the planner's
    client is the HTTP client of Http.v and its converger the one of Converger.v.
    The controller at the other end serves the daemon's requests statement by
    statement, while other requests change the table between its statements; the
    network between them loses requests and responses; the kernel may refuse a
    call. The theorems: what a cycle that reports success has achieved, and that
    the daemon gives up before its grace period only when its lease was gone. *)

From Stdlib Require Import ZArith Lia.
From S2P Require Import Prelude Vtep Daemon DaemonMain.
From S2P Require Import GoFmt GoNet NetFacts HwAddr CidrPool Types Sql Store History.
From S2P Require Import Database LeaseFacts LeaseController LeaseSafety Concurrency LeaseWitnesses.
From S2P Require Import Http HttpFacts FullStack Planner Netlink Converger ConvergerFacts Overlay.

(** ** The wiring *)

Inductive cycleE : Type -> Type :=
| OnHttp {X} (e : httpE X) : cycleE X
| OnNetlink {X} (e : netlinkE X) : cycleE X
| OnPlanner {X} (e : plannerE X) : cycleE X.

Definition main_planner (json : Json) (baseURL : string) (conv : Converger) (X : Type) (e : plannerE X)
    : prog cycleE X :=
  match e in plannerE X return prog cycleE X with
  | Client_RenewSubnetLease l =>
      interp (fun _ e => trigger (OnHttp e)) (Client.RenewSubnetLease json baseURL l)
  | Client_GetActiveLeases =>
      interp (fun _ e => trigger (OnHttp e)) (Client.GetActiveLeases json baseURL)
  | Converger_Converge ls => interp (fun _ e => trigger (OnNetlink e)) (Converge conv ls)
  | e => trigger (OnPlanner e)
  end.

(** ** The controller while others use it *)

Section Controller.
Context (c : LeaseController) (K : Lease -> Prop) (choices : nat -> choice) (l : Lease).
Context (rely : store_world -> store_world -> Prop).

(** A table of leases in [K] without repeated values, whose texts JSON keeps. *)
Record rows_ok (w : store_world) : Prop := {
  rows_in : holds_all K (w_table w);
  rows_unique : unique_table (w_table w);
  rows_text : Forall (fun r => printable (row_underlay_ip r) = true) (w_table w)
}.

(** What others do, recorded. *)
Definition meanwhile : traced -> traced -> Prop := rtc (recorded rely).

(** A statement of a request, with whatever others do before and after it. *)
Definition busy_step (X : Type) (e : storeE X) (w w' : traced) (x : X) : Prop :=
  exists w1 w2, meanwhile w w1 /\ recorded (fun v v' => store_step X e v v' x) w1 w2 /\ meanwhile w2 w'.

(** A request. Every statement of it is a [busy_step]. *)
Definition api_step (X : Type) (e : apiE X) (w w' : traced) : X -> Prop :=
  match e in apiE X return X -> Prop with
  | Api_AcquireSubnetLease ip single => exec busy_step (AcquireSubnetLease c choices ip single) w w'
  | Api_ReleaseSubnetLease ip => exec busy_step (ReleaseSubnetLease ip) w w'
  | Api_RenewSubnetLease l => exec busy_step (RenewSubnetLease l) w w'
  | Api_RoutableLeases => exec busy_step (RoutableLeases c) w w'
  | Api_CheckDatabase => fun _ => meanwhile w w'
  end.

(** The statements a cycle of the daemon with the lease [l] causes. *)
Definition cycle_statement {X} (e : storeE X) : Prop :=
  match e with
  | AddEntry l' => l' = l
  | LeaseForUnderlayIP ip | RenewLeaseForUnderlayIP ip | LastRenewedAtForUnderlayIP ip =>
      ip = UnderlayIP l
  | AllActive d => d = LeaseExpirationSeconds c
  | _ => False
  end.

(** The steps of the table's history. *)
Definition moment (w w' : store_world) : Prop :=
  rely w w' \/ exists X (e : storeE X) x, cycle_statement e /\ store_step X e w w' x.

(** [w] is a moment of the history of [w']. *)
Definition reaches : traced -> traced -> Prop := rtc (recorded moment).

Definition holds_lease (w : store_world) : Prop := l ∈ map lease_of (w_table w).

(** At a moment between the two the table did not have the lease. *)
Definition lost (w w' : traced) : Prop :=
  exists w1, reaches w w1 /\ ~ holds_lease w1 /\ reaches w1 w'.

(** The table had the lease, and afterwards the row of its underlay IP was renewed. *)
Definition renewed (w w' : traced) : Prop :=
  exists w1 w2, reaches w w1 /\ holds_lease w1 /\ reaches w1 w2 /\ reaches w2 w' /\
    forall r, r ∈ w_table w2 -> row_underlay_ip r = UnderlayIP l ->
      row_last_renewed_at r = w_clock w2.

(** At one moment the list was that of the leases that had not expired. *)
Definition listed (ls : list Lease) (w w' : traced) : Prop :=
  exists w1, reaches w w1 /\ rows_ok w1 /\ reaches w1 w' /\
    ls ≡ₚ map lease_of (filter (fun r =>
      expired (w_clock w1) (LeaseExpirationSeconds c) r = false) (w_table w1)).

(** A statement that inserts only leases in [K], in text JSON keeps. *)
Definition proper_statement {X} (e : storeE X) : Prop :=
  match e with
  | AddEntry l' => K l' /\ printable (UnderlayIP l') = true
  | _ => True
  end.

Lemma proper_statement_ok X (e : storeE X) w w' x :
  proper_statement e -> store_step X e w w' x -> rows_ok w -> rows_ok w'.
Proof using Type.
  clear c l rely. intros He Hs [Hwf Hu Ht].
  assert (insertion_wf K e) as Hi by (destruct e; simpl in *; tauto).
  destruct (store_step_ok _ _ _ _ _ Hs Hi (conj Hwf Hu)) as [[Hwf' Hu'] _].
  split; [done..|]. destruct Hs as [_ Hs]. rewrite Forall_forall in Ht |- *.
  assert (forall r, r ∈ w_table w' -> row_underlay_ip r ∈ map row_underlay_ip (w_table w) \/
    exists l' now, r = lease_row now l' /\ printable (UnderlayIP l') = true) as Hfrom.
  { intros r Hr. apply (list_elem_of_fmap_2 row_underlay_ip) in Hr as Hm.
    destruct e; simpl in He, Hs; repeat case_match; destruct_and?; destruct_or?; destruct_and?;
      match goal with H : w_table w' = _ |- _ => rewrite H in Hr, Hm end; auto;
      try (by apply elem_of_app in Hr as [Hr|Hr%list_elem_of_singleton];
        [left; apply list_elem_of_fmap_2|right; eauto]);
      try (by apply list_elem_of_filter in Hr as [_ Hr]; left; apply list_elem_of_fmap_2);
      try (by rewrite map_renew_ip in Hm; auto). }
  intros r [(r' & E & Hr')%list_elem_of_fmap|(l' & now & -> & Hl')]%Hfrom; [|done].
  rewrite E. by apply Ht.
Qed.

Hypothesis HKtext : forall l', K l' -> printable (UnderlayIP l') = true -> lease_text l' = true.
Hypothesis Hlwf : K l.
Hypothesis Hltext : printable (UnderlayIP l) = true.
Hypothesis Hrely : forall w w', rely w w' -> rows_ok w -> rows_ok w'.

Lemma rely_reaches w w' : meanwhile w w' -> reaches w w'.
Proof using Type. apply recorded_mono. intros ?? H. by left. Qed.

Lemma statement_ok X (e : storeE X) w w' x :
  cycle_statement e -> store_step X e w w' x -> rows_ok w -> rows_ok w'.
Proof using Hlwf Hltext.
  intros He. apply proper_statement_ok. destruct e; simpl in *; try done. by subst.
Qed.

Lemma reaches_ok (w w' : traced) : reaches w w' -> rows_ok w -> rows_ok w'.
Proof using Hlwf Hltext Hrely.
  apply recorded_keeps. intros v v' [Hr|(X & e & x & He & Hs)]; eauto using statement_ok.
Qed.

Lemma wp_statement {X} (e : storeE X) w Q :
  cycle_statement e ->
  (forall (w1 w2 w' : traced) x, reaches w w1 -> store_step X e w1 w2 x -> reaches w1 w2 -> reaches w2 w' -> Q w' x) ->
  wp busy_step (trigger e) w Q.
Proof using Type.
  intros He HQ. apply wp_trigger. intros w' x (w1 & w2 & H1 & [Hs E] & H2).
  apply (HQ w1 w2); [by apply rely_reaches|done| |by apply rely_reaches].
  apply rtc_once. split; [|done]. right. eauto.
Qed.

Lemma reaches_trans w1 w2 w3 : reaches w1 w2 -> reaches w2 w3 -> reaches w1 w3.
Proof using Type. apply rtc_trans. Qed.

(** One of the cycle's statements: the moment before it, after it, and when the
    request goes on. *)
Ltac statement := apply wp_bind_err, wp_statement; [done|].

Lemma renew_tail_busy w0 w1 w :
  reaches w0 w1 -> holds_lease w1 -> reaches w1 w ->
  wp busy_step (renew_tail l) w (fun w' x => reaches w0 w' /\
    match x with Ok _ => renewed w0 w' | Err e => exists msg, e = Errorf msg end).
Proof using Type.
  intros H01 Hl H1. unfold renew_tail. statement.
  intros w2 w3 w4 x H2 Hs H3 H4. pose proof (reaches_trans _ _ _ H01 H1) as H0.
  assert (reaches w0 w4) as H04 by eauto using reaches_trans.
  destruct x as [u|e]; [|by eauto]. destruct Hs as [_ Ht]. simpl in Ht. statement.
  intros w5 w6 w7 [z|e] H5 _ H6 H7; simpl; (split; [eauto using reaches_trans|]); [|by eexists].
  exists w1, w3. split_and!; [done..|eauto using reaches_trans|eauto using reaches_trans|].
  intros r Hr Hip. rewrite Ht in Hr. apply list_elem_of_fmap in Hr as (r0 & -> & _).
  by case_decide.
Qed.

(** The only statements that refuse the renewal for good find the lease gone. *)
Lemma RenewSubnetLease_busy (w : traced) :
  Validate l = Ok tt -> rows_ok w ->
  wp busy_step (RenewSubnetLease l) w (fun w' x => reaches w w' /\
    match x with
    | Ok _ => renewed w w'
    | Err (NonRetriableError _) => lost w w'
    | Err _ => True
    end).
Proof using Hlwf Hltext Hrely.
  intros Hv Hok. unfold RenewSubnetLease. rewrite Hv. fold (renew_tail l). statement.
  intros w1 w2 w3 x H1 [_ [_ Hx]] H2 H3.
  assert (reaches w w3) as H03 by eauto using reaches_trans.
  pose proof (reaches_ok w w1 H1 Hok) as Hok1.
  assert (forall w1' w'', reaches w w1' -> holds_lease w1' -> reaches w1' w'' ->
    wp busy_step (renew_tail l) w'' (fun w' x => reaches w w' /\ match x with
      | Ok _ => renewed w w'
      | Err (NonRetriableError _) => lost w w'
      | Err _ => True end)) as Htail.
  { intros w1' w'' ???. eapply wp_mono; [by apply (renew_tail_busy w w1')|].
    intros w' [u|e] [? Hr]; (split; [done|]); [done|]. by destruct Hr as [? ->]. }
  destruct x as [[l0|]|e]; [| |done].
  - destruct Hx as [Hin Hip]. case_decide as Hne.
    + simpl. split; [done|]. exists w1. split; [done|]. split; [|by eauto using reaches_trans]. intros Hl. apply Hne.
      apply list_elem_of_fmap in Hin as (r & -> & Hr), Hl as (r' & E & Hr').
      rewrite E. f_equal. eapply unique_ip; [apply Hok1|done..|]. rewrite E in Hip. done.
    + assert (l0 = l) as -> by (destruct (decide (l = l0)); congruence).
      apply (Htail w1); [done..|]. eauto using reaches_trans.
  - assert (~ holds_lease w1) as Hno.
    { intros (r & E & Hr)%list_elem_of_fmap. apply Hx. rewrite E.
      by apply (list_elem_of_fmap_2 row_underlay_ip). }
    statement. intros w4 w5 w6 [u|e] H4 [_ Hs] H5 H6.
    + apply (Htail w5); [eauto using reaches_trans| |done]. destruct Hs as [_ Hs].
      unfold holds_lease. rewrite Hs, map_app. apply elem_of_app. right. by apply list_elem_of_singleton; destruct l.
    + simpl. split; [eauto using reaches_trans|]. exists w1. split; [done|]. split; eauto using reaches_trans.
Qed.

Lemma RoutableLeases_busy (w : traced) :
  rows_ok w ->
  wp busy_step (RoutableLeases c) w (fun w' x =>
    reaches w w' /\ forall ls, x = Ok ls -> listed ls w w').
Proof using Hlwf Hltext Hrely.
  intros Hok. unfold RoutableLeases. statement.
  intros w1 w2 w3 x H1 Hs H2 H3. assert (reaches w w3) by eauto using reaches_trans.
  pose proof (reaches_ok w w2 (reaches_trans _ _ _ H1 H2) Hok) as Hok2.
  destruct Hs as [_ [Ht Hx]]. destruct x as [ls|e]; simpl; (split; [done|]); [|done].
  intros ? [= <-]. exists w2. split_and!; [eauto using reaches_trans|done..|by rewrite Ht].
Qed.

(** The leases listed are in [K], one per subnet, and JSON keeps them. *)
Lemma listed_wf ls w w' :
  listed ls w w' ->
  Forall K ls /\ NoDup (map OverlaySubnet ls) /\ Forall (fun l => lease_text l = true) ls.
Proof using HKtext.
  intros (w1 & _ & [Hwf Hu Ht] & _ & Hp).
  assert (Forall (fun l => K l /\ printable (UnderlayIP l) = true) ls) as Hall.
  { rewrite Hp. apply Forall_fmap, Forall_forall. intros r [_ Hr]%list_elem_of_filter.
    unfold holds_all in Hwf. rewrite Forall_forall in Hwf, Ht. split; [by apply Hwf|by apply Ht]. }
  split_and!.
  - eapply Forall_impl; [exact Hall|]. by intros ? [].
  - rewrite Hp. rewrite map_map. apply (NoDup_map_filter row_overlay_subnet). apply Hu.
  - eapply Forall_impl; [exact Hall|]. intros l' [? ?]. by apply HKtext.
Qed.

(** ** The network between the daemon and the controller *)

Context (json : Json) (baseURL : string) (not_found : string -> string -> response).
Hypothesis Hjson : JsonLaws json.

(** A request is lost, or the controller's router serves it and the response
    arrives, is lost, or breaks off in its body. *)
Definition http_step (X : Type) (e : httpE X) (w w' : traced) : X -> Prop :=
  match e in httpE X return X -> Prop with
  | NewRequest _ _ => fun _ => w' = w
  | Http_Do method url body => fun x =>
      (meanwhile w w' /\ exists err, x = Err err) \/
      exists path r, strip_prefix baseURL url = Some path /\
        exec api_step (router json not_found method path (Ok (default "" body))) w w' r /\
        (x = Ok (StatusCode r, Ok (Body r)) \/ (exists err, x = Err err) \/
         exists err, x = Ok (StatusCode r, Err err))
  end.

(** What the client makes of an exchange: an error of its own, or the answer. [R] is
    what is known of the table's history. *)
Lemma exchange_wp {Resp} (R : traced -> traced -> Prop) method path body
    (respData : string -> result Resp) w Q :
  (forall w', meanwhile w w' -> R w w') ->
  (match body with Some _ => method <> "GET" | None => True end) ->
  (forall w' msg, R w w' -> Q w' (Err (Errorf msg))) ->
  wp api_step (router json not_found method path (Ok (default "" body))) w
    (fun w' r => R w w' /\ Q w' (answer json respData r)) ->
  wp http_step (Client.Do json baseURL method path (option_map Ok body) respData) w Q.
Proof using Type.
  intros HR Hm Herr Hserve. unfold Client.Do.
  destruct body as [b|]; simpl option_map; cbv iota beta; [rewrite decide_True by done|].
  all: wp_call; intros w' [[]|e] Hw'; simpl in Hw'; subst w'; [|by apply Herr, HR, rtc_refl].
  all: wp_call; intros w' x [[Hr [e ->]]|(path' & r & Hp & Hx & Hresp)]; [by apply Herr, HR|].
  all: rewrite strip_prefix_app in Hp; injection Hp as <-;
    destruct (wp_exec _ _ _ _ _ _ Hserve Hx) as [Hreach HQ]; unfold answer in HQ.
  all: destruct Hresp as [->|[[e ->]|[e ->]]]; [|by apply Herr..]; cbn [fst snd];
    (destruct (299 <? StatusCode r); [done|]); by destruct (respData (Body r)).
Qed.

Lemma RenewSubnetLease_wp (w : traced) :
  Validate l = Ok tt -> rows_ok w ->
  wp http_step (Client.RenewSubnetLease json baseURL l) w (fun w' x => reaches w w' /\
    match x with
    | Ok _ => renewed w w'
    | Err (NonRetriableError _) => lost w w'
    | Err _ => True
    end).
Proof using HKtext Hlwf Hltext Hrely Hjson.
  intros Hv Hok.
  destruct (lease_roundtrip json Hjson l) as (b & Hm & Hu); [by apply HKtext|].
  unfold Client.RenewSubnetLease. rewrite Hm. change (Some (Ok b)) with (option_map (@Ok string) (Some b)).
  apply wp_bind, (exchange_wp reaches); [apply rely_reaches|done|by intros w' msg Hw'|].
  unfold router. do 3 (rewrite decide_False by (by intros [? ?])). rewrite decide_True by done.
  unfold LogWrap, RenewLease_ServeHTTP. simpl default. rewrite Hu. wp_call.
  intros w' x Hx. apply (wp_exec _ _ _ _ _ _ (RenewSubnetLease_busy w Hv Hok)) in Hx as [Hr Hx].
  destruct x as [[]|e]; [by split_and!|].
  destruct e; (split; [done|]); unfold Conflict, InternalServerError;
    (rewrite answer_error; [|done]); by split.
Qed.

Lemma GetActiveLeases_wp (w : traced) :
  rows_ok w ->
  wp http_step (Client.GetActiveLeases json baseURL) w (fun w' x =>
    reaches w w' /\ forall ls, x = Ok ls -> listed ls w w').
Proof using HKtext Hlwf Hltext Hrely Hjson.
  intros Hok. unfold Client.GetActiveLeases. change None with (option_map (@Ok string) None).
  apply (exchange_wp reaches); [apply rely_reaches|done|by intros w' msg Hw'|]. unfold router. rewrite decide_True by done.
  unfold LogWrap, LeasesIndex_ServeHTTP. wp_call.
  intros w' x Hx. apply (wp_exec _ _ _ _ _ _ (RoutableLeases_busy w Hok)) in Hx as [Hr Hx].
  destruct x as [ls|e]; cbn [wp].
  - destruct (listed_wf ls w w' (Hx ls eq_refl)) as (_ & _ & Htext).
    destruct (leases_roundtrip json Hjson ls Htext) as (b & -> & Hb). cbn [wp].
    split; [done|]. split; [done|]. unfold answer. simpl. rewrite Hb. intros ? [= <-]. by apply Hx.
  - split; [done|]. split; [done|]. unfold InternalServerError. by rewrite answer_error.
Qed.

(** ** The cell *)

(** [cw_confirmed] is when a renewal was last confirmed: the time the cell's clock
    showed when the answer to a request to renew, a success, arrived. No program
    reads it. *)
Record cell_world := {
  cw_store : traced;
  cw_kernel : kernel;
  cw_now : Z;
  cw_confirmed : option Z
}.

Definition confirm (now : Z) {X} (e : httpE X) : X -> option Z -> option Z :=
  match e in httpE X return X -> option Z -> option Z with
  | NewRequest _ _ => fun _ conf => conf
  | Http_Do method url _ => fun x conf =>
      match x with
      | Ok (code, Ok _) =>
          if decide (method = "PUT" /\ url = baseURL +:+ "/leases/renew" /\ code <= 299)
          then Some now else conf
      | _ => conf
      end
  end.

Definition confirm_step (X : Type) (e : httpE X) (v v' : Z * option Z) (x : X) : Prop :=
  v' = (fst v, confirm (fst v) e x (snd v)).

Definition put_store (v : traced * (Z * option Z)) (cw : cell_world) : cell_world :=
  {| cw_store := fst v; cw_kernel := cw_kernel cw; cw_now := fst (snd v); cw_confirmed := snd (snd v) |}.

Definition put_kernel (k : kernel) (cw : cell_world) : cell_world :=
  {| cw_store := cw_store cw; cw_kernel := k; cw_now := cw_now cw; cw_confirmed := cw_confirmed cw |}.

Definition put_now (t : Z) (cw : cell_world) : cell_world :=
  {| cw_store := cw_store cw; cw_kernel := cw_kernel cw; cw_now := t; cw_confirmed := cw_confirmed cw |}.

(** Each interface acts on its part; the cell's clock does not go back. *)
Definition cycle_step (X : Type) (e : cycleE X) (cw cw' : cell_world) : X -> Prop :=
  match e in cycleE X return X -> Prop with
  | OnHttp e => fun x =>
      http_step _ e (cw_store cw) (cw_store cw') x /\
      cw' = put_store (cw_store cw', (cw_now cw, confirm (cw_now cw) e x (cw_confirmed cw))) cw
  | OnNetlink e => fun x =>
      keyed_step _ e (cw_kernel cw) (cw_kernel cw') x /\ cw' = put_kernel (cw_kernel cw') cw
  | OnPlanner e =>
      match e in plannerE X return X -> Prop with
      | Now => fun now => cw_now cw <= now /\ cw' = put_now now cw
      | _ => fun _ => cw' = cw
      end
  end.

Lemma on_http_wp {A} (p : prog httpE A) cw Q Q' :
  wp http_step p (cw_store cw) Q -> wp confirm_step p (cw_now cw, cw_confirmed cw) Q' ->
  wp cycle_step (interp (fun _ e => trigger (OnHttp e)) p) cw (fun cw' x =>
    cw_kernel cw' = cw_kernel cw /\ Q (cw_store cw') x /\ Q' (cw_now cw', cw_confirmed cw') x).
Proof using Type.
  intros H H'. apply (wp_zoom cycle_step (pair_step http_step confirm_step) (fun X => @OnHttp X)
    (fun cw => (cw_store cw, (cw_now cw, cw_confirmed cw))) put_store); [|done|by intros []|].
  - intros X e w w' x [Hs E]. rewrite E. split; [by split|done].
  - eapply wp_mono; [by apply wp_pair|]. by intros [w [t conf]] x [? ?].
Qed.

Lemma on_netlink_wp {A} (p : prog netlinkE A) cw Q :
  wp keyed_step p (cw_kernel cw) (fun k x => Q (put_kernel k cw) x) ->
  wp cycle_step (interp (fun _ e => trigger (OnNetlink e)) p) cw Q.
Proof using Type. apply (wp_zoom cycle_step keyed_step (fun X => @OnNetlink X)); [done..|]. by intros []. Qed.

(** The client reports success exactly when a renewal is confirmed. *)
Lemma renewal_confirmed v :
  wp confirm_step (Client.RenewSubnetLease json baseURL l) v (fun v' x =>
    v' = (fst v, match x with Ok _ => Some (fst v) | Err _ => snd v end)).
Proof using Type.
  destruct v as [t conf]. unfold Client.RenewSubnetLease. apply wp_bind. unfold Client.Do.
  rewrite decide_True by done. destruct (Marshal_Lease json l) as [b|e]; [|done].
  wp_call. intros v1 [[]|e] ->; [|done]. wp_call. intros v2 [[code [body|e]]|e] ->; [|done..].
  cbn [fst snd confirm]. destruct (Z.ltb_spec 299 code).
  - rewrite decide_False by lia. destruct (Unmarshal_Error json body); cbn [wp bind]; by destruct (_ =? _).
  - by rewrite decide_True.
Qed.

Lemma listing_confirms_nothing v :
  wp confirm_step (Client.GetActiveLeases json baseURL) v (fun v' _ => v' = v).
Proof using Type.
  destruct v as [t conf]. unfold Client.GetActiveLeases, Client.Do.
  wp_call. intros v1 [[]|e] ->; [|done]. wp_call. intros v2 [[code [body|e]]|e] ->; [|done..].
  cbn [fst snd confirm]. rewrite decide_False by (by intros [? _]).
  destruct (299 <? code); [done|]. by destruct (Unmarshal_Leases json body).
Qed.

Context {base len m : Z} {range : string} {conv : Converger}.
Hypothesis Hconf : configured c base len m.
Hypothesis HKwf : forall l', K l' -> lease_wf (Pool c) l'.
Hypothesis Hnet : overlay_network range base len.
Hypothesis Hconv : converger_of range (OverlaySubnet l) conv.
Hypothesis Hvalid : Validate l = Ok tt.

Definition cell_ok (cw : cell_world) : Prop := rows_ok (cw_store cw) /\ keyed_kernel (cw_kernel cw).

(** What a cycle that reports success has achieved: the lease was renewed, and
    later the kernel was brought to forward to the leases the table then held. *)
Definition cycle_done (cw cw' : cell_world) : Prop :=
  exists w1 ls, renewed (cw_store cw) w1 /\ listed ls w1 (cw_store cw') /\
    delivers (OverlaySubnet l) conv ls (cw_kernel cw) (cw_kernel cw').

(** When a renewal was last confirmed, or else the detector [fed] was set up. *)
Definition last_confirmed (fed : gracefulDetector) (cw : cell_world) : Z :=
  default (lastSuccessTime fed) (cw_confirmed cw).

(** Why the daemon may give up: at some moment since [cw] the lease was gone from the
    table, or now no renewal has been confirmed for the grace period. *)
Definition stop_cause (fed : gracefulDetector) (cw cw' : cell_world) : Prop :=
  lost (cw_store cw) (cw_store cw') \/
  graceDuration fed <= Sub (cw_now cw') (last_confirmed fed cw').

(** What a turn of the loop keeps: the detector is not behind the confirmations. *)
Definition up_to_date (fed : gracefulDetector) (fed' : gracefulDetector) (cw' : cell_world) : Prop :=
  graceDuration fed' = graceDuration fed /\ last_confirmed fed cw' <= lastSuccessTime fed'.

Lemma last_confirmed_stop fed fed' cw' :
  up_to_date fed fed' cw' -> graceDuration fed' <= Sub (cw_now cw') (lastSuccessTime fed') ->
  graceDuration fed <= Sub (cw_now cw') (last_confirmed fed cw').
Proof using Type. intros [<- H]. unfold Sub. lia. Qed.

(** A cycle of the detector [fed1]; an error that is not fatal says nothing. *)
Definition cycle_post (fed1 : gracefulDetector) (cw cw' : cell_world) (r : gracefulDetector * result unit)
    : Prop :=
  cell_ok cw' /\ reaches (cw_store cw) (cw_store cw') /\
  (forall fed, up_to_date fed fed1 cw -> up_to_date fed (fst r) cw') /\
  match snd r with
  | Ok _ => cycle_done cw cw'
  | Err (FatalError _) => forall fed, up_to_date fed fed1 cw -> stop_cause fed cw cw'
  | Err _ => True
  end.

Local Abbreviation planner := (main_planner json baseURL conv).

Lemma exec_renew cw cw' x :
  cell_ok cw -> exec cycle_step (planner _ (Client_RenewSubnetLease l)) cw cw' x ->
  cw_kernel cw' = cw_kernel cw /\ cw_now cw' = cw_now cw /\
  cw_confirmed cw' = match x with Ok _ => Some (cw_now cw) | Err _ => cw_confirmed cw end /\
  reaches (cw_store cw) (cw_store cw') /\
  match x with
  | Ok _ => renewed (cw_store cw) (cw_store cw')
  | Err (NonRetriableError _) => lost (cw_store cw) (cw_store cw')
  | Err _ => True
  end.
Proof using HKtext Hlwf Hltext Hrely Hjson Hvalid.
  intros [Hok _] He. pattern cw', x. refine (wp_exec _ _ _ _ _ _ _ He).
  eapply wp_mono; [apply on_http_wp; [by apply RenewSubnetLease_wp|apply renewal_confirmed]|].
  intros cw1 y (Hk & [Hr Hy] & [= Ht Hc]). by split_and!.
Qed.

Lemma exec_list cw cw' x :
  cell_ok cw -> exec cycle_step (planner _ Client_GetActiveLeases) cw cw' x ->
  cw_kernel cw' = cw_kernel cw /\ cw_now cw' = cw_now cw /\ cw_confirmed cw' = cw_confirmed cw /\
  reaches (cw_store cw) (cw_store cw') /\
  forall ls, x = Ok ls -> listed ls (cw_store cw) (cw_store cw').
Proof using HKtext Hlwf Hltext Hrely Hjson.
  intros [Hok _] He. pattern cw', x. refine (wp_exec _ _ _ _ _ _ _ He).
  eapply wp_mono; [apply on_http_wp; [by apply GetActiveLeases_wp|apply listing_confirms_nothing]|].
  intros cw1 y (Hk & [Hr Hy] & [= Ht Hc]). by split_and!.
Qed.

Lemma exec_converge ls w w1 cw cw' x :
  listed ls w w1 -> cell_ok cw -> exec cycle_step (planner _ (Converger_Converge ls)) cw cw' x ->
  cw' = put_kernel (cw_kernel cw') cw /\ keyed_kernel (cw_kernel cw') /\
  (x = Ok tt -> delivers (OverlaySubnet l) conv ls (cw_kernel cw) (cw_kernel cw')).
Proof using HKtext HKwf Hconf Hlwf Hnet Hconv.
  intros (Hin & Hnd & _)%listed_wf [_ Hk] He. pattern cw', x.
  assert (Forall (lease_wf (Pool c)) ls) as Hwf by (eapply Forall_impl; [exact Hin|exact HKwf]).
  refine (wp_exec _ _ _ _ _ _ _ He). apply on_netlink_wp.
  eapply wp_mono.
  - eapply (Converge_delivers (conf_cut _ _ _ _ Hconf) (conf_pool _ _ _ _ Hconf)); try done.
    by apply HKwf.
  - by intros k x' [? ?].
Qed.

(** A call that changes nothing but the clock. *)
Ltac quiet_call :=
  apply wp_bind, wp_trigger; intros ? ? Hquiet%exec_trigger; simpl in Hquiet; rewrite Hquiet; clear Hquiet.

Lemma DoCycle_wp fed1 cw :
  cell_ok cw -> wp (fun X e => exec cycle_step (planner X e)) (DoCycle l fed1) cw (cycle_post fed1 cw).
Proof using HKtext HKwf Hconf Hlwf Hltext Hrely Hjson Hvalid Hnet Hconv.
  intros Hok. unfold DoCycle. wp_call.
  intros cw1 x1 (K1 & N1 & C1 & H1 & Hx1)%exec_renew; [|done].
  assert (cell_ok cw1) as Hok1.
  { destruct Hok. split; [by eapply reaches_ok|]. by rewrite K1. }
  destruct x1 as [[]|e].
  - unfold GotSuccess. apply wp_bind. wp_call. intros cw2 now [Hnow E2]%exec_trigger. cbn [wp].
    quiet_call. wp_call. intros cw3 x3 (K3 & N3 & C3 & H3 & Hx3)%exec_list; [|by rewrite E2].
    rewrite E2 in K3, N3, C3, H3, Hx3. simpl in K3, N3, C3, H3, Hx3.
    set (fed' := {| graceDuration := _; lastSuccessTime := now |}).
    assert (cell_ok cw3) as Hok3.
    { destruct Hok1. split; [by eapply reaches_ok|]. by rewrite K3. }
    assert (forall cw4, cw_confirmed cw4 = cw_confirmed cw3 ->
      forall fed, up_to_date fed fed1 cw -> up_to_date fed fed' cw4) as Hup.
    { intros cw4 C4 fed [Hg _]. split; [done|]. unfold last_confirmed. rewrite C4, C3, C1. simpl. lia. }
    assert (reaches (cw_store cw) (cw_store cw3)) as H03 by eauto using reaches_trans.
    destruct x3 as [ls|e]; [|by split_and!; auto]. quiet_call. specialize (Hx3 ls eq_refl).
    wp_call. intros cw4 x4 (E4 & Hk4 & Hx4)%(exec_converge _ _ _ _ _ _ Hx3); [|done].
    rewrite E4. destruct Hok3 as [Hrows _].
    destruct x4 as [[]|e]; quiet_call; (split; [done|]); (split; [done|]); (split; [by apply Hup|]); [|done].
    exists (cw_store cw1), ls. split_and!; [done..|].
    rewrite K3, K1 in Hx4. by apply Hx4.
  - quiet_call. unfold IsFatal.
    assert (forall t fed, up_to_date fed fed1 cw -> up_to_date fed fed1 (put_now t cw1)) as Hup.
    { intros t fed [Hg Hlast]. split; [done|]. unfold last_confirmed. simpl. by rewrite C1. }
    assert (forall fed, up_to_date fed fed1 cw -> up_to_date fed fed1 cw1) as Hup1
      by (destruct cw1; apply (Hup _)).
    destruct e; apply wp_bind;
      try (cbn [wp]; do 3 (split; [done|]); intros fed _; by left).
    all: wp_call; intros cw2 now [Hnow ->]%exec_trigger; cbn [wp].
    all: destruct (Z.leb_spec (graceDuration fed1) (Sub now (lastSuccessTime fed1)));
      do 2 (split; [done|]); (split; [by apply Hup|]); [|done].
    all: intros fed Hfed%(Hup now); right; by eapply last_confirmed_stop.
Qed.

(** ** The loop *)

Record loop_inv (fed : gracefulDetector) (cw : cell_world) (fed' : gracefulDetector) (cw' : cell_world)
    : Prop := {
  inv_ok : cell_ok cw';
  inv_reaches : reaches (cw_store cw) (cw_store cw');
  inv_up : up_to_date fed fed' cw'
}.

Lemma lost_before w w1 w2 : reaches w w1 -> lost w1 w2 -> lost w w2.
Proof using Type. intros H (w3 & ? & ? & ?). exists w3. split_and!; eauto using reaches_trans. Qed.

(** One turn: the cycle, and the loop's answer to it. *)
Lemma runFunction_wp fed cw fed1 cw1 :
  loop_inv fed cw fed1 cw1 ->
  wp (fun X e => exec cycle_step (planner X e)) (runFunction l fed1) cw1 (fun cw2 '(fed2, x) =>
    loop_inv fed cw fed2 cw2 /\ forall e, x = Err e -> stop_cause fed cw cw2).
Proof using HKtext HKwf Hconf Hlwf Hltext Hrely Hjson Hvalid Hnet Hconv.
  intros [Hok Hr Hup]. unfold runFunction. apply wp_bind. eapply wp_mono; [by apply DoCycle_wp|].
  intros cw2 [fed2 x] (Hok2 & Hr2 & Hup2 & Hx). specialize (Hup2 fed Hup). simpl in Hup2, Hx.
  assert (loop_inv fed cw fed2 cw2) as Hinv2 by (split; eauto using reaches_trans).
  destruct x as [u|[]]; cbn [wp]; (split; [done|]); intros e' He'; try done.
  destruct (Hx fed Hup) as [Hlost|Hg]; [left; by eapply lost_before|by right].
Qed.

Lemma poll_loop_wp fuel fed cw fed1 cw1 :
  loop_inv fed cw fed1 cw1 ->
  wp (fun X e => exec cycle_step (planner X e)) (poll_loop l fuel fed1) cw1 (fun cw2 r =>
    cell_ok cw2 /\ forall e, r = Returns (Err e) -> stop_cause fed cw cw2).
Proof using HKtext HKwf Hconf Hlwf Hltext Hrely Hjson Hvalid Hnet Hconv.
  revert fed1 cw1. induction fuel as [|fuel IH]; intros fed1 cw1 Hinv; cbn [poll_loop].
  { split; [apply Hinv|done]. }
  wp_call. intros cw2 t Ht%exec_trigger. simpl in Ht. subst cw2.
  destruct t; [|split; [apply Hinv|done]].
  apply wp_bind. eapply wp_mono; [by apply runFunction_wp|].
  intros cw2 [fed2 [u|e]] [Hinv2 Hx]; [by apply IH|]. split; [apply Hinv2|].
  intros e' [= <-]. by eapply Hx.
Qed.

Lemma Run_wp fuel fed cw :
  cell_ok cw -> cw_confirmed cw = None ->
  wp cycle_step (interp planner (Run l fuel fed)) cw (fun cw' r =>
    cell_ok cw' /\ forall e, r = Returns (Err e) -> stop_cause fed cw cw').
Proof using HKtext HKwf Hconf Hlwf Hltext Hrely Hjson Hvalid Hnet Hconv.
  intros Hok Hnone. apply wp_interp. unfold Run. apply wp_bind.
  assert (loop_inv fed cw fed cw) as Hinv.
  { split; [done|apply rtc_refl|]. split; [done|]. unfold last_confirmed. by rewrite Hnone. }
  eapply wp_mono; [by apply runFunction_wp|].
  intros cw2 [fed2 [u|e]] [Hinv2 Hx]; [by apply poll_loop_wp|]. split; [apply Hinv2|].
  intros e' [= <-]. by eapply Hx.
Qed.

End Controller.

Arguments cycle_done c K l rely conv cw cw' : clear implicits.

(** The leases of the controller's network. *)
Abbreviation network c := (lease_wf (Pool c)).

(** A cell and its controller: the controller's pool is cut from the network the
    cell's converger knows, the cell has a valid lease of it, and what others do
    to the table keeps it well formed. *)
Record cell_setup (c : LeaseController) (base len m : Z) (range : string) (l : Lease) (conv : Converger)
    (rely : store_world -> store_world -> Prop) : Prop := {
  setup_conf : configured c base len m;
  setup_net : overlay_network range base len;
  setup_conv : converger_of range (OverlaySubnet l) conv;
  setup_lease : lease_wf (Pool c) l;
  setup_text : printable (UnderlayIP l) = true;
  setup_valid : Validate l = Ok tt;
  setup_rely w w' : rely w w' -> rows_ok (network c) w -> rows_ok (network c) w'
}.

(** The converger that [mainWithError] hands to the planner once the daemon has
    started is such a converger. *)
Lemma started_converger cfg marshal st cell :
  settled cfg marshal st cell ->
  converger_of (cfg_OverlayNetwork cfg) (OverlaySubnet (started_lease st))
    {| OverlayNetwork := started_network st; LocalSubnet := started_subnet st;
       LocalVTEP_Index := Interface_Index (started_vtep st) |}.
Proof. by intros []. Qed.

Lemma setup_text_wf {c base len m range l conv rely} :
  cell_setup c base len m range l conv rely ->
  forall l', network c l' -> printable (UnderlayIP l') = true -> lease_text l' = true.
Proof. intros [Hconf _ _ _ _ _ _] l' ??. by eapply lease_wf_text. Qed.

(** C9. A [DoCycle] that reports success, through HTTP, the handlers, the lease
    controller and its statements on one side and netlink on the other, with
    others changing the table between any two statements (keeping it well formed)
    and any exchange or call failing: at one moment of the run the table held the
    cell's lease, which was then renewed; at a later moment the leases that had not
    expired were listed; and the kernel now forwards every address of every other
    lease on that list to its cell, unless it has a route of someone else's that is
    at least as specific. *)
Theorem cycle_delivers c base len m range l conv rely choices json baseURL not_found fed cw :
  cell_setup c base len m range l conv rely -> JsonLaws json -> cell_ok (network c) cw ->
  wp (cycle_step c choices rely json baseURL not_found)
    (interp (main_planner json baseURL conv) (DoCycle l fed)) cw (fun cw' '(_, x) =>
    cell_ok (network c) cw' /\ (x = Ok tt -> cycle_done c (network c) l rely conv cw cw')).
Proof.
  intros Hset Hjson Hok. pose proof (setup_text_wf Hset) as Htext. destruct Hset. apply wp_interp.
  eapply wp_mono; [by eapply DoCycle_wp|].
  intros cw' [fed' x] (Hok' & _ & _ & Hx). split; [done|]. by intros ->.
Qed.

(** C10. The daemon's loop, on the same connection to the controller and the kernel,
    ends with an error only for one of two causes, whatever else fails and however
    often: at some moment of the run the table did not hold its lease; or, on the
    cell's clock when it ends, no renewal has been confirmed to the daemon for the
    grace period, counted from the last confirmation, and from the detector's start
    when there was none. *)
Theorem daemon_stops_for_cause c base len m range l conv rely choices json baseURL not_found fuel fed cw :
  cell_setup c base len m range l conv rely -> JsonLaws json -> cell_ok (network c) cw ->
  cw_confirmed cw = None ->
  wp (cycle_step c choices rely json baseURL not_found)
    (interp (main_planner json baseURL conv) (Run l fuel fed)) cw (fun cw' r =>
    cell_ok (network c) cw' /\ forall e, r = Returns (Err e) -> stop_cause c l rely fed cw cw').
Proof.
  intros Hset Hjson Hok Hnone. pose proof (setup_text_wf Hset) as Htext. destruct Hset.
  by eapply Run_wp.
Qed.

(** Such others are the requests of other cells, to any controller of the pool:
    each of their statements is proper. *)
Definition others (K : Lease -> Prop) (w w' : store_world) : Prop :=
  exists X (e : storeE X) x, proper_statement K e /\ store_step X e w w' x.

Lemma others_keep K w w' : others K w w' -> rows_ok K w -> rows_ok K w'.
Proof. intros (X & e & x & He & Hs). by eapply proper_statement_ok. Qed.

(** ** At concrete inputs

    The cell with the block of the small network, and a cell with its single IP,
    while others use the controller too. *)

Lemma small_setup :
  cell_setup small_controller 184483840 30 31 "10.255.0.0/30" (cell_lease "10.0.0.1") small_converger
    (others (network small_controller)).
Proof.
  split; [apply small_configured|apply overlay_example|apply small_converger_of|apply cell_lease_wf|
    vm_compute; reflexivity..|apply others_keep].
Qed.

(** The server in memory, with the states it has been in. *)
Definition logged : Type := memory * list store_world.

Definition traced_of '((s, vs) : logged) : traced := {| current := store_world_of s; past := vs |}.

Definition log_handle : handler storeE logged := fun X e '(s, vs) =>
  let '(s', x) := store_handle X e s in ((s', store_world_of s :: vs), x).

Abbreviation log_ok := (fun s : logged => store_ok (fst s)).

Definition small_api : handler apiE logged := fun X e s =>
  match e in apiE X return logged * X with
  | Api_AcquireSubnetLease ip single =>
      run log_handle (AcquireSubnetLease small_controller any_choices ip single) s
  | Api_ReleaseSubnetLease ip => run log_handle (ReleaseSubnetLease ip) s
  | Api_RenewSubnetLease l => run log_handle (RenewSubnetLease l) s
  | Api_RoutableLeases => run log_handle (RoutableLeases small_controller) s
  | Api_CheckDatabase => (s, Ok tt)
  end.

Definition small_link : handler httpE logged :=
  link canonical_json "https://silk:4103" not_found_page small_api.

(** The cell: its controller, its kernel, its clock, and when a renewal was last
    confirmed. *)
Definition cell_memory : Type := logged * kernel * Z * option Z.

Definition small_cell : handler cycleE cell_memory := fun X e '(s, k, t, conf) =>
  match e in cycleE X return cell_memory * X with
  | OnHttp e => let '(s', x) := small_link _ e s in ((s', k, t, confirm "https://silk:4103" t e x conf), x)
  | OnNetlink e => let '(k', x) := kernel_handle _ e k in ((s, k', t, conf), x)
  | OnPlanner e =>
      match e in plannerE X return cell_memory * X with
      | Now => ((s, k, t + 1, conf), t + 1)
      | Select => ((s, k, t, conf), Elapsed)
      | IncrementCounter _ | SendValue _ _ _ => ((s, k, t, conf), tt)
      | Client_RenewSubnetLease _ => ((s, k, t, conf), Ok tt)
      | Client_GetActiveLeases => ((s, k, t, conf), Ok [])
      | Converger_Converge _ => ((s, k, t, conf), Ok tt)
      end
  end.

Definition cell_world_of '((s, k, t, conf) : cell_memory) : cell_world :=
  {| cw_store := traced_of s; cw_kernel := k; cw_now := t; cw_confirmed := conf |}.

Lemma log_handle_busy rely X (e : storeE X) (s : logged) :
  log_ok s -> log_ok (fst (log_handle X e s)) /\
  busy_step rely X e (traced_of s) (traced_of (fst (log_handle X e s))) (snd (log_handle X e s)).
Proof.
  destruct s as [s vs]. intros Hs. simpl in Hs. pose proof (store_stays_ok X e s Hs).
  pose proof (store_clock_monotone X e s). pose proof (store_answers X e s Hs).
  unfold log_handle. destruct (store_handle X e s) as [s' x]. split; [done|].
  exists (traced_of (s, vs)), (traced_of (s', store_world_of s :: vs)).
  split; [apply rtc_refl|]. split; [|apply rtc_refl]. by split.
Qed.

Lemma small_api_step rely X (e : apiE X) s :
  log_ok s -> log_ok (fst (small_api X e s)) /\
  api_step small_controller any_choices rely X e (traced_of s)
    (traced_of (fst (small_api X e s))) (snd (small_api X e s)).
Proof.
  assert (forall A (p : prog storeE A) s, log_ok s -> log_ok (fst (run log_handle p s))) as Hok.
  { intros A p. induction p as [a|Y f g IH]; intros s' Hs'; [done|]. cbn [run].
    pose proof (proj1 (log_handle_busy rely _ f s' Hs')).
    destruct (log_handle _ f s'). by apply IH. }
  intros Hs. destruct e; cbn [small_api api_step];
    try (split; [by apply Hok|]; by apply exec_sound with (Inv := log_ok) (1 := log_handle_busy _)).
  split; [done|apply rtc_refl].
Qed.

Lemma small_link_step rely X (e : httpE X) s :
  log_ok s -> log_ok (fst (small_link X e s)) /\
  http_step small_controller any_choices rely canonical_json "https://silk:4103" not_found_page
    X e (traced_of s) (traced_of (fst (small_link X e s))) (snd (small_link X e s)).
Proof.
  intros Hs. destruct e as [|method url body]; [done|].
  unfold small_link, link. cbn [http_step].
  destruct (strip_prefix _ url) as [path|] eqn:Hp.
  - set (prg := router _ _ _ _ _).
    pose proof (exec_sound _ small_api log_ok traced_of prg s (small_api_step rely) Hs) as Hx.
    destruct (wp_sound _ small_api log_ok traced_of prg s (fun _ _ => True)
      (small_api_step rely) Hs (wp_true _ _ _)) as [_ Hok].
    destruct (run small_api prg s) as [s' r]. simpl in *. split; [done|].
    right. exists path, r. split_and!; [done..|by left].
  - simpl. split; [done|]. left. split; [apply rtc_refl|]. by eexists.
Qed.

Abbreviation cell_memory_ok := (fun s : cell_memory => log_ok (fst (fst (fst s)))).

Lemma small_cell_step rely X (e : cycleE X) s :
  cell_memory_ok s -> cell_memory_ok (fst (small_cell X e s)) /\
  cycle_step small_controller any_choices rely canonical_json "https://silk:4103" not_found_page
    X e (cell_world_of s) (cell_world_of (fst (small_cell X e s))) (snd (small_cell X e s)).
Proof.
  destruct s as [[[s k] t] conf]. intros Hs. simpl in Hs. destruct e as [X e|X e|X e]; cbn [small_cell].
  - pose proof (small_link_step rely X e s Hs) as [? ?]. destruct (small_link X e s). done.
  - pose proof (kernel_handle_keyed X e k). destruct (kernel_handle X e k). done.
  - destruct e; try done. simpl. split; [done|]. split; [lia|done].
Qed.

(** The daemon of the block's cell, with the single IP's lease in the table too. *)
Definition small_start : cell_memory :=
  (server [cell_row "10.0.0.1" 990; lease_row 995 single_cell], [], default_kernel, 0, None).

Definition fresh_detector : gracefulDetector := {| graceDuration := 10; lastSuccessTime := 0 |}.

Lemma small_start_ok : cell_ok (network small_controller) (cell_world_of small_start).
Proof.
  split; [split|].
  - apply (bool_decide_unpack _). vm_compute. exact I.
  - split_and!; apply (bool_decide_unpack _); vm_compute; exact I.
  - repeat constructor.
  - split; [apply NoDup_singleton|apply NoDup_nil_2].
Qed.

Local Abbreviation small_planner := (main_planner canonical_json "https://silk:4103" small_converger).

Lemma cycle_delivers_witness :
  let '(s', (_, x)) := run small_cell
    (interp small_planner (DoCycle (cell_lease "10.0.0.1") fresh_detector)) small_start in
  x = Ok tt /\
  cycle_done small_controller (network small_controller) (cell_lease "10.0.0.1") (others (network small_controller)) small_converger
    (cell_world_of small_start) (cell_world_of s').
Proof.
  destruct (wp_sound _ small_cell cell_memory_ok cell_world_of
    (interp small_planner (DoCycle (cell_lease "10.0.0.1") fresh_detector)) small_start _
    (small_cell_step _) (server_ok _)
    (cycle_delivers small_controller 184483840 30 31 "10.255.0.0/30" (cell_lease "10.0.0.1")
       small_converger (others (network small_controller)) any_choices canonical_json "https://silk:4103" not_found_page
       fresh_detector (cell_world_of small_start) small_setup canonical_json_laws small_start_ok))
    as [H _].
  assert (snd (snd (run small_cell (interp small_planner
    (DoCycle (cell_lease "10.0.0.1") fresh_detector)) small_start)) = Ok tt) as E
    by (vm_compute; reflexivity).
  destruct (run small_cell _ small_start) as [s' [fed' x]]. simpl in E.
  destruct H as [_ H]. split; [exact E|exact (H E)].
Defined.

(** The same daemon when its lease has been given to another cell. *)
Definition lost_start : cell_memory := (server [cell_row "10.0.0.3" 990], [], default_kernel, 0, None).

Lemma lost_start_ok : cell_ok (network small_controller) (cell_world_of lost_start).
Proof.
  split; [split|].
  - apply (bool_decide_unpack _). vm_compute. exact I.
  - split_and!; apply NoDup_singleton.
  - repeat constructor.
  - split; [apply NoDup_singleton|apply NoDup_nil_2].
Qed.

Lemma daemon_stops_for_cause_witness :
  let '(s', r) := run small_cell
    (interp small_planner (Run (cell_lease "10.0.0.1") 3 fresh_detector)) lost_start in
  (exists e, r = Returns (Err e)) /\
  stop_cause small_controller (cell_lease "10.0.0.1") (others (network small_controller)) fresh_detector
    (cell_world_of lost_start) (cell_world_of s').
Proof.
  destruct (wp_sound _ small_cell cell_memory_ok cell_world_of
    (interp small_planner (Run (cell_lease "10.0.0.1") 3 fresh_detector)) lost_start _
    (small_cell_step _) (server_ok _)
    (daemon_stops_for_cause small_controller 184483840 30 31 "10.255.0.0/30" (cell_lease "10.0.0.1")
       small_converger (others (network small_controller)) any_choices canonical_json "https://silk:4103" not_found_page
       3 fresh_detector (cell_world_of lost_start) small_setup canonical_json_laws lost_start_ok eq_refl))
    as [[_ H] _].
  destruct (snd (run small_cell (interp small_planner
    (Run (cell_lease "10.0.0.1") 3 fresh_detector)) lost_start)) as [[u|e]|msg|] eqn:E;
    try (vm_compute in E; discriminate E).
  specialize (H e eq_refl). destruct (run small_cell _ lost_start) as [s' r]. simpl in E.
  split; [exists e; exact E|exact H].
Defined.
