(* ===== verification/StartStack.v ===== *)
(** * The start of the daemon, from its configuration to the lease table

    [main_daemon] is the wiring of src/cmd/silk-daemon/main.go: the HTTP client of
    Http.v and the datastore of Datastore.v behind the calls of [daemon_start].
    The controller at the other end serves others at the same time and the network
    loses requests and responses (CycleStack.v); the kernel has the VXLAN device;
    the file of the containers is used by silk-cni too. The theorems: what a start
    that succeeds has settled, that a cell with containers keeps its lease and its
    device, and that a device without an address blocks every start. *)

From Stdlib Require Import ZArith Lia Ascii.
From S2P Require Import Prelude Vtep Datastore Daemon DaemonFacts DaemonMain.
From S2P Require Import GoFmt GoNet NetFacts HwAddr CidrPool Types Sql Store History.
From S2P Require Import Database LeaseFacts LeaseController LeaseSafety Concurrency LeaseWitnesses.
From S2P Require Import Http HttpFacts FullStack Planner Netlink Converger ConvergerFacts Overlay CycleStack.

(** ** The wiring *)

Inductive startE : Type -> Type :=
| StartHttp {X} (e : httpE X) : startE X
| StartNetlink {X} (e : netlinkE X) : startE X
| StartNet {X} (e : netE X) : startE X
| StartFile {X} (e : fileE X) : startE X.

Section Wiring.
Context {Metadata : Type} (codec : MapCodec Metadata) (json : Json) (baseURL : string).

Definition over_http {A} (p : prog httpE A) : prog startE A :=
  interp (fun _ e => trigger (StartHttp e)) p.

(** The daemon uses only the length of the map it reads. *)
Definition main_client {X} (e : clientE X) : prog startE X :=
  match e in clientE X return prog startE X with
  | C_AcquireSubnetLease ip => over_http (Client.AcquireSubnetLease json baseURL ip)
  | C_AcquireSingleOverlayIPLease ip => over_http (Client.AcquireSingleOverlayIPLease json baseURL ip)
  | C_RenewSubnetLease l => over_http (Client.RenewSubnetLease json baseURL l)
  | C_ReleaseSubnetLease ip => over_http (Client.ReleaseSubnetLease json baseURL ip)
  | C_ReadAll path =>
      r <- interp (fun _ e => trigger (StartFile e)) (ReadAll codec path) ;;
      Ret (match r with Ok pool => Ok (Z.of_nat (size pool)) | Err err => Err err end)
  end.

Definition main_daemon (X : Type) (e : daemonE X) : prog startE X :=
  match e in daemonE X return prog startE X with
  | OnClient e => main_client e
  | OnKernel e => trigger (StartNetlink e)
  | OnNet e => trigger (StartNet e)
  end.

End Wiring.

(** ** The VXLAN device

    The device of the name the daemon is configured with: its index, its hardware
    address and its IPv4 addresses in the order they were added. A link of a name
    that is taken cannot be added; a call that fails may have taken effect. *)

Record device := { dev_index : Z; dev_hw : HardwareAddr; dev_addrs : list IPNet }.

Definition device_spec (name : string) {X} (e : netlinkE X) (d d' : option device) : X -> Prop :=
  match e with
  | LinkByName n => fun x =>
      d' = d /\ forall l, x = Ok l -> n = name ->
        exists v, d = Some v /\ Link_Index l = dev_index v /\ Link_HardwareAddr l = dev_hw v
  | AddrList l family => fun x =>
      d' = d /\ forall v addrs, d = Some v -> x = Ok addrs -> Link_Index l = dev_index v ->
        family = FAMILY_V4 ->
        Forall2 (fun a b => canon (IPNet_IP a) = canon (IPNet_IP b)) addrs (dev_addrs v)
  | LinkAdd v => fun x =>
      if decide (Vxlan_Name v = name) then
        match d with
        | Some _ => d' = d /\ is_Ok x = false
        | None => (d' = None /\ is_Ok x = false) \/
            exists i, d' = Some {| dev_index := i; dev_hw := Vxlan_HardwareAddr v; dev_addrs := [] |}
        end
      else d' = d
  | LinkDel l => fun x =>
      match d with
      | Some v =>
          if decide (Link_Index l = dev_index v) then
            match x with Ok _ => d' = None | Err _ => d' = d \/ d' = None end
          else d' = d
      | None => d' = None
      end
  | AddrAdd n a => fun x =>
      if decide (n = name) then
        match d with
        | Some v => (d' = d /\ is_Ok x = false) \/
            d' = Some {| dev_index := dev_index v; dev_hw := dev_hw v;
                         dev_addrs := dev_addrs v ++ [Addr_IPNet a] |}
        | None => d' = None /\ is_Ok x = false
        end
      else d' = d
  | _ => fun _ => d' = d
  end.

(** The kernel's tables and the device. *)
Definition device_step (name : string) (X : Type) (e : netlinkE X) (k k' : kernel * option device) (x : X)
    : Prop :=
  keyed_step X e (fst k) (fst k') x /\ device_spec name e (snd k) (snd k') x.

(** The device shows the lease: the daemon reads it back from its first address. *)
Definition shown (l : Lease) (d : option device) : Prop :=
  exists v a rest, d = Some v /\ dev_addrs v = a :: rest /\ device_shows l (dev_hw v) (IPNet_IP a).

Definition kernel_kept (k k' : kernel * option device) : Prop := keyed_kernel (fst k) -> keyed_kernel (fst k').

Lemma To4_canon ip : To4 (canon ip) = To4 ip.
Proof.
  unfold canon. case_decide as H; [done|]. destruct (To4_length ip) as [|Hl]; [done|]. by apply To4_v4.
Qed.

Section Device.
Context (name : string).

(** What the daemon reads off its device. *)
Lemma GetVTEPState_wp k :
  wp (device_step name) (GetVTEPState name) k (fun k' x =>
    kernel_kept k k' /\ snd k' = snd k /\
    match x with
    | Ok (hw, ip, _) => exists v a rest, snd k = Some v /\ dev_addrs v = a :: rest /\
        hw = dev_hw v /\ To4 ip = To4 (IPNet_IP a)
    | Err _ => True
    end).
Proof.
  unfold GetVTEPState. wp_call. intros k1 [l|e] [[_ K1] [D1 H1]]; [|done].
  destruct (H1 l eq_refl eq_refl) as (v & Hv & Hi & Hhw).
  wp_call. intros k2 [addrs|e] [[_ K2] [D2 H2]]; unfold kernel_kept; [|split; [auto|]; by rewrite D2].
  rewrite D1 in D2, H2. specialize (H2 v addrs Hv eq_refl Hi eq_refl).
  remember (dev_addrs v) as bs eqn:Eb. unfold kernel_kept.
  destruct H2 as [|a b addrs' rest Hab _]; cbn [wp]; (split; [auto|]); (split; [done|]); [done|].
  exists v, b, rest. split_and!; [done..|].
  rewrite <- (To4_canon (IPNet_IP a)), Hab. apply To4_canon.
Qed.

(** A device is created only where there is none. *)
Lemma CreateVTEP_wp conf k :
  VTEPName conf = name ->
  wp (device_step name) (CreateVTEP conf) k (fun k' x =>
    kernel_kept k k' /\
    match snd k with
    | Some _ => snd k' = snd k /\ is_Ok x = false
    | None => x = Ok tt -> exists i mask, snd k' = Some
        {| dev_index := i; dev_hw := Config_OverlayHardwareAddr conf;
           dev_addrs := [{| IPNet_IP := OverlayIP conf; IPNet_Mask := mask |}] |}
    end).
Proof.
  intros Hname. unfold CreateVTEP. cbv zeta. unfold kernel_kept.
  wp_call. intros k1 x1 [[_ K1] D1]. cbn [device_spec Vxlan_Name] in D1. rewrite decide_True in D1 by done.
  destruct (snd k) as [v|]; [destruct D1 as [D1 E1]; destruct x1; [done|]; by split|].
  destruct x1 as [u1|e]; [|by split].
  destruct D1 as [[_ ?]|[i D1]]; [done|].
  wp_call. intros k2 [u2|e] [[_ K2] D2]; [|by split; auto]. cbn [device_spec] in D2. rewrite D1 in D2.
  unfold AddrAddScopeLink. wp_call. intros k3 x3 [[_ K3] D3]. cbn [device_spec] in D3.
  rewrite decide_True, D2 in D3 by done. destruct x3 as [u3|e]; cbn [wp]; (split; [by auto|]); [|done].
  intros _. destruct D3 as [[_ ?]|D3]; [done|]. by exists i, (CIDRMask (OverlayNetworkPrefixLength conf) 32).
Qed.

Lemma DeleteVTEP_wp k :
  wp (device_step name) (DeleteVTEP name) k (fun k' x =>
    kernel_kept k k' /\ (x = Ok tt -> snd k' = None)).
Proof.
  unfold DeleteVTEP, kernel_kept. wp_call. intros k1 [l|e] [[_ K1] [D1 H1]]; [|done].
  destruct (H1 l eq_refl eq_refl) as (v & Hv & Hi & _).
  wp_call. intros k2 x2 [[_ K2] D2]. cbn [device_spec] in D2. rewrite D1, Hv, decide_True in D2 by done.
  destruct x2 as [u|e]; cbn [wp]; (split; [by auto|]); [|done]. intros _. exact D2.
Qed.

End Device.

(** The converger that [mainWithError] gives the poll loop. *)
Definition started_conv (st : started) : Converger :=
  {| OverlayNetwork := started_network st; LocalSubnet := started_subnet st;
     LocalVTEP_Index := Interface_Index (started_vtep st) |}.

(** The configuration of the device is the lease's. *)
Definition vtep_config_of (cfg : ClientConfig) (l : Lease) (conf : VtepConfig) : Prop :=
  VTEPName conf = cfg_VTEPName cfg /\
  (exists net, ParseCIDR (OverlaySubnet l) = Ok (OverlayIP conf, net)) /\
  ParseMAC (OverlayHardwareAddr l) = Ok (Config_OverlayHardwareAddr conf).

Definition unchanged {E : Type -> Type} {W : Type} (X : Type) (e : E X) (w w' : W) (x : X) : Prop := w' = w.

Lemma wp_unchanged {E W A} (p : prog E A) (w : W) : wp unchanged p w (fun w' _ => w' = w).
Proof. induction p as [a|X e k IH]; [done|]. intros w' x ->. apply IH. Qed.

Lemma vtep_Create_wp {W} cfg l (w : W) :
  wp unchanged (Create cfg l) w (fun w' x => w' = w /\ forall conf, x = Ok conf -> vtep_config_of cfg l conf).
Proof.
  apply wp_and; [apply wp_unchanged|]. unfold Create. repeat (case_match; [done|]).
  apply wp_bind_err. eapply wp_mono; [apply wp_true|]. intros w1 [i|e] _; [|done].
  destruct (ParseCIDR (OverlaySubnet l)) as [[ip net]|e] eqn:Hs; [|done].
  destruct (ParseMAC _) as [hw|e] eqn:Hm; [|done].
  destruct (ParseCIDR (cfg_OverlayNetwork cfg)) as [[ip' onet]|e]; [|done].
  destruct (Mask_Size _). case_match; [done|]. intros ? [= <-]. split; [done|]. split; [by exists net|done].
Qed.

Lemma created_shows cfg l conf i mask :
  vtep_config_of cfg l conf ->
  shown l (Some {| dev_index := i; dev_hw := Config_OverlayHardwareAddr conf;
                   dev_addrs := [{| IPNet_IP := OverlayIP conf; IPNet_Mask := mask |}] |}).
Proof. intros (_ & [net Hs] & Hm). do 3 eexists. split_and!; [done..|]. split; [done|]. by eexists _, net. Qed.

(** ** An acquisition while others use the controller *)

(** The table's history: statements that insert only leases in [K], the daemon's own
    or those of others. *)
Definition history (K : Lease -> Prop) : traced -> traced -> Prop := rtc (recorded (others K)).

Section Busy.
Context (c : LeaseController) (K : Lease -> Prop) (choices : nat -> choice).
Hypothesis HK : regrants (Pool c) K.
Hypothesis Hchoices : legal_choices choices.

Local Abbreviation busy := (busy_step (others K)).

Lemma history_ok (w w' : traced) : history K w w' -> rows_ok K w -> rows_ok K w'.
Proof using Type. clear HK. apply recorded_keeps. intros v v'. apply others_keep. Qed.

Lemma history_trans w1 w2 w3 : history K w1 w2 -> history K w2 w3 -> history K w1 w3.
Proof using Type. apply rtc_trans. Qed.

Lemma wp_proper {X} (e : storeE X) w Q :
  proper_statement K e ->
  (forall (w1 w2 w' : traced) x, history K w w1 -> store_step X e w1 w2 x -> history K w w2 -> history K w2 w' ->
    Q w' x) ->
  wp busy (trigger e) w Q.
Proof using Type.
  intros He HQ. apply wp_trigger. intros w' x (w1 & w2 & H1 & [Hs E] & H2).
  apply (HQ w1 w2); try done. eapply rtc_r; [done|]. split; [|done]. by exists X, e, x.
Qed.

(** A program that inserts nothing and whose result depends only on plausible
    answers. *)
Fixpoint reads {A} (prg : prog storeE A) : Prop :=
  match prg with
  | Ret _ => True
  | Vis X e k => match e with AddEntry _ => False | _ => True end /\ forall x, reads (k x)
  end.

Lemma safe_busy {A} (prg : prog storeE A) (Q : A -> Prop) (w : traced) :
  reads prg -> safe K prg Q -> rows_ok K w ->
  wp busy prg w (fun w' x => history K w w' /\ Q x).
Proof using Type.
  revert w. induction prg as [a|X e k IH]; intros w Hr Hsafe Hok; [by split; [apply rtc_refl|]|].
  destruct Hr as [He Hr], Hsafe as [Hi Hk].
  apply (wp_bind busy (trigger e)), wp_proper; [by destruct e|].
  intros w1 w2 w' x H1 Hs H2 H3.
  assert (rows_ok K w1) as [Hwf Hu _] by by eapply history_ok.
  destruct (store_step_ok _ _ _ _ _ Hs Hi (conj Hwf Hu)) as [_ Hx].
  assert (history K w w') as Hw by by eapply history_trans.
  eapply wp_mono; [apply IH; [done|by apply Hk|by eapply history_ok]|].
  intros w'' a [Hw' Ha]. split; [by eapply history_trans|done].
Qed.

Lemma try_subnet_reads ch single ip : reads (try_subnet c ch single ip).
Proof using Type.
  unfold try_subnet. destruct single; simpl; (split; [done|]); intros [ls|e]; simpl; try done;
    case_decide; simpl; try done; (split; [done|]); intros [[l|]|e]; simpl; try done; (split; [done|]);
    by intros [u|e].
Qed.

(** The lease was in the table at a moment between the two worlds. *)
Definition granted (w w' : traced) (l : Lease) : Prop :=
  exists w1, history K w w1 /\ l ∈ map lease_of (w_table w1) /\ history K w1 w'.

(** It was in a state of that history: between a world and itself, in the table now. *)
Lemma granted_now w l : granted w w l -> l ∈ map lease_of (w_table w).
Proof using Type. intros (w1 & H1 & Hl & H2). by rewrite <- (recorded_loop _ _ _ H1 H2). Qed.

Definition grant_post (ip : string) (w w' : traced) (x : result (option Lease)) : Prop :=
  history K w w' /\ forall l, x = Ok (Some l) ->
    UnderlayIP l = ip /\ K l /\ granted w w' l.

Lemma grant_before ip w w1 w2 x : history K w w1 -> grant_post ip w1 w2 x -> grant_post ip w w2 x.
Proof using Type.
  intros H [H1 Hx]. split; [by eapply history_trans|]. intros l E.
  destruct (Hx l E) as (Hip & Hwf & w3 & ? & ? & ?). split_and!; [done..|].
  exists w3. split_and!; [by eapply history_trans|done..].
Qed.

Lemma tryAcquireLease_busy ch single ip (w : traced) :
  legal_choice ch -> printable ip = true -> rows_ok K w ->
  wp busy (tryAcquireLease c ch ip single) w (grant_post ip w).
Proof using HK.
  intros Hch Hip Hok. unfold tryAcquireLease. apply wp_bind_err. fold (try_subnet c ch single ip).
  eapply wp_mono; [apply safe_busy; [apply try_subnet_reads|by eapply try_subnet_safe|done]|].
  intros w1 [s|e] [H1 Hs]; [|by split]. case_decide as Hne; [by split|].
  specialize (Hs s eq_refl Hne).
  destruct (ParseCIDR s) as [[vtep net]|e] eqn:Hp; [|by split].
  destruct (GenerateForVTEP vtep) as [hw|e] eqn:Hg; [|by split].
  set (l := {| UnderlayIP := ip |}).
  assert (K l) as Hwf.
  { apply HK; [done|]. unfold vtep_addr. simpl. by rewrite Hp, Hg. }
  apply wp_bind_err, wp_proper; [by split|]. intros w2 w3 w4 [u|e] H2 [_ Hs2] H3 H4;
    (split; [by repeat (eapply history_trans; [eassumption|])|]); [|done].
  intros ? [= <-]. split_and!; [done..|]. exists w3. split_and!; [by eapply history_trans| |done].
  destruct Hs2 as [_ ->]. rewrite map_app. apply elem_of_app. right. by apply list_elem_of_singleton.
Qed.

Lemma acquire_loop_busy attempts n ip single last (w : traced) :
  printable ip = true -> rows_ok K w -> (forall l, last <> Ok (Some l)) ->
  wp busy (acquire_loop c choices attempts n ip single last) w (grant_post ip w).
Proof using HK Hchoices.
  intros Hip. revert n last w. induction attempts as [|k IH]; intros n last w Hok Hlast; cbn [acquire_loop].
  { split; [apply rtc_refl|]. intros l E. by destruct (Hlast l). }
  apply wp_bind. eapply wp_mono; [by apply tryAcquireLease_busy|].
  intros w1 r [H1 Hr].
  assert ((forall l, r <> Ok (Some l)) ->
    wp busy (acquire_loop c choices k (S n) ip single r) w1 (grant_post ip w)) as Hnext.
  { intros Hno. eapply wp_mono; [apply IH; [by eapply history_ok|done]|]. intros. by eapply grant_before. }
  destruct r as [[l|]|e]; [by split|by apply Hnext..].
Qed.

(** The table had no row of the underlay IP at a moment between the two worlds. *)
Definition released (ip : string) (w w' : traced) : Prop :=
  exists w1, history K w w1 /\ (ip ∉ map row_underlay_ip (w_table w1)) /\ history K w1 w'.

Lemma ReleaseSubnetLease_busy ip w :
  wp busy (ReleaseSubnetLease ip) w (fun w' x => history K w w' /\ (x = Ok tt -> released ip w w')).
Proof using Type.
  unfold ReleaseSubnetLease. apply wp_bind, wp_proper; [done|]. intros w1 w2 w3 x H1 [_ Hx] H2 H3.
  assert (history K w w3) by by eapply history_trans.
  assert ((ip ∉ map row_underlay_ip (w_table w2)) -> released ip w w3) as Hrel by (by exists w2).
  simpl in Hx. destruct x as [u|[]]; cbn [wp]; (split; [done|]); try done; intros _; apply Hrel;
    destruct Hx as [Hx ->]; [|done].
  intros (r & -> & [Hr _]%list_elem_of_filter)%list_elem_of_fmap. done.
Qed.

Lemma AcquireSubnetLease_busy ip single (w : traced) :
  printable ip = true -> rows_ok K w ->
  wp busy (AcquireSubnetLease c choices ip single) w (grant_post ip w).
Proof using HK Hchoices.
  intros Hip Hok. unfold AcquireSubnetLease. cbv zeta. case_decide; [by split; [apply rtc_refl|]|].
  assert (forall w1, history K w w1 ->
    wp busy (acquire_loop c choices (Z.to_nat (AcquireSubnetLeaseAttempts c)) 0 ip single (Ok None)) w1
      (grant_post ip w)) as Hloop.
  { intros w1 H1. eapply wp_mono; [apply acquire_loop_busy; [done|by eapply history_ok|done]|].
    intros. by eapply grant_before. }
  apply wp_bind_err, wp_proper; [done|]. intros w1 w2 w3 x H1 [_ [Ht Hx]] H2 H3.
  assert (history K w w3) by by eapply history_trans.
  destruct x as [[l|]|e]; [|by apply Hloop|by split].
  destruct Hx as [Hl Hlip]. destruct (IsMember _ _) eqn:Hm.
  - split; [done|]. intros ? [= <-]. assert (rows_ok K w1) as [Hwf _ _] by by eapply history_ok.
    apply list_elem_of_fmap in Hl as Hl'. destruct Hl' as (r & -> & Hr).
    unfold holds_all in Hwf. rewrite Forall_forall in Hwf. split_and!; [done|by apply Hwf|].
    exists w2. split_and!; [done|by rewrite Ht|done].
  - apply wp_bind_err, wp_proper; [done|]. intros w4 w5 w6 [u|e] H4 _ H5 H6;
      [apply Hloop|split; [|done]]; by repeat (eapply history_trans; [eassumption|]).
Qed.

End Busy.

(** ** The client's requests at the start *)

(** The daemon's configuration belongs to the controller's network. *)
Record joins (cfg : ClientConfig) (c : LeaseController) (base len m : Z) : Prop := {
  join_conf : configured c base len m;
  join_net : overlay_network (cfg_OverlayNetwork cfg) base len;
  join_len : cfg_SubnetPrefixLength cfg = m;
  join_ip : ParseIP (cfg_UnderlayIP cfg) <> [];
  join_text : printable (cfg_UnderlayIP cfg) = true
}.

(** A lease of the network is valid as soon as its underlay IP is an address. *)
Lemma lease_wf_valid c base len m l :
  configured c base len m -> lease_wf (Pool c) l -> ParseIP (UnderlayIP l) <> [] -> Validate l = Ok tt.
Proof.
  intros [Hcut Hpool] [Hm Hhw] Hip. unfold Validate. rewrite decide_False by done.
  apply (member_form base len m) in Hm as (n & i & k & E & Hi & _ & Hn); [|done..].
  unfold subnet_at in E. destruct Hcut. assert (0 <= n <= 32) by lia. rewrite E in Hhw |- *.
  pose proof (be_bytes4_v4 (base + i)) as Hb. rewrite vtep_addr_text in Hhw by done.
  apply (inj Some) in Hhw. rewrite ParseCIDR_text by done. rewrite <- Hhw, ParseMAC_String; [done..|].
  constructor; [done|]. constructor; [done|apply Hb].
Qed.

(** A set of leases the table may hold: closed under granting again, and of texts
    that JSON keeps. *)
Record lease_kind (c : LeaseController) (K : Lease -> Prop) : Prop := {
  kind_regrants : regrants (Pool c) K;
  kind_text l : K l -> printable (UnderlayIP l) = true -> lease_text l = true
}.

Lemma network_kind c base len m : configured c base len m -> lease_kind c (network c).
Proof. intros Hconf. split; [apply lease_wf_regrants|]. intros l ??. by eapply lease_wf_text. Qed.

Section Requests.
Context {cfg : ClientConfig} {c : LeaseController} {base len m : Z} {K : Lease -> Prop}.
Hypothesis Hjoin : joins cfg c base len m.
Hypothesis HK : lease_kind c K.
Context (choices : nat -> choice) (json : Json) (not_found : string -> string -> response).
Hypothesis Hchoices : legal_choices choices.
Hypothesis Hjson : JsonLaws json.

Local Abbreviation ip := (cfg_UnderlayIP cfg).
Local Abbreviation baseURL := (cfg_ConnectivityServerURL cfg).
Local Abbreviation http := (http_step c choices (others K) json baseURL not_found).

Lemma reaches_history l w w' :
  K l -> printable (UnderlayIP l) = true -> reaches c l (others K) w w' -> history K w w'.
Proof using Type.
  intros Hwf Ht. apply recorded_mono. intros v v' [Ho|(X & e & x & He & Hs)]; [done|].
  exists X, e, x. split; [|done]. destruct e; simpl in He |- *; try done. by subst.
Qed.

(** The lease is the cell's own, in [K], and was in the table. *)
Definition own_grant (w w' : traced) (l : Lease) : Prop :=
  UnderlayIP l = ip /\ K l /\ granted K w w' l.

Lemma acquireLease_http single (w : traced) :
  rows_ok K w ->
  wp http (Client.acquireLease json baseURL ip single) w (fun w' x =>
    history K w w' /\ forall l, x = Ok l -> own_grant w w' l).
Proof using Hjoin HK Hchoices Hjson.
  intros Hok. destruct (acquire_roundtrip json Hjson ip single (join_text _ _ _ _ _ Hjoin)) as (b & Hm & Hu).
  unfold Client.acquireLease. rewrite Hm. change (Some (Ok b)) with (option_map (@Ok string) (Some b)).
  apply (exchange_wp _ _ _ _ _ _ (history K)); [done|done|by intros w' msg Hw'|].
  unfold router. rewrite decide_False by (by intros [? _]). rewrite decide_True by done.
  unfold LogWrap, LeasesAcquire_ServeHTTP. simpl default. rewrite Hu. wp_call. intros w' x Hx.
  apply (wp_exec _ _ _ _ _ _ (AcquireSubnetLease_busy c K choices (kind_regrants _ _ HK) Hchoices ip single w
    (join_text _ _ _ _ _ Hjoin) Hok)) in Hx as [Hh Hx].
  destruct x as [[l|]|e]; cbn [wp]; unfold Conflict, InternalServerError.
  - destruct (Hx l eq_refl) as (Hip & Hwf & Hg).
    destruct (lease_roundtrip json Hjson l) as (b' & -> & Hl').
    { eapply (kind_text _ _ HK); [done|]. rewrite Hip. apply Hjoin. }
    split; [done|]. split; [done|]. unfold answer. simpl. rewrite Hl'. by intros ? [= <-].
  - split; [done|]. by rewrite answer_error.
  - split; [done|]. by rewrite answer_error.
Qed.

Lemma ReleaseSubnetLease_http (w : traced) :
  wp http (Client.ReleaseSubnetLease json baseURL ip) w (fun w' x =>
    history K w w' /\ (x = Ok tt -> released K ip w w')).
Proof using Hjoin Hjson.
  destruct (release_roundtrip json Hjson ip (join_text _ _ _ _ _ Hjoin)) as (b & Hm & Hu).
  unfold Client.ReleaseSubnetLease. rewrite Hm. change (Some (Ok b)) with (option_map (@Ok string) (Some b)).
  apply (exchange_wp _ _ _ _ _ _ (history K)); [done|done|by intros w' msg Hw'|].
  unfold router. do 2 (rewrite decide_False by (by intros [? ?])). rewrite decide_True by done.
  unfold LogWrap, ReleaseLease_ServeHTTP. simpl default. rewrite Hu. wp_call. intros w' x Hx.
  apply (wp_exec _ _ _ _ _ _ (ReleaseSubnetLease_busy K ip w)) in Hx as [Hh Hx].
  destruct x as [[]|e]; cbn [wp]; (split; [done|]); [by split; [|intros _; apply Hx]|].
  unfold InternalServerError. by rewrite answer_error.
Qed.

Lemma RenewSubnetLease_http l (w : traced) :
  UnderlayIP l = ip -> K l -> Validate l = Ok tt -> rows_ok K w ->
  wp http (Client.RenewSubnetLease json baseURL l) w (fun w' x =>
    history K w w' /\ (x = Ok tt -> own_grant w w' l)).
Proof using Hjoin HK Hjson.
  intros Hip Hwf Hv Hok.
  assert (printable (UnderlayIP l) = true) as Ht by (rewrite Hip; apply Hjoin).
  eapply wp_mono.
  { eapply RenewSubnetLease_wp; [apply HK|done|done|apply others_keep|done..]. }
  intros w' x [Hr Hx]. split; [by eapply reaches_history|]. intros ->.
  destruct Hx as (w1 & w2 & H1 & Hl & H2 & H3 & _). split_and!; [done..|]. exists w1.
  split_and!; [by eapply reaches_history|done|]. eapply reaches_history; [done..|by eapply rtc_trans].
Qed.

End Requests.

(** ** The cell at the start *)

(** The table; the kernel's tables and the device; the file of the containers. *)
Record start_world := {
  sw_store : traced;
  sw_kern : kernel * option device;
  sw_file : file
}.

Abbreviation sw_device w := (snd (sw_kern w)).

Definition with_store (v : traced) (w : start_world) : start_world :=
  {| sw_store := v; sw_kern := sw_kern w; sw_file := sw_file w |}.
Definition with_kern (k : kernel * option device) (w : start_world) : start_world :=
  {| sw_store := sw_store w; sw_kern := k; sw_file := sw_file w |}.
Definition with_file (f : file) (w : start_world) : start_world :=
  {| sw_store := sw_store w; sw_kern := sw_kern w; sw_file := f |}.

(** The file is changed by others only while they hold its lock. *)
Definition locked_step (frely : file -> file -> Prop) (X : Type) (e : fileE X) (f f' : file) : X -> Prop :=
  match e in fileE X return X -> Prop with
  | Locker_Open path => fun x => exists f1, rtc frely f f1 /\ file_step _ (Locker_Open path) f1 f' x
  | e => file_step _ e f f'
  end.

Lemma ReadAll_locked {Metadata} (codec : MapCodec Metadata) frely path f :
  wp (locked_step frely) (ReadAll codec path) f (fun _ x =>
    exists f1, rtc frely f f1 /\ forall pool, x = Ok pool -> holds codec f1 pool).
Proof.
  unfold ReadAll, DecodeAll, closing, holds. wp_call. intros f1 [u|e] (f0 & Hf & H1); simpl in H1; [|by exists f0].
  subst f1. apply wp_bind, wp_bind_err. wp_call. intros f2 [v|e] H2; simpl in H2; subst f2;
    [|by wp_call; intros ? ? _; exists f0].
  wp_call. intros f3 [s|e] [_ H3]; [|by wp_call; intros ? ? _; exists f0].
  simpl in H3. rewrite drop_0 in H3. subst s.
  destruct (Decode codec (bytes_of f0)) eqn:E; cbn [wp]; wp_call; intros ? ? _; exists f0; (split; [done|]);
    intros ? [= <-]; rewrite E; auto.
Qed.

(** A lease the device shows is valid as soon as its underlay IP is an address. *)
Lemma shown_valid l d : shown l d -> ParseIP (UnderlayIP l) <> [] -> Validate l = Ok tt.
Proof.
  intros (v & a & rest & _ & _ & Hm & vtep & net & Hp & _) Hip. unfold Validate.
  by rewrite decide_False, Hp, Hm.
Qed.

Section Start.
Context {cfg : ClientConfig} {c : LeaseController} {base len m : Z} {K : Lease -> Prop}.
Hypothesis Hjoin : joins cfg c base len m.
Hypothesis HK : lease_kind c K.
Context (choices : nat -> choice) (json : Json) (not_found : string -> string -> response).
Hypothesis Hchoices : legal_choices choices.
Hypothesis Hjson : JsonLaws json.
Context {Metadata : Type} (codec : MapCodec Metadata) (frely : file -> file -> Prop).

Local Abbreviation http :=
  (http_step c choices (others K) json (cfg_ConnectivityServerURL cfg) not_found).

Definition start_step (X : Type) (e : startE X) (w w' : start_world) : X -> Prop :=
  match e in startE X return X -> Prop with
  | StartHttp e => fun x => http _ e (sw_store w) (sw_store w') x /\ w' = with_store (sw_store w') w
  | StartNetlink e => fun x =>
      device_step (cfg_VTEPName cfg) _ e (sw_kern w) (sw_kern w') x /\ w' = with_kern (sw_kern w') w
  | StartNet e => fun _ => w' = w
  | StartFile e => fun x =>
      locked_step frely _ e (sw_file w) (sw_file w') x /\ w' = with_file (sw_file w') w
  end.

Local Abbreviation wired := (main_daemon codec json (cfg_ConnectivityServerURL cfg)).
Local Abbreviation daemon_step := (fun X e => exec start_step (wired X e)).

Lemma http_wp {A} (p : prog httpE A) w Q :
  wp http p (sw_store w) (fun v x => Q (with_store v w) x) -> wp start_step (over_http p) w Q.
Proof using Type. apply (wp_zoom start_step http (fun X => @StartHttp X)); [done..|]. by intros []. Qed.

Lemma kernel_wp {A} (p : prog netlinkE A) w Q :
  wp (device_step (cfg_VTEPName cfg)) p (sw_kern w) (fun k x => Q (with_kern k w) x) ->
  wp daemon_step (on_kernel p) w Q.
Proof using Type.
  apply (wp_zoom daemon_step (device_step (cfg_VTEPName cfg)) (fun X => @OnKernel X)); [|done|by intros []].
  intros X e w0 w' x Hx. by apply exec_trigger in Hx.
Qed.

Lemma net_wp {A} (p : prog netE A) w Q : wp unchanged p w Q -> wp daemon_step (on_net p) w Q.
Proof using Type. apply wp_embed. intros X e w0 w' x Hx. by apply exec_trigger in Hx. Qed.

Lemma client_wp {X} (e : clientE X) w Q :
  wp start_step (main_client codec json (cfg_ConnectivityServerURL cfg) e) w Q ->
  wp daemon_step (client e) w Q.
Proof using Type. intros H. apply wp_trigger. intros w' x Hx. by eapply wp_exec. Qed.

(** Nothing but statements of [K] on the table, and the kernel's tables stay keyed. *)
Definition stays (w w' : start_world) : Prop :=
  history K (sw_store w) (sw_store w') /\ kernel_kept (sw_kern w) (sw_kern w').

(** The daemon has a lease: its own, in [K], in the table at some moment since the
    start, and shown by the device. *)
Definition took (w w' : start_world) (l : Lease) : Prop :=
  own_grant (cfg := cfg) (K := K) (sw_store w) (sw_store w') l /\ shown l (sw_device w').

Lemma stays_refl w : stays w w.
Proof using Type. split; [apply rtc_refl|by intros ?]. Qed.

Lemma stays_trans w1 w2 w3 : stays w1 w2 -> stays w2 w3 -> stays w1 w3.
Proof using Type.
  intros [H1 K1] [H2 K2]. split; [by eapply history_trans|]. unfold kernel_kept in *. auto.
Qed.

Lemma stays_rows w w' : stays w w' -> rows_ok K (sw_store w) -> rows_ok K (sw_store w').
Proof using Type. intros [H _]. by apply history_ok. Qed.

Lemma took_trans w1 w2 w3 l : stays w1 w2 -> took w2 w3 l -> took w1 w3 l.
Proof using Type.
  intros [H1 _] [(Hip & Hwf & w & ? & ? & ?) Hs]. split; [|done]. split_and!; [done..|].
  exists w. split_and!; [by eapply history_trans|done..].
Qed.

Lemma took_stays w1 w2 w3 l : took w1 w2 l -> stays w2 w3 -> sw_device w3 = sw_device w2 -> took w1 w3 l.
Proof using Type.
  intros [(Hip & Hwf & w & ? & ? & ?) Hs] [H2 _] E. split; [|by rewrite E]. split_and!; [done..|].
  exists w. split_and!; [done..|by eapply history_trans].
Qed.

(** Whatever silk-cni does meanwhile, the datastore holds a container. *)
Definition sitting (f : file) : Prop :=
  forall f', rtc frely f f' -> exists pool, holds codec f' pool /\ pool <> ∅.

Lemma acquire_client_wp single w Q :
  rows_ok K (sw_store w) ->
  (forall v x, history K (sw_store w) v ->
    (forall l, x = Ok l -> own_grant (cfg := cfg) (K := K) (sw_store w) v l) -> Q (with_store v w) x) ->
  wp start_step (over_http (Client.acquireLease json (cfg_ConnectivityServerURL cfg)
    (cfg_UnderlayIP cfg) single)) w Q.
Proof using Hjoin HK Hchoices Hjson.
  intros Hok HQ. apply http_wp. eapply wp_mono; [by eapply acquireLease_http|].
  intros v x [H1 H2]. by apply HQ.
Qed.

(** An acquisition gives the daemon a lease and its device, or fails; over an
    existing device it fails. *)
Lemma acquireLease_start w :
  rows_ok K (sw_store w) ->
  wp daemon_step (acquireLease cfg) w (fun w' x =>
    stays w w' /\ (forall l, x = Ok l -> took w w' l) /\
    (is_Some (sw_device w) -> is_Ok x = false /\ sw_device w' = sw_device w)).
Proof using Hjoin HK Hchoices Hjson.
  intros Hok. unfold acquireLease. apply wp_bind_err.
  apply wp_mono with (fun w1 x => exists v, w1 = with_store v w /\ history K (sw_store w) v /\
    forall l, x = Ok l -> own_grant (cfg := cfg) (K := K) (sw_store w) v l).
  { destruct (cfg_SingleIPOnly cfg); apply client_wp; (apply acquire_client_wp; [done|]); eauto. }
  intros w1 x1 (v & -> & Hv & Hx1).
  assert (stays w (with_store v w)) as Hst by (split; [done|by intros ?]).
  destruct x1 as [l|e]; [|done]. destruct (Hx1 l eq_refl) as (Hip & Hwf & Hg).
  destruct (_ =? 0); [done|]. apply wp_bind_err, net_wp.
  eapply wp_mono; [apply vtep_Create_wp|]. intros w2 [conf|e] [-> Hconf]; [|done].
  specialize (Hconf conf eq_refl). apply wp_bind_err, kernel_wp.
  eapply wp_mono; [apply CreateVTEP_wp, Hconf|]. intros k x [Hk Hx]. simpl in Hx.
  assert (stays w (with_kern k (with_store v w))) as Hst2 by (split; [done|exact Hk]).
  destruct (sw_device w) as [d|] eqn:Ed.
  - destruct Hx as [Hx E]. destruct x; [done|]. by split_and!.
  - destruct x as [[]|e]; cbn [wp]; (split; [done|]); (split; [|by intros []]); [|done].
    intros ? [= <-]. split; [done|]. destruct (Hx eq_refl) as (i & mask & Hd). simpl. rewrite Hd.
    by eapply created_shows.
Qed.

(** The number of containers read is that of some moment. *)
Lemma read_containers_wp path w Q :
  (forall f x, (sitting (sw_file w) -> x <> Ok 0) -> Q (with_file f w) x) ->
  wp daemon_step (client (C_ReadAll path)) w Q.
Proof using Type.
  intros HQ. apply client_wp. cbn [main_client]. apply wp_bind.
  apply (wp_zoom start_step (locked_step frely) (fun X => @StartFile X) sw_file with_file);
    [done..|by intros []|].
  eapply wp_mono; [apply ReadAll_locked|]. intros f x (f1 & Hf & Hx). apply HQ. intros Hsit E.
  destruct (Hsit f1 Hf) as (pool & Hp & Hne). destruct x as [pool'|e]; [|done].
  apply Hne. rewrite (holds_fun codec f1 pool pool' Hp (Hx pool' eq_refl)).
  apply map_size_empty_inv. by injection E as E%(inj Z.of_nat _ 0%nat).
Qed.

(** A lease is replaced only when there are no containers. *)
Lemma replace_start complaint w :
  rows_ok K (sw_store w) ->
  wp daemon_step (replace_if_unused cfg complaint) w (fun w' x =>
    stays w w' /\ (forall l, x = Ok l -> took w w' l) /\
    (sitting (sw_file w) -> is_Ok x = false /\ sw_device w' = sw_device w)).
Proof using Hjoin HK Hchoices Hjson.
  intros Hok. unfold replace_if_unused. apply wp_bind_err, read_containers_wp. intros f x Hn.
  assert (stays w (with_file f w)) as Hst by (split; [apply rtc_refl|by intros ?]).
  destruct x as [n|e]; [|done].
  destruct (Z.eqb_spec n 0) as [->|Hne]; cbn [negb]; [|by split_and!].
  assert (~ sitting (sw_file w)) as Hno by (intros Hs; by destruct (Hn Hs)).
  apply wp_bind_err, kernel_wp. eapply wp_mono; [apply DeleteVTEP_wp|]. intros k x [Hk Hx].
  assert (stays w (with_kern k (with_file f w))) as Hst2 by (split; [apply rtc_refl|exact Hk]).
  destruct x as [[]|e]; [|by split_and!].
  eapply wp_mono; [by apply acquireLease_start|]. intros w' x (Hs & Hl & _). split_and!.
  - by eapply stays_trans.
  - intros l E. eapply took_trans; [done|by apply Hl].
  - done.
Qed.

(** ** The device a previous run has left *)

(** The device has an address, and this is the lease the daemon reads off it. *)
Definition seen (d : option device) (l : Lease) : Prop :=
  exists v a rest, d = Some v /\ dev_addrs v = a :: rest /\
    l = leaseFromVTEPState cfg (dev_hw v) (IPNet_IP a).

(** As the kernel has its VXLAN devices: a hardware address of six bytes, and a first
    address of IPv4, if any. *)
Definition sane (d : option device) : Prop :=
  forall v a rest, d = Some v -> dev_addrs v = a :: rest ->
    length (dev_hw v) = 6%nat /\ Forall is_byte (dev_hw v) /\ v4 (To4 (IPNet_IP a)).

Lemma seen_text v a :
  length (To4 (IPNet_IP a)) = 4%nat ->
  leaseFromVTEPState cfg (dev_hw v) (IPNet_IP a) =
    {| UnderlayIP := cfg_UnderlayIP cfg; OverlaySubnet := cidr_text (To4 (IPNet_IP a)) m;
       OverlayHardwareAddr := HardwareAddr_String (dev_hw v) |}.
Proof using Hjoin.
  intros H4. unfold leaseFromVTEPState. pose proof (conf_cut _ _ _ _ (join_conf _ _ _ _ _ Hjoin)) as [].
  rewrite (join_len _ _ _ _ _ Hjoin), IPNet_String_v4; [done|done|lia].
Qed.

Lemma sane_seen d l :
  sane d -> seen d l -> UnderlayIP l = cfg_UnderlayIP cfg /\ Validate l = Ok tt /\ shown l d.
Proof using Hjoin.
  intros Hsane (v & a & rest & -> & Ha & ->).
  destruct (Hsane v a rest eq_refl Ha) as (Hl & Hb & H4). pose proof H4 as [Hlen _].
  pose proof (conf_cut _ _ _ _ (join_conf _ _ _ _ _ Hjoin)) as [].
  assert (0 <= m <= 32) as Hm by lia. rewrite seen_text by done.
  split; [done|]. split.
  - unfold Validate. cbn [UnderlayIP OverlaySubnet OverlayHardwareAddr].
    rewrite decide_False by apply Hjoin. rewrite ParseCIDR_text, ParseMAC_String; done.
  - exists v, a, rest. split_and!; [done..|]. split; [by apply ParseMAC_String|].
    do 2 eexists. split; [by apply ParseCIDR_text|]. by rewrite To4_prefix.
Qed.

Lemma discover_start w :
  sane (sw_device w) ->
  wp daemon_step (discoverLocalLease cfg) w (fun w' x =>
    exists k, w' = with_kern k w /\ kernel_kept (sw_kern w) k /\ snd k = sw_device w /\
      forall l, x = Ok l -> seen (sw_device w) l).
Proof using Hjoin.
  intros Hsane. unfold discoverLocalLease. apply wp_bind_err, kernel_wp.
  eapply wp_mono; [apply GetVTEPState_wp|]. intros k x (Hk & Hd & Hx).
  destruct x as [[[hw ip] mtu]|e]; [|by exists k]. exists k. split_and!; [done..|].
  destruct Hx as (v & a & rest & Hv & Ha & -> & Hip). intros ? [= <-]. exists v, a, rest.
  split_and!; [done..|]. destruct (Hsane v a rest Hv Ha) as (_ & _ & [H4 _]).
  change ip with (IPNet_IP {| IPNet_IP := ip; IPNet_Mask := [] |}).
  rewrite !seen_text; simpl; congruence.
Qed.

(** ** The lease is settled *)

Definition settles (w w' : start_world) (x : result Lease) : Prop :=
  stays w w' /\ (forall l, x = Ok l -> took w w' l) /\
  (sitting (sw_file w) -> is_Some (sw_device w) ->
    sw_device w' = sw_device w /\ forall l, x = Ok l -> seen (sw_device w) l).

(** The renewal, and the replacement if it is refused. *)
Lemma renew_start l w :
  UnderlayIP l = cfg_UnderlayIP cfg -> K l -> Validate l = Ok tt -> shown l (sw_device w) ->
  rows_ok K (sw_store w) ->
  wp daemon_step (renewed <- client (C_RenewSubnetLease l) ;;
      match renewed with
      | Err _ => replace_if_unused cfg "renew subnet lease with containers: "
      | Ok _ => Ret (Ok l)
      end) w (fun w' x => stays w w' /\ (forall l', x = Ok l' -> took w w' l') /\
    (sitting (sw_file w) -> sw_device w' = sw_device w /\ forall l', x = Ok l' -> l' = l)).
Proof using Hjoin HK Hchoices Hjson.
  intros Hip Hwf Hval Hd Hok. apply wp_bind, client_wp, http_wp.
  eapply wp_mono; [by eapply RenewSubnetLease_http|]. intros v x [Hv Hx].
  assert (stays w (with_store v w)) as Hst by (split; [done|by intros ?]).
  destruct x as [[]|e]; cbn [wp].
  - split; [done|]. split; [|by intros _; split; [|intros ? [= <-]]]. intros ? [= <-]. by split; [apply Hx|].
  - eapply wp_mono; [apply replace_start; by eapply stays_rows|].
    intros w' x (Hs & Hl & Hsit). split_and!; [by eapply stays_trans| |].
    + intros l' E. eapply took_trans; [done|by apply Hl].
    + intros [E Ed]%Hsit. split; [exact Ed|]. by intros l' ->.
Qed.

Lemma establish_start net w :
  sane (sw_device w) -> (forall l, seen (sw_device w) l -> K l) -> rows_ok K (sw_store w) ->
  wp daemon_step (establishLease cfg net) w (settles w).
Proof using Hjoin HK Hchoices Hjson.
  intros Hsane Hseen Hok. unfold establishLease. apply wp_bind.
  eapply wp_mono; [by apply discover_start|]. intros w1 x1 (k & -> & Hk & Hd & Hx1).
  assert (stays w (with_kern k w)) as Hst by (split; [apply rtc_refl|exact Hk]).
  destruct x1 as [l|e].
  2: { eapply wp_mono; [by apply acquireLease_start|]. intros w' x (Hs & Hl & Hsome).
    split_and!; [by eapply stays_trans|intros l E; eapply took_trans; [done|by apply Hl]|].
    simpl in Hsome. rewrite Hd in Hsome. intros _ [E Ed]%Hsome. split; [done|]. by intros l ->. }
  specialize (Hx1 l eq_refl). destruct (sane_seen _ _ Hsane Hx1) as (Hip & Hv & Hsh).
  pose proof (Hseen l Hx1) as Hwf.
  destruct (ParseCIDR (OverlaySubnet l)) as [[ip' subnet]|e]; [|by split].
  apply wp_bind_err.
  apply wp_mono with (fun w2 x => stays w w2 /\
    (forall l', x = Ok l' -> UnderlayIP l' = cfg_UnderlayIP cfg /\ K l' /\ Validate l' = Ok tt /\
       shown l' (sw_device w2)) /\
    (sitting (sw_file w) -> sw_device w2 = sw_device w /\
      forall l', x = Ok l' -> l' = l /\ sw_file w2 = sw_file w)).
  { destruct (negb _); cbn [wp].
    - eapply wp_mono; [by apply replace_start|]. intros w2 x (Hs & Hl & Hsit).
      split_and!; [by eapply stays_trans| |].
      + intros l' E. destruct (Hl l' E) as [(Hip' & ? & _) Hsh']. split_and!; [done..| |done].
        eapply shown_valid; [exact Hsh'|]. rewrite Hip'. apply Hjoin.
      + intros [E Ed]%Hsit. split; [by rewrite Ed|]. by intros l' ->.
    - split; [done|]. split; [|by intros _; split; [|intros ? [= <-]]]. intros ? [= <-]. simpl. by rewrite Hd. }
  intros w2 x2 (Hs2 & Hl2 & Hsit2). destruct x2 as [l2|e].
  2: { split_and!; [done..|]. intros Hsit _. split; [|done]. by apply Hsit2. }
  destruct (Hl2 l2 eq_refl) as (Hip2 & Hwf2 & Hv2 & Hsh2).
  eapply wp_mono; [apply renew_start; [done..|by eapply stays_rows]|]. intros w3 x (Hs3 & Hl3 & Hsit3).
  split_and!; [by eapply stays_trans|intros l3 E; eapply took_trans; [done|by apply Hl3]|].
  intros Hsit _. destruct (Hsit2 Hsit) as [Ed2 H2]. destruct (H2 l2 eq_refl) as [-> Ef].
  rewrite Ef in Hsit3. destruct (Hsit3 Hsit) as [Ed3 H3]. split; [congruence|].
  intros l3 ->. by rewrite (H3 l3 eq_refl).
Qed.

(** The daemon stops; what it has found out of the device stays true. *)
Ltac start_fails H :=
  split; [done|]; split; [done|]; intros Hsit Hdev; split; [by destruct (H Hsit Hdev)|done].

Lemma daemon_start_settled marshal w :
  sane (sw_device w) -> (forall l, seen (sw_device w) l -> K l) -> rows_ok K (sw_store w) ->
  wp daemon_step (daemon_start cfg marshal) w (fun w' x =>
    stays w w' /\
    (forall st, x = Ok st -> took w w' (started_lease st) /\
      converger_of (cfg_OverlayNetwork cfg) (OverlaySubnet (started_lease st)) (started_conv st)) /\
    (sitting (sw_file w) -> is_Some (sw_device w) -> sw_device w' = sw_device w /\
      forall st, x = Ok st -> seen (sw_device w) (started_lease st))).
Proof using Hjoin HK Hchoices Hjson.
  intros Hsane Hseen Hok. unfold daemon_start.
  destruct (ParseCIDR (cfg_OverlayNetwork cfg)) as [[ip net]|e] eqn:Hnet;
    [|by split_and!; [apply stays_refl|..]].
  apply wp_bind_err. eapply wp_mono; [by apply establish_start|]. intros w1 x1 (Hs1 & Hl1 & Hsit1).
  destruct x1 as [l|e]; [|start_fails Hsit1].
  apply wp_bind_err. unfold getNetworkInfo. apply wp_bind_err, kernel_wp.
  eapply wp_mono; [apply GetVTEPState_wp|]. intros k x2 (Hk & Hd & _).
  assert (stays w (with_kern k w1)) as Hs2.
  { eapply stays_trans; [done|]. split; [apply rtc_refl|exact Hk]. }
  assert (sitting (sw_file w) -> is_Some (sw_device w) -> sw_device (with_kern k w1) = sw_device w /\
    seen (sw_device w) l) as Hsit2.
  { intros A B. destruct (Hsit1 A B) as [E H]. split; [simpl; congruence|by apply H]. }
  destruct x2 as [[[hw ip'] mtu]|e]; [|start_fails Hsit2]. cbn [wp].
  destruct (buildHealthCheckServer _ _ _) as [h|e];
    [|start_fails Hsit2]. cbn [bind_err bind].
  destruct (ParseCIDR (OverlaySubnet l)) as [[ip2 subnet]|e] eqn:Hsub;
    [|start_fails Hsit2].
  wp_call. intros w3 x3 Hw3%exec_trigger. simpl in Hw3. subst w3.
  destruct x3 as [iface|e]; [|start_fails Hsit2].
  split; [done|]. split; [|intros A B; destruct (Hsit2 A B); by split; [|intros ? [= <-]]].
  intros ? [= <-]. split; [|by split; eexists].
  eapply took_stays; [by apply Hl1| |done]. split; [apply rtc_refl|exact Hk].
Qed.

(** ** A device without an address *)

Lemma acquireLease_blocked w :
  is_Some (sw_device w) ->
  wp daemon_step (acquireLease cfg) w (fun w' x => is_Ok x = false /\ sw_device w' = sw_device w).
Proof using Type.
  intros [v Hv]. unfold acquireLease. apply wp_bind_err.
  apply wp_mono with (fun w1 _ => exists s, w1 = with_store s w).
  { destruct (cfg_SingleIPOnly cfg); apply client_wp, http_wp; (eapply wp_mono; [apply wp_true|]);
      intros s x _; by exists s. }
  intros w1 [l|e] [s ->]; [|done]. destruct (_ =? 0); [done|]. apply wp_bind_err, net_wp.
  eapply wp_mono; [apply vtep_Create_wp|]. intros w2 [conf|e] [-> Hconf]; [|done].
  apply wp_bind_err, kernel_wp. eapply wp_mono; [apply CreateVTEP_wp, (Hconf conf eq_refl)|].
  intros k x [_ Hx]. simpl in Hx. rewrite Hv in Hx. destruct Hx as [E Hx]. destruct x; [done|].
  split; [done|]. simpl. congruence.
Qed.

Lemma daemon_start_blocked marshal v w :
  sw_device w = Some v -> dev_addrs v = [] ->
  wp daemon_step (daemon_start cfg marshal) w (fun w' x => is_Ok x = false /\ sw_device w' = Some v).
Proof using Type.
  intros Hv Ha. unfold daemon_start. destruct (ParseCIDR (cfg_OverlayNetwork cfg)) as [[ip net]|e]; [|done].
  apply wp_bind_err. unfold establishLease, discoverLocalLease. apply wp_bind, wp_bind_err, kernel_wp.
  eapply wp_mono; [apply GetVTEPState_wp|]. intros k x (_ & Hd & Hx).
  destruct x as [[[hw ip'] mtu]|e]; [destruct Hx as (v' & a & rest & E & Ha' & _); congruence|].
  eapply wp_mono; [apply acquireLease_blocked; simpl; by rewrite Hd, Hv|].
  intros w' x [Hx' Hd']. simpl in Hd'. destruct x; [done|]. split; [done|]. congruence.
Qed.

(** ** Teardown *)

Lemma teardown_start w :
  wp daemon_step (teardown cfg) w (fun w' errs => stays w w' /\
    exists r d : result unit,
      errs = match r with Err e => [wrap "release subnet lease" e] | Ok _ => [] end ++
             match d with Err e => [wrap "delete vtep" e] | Ok _ => [] end /\
      (r = Ok tt -> released K (cfg_UnderlayIP cfg) (sw_store w) (sw_store w')) /\
      (d = Ok tt -> sw_device w' = None)).
Proof using Hjoin Hjson.
  unfold teardown. apply wp_bind, client_wp, http_wp.
  eapply wp_mono; [by eapply ReleaseSubnetLease_http|]. intros v r [Hv Hr].
  apply wp_bind, kernel_wp. eapply wp_mono; [apply DeleteVTEP_wp|]. intros k d [Hk Hd]. cbn [wp].
  split; [by split|]. by exists r, d.
Qed.

End Start.

(** ** What a start achieves *)

(** The leases of the network, and those that have the subnet the daemon reads off
    the device it finds. *)
Definition network_or_seen (cfg : ClientConfig) (c : LeaseController) (d : option device) (l : Lease) : Prop :=
  network c l \/ exists l0, seen (cfg := cfg) d l0 /\ OverlaySubnet l = OverlaySubnet l0 /\
    (OverlayHardwareAddr l = OverlayHardwareAddr l0 \/
     vtep_addr (OverlaySubnet l) = Some (OverlayHardwareAddr l)).

(** The lease the daemon reads off the device, if any, is of the network. *)
Definition shows_network (cfg : ClientConfig) (c : LeaseController) (d : option device) : Prop :=
  forall l, seen (cfg := cfg) d l -> network c l.

(** The cell's lease of a block. *)
Definition block_lease (cfg : ClientConfig) (c : LeaseController) (l : Lease) : Prop :=
  UnderlayIP l = cfg_UnderlayIP cfg /\ network c l /\ OverlaySubnet l ∈ blockPool (Pool c).

Section Kinds.
Context {cfg : ClientConfig} {c : LeaseController} {base len m : Z}.
Hypothesis Hjoin : joins cfg c base len m.

Lemma network_or_seen_kind d : sane d -> lease_kind c (network_or_seen cfg c d).
Proof using Hjoin.
  intros Hsane. split.
  - intros l [Hm|(l1 & [[Hm _]|(l0 & Hs & E & _)] & E')] Hhw; [left; by split|left; split; congruence|].
    right. exists l0. split_and!; [done|congruence|by right].
  - intros l [Hwf|(l0 & (v & a & rest & -> & Ha & ->) & E & Hhw)] Hip.
    { eapply lease_wf_text; [apply Hjoin|done..]. }
    destruct (Hsane v a rest eq_refl Ha) as (Hl & Hb & H4). pose proof H4 as [Hlen Hf].
    rewrite (seen_text Hjoin) in E, Hhw by done. cbn [OverlaySubnet OverlayHardwareAddr] in E, Hhw.
    pose proof (conf_cut _ _ _ _ (join_conf _ _ _ _ _ Hjoin)) as [].
    unfold lease_text. rewrite Hip, E, printable_cidr_text, !andb_true_l by (done || lia).
    destruct Hhw as [-> |Hhw]; [by apply printable_hwaddr|].
    rewrite E, vtep_addr_text in Hhw by (done || lia). apply (inj Some) in Hhw. rewrite <- Hhw.
    apply printable_hwaddr. constructor; [done|]. by constructor.
Qed.

Lemma seen_kind d l : seen (cfg := cfg) d l -> network_or_seen cfg c d l.
Proof using Type. intros H. right. exists l. split_and!; [done..|by left]. Qed.

Lemma shows_network_kind d l : shows_network cfg c d -> network_or_seen cfg c d l -> network c l.
Proof using Type.
  intros Hd [?|(l0 & Hs & E & Hhw)]; [done|]. destruct (Hd l0 Hs) as [Hm Hv].
  split; [congruence|]. destruct Hhw; congruence.
Qed.

Lemma rows_ok_mono (K K' : Lease -> Prop) w : (forall l, K l -> K' l) -> rows_ok K w -> rows_ok K' w.
Proof using Type.
  intros H [Hin Hu Ht]. split; [|done..]. eapply Forall_impl; [exact Hin|]. intros r. apply H.
Qed.

(** The device of a block's lease: the daemon reads that very lease off it. *)
Lemma block_device l d : block_lease cfg c l -> shown l d -> sane d /\ forall l', seen (cfg := cfg) d l' -> l' = l.
Proof using Hjoin.
  intros (Hip & Hwf & Hin) (v & a & rest & -> & Ha & Hd). split.
  - intros v' a' rest' [= <-] Ha'. assert (a' = a) as -> by congruence.
    pose proof (join_conf _ _ _ _ _ Hjoin) as [Hcut Hpool]. destruct Hwf as [Hm Hhw].
    apply (member_form base len m) in Hm as (n & i & k & E & Hi & _ & Hn); [|done..].
    unfold subnet_at in E. pose proof (be_bytes4_v4 (base + i)) as Hb. destruct Hcut.
    assert (0 <= n <= 32) as Hn' by lia. destruct Hd as (Hmac & vtep & net & Hp & H4).
    rewrite E in Hhw, Hp. rewrite vtep_addr_text in Hhw by done. apply (inj Some) in Hhw.
    assert (Forall is_byte (238 :: 238 :: be_bytes4 (base + i))) as Hbytes
      by (constructor; [done|]; constructor; [done|apply Hb]).
    rewrite <- Hhw, ParseMAC_String in Hmac by done. rewrite ParseCIDR_text in Hp by done.
    injection Hmac as <-. assert (vtep = v4InV6Prefix ++ be_bytes4 (base + i)) as -> by congruence.
    rewrite To4_prefix in H4 by apply Hb. rewrite H4. by split_and!.
  - intros l' (v' & a' & rest' & [= <-] & Ha' & ->). assert (a' = a) as -> by congruence.
    eapply block_lease_rediscovered; [apply Hjoin|done..|apply Hjoin|done].
Qed.

End Kinds.


(** C12. A cell with containers keeps its lease and its device across a restart of
    the daemon: from the device of a block's lease, and with a container in the
    datastore whatever silk-cni does meanwhile, a start leaves the device as it is,
    and if it succeeds it is with that lease. *)
Theorem restart_keeps_lease {M} cfg c base len m choices json not_found (codec : MapCodec M) frely marshal l w :
  joins cfg c base len m -> legal_choices choices -> JsonLaws json ->
  block_lease cfg c l -> shown l (sw_device w) -> sitting codec frely (sw_file w) ->
  rows_ok (network c) (sw_store w) ->
  wp (start_step (cfg := cfg) (c := c) (K := network c) choices json not_found frely)
    (interp (main_daemon codec json (cfg_ConnectivityServerURL cfg)) (daemon_start cfg marshal)) w (fun w' x =>
    sw_device w' = sw_device w /\ forall st, x = Ok st -> started_lease st = l).
Proof.
  intros Hjoin Hch Hjson Hl Hs Hsit Hok. apply wp_interp.
  destruct (block_device Hjoin l _ Hl Hs) as [Hsane Hseen].
  eapply wp_mono; [eapply daemon_start_settled; try done; [eapply network_kind, Hjoin|]|].
  { intros l' ->%Hseen. apply Hl. }
  intros w' x (_ & _ & H). assert (is_Some (sw_device w)) as Hd.
  { destruct Hs as (v & _ & _ & -> & _). by eexists. }
  destruct (H Hsit Hd) as [E Hst]. split; [done|]. intros st Ex. by apply Hseen, Hst.
Qed.

(** C39. The creation of the device is not undone when one of its steps fails, and
    after that no start succeeds: with a device that has no address, every start ends
    with an error and leaves the device as it is, whatever the controller, the kernel
    and the datastore answer. *)
Theorem addressless_device_blocks_start {M} cfg c K choices json not_found (codec : MapCodec M) frely marshal v w :
  sw_device w = Some v -> dev_addrs v = [] ->
  wp (start_step (cfg := cfg) (c := c) (K := K) choices json not_found frely)
    (interp (main_daemon codec json (cfg_ConnectivityServerURL cfg)) (daemon_start cfg marshal)) w (fun w' x =>
    is_Ok x = false /\ sw_device w' = Some v).
Proof. intros. apply wp_interp. by apply daemon_start_blocked. Qed.

(** C22. silk-teardown takes both of its steps whatever becomes of the other, over the
    same connection: without an error of the release the table had at some moment of the
    run no row of the cell, without an error of the deletion the device is gone, and it
    reports exactly the errors of the two. *)
Theorem teardown_cleans_up {M} cfg c base len m choices json not_found (codec : MapCodec M) frely w :
  joins cfg c base len m -> JsonLaws json -> rows_ok (network c) (sw_store w) ->
  wp (start_step (cfg := cfg) (c := c) (K := network c) choices json not_found frely)
    (interp (main_daemon codec json (cfg_ConnectivityServerURL cfg)) (teardown cfg)) w (fun w' errs =>
    rows_ok (network c) (sw_store w') /\
    exists r d : result unit,
      errs = match r with Err e => [wrap "release subnet lease" e] | Ok _ => [] end ++
             match d with Err e => [wrap "delete vtep" e] | Ok _ => [] end /\
      (r = Ok tt -> released (network c) (cfg_UnderlayIP cfg) (sw_store w) (sw_store w')) /\
      (d = Ok tt -> sw_device w' = None)).
Proof.
  intros Hjoin Hjson Hok. apply wp_interp. eapply wp_mono; [by eapply teardown_start|].
  intros w' errs [Hs H]. split; [by eapply stays_rows|done].
Qed.

(** ** At concrete inputs

    The small network, whose controller is asked by one cell; the kernel refuses
    addresses if [refuses]. *)

Definition start_config : ClientConfig := {|
  cfg_UnderlayIP := "10.0.0.1"; cfg_VxlanInterfaceName := "eth0"; cfg_SubnetPrefixLength := 31;
  cfg_OverlayNetwork := "10.255.0.0/30"; cfg_HealthCheckPort := 4321; cfg_VTEPName := "silk-vtep";
  cfg_ConnectivityServerURL := "https://silk:4103"; cfg_ServerCACertFile := "ca";
  cfg_ClientCertFile := "cert"; cfg_ClientKeyFile := "key"; cfg_VNI := 1; cfg_VTEPPort := 4789;
  cfg_PollInterval := 5; cfg_DebugServerPort := 1; cfg_Datastore := "store";
  cfg_PartitionToleranceSeconds := 60; cfg_ClientTimeoutSeconds := 5; cfg_MetronPort := 1;
  cfg_LogPrefix := "p"; cfg_LogLevel := ""; cfg_SingleIPOnly := false
|}.

Lemma start_joins : joins start_config small_controller 184483840 30 31.
Proof. split; [apply small_configured|apply overlay_example|done|by vm_compute|by vm_compute]. Qed.

Definition small_device (refuses : bool) : handler netlinkE (kernel * option device) := fun X e '(k, d) =>
  match e in netlinkE X return (kernel * option device) * X with
  | LinkByName n =>
      (k, d, match d with
             | Some v =>
                 if decide (n = "silk-vtep") then
                   Ok {| Link_Index := dev_index v; Link_Name := n; Link_MTU := 1450;
                         Link_HardwareAddr := dev_hw v |}
                 else Err (Errorf "Link not found")
             | None => Err (Errorf "Link not found")
             end)
  | AddrList l _ => (k, d, Ok match d with Some v => dev_addrs v | None => [] end)
  | LinkAdd v =>
      if decide (Vxlan_Name v = "silk-vtep") then
        match d with
        | Some _ => (k, d, Err (Errorf "file exists"))
        | None => (k, Some {| dev_index := 7; dev_hw := Vxlan_HardwareAddr v; dev_addrs := [] |}, Ok tt)
        end
      else (k, d, Ok tt)
  | LinkDel l =>
      match d with
      | Some v => if decide (Link_Index l = dev_index v) then (k, None, Ok tt) else (k, d, Ok tt)
      | None => (k, None, Err (Errorf "no such device"))
      end
  | AddrAdd n a =>
      if decide (n = "silk-vtep") then
        match d with
        | Some v =>
            if refuses then (k, d, Err (Errorf "operation not permitted"))
            else (k, Some {| dev_index := dev_index v; dev_hw := dev_hw v;
                             dev_addrs := dev_addrs v ++ [Addr_IPNet a] |}, Ok tt)
        | None => (k, None, Err (Errorf "no such device"))
        end
      else (k, d, Ok tt)
  | e => let '(k', x) := kernel_handle _ e k in (k', d, x)
  end.

Lemma small_device_step refuses X (e : netlinkE X) k :
  device_step "silk-vtep" X e k (fst (small_device refuses X e k)) (snd (small_device refuses X e k)).
Proof.
  destruct k as [k d]. destruct e; cbn [small_device];
    try (match goal with |- context [kernel_handle ?Y ?e ?k] =>
           pose proof (kernel_handle_keyed Y e k); destruct (kernel_handle Y e k); by split end);
    unfold device_step; repeat case_match; subst; (split; [done|]); cbn [device_spec fst snd];
    try case_decide; try done; eauto.
  all: split; [done|]; intros; simplify_eq; eauto.
  by apply Forall_Forall2_diag, Forall_true.
Qed.

Definition small_file : handler fileE file := fun X e f =>
  match e in fileE X return file * X with
  | Write s => (written_at f s, Ok tt)
  | e => full_disk _ e f
  end.

Definition start_memory : Type := logged * (kernel * option device) * file.

Definition small_daemon (refuses : bool) : handler startE start_memory := fun X e '(s, k, f) =>
  match e in startE X return start_memory * X with
  | StartHttp e => let '(s', x) := small_link _ e s in ((s', k, f), x)
  | StartNetlink e => let '(k', x) := small_device refuses _ e k in ((s, k', f), x)
  | StartNet e => ((s, k, f), restarted_net e)
  | StartFile e => let '(f', x) := small_file _ e f in ((s, k, f'), x)
  end.

Definition start_world_of '((s, k, f) : start_memory) : start_world :=
  {| sw_store := traced_of s; sw_kern := k; sw_file := f |}.

(** silk-cni is not called meanwhile. *)
Definition alone (f f' : file) : Prop := False.

Abbreviation start_memory_ok := (fun s : start_memory => log_ok (fst (fst s))).

Lemma small_daemon_step K refuses X (e : startE X) s :
  start_memory_ok s -> start_memory_ok (fst (small_daemon refuses X e s)) /\
  start_step (cfg := start_config) (c := small_controller) (K := K) any_choices canonical_json not_found_page alone
    X e (start_world_of s) (start_world_of (fst (small_daemon refuses X e s)))
    (snd (small_daemon refuses X e s)).
Proof.
  destruct s as [[s k] f]. intros Hs. simpl in Hs. destruct e as [X e|X e|X e|X e]; cbn [small_daemon].
  - pose proof (small_link_step (others K) X e s Hs) as [? ?]. destruct (small_link X e s). done.
  - pose proof (small_device_step refuses X e k). destruct (small_device refuses X e k). done.
  - done.
  - destruct e; simpl; try done. split; [done|]. split; [|done]. exists f. split; [apply rtc_refl|done].
Qed.

Local Abbreviation small_run refuses := (run (small_daemon refuses)
  (interp (main_daemon binary_codec canonical_json "https://silk:4103") (daemon_start start_config subnet_json))).

Definition empty_file : file := {| offset := 0; bytes_of := [] |}.

(** A cell that starts for the first time. *)
Definition new_cell : start_memory := (server [], [], (default_kernel, None), empty_file).

Lemma new_rows_ok : rows_ok (network small_controller) (store_world_of (server [])).
Proof. split; [by apply Forall_nil_2|repeat split; apply NoDup_nil_2|by apply Forall_nil_2]. Qed.

Lemma default_keyed : keyed_kernel default_kernel.
Proof. split; [apply NoDup_singleton|apply NoDup_nil_2]. Qed.

Lemma no_device_seen d l : d = None -> ~ seen (cfg := start_config) d l.
Proof. by intros -> (v & a & rest & [=] & _). Qed.


(** A cell whose daemon starts again, with one container. *)
Definition one_container : gmap string (Container unit) := {["g" := container "g" "10.255.0.3" None]}.

Definition container_file : file := {| offset := 0; bytes_of := bits (encode one_container) |}.

Definition old_vtep : device :=
  {| dev_index := 7; dev_hw := [238; 238; 10; 255; 0; 2];
     dev_addrs := [{| IPNet_IP := [10; 255; 0; 2]; IPNet_Mask := [255; 255; 255; 252] |}] |}.

Definition used_cell : start_memory :=
  (server [cell_row "10.0.0.1" 990], [], (default_kernel, Some old_vtep), container_file).

Lemma used_cell_sitting : sitting binary_codec alone container_file.
Proof.
  intros f' Hf. assert (f' = container_file) as -> by (destruct Hf as [|? ? ? []]; done).
  exists one_container. split; [|done].
  left. exact (decode_of_encode binary_codec any_entry binary_codec_laws one_container _ (fun _ _ _ => I) eq_refl).
Qed.

Lemma old_vtep_shows : shown (cell_lease "10.0.0.1") (Some old_vtep).
Proof.
  do 3 eexists. split_and!; [done..|]. split; [by vm_compute|]. do 2 eexists. split; by vm_compute.
Qed.

Lemma block_cell_lease :
  block_lease start_config small_controller (cell_lease "10.0.0.1").
Proof. split; [done|]. split; [apply cell_lease_wf|]. apply (bool_decide_unpack _). vm_compute. exact I. Qed.

Lemma used_rows_ok : rows_ok (network small_controller) (store_world_of (server [cell_row "10.0.0.1" 990])).
Proof. destruct (one_row_ok "10.0.0.1" 990) as [? ?]. split; [done..|]. repeat constructor. Qed.

Lemma restart_keeps_lease_witness :
  let '(s', x) := small_run false used_cell in
  sw_device (start_world_of s') = Some old_vtep /\
  exists st, x = Ok st /\ started_lease st = cell_lease "10.0.0.1".
Proof.
  destruct (wp_sound _ (small_daemon false) start_memory_ok start_world_of
    (interp (main_daemon binary_codec canonical_json "https://silk:4103") (daemon_start start_config subnet_json))
    used_cell _ (small_daemon_step _ false) (server_ok _)
    (restart_keeps_lease start_config small_controller 184483840 30 31 any_choices canonical_json not_found_page
       binary_codec alone subnet_json (cell_lease "10.0.0.1") (start_world_of used_cell) start_joins
       any_choices_legal canonical_json_laws block_cell_lease old_vtep_shows used_cell_sitting used_rows_ok))
    as [[Hd H] _].
  destruct (snd (small_run false used_cell)) as [st|e] eqn:E; [|vm_compute in E; discriminate E].
  specialize (H st eq_refl). destruct (small_run false used_cell) as [s' x]. simpl in E.
  split; [exact Hd|]. exists st. split; [exact E|exact H].
Defined.

(** The first start, with a kernel that refuses the address, leaves a device without
    one; the second start, with a kernel that refuses nothing, fails. *)
Lemma addressless_device_blocks_start_witness :
  let s1 := fst (small_run true new_cell) in
  sw_device (start_world_of s1) =
    Some {| dev_index := 7; dev_hw := [238; 238; 10; 255; 0; 2]; dev_addrs := [] |} /\
  is_Ok (snd (small_run false s1)) = false.
Proof.
  intros s1.
  assert (sw_device (start_world_of s1) =
    Some {| dev_index := 7; dev_hw := [238; 238; 10; 255; 0; 2]; dev_addrs := [] |}) as Hd
    by (vm_compute; reflexivity).
  pose proof (proj2 (wp_sound _ (small_daemon true) start_memory_ok start_world_of
    (interp (main_daemon binary_codec canonical_json "https://silk:4103") (daemon_start start_config subnet_json))
    new_cell _ (small_daemon_step (network small_controller) true) (server_ok _) (wp_true _ _ _))) as Hok.
  split; [exact Hd|].
  exact (proj1 (proj1 (wp_sound _ (small_daemon false) start_memory_ok start_world_of
    (interp (main_daemon binary_codec canonical_json "https://silk:4103") (daemon_start start_config subnet_json))
    s1 _ (small_daemon_step _ false) Hok
    (addressless_device_blocks_start start_config small_controller (network small_controller) any_choices canonical_json not_found_page
       binary_codec alone subnet_json _ (start_world_of s1) Hd eq_refl)))).
Defined.

Lemma teardown_cleans_up_witness :
  let '(s', errs) := run (small_daemon false)
    (interp (main_daemon binary_codec canonical_json "https://silk:4103") (teardown start_config)) used_cell in
  errs = [] /\ sw_device (start_world_of s') = None /\
  released (network small_controller) "10.0.0.1" (sw_store (start_world_of used_cell)) (sw_store (start_world_of s')).
Proof.
  destruct (wp_sound _ (small_daemon false) start_memory_ok start_world_of
    (interp (main_daemon binary_codec canonical_json "https://silk:4103") (teardown start_config))
    used_cell _ (small_daemon_step _ false) (server_ok _)
    (teardown_cleans_up start_config small_controller 184483840 30 31 any_choices canonical_json not_found_page
       binary_codec alone (start_world_of used_cell) start_joins canonical_json_laws used_rows_ok))
    as [(_ & r & d & He & Hr & Hd) _].
  assert (snd (run (small_daemon false) (interp (main_daemon binary_codec canonical_json "https://silk:4103")
    (teardown start_config)) used_cell) = []) as E by (vm_compute; reflexivity).
  rewrite E in He. destruct r as [[]|e]; [|discriminate He]. destruct d as [[]|e]; [|discriminate He].
  specialize (Hr eq_refl). specialize (Hd eq_refl). destruct (run (small_daemon false) _ used_cell) as [s' errs].
  split; [exact E|]. split; [exact Hd|exact Hr].
Defined.
