(* ===== verification/Liveness.v ===== *)
(** * The daemon on a network that works

    CycleStack.v and StartStack.v say what a success means, whatever fails. Here
    nothing fails: the network delivers, the database answers, the kernel does what
    it is asked to. The theorems: a cycle of the daemon then succeeds, whatever
    others do to the table as long as they leave the cell's lease in it, and so does
    the first start of a cell for which the pool has room. *)

From Stdlib Require Import ZArith Lia Ascii.
From S2P Require Import Prelude Config Vtep Datastore Daemon DaemonFacts DaemonMain.
From S2P Require Import GoFmt GoNet NetFacts HwAddr CidrPool Types Sql Store History.
From S2P Require Import Database LeaseFacts LeaseController LeaseSafety Concurrency LeaseWitnesses.
From S2P Require Import Http HttpFacts FullStack Planner Netlink Converger ConvergerFacts Overlay CycleStack StartStack.

(** ** A kernel that refuses nothing *)

Definition obliged {X} (e : netlinkE X) : X -> Prop :=
  match e with
  | LinkByName _ | LinkByIndex _ => fun x => is_Ok x = true
  | AddrList _ _ => fun x => is_Ok x = true
  | RouteList _ _ => fun x => is_Ok x = true
  | NeighList _ _ => fun x => is_Ok x = true
  | LinkAdd _ | LinkSetUp _ | LinkDel _ | AddrAdd _ _ | RouteReplace _ | RouteDel _ | NeighSet _
  | NeighDel _ => fun x => is_Ok x = true
  end.

Definition kernel_up_step (X : Type) (e : netlinkE X) (k k' : kernel) (x : X) : Prop :=
  keyed_step X e k k' x /\ obliged e x.

(** A call that cannot be refused. *)
Ltac obliging := wp_call; intros ? [?|?] [_ Hobliged]; cbn [obliged is_Ok] in Hobliged; [clear Hobliged|discriminate Hobliged].

Section Converge.
Context (conv : Converger).

(** [Validate] accepts what the converger can read. *)
Lemma set_loop_up ls cr cn k :
  Forall (fun l => Validate l = Ok tt) ls ->
  wp kernel_up_step (set_loop conv ls cr cn) k (fun _ x => is_Ok x = true).
Proof.
  intros Hls. revert cr cn k. induction Hls as [|l ls Hl Hls IH]; intros cr cn k; cbn [set_loop]; [done|].
  unfold Validate in Hl. case_decide as Hip; [done|].
  destruct (ParseCIDR (OverlaySubnet l)) as [[addr net]|]; [|done].
  destruct (ParseMAC _) as [mac|]; [|done].
  case_match; [apply IH|]. case_match; [apply IH|].
  apply wp_bind_err. unfold addRoute. obliging. cbn [wp].
  apply wp_bind_err. unfold addNeighs. obliging. obliging. apply IH.
Qed.

Lemma delete_routes_up rs k : wp kernel_up_step (delete_routes conv rs) k (fun _ x => is_Ok x = true).
Proof.
  revert k. induction rs as [|r rs IH]; intros k; cbn [delete_routes]; [done|].
  case_match; [|apply IH]. obliging. apply IH.
Qed.

Lemma delete_neighs_up ns k : wp kernel_up_step (delete_neighs conv ns) k (fun _ x => is_Ok x = true).
Proof.
  revert k. induction ns as [|n ns IH]; intros k; cbn [delete_neighs]; [done|].
  case_match; [|apply IH]. obliging. apply IH.
Qed.

Lemma Converge_up ls k :
  Forall (fun l => Validate l = Ok tt) ls ->
  wp kernel_up_step (Converge conv ls) k (fun _ x => is_Ok x = true).
Proof.
  intros Hls. unfold Converge. apply wp_bind_err. unfold getPreviousState, FDBList, ARPList.
  do 4 obliging. cbn [wp]. apply wp_bind_err. eapply wp_mono; [by apply set_loop_up|].
  intros k1 [[cr cn]|] Hx; [|done]. apply wp_bind_err. eapply wp_mono; [apply delete_routes_up|].
  intros k2 [[]|] Hx2; [|done]. apply delete_neighs_up.
Qed.

End Converge.

(** ** A database and a network that answer *)

Section Up.
Context {c : LeaseController} {base len m : Z}.
Hypothesis Hconf : configured c base len m.
Context (rely : store_world -> store_world -> Prop).
Context (choices : nat -> choice) (json : Json) (baseURL : string) (not_found : string -> string -> response).
Hypothesis Hjson : JsonLaws json.

(** A statement the database answers, with whatever others do before and after it. *)
Definition busy_up_step (X : Type) (e : storeE X) (w w' : traced) (x : X) : Prop :=
  exists w1 w2, meanwhile rely w w1 /\ recorded (fun v v' => store_up_step X e v v' x) w1 w2 /\
    meanwhile rely w2 w'.

Definition api_up_step (X : Type) (e : apiE X) (w w' : traced) : X -> Prop :=
  match e in apiE X return X -> Prop with
  | Api_AcquireSubnetLease ip single => exec busy_up_step (AcquireSubnetLease c choices ip single) w w'
  | Api_ReleaseSubnetLease ip => exec busy_up_step (ReleaseSubnetLease ip) w w'
  | Api_RenewSubnetLease l => exec busy_up_step (RenewSubnetLease l) w w'
  | Api_RoutableLeases => exec busy_up_step (RoutableLeases c) w w'
  | Api_CheckDatabase => fun x => meanwhile rely w w' /\ x = Ok tt
  end.

(** Every request to the controller reaches its router, and the response the client. *)
Definition http_up_step (X : Type) (e : httpE X) (w w' : traced) : X -> Prop :=
  match e in httpE X return X -> Prop with
  | NewRequest _ _ => fun x => w' = w /\ x = Ok tt
  | Http_Do method url body =>
      match strip_prefix baseURL url with
      | Some path => fun x => exists r,
          exec api_up_step (router json not_found method path (Ok (default "" body))) w w' r /\
          x = Ok (StatusCode r, Ok (Body r))
      | None => fun _ => w' = w
      end
  end.

Lemma exchange_up {Resp} method path body (respData : string -> result Resp) w Q :
  (match body with Some _ => method <> "GET" | None => True end) ->
  wp api_up_step (router json not_found method path (Ok (default "" body))) w
    (fun w' r => Q w' (answer json respData r)) ->
  wp http_up_step (Client.Do json baseURL method path (option_map Ok body) respData) w Q.
Proof using Type.
  intros Hm Hserve. unfold Client.Do.
  destruct body as [b|]; simpl option_map; cbv iota beta; [rewrite decide_True by done|].
  all: wp_call; intros w' x [-> ->].
  all: wp_call; intros w' x; cbn [http_up_step]; rewrite strip_prefix_app; intros (r & Hx & ->).
  all: apply (wp_exec _ _ _ _ _ _ Hserve) in Hx; unfold answer in Hx; cbn [fst snd];
    (destruct (299 <? StatusCode r); [done|]); by destruct (respData (Body r)).
Qed.

(** A well-formed table of leases the converger can read. *)
Record ready (w : store_world) : Prop := {
  ready_rows : rows_ok (network c) w;
  ready_valid : Forall (fun r => Validate (lease_of r) = Ok tt) (w_table w)
}.

(** It depends only on the leases. *)
Lemma ready_leases w w' :
  map lease_of (w_table w') = map lease_of (w_table w) -> ready w -> ready w'.
Proof using Type.
  intros E [[Hwf (Hu1 & Hu2 & Hu3) Ht] Hv].
  assert (forall P : Lease -> Prop, Forall (fun r => P (lease_of r)) (w_table w) ->
    Forall (fun r => P (lease_of r)) (w_table w')) as Hall.
  { intros P HP. rewrite <- (Forall_map lease_of P) in HP |- *. by rewrite E. }
  assert (forall f : Lease -> string, NoDup (map (fun r => f (lease_of r)) (w_table w)) ->
    NoDup (map (fun r => f (lease_of r)) (w_table w'))) as Hnd.
  { intros f Hf. rewrite <- (map_map lease_of f) in Hf |- *. by rewrite E. }
  split; [split|].
  - by apply Hall.
  - split_and!; [by apply (Hnd UnderlayIP)|by apply (Hnd OverlaySubnet)|by apply (Hnd OverlayHardwareAddr)].
  - by apply (Hall (fun l => printable (UnderlayIP l) = true)).
  - by apply (Hall (fun l => Validate l = Ok tt)).
Qed.

Lemma ready_lease w l :
  ready w -> l ∈ map lease_of (w_table w) ->
  Validate l = Ok tt /\ lease_text l = true.
Proof using Hconf.
  intros [[Hwf _ Ht] Hv] (r & -> & Hr)%list_elem_of_fmap. unfold holds_all in Hwf.
  rewrite Forall_forall in Hwf, Ht, Hv. split; [by apply Hv|].
  eapply lease_wf_text; [done|by apply Hwf|by apply Ht].
Qed.

Context (l : Lease) (conv : Converger).

(** The table can be converged on and holds the daemon's lease. *)
Definition holding (w : store_world) : Prop := ready w /\ l ∈ map lease_of (w_table w).

Lemma holding_leases w w' :
  map lease_of (w_table w') = map lease_of (w_table w) -> holding w -> holding w'.
Proof using Type. intros E [Hr Hl]. split; [by eapply ready_leases|by rewrite E]. Qed.

(** Others leave it so. *)
Hypothesis Hrely : forall w w', rely w w' -> holding w -> holding w'.

Lemma wp_busy_up {X} (e : storeE X) (w : traced) Q :
  holding w ->
  (forall (w1 w2 : traced) x, holding w1 -> store_up_step X e w1 w2 x ->
    holding w2 /\ forall w' : traced, holding w' -> Q w' x) ->
  wp busy_up_step (trigger e) w Q.
Proof using Hrely.
  intros Hw HQ. apply wp_trigger. intros w' x (w1 & w2 & H1 & [Hs _] & H2).
  assert (holding w1) as Hw1 by by eapply (recorded_keeps rely holding).
  destruct (HQ w1 w2 x Hw1 Hs) as [Hw2 H]. apply H. by eapply (recorded_keeps rely holding).
Qed.

Lemma RenewSubnetLease_up (w : traced) :
  holding w -> wp busy_up_step (RenewSubnetLease l) w (fun w' x => x = Ok tt /\ holding w').
Proof using Hconf Hrely.
  intros Hw. pose proof Hw as [Hready Hl]. destruct (ready_lease w l Hready Hl) as [Hv _].
  unfold RenewSubnetLease. rewrite Hv. apply wp_bind_err, wp_busy_up; [done|].
  intros w1 w2 x Hw1 [[_ [Ht Hx]] Ha]. simpl in Ha.
  split; [eapply holding_leases; [|exact Hw1]; by rewrite Ht|]. intros w3 Hw3.
  destruct Hw1 as [[Hrows _] Hl1]. pose proof (rows_unique _ _ Hrows) as Hu.
  assert (UnderlayIP l ∈ map row_underlay_ip (w_table w1)) as Hin.
  { apply list_elem_of_fmap in Hl1 as (r & -> & Hr). by apply (list_elem_of_fmap_2 row_underlay_ip). }
  destruct x as [[l0|]|e]; [|done..]. destruct Hx as [Hl0 Hip].
  assert (l0 = l) as ->.
  { apply list_elem_of_fmap in Hl0 as (r & -> & Hr), Hl1 as (r' & E & Hr'). rewrite E in Hip |- *.
    f_equal. by eapply unique_ip. }
  rewrite decide_False by (by intros []).
  apply wp_bind_err, wp_busy_up; [done|]. intros w4 w5 [[]|e] Hw4 [[_ Ht2] Ha2]; [|done]. simpl in Ht2.
  split; [eapply holding_leases; [|exact Hw4]; by rewrite Ht2, leases_renew|]. intros w6 Hw6.
  apply wp_bind_err, wp_busy_up; [done|]. intros w7 w8 x Hw7 [[_ Hs] Ha3]. simpl in Hs, Ha3.
  split; [eapply holding_leases; [|exact Hw7]; by destruct Hs as [-> _]|]. intros w9 Hw9.
  destruct x as [z|e]; [done|]. enough (false = true) by done. apply Ha3.
  destruct Hw7 as [_ (r & -> & Hr)%list_elem_of_fmap]. by apply (list_elem_of_fmap_2 row_underlay_ip).
Qed.

Lemma RenewSubnetLease_http_up (w : traced) :
  holding w ->
  wp http_up_step (Client.RenewSubnetLease json baseURL l) w (fun w' x => x = Ok tt /\ holding w').
Proof using Hconf Hjson Hrely.
  intros Hw. destruct (ready_lease w l (proj1 Hw) (proj2 Hw)) as [_ Htext].
  destruct (lease_roundtrip json Hjson l Htext) as (b & Hm & Hu).
  unfold Client.RenewSubnetLease. rewrite Hm. change (Some (Ok b)) with (option_map (@Ok string) (Some b)).
  apply wp_bind, exchange_up; [done|].
  unfold router. do 3 (rewrite decide_False by (by intros [? ?])). rewrite decide_True by done.
  unfold LogWrap, RenewLease_ServeHTTP. simpl default. rewrite Hu. wp_call. intros w' x Hx.
  by apply (wp_exec _ _ _ _ _ _ (RenewSubnetLease_up w Hw)) in Hx as [-> Hx].
Qed.

Lemma RoutableLeases_up (w : traced) :
  holding w ->
  wp busy_up_step (RoutableLeases c) w (fun w' x => holding w' /\
    exists ls, x = Ok ls /\ Forall (fun l => Validate l = Ok tt /\ lease_text l = true) ls).
Proof using Hconf Hrely.
  intros Hw. unfold RoutableLeases. apply wp_bind_err, wp_busy_up; [done|].
  intros w1 w2 x Hw1 [[_ [Ht Hp]] Ha]. simpl in Ha.
  split; [eapply holding_leases; [|exact Hw1]; by rewrite Ht|]. intros w3 Hw3.
  destruct x as [ls|e]; [|done]. cbn [wp]. split; [done|]. exists ls. split; [done|].
  rewrite Hp. apply Forall_fmap, Forall_forall. intros r [_ Hr]%list_elem_of_filter.
  apply (ready_lease w1); [apply Hw1|]. by apply (list_elem_of_fmap_2 lease_of).
Qed.

Lemma GetActiveLeases_http_up (w : traced) :
  holding w ->
  wp http_up_step (Client.GetActiveLeases json baseURL) w (fun w' x =>
    holding w' /\ exists ls, x = Ok ls /\ Forall (fun l => Validate l = Ok tt) ls).
Proof using Hconf Hjson Hrely.
  intros Hw. unfold Client.GetActiveLeases. change None with (option_map (@Ok string) None).
  apply exchange_up; [done|]. unfold router. rewrite decide_True by done.
  unfold LogWrap, LeasesIndex_ServeHTTP. wp_call. intros w' x Hx.
  apply (wp_exec _ _ _ _ _ _ (RoutableLeases_up w Hw)) in Hx as [Hw' (ls & -> & Hls)]. cbn [wp].
  destruct (leases_roundtrip json Hjson ls) as (b & -> & Hb).
  { eapply Forall_impl; [exact Hls|]. by intros ? []. }
  cbn [wp]. unfold answer. simpl. rewrite Hb. split; [done|]. exists ls. split; [done|].
  eapply Forall_impl; [exact Hls|]. by intros ? [].
Qed.

(** ** The cycle *)

Definition cycle_up_step (X : Type) (e : cycleE X) (cw cw' : cell_world) : X -> Prop :=
  match e in cycleE X return X -> Prop with
  | OnHttp e => fun x =>
      http_up_step _ e (cw_store cw) (cw_store cw') x /\
      cw' = put_store (cw_store cw', (cw_now cw, confirm baseURL (cw_now cw) e x (cw_confirmed cw))) cw
  | OnNetlink e => fun x =>
      kernel_up_step _ e (cw_kernel cw) (cw_kernel cw') x /\ cw' = put_kernel (cw_kernel cw') cw
  | OnPlanner e =>
      match e in plannerE X return X -> Prop with
      | Now => fun now => cw' = put_now now cw
      | _ => fun _ => cw' = cw
      end
  end.

Lemma http_up_wp {A} (p : prog httpE A) cw Q :
  wp http_up_step p (cw_store cw) Q ->
  wp cycle_up_step (interp (fun _ e => trigger (OnHttp e)) p) cw (fun cw' x => Q (cw_store cw') x).
Proof using Type.
  intros H. apply (wp_zoom cycle_up_step (pair_step http_up_step (confirm_step baseURL)) (fun X => @OnHttp X)
    (fun cw => (cw_store cw, (cw_now cw, cw_confirmed cw))) put_store); [|done|by intros []|].
  - intros X e w w' x [Hs E]. rewrite E. split; [by split|done].
  - eapply wp_mono; [apply wp_pair; [exact H|apply wp_true]|]. by intros [w [t conf]] x [? _].
Qed.

Lemma netlink_up_wp {A} (p : prog netlinkE A) cw Q :
  wp kernel_up_step p (cw_kernel cw) (fun k x => Q (put_kernel k cw) x) ->
  wp cycle_up_step (interp (fun _ e => trigger (OnNetlink e)) p) cw Q.
Proof using Type. apply (wp_zoom cycle_up_step kernel_up_step (fun X => @OnNetlink X)); [done..|]. by intros []. Qed.

Local Abbreviation planner := (main_planner json baseURL conv).
Local Abbreviation planner_step := (fun X e => exec cycle_up_step (planner X e)).

Lemma DoCycle_up fed cw :
  holding (cw_store cw) ->
  wp planner_step (DoCycle l fed) cw (fun cw' '(_, x) => x = Ok tt /\ holding (cw_store cw')).
Proof using Hconf Hjson Hrely.
  intros Hhold. unfold DoCycle. wp_call. intros cw1 x1 Hx1.
  assert (x1 = Ok tt /\ holding (cw_store cw1)) as [-> H1].
  { pattern cw1, x1. refine (wp_exec _ _ _ _ _ _ _ Hx1).
    apply (http_up_wp _ _ (fun w x => x = Ok tt /\ holding w)). by apply RenewSubnetLease_http_up. }
  unfold GotSuccess. apply wp_bind. wp_call. intros cw2 now ->%exec_trigger. cbn [wp].
  wp_call. intros cw3 [] Hx3%exec_trigger. simpl in Hx3. subst cw3.
  wp_call. intros cw4 x4 Hx4.
  assert (holding (cw_store cw4) /\ exists ls, x4 = Ok ls /\ Forall (fun l => Validate l = Ok tt) ls)
    as (H4 & ls & -> & Hls).
  { pattern cw4, x4. refine (wp_exec _ _ _ _ _ _ _ Hx4).
    apply (http_up_wp _ _ (fun w x => holding w /\ exists ls, x = Ok ls /\ Forall (fun l => Validate l = Ok tt) ls)).
    by apply GetActiveLeases_http_up. }
  wp_call. intros cw5 [] Hx5%exec_trigger. simpl in Hx5. subst cw5.
  wp_call. intros cw6 x6 Hx6.
  assert (is_Ok x6 = true /\ holding (cw_store cw6)) as [Hok H6].
  { pattern cw6, x6. refine (wp_exec _ _ _ _ _ _ _ Hx6). apply netlink_up_wp.
    eapply wp_mono; [by apply Converge_up|]. by intros k x ?. }
  destruct x6 as [[]|]; [|done].
  wp_call. intros cw7 [] Hx7%exec_trigger. simpl in Hx7. by subst cw7.
Qed.

Lemma runFunction_up fed cw :
  holding (cw_store cw) ->
  wp planner_step (runFunction l fed) cw (fun cw' '(_, x) => x = Ok tt /\ holding (cw_store cw')).
Proof using Hconf Hjson Hrely.
  intros H. unfold runFunction. apply wp_bind. eapply wp_mono; [by apply DoCycle_up|].
  by intros cw' [fed' x] [-> ?].
Qed.

Lemma poll_loop_up fuel fed cw :
  holding (cw_store cw) -> wp planner_step (poll_loop l fuel fed) cw (fun cw' r =>
    (r = OutOfFuel \/ r = Returns (Ok tt)) /\ holding (cw_store cw')).
Proof using Hconf Hjson Hrely.
  revert fed cw. induction fuel as [|fuel IH]; intros fed cw H; cbn [poll_loop]; [by split; [left|]|].
  wp_call. intros cw1 t Ht%exec_trigger. simpl in Ht. subst cw1. destruct t; [|by split; [right|]].
  apply wp_bind. eapply wp_mono; [by apply runFunction_up|]. intros cw' [fed' x] [-> ?]. by apply IH.
Qed.

End Up.

(** Others that leave the cell's lease in the table: they insert only leases of the
    network that validate, and delete only rows of other cells. *)
Definition considerate_statement (c : LeaseController) (l : Lease) {X} (e : storeE X) : Prop :=
  match e with
  | AddEntry l' => network c l' /\ printable (UnderlayIP l') = true /\ Validate l' = Ok tt
  | DeleteEntry ip => ip <> UnderlayIP l
  | _ => True
  end.

Definition considerate (c : LeaseController) (l : Lease) (w w' : store_world) : Prop :=
  exists X (e : storeE X) x, considerate_statement c l e /\ store_step X e w w' x.

Lemma considerate_keeps c l w w' : considerate c l w w' -> holding (c := c) l w -> holding (c := c) l w'.
Proof.
  intros (X & e & x & He & Hs) [[Hrows Hv] Hl]. split; [split|].
  - eapply proper_statement_ok; [|exact Hs|done]. destruct e; simpl in *; tauto.
  - destruct (store_step_ok (K := fun l => Validate l = Ok tt) _ _ _ _ _ Hs) as [[H _] _]; [|by split; [|apply Hrows]|done].
    destruct e; simpl in *; tauto.
  - apply list_elem_of_fmap in Hl as (r & -> & Hr). destruct Hs as [_ Hs].
    destruct e; simpl in He, Hs; repeat case_match; destruct_and?; destruct_or?; destruct_and?;
      match goal with H : w_table w' = _ |- _ => rewrite H end;
      try (by apply list_elem_of_fmap_2); try (by rewrite leases_renew; apply list_elem_of_fmap_2).
    all: try (rewrite map_app; apply elem_of_app; left; by apply list_elem_of_fmap_2).
    all: apply list_elem_of_fmap_2, list_elem_of_filter; split; [|done]; congruence.
Qed.

(** C13. On a network that works (every request reaches the controller and every answer
    the daemon, the database answers, the kernel refuses nothing), from a well-formed
    table whose leases validate and that holds the daemon's own, with others changing
    the table between any two statements in any way that keeps it so ([considerate] is
    one): the daemon's cycle succeeds, and its loop goes on until it is signalled, for
    as many turns as one likes; the lease stays in the table. *)
Theorem working_daemon_keeps_running c base len m rely choices json baseURL not_found l conv fuel fed cw :
  configured c base len m -> JsonLaws json ->
  (forall w w', rely w w' -> holding (c := c) l w -> holding (c := c) l w') ->
  holding (c := c) l (cw_store cw) ->
  wp (cycle_up_step (c := c) rely choices json baseURL not_found)
    (interp (main_planner json baseURL conv) (DoCycle l fed)) cw (fun _ '(_, x) => x = Ok tt) /\
  wp (cycle_up_step (c := c) rely choices json baseURL not_found)
    (interp (main_planner json baseURL conv) (Run l fuel fed)) cw (fun cw' r =>
      (r = OutOfFuel \/ r = Returns (Ok tt)) /\ l ∈ map lease_of (w_table (cw_store cw'))).
Proof.
  intros Hconf Hjson Hrely H. split; apply wp_interp.
  - eapply wp_mono; [by eapply DoCycle_up|]. by intros cw' [fed' x] [? _].
  - unfold Run. apply wp_bind. eapply wp_mono; [by eapply runFunction_up|]. intros cw' [fed' x] [-> Hh].
    eapply wp_mono; [by eapply poll_loop_up|]. intros cw2 r [Hr [_ Hl]]. by split.
Qed.

(** ** The first start of a cell *)

(** The kernel finds and creates the device as asked. *)
Definition device_obliged (name : string) {X} (e : netlinkE X) (d : option device) : X -> Prop :=
  match e with
  | LinkByName n => fun x => n = name -> is_Some d -> is_Ok x = true
  | LinkAdd v => fun x => Vxlan_Name v = name -> d = None -> is_Ok x = true
  | LinkSetUp _ => fun x => is_Ok x = true
  | AddrAdd n _ => fun x => n = name -> is_Some d -> is_Ok x = true
  | AddrList _ _ => fun x => is_Ok x = true
  | _ => fun _ => True
  end.

Definition device_up_step (name : string) (X : Type) (e : netlinkE X) (k k' : kernel * option device) (x : X)
    : Prop :=
  device_step name X e k k' x /\ device_obliged name e (snd k) x.

Section DeviceUp.
Context (name : string).

Lemma device_up {A} (p : prog netlinkE A) k Q : wp (device_step name) p k Q -> wp (device_up_step name) p k Q.
Proof. apply wp_step_mono. by intros X e k1 k2 x [? _]. Qed.

Lemma CreateVTEP_up conf k :
  VTEPName conf = name -> snd k = None ->
  wp (device_up_step name) (CreateVTEP conf) k (fun k' x =>
    x = Ok tt /\ exists v a, snd k' = Some v /\ dev_addrs v = [a]).
Proof.
  intros Hname Hd.
  assert (wp (device_up_step name) (CreateVTEP conf) k (fun _ x => x = Ok tt)) as Hok.
  { unfold CreateVTEP. cbv zeta. wp_call. intros k1 [u|e] [[_ D1] O1]; simpl in D1, O1; rewrite Hd in D1;
      [|by specialize (O1 Hname Hd)].
    rewrite decide_True in D1 by done. destruct D1 as [[_ ?]|[i D1]]; [done|].
    wp_call. intros k2 [u2|e] [[_ D2] O2]; [|done]. simpl in D2.
    unfold AddrAddScopeLink. wp_call. intros k3 [u3|e] [_ O3]; [done|]. simpl in O3.
    rewrite D2, D1 in O3. by specialize (O3 Hname (mk_is_Some _ _ eq_refl)). }
  eapply wp_mono; [apply wp_and; [exact Hok|apply device_up, CreateVTEP_wp, Hname]|].
  intros k' x [-> [_ Hx]]. rewrite Hd in Hx. destruct (Hx eq_refl) as (i & mask & E).
  split; [done|]. by do 2 eexists.
Qed.

Lemma GetVTEPState_up k v a rest :
  snd k = Some v -> dev_addrs v = a :: rest ->
  wp (device_up_step name) (GetVTEPState name) k (fun k' x => is_Ok x = true /\ snd k' = snd k).
Proof.
  intros Hv Ha. unfold GetVTEPState. wp_call. intros k1 [l|e] [[_ [D1 H1]] O1]; simpl in O1;
    [|by specialize (O1 eq_refl (mk_is_Some _ _ Hv))].
  destruct (H1 l eq_refl eq_refl) as (v' & Hv' & Hi & _).
  wp_call. intros k2 [addrs|e] [[_ [D2 H2]] O2]; [|done]. rewrite D1 in D2, H2.
  specialize (H2 v' addrs Hv' eq_refl Hi eq_refl). assert (v' = v) as -> by congruence.
  rewrite Ha in H2. inversion H2. by subst.
Qed.

End DeviceUp.

Section StartUp.
Context {cfg : ClientConfig} {c : LeaseController} {base len m : Z}.
Hypothesis Hjoin : joins cfg c base len m.
Context (choices : nat -> choice) (json : Json) (not_found : string -> string -> response).
Hypothesis Hchoices : legal_choices choices.
Hypothesis Hjson : JsonLaws json.
Context {Metadata : Type} (codec : MapCodec Metadata).

Local Abbreviation ip := (cfg_UnderlayIP cfg).
Local Abbreviation url := (cfg_ConnectivityServerURL cfg).
(** Nobody else uses the controller meanwhile. *)
Definition nobody (w w' : store_world) : Prop := False.

Local Abbreviation http_up := (http_up_step (c := c) nobody choices json url not_found).

Lemma nobody_up {A} (p : prog storeE A) (w : traced) Q :
  wp store_up_step p w Q -> wp (busy_up_step nobody) p w (fun w' x => Q (w' : store_world) x).
Proof using Type.
  apply (wp_abs (busy_up_step nobody) store_up_step current). intros X e w1 w2 x (w3 & w4 & H1 & [Hs _] & H2).
  assert (forall v v' : traced, meanwhile nobody v v' -> v' = v) as Hno by (by intros v v' [|v1 v2 v3 [[] _]]).
  by rewrite (Hno _ _ H1), <- (Hno _ _ H2) in Hs.
Qed.

(** The host's interfaces and their addresses. *)
Context (ifaces : list Interface) (addrs_of : Interface -> list string).

(** The interface to use is named, or found by the underlay IP among the host's, whose
    addresses are CIDRs. *)
Definition interface_found : Prop :=
  cfg_VxlanInterfaceName cfg <> "" \/
  (forall i a, i ∈ ifaces -> a ∈ addrs_of i -> is_Ok (ParseCIDR a) = true) /\
  (exists i a addr net, i ∈ ifaces /\ a ∈ addrs_of i /\ ParseCIDR a = Ok (addr, net) /\
     IP_String addr = IP_String (ParseIP ip)).

(** The host answers with its interfaces. *)
Definition net_up_step (X : Type) (e : netE X) (w w' : start_world) : X -> Prop :=
  match e in netE X return X -> Prop with
  | Interfaces => fun x => w' = w /\ x = Ok ifaces
  | InterfaceAddrs i => fun x => w' = w /\ x = Ok (addrs_of i)
  | InterfaceByName _ => fun x => w' = w /\ is_Ok x = true
  end.

(** The datastore is not asked. *)
Definition start_up_step (X : Type) (e : startE X) (w w' : start_world) : X -> Prop :=
  match e in startE X return X -> Prop with
  | StartHttp e => fun x => http_up _ e (sw_store w) (sw_store w') x /\ w' = with_store (sw_store w') w
  | StartNetlink e => fun x =>
      device_up_step (cfg_VTEPName cfg) _ e (sw_kern w) (sw_kern w') x /\ w' = with_kern (sw_kern w') w
  | StartNet e => net_up_step _ e w w'
  | StartFile e => fun x =>
      file_step _ e (sw_file w) (sw_file w') x /\ w' = with_file (sw_file w') w
  end.

Hypothesis Hattempts : 0 < AcquireSubnetLeaseAttempts c.
Hypothesis Hv4 : To4 (ParseIP ip) <> [].

Lemma acquireLease_http_up single (w : traced) :
  rows_ok (network c) w -> room c single ip w -> (m < 32 \/ ip ∈ map row_underlay_ip (w_table w)) ->
  wp http_up (Client.acquireLease json url ip single) w (fun _ x =>
    exists l, x = Ok l /\ Validate l = Ok tt).
Proof using Hjoin Hchoices Hjson Hattempts Hv4.
  intros [Hwf Hu _] Hroom Hm. pose proof (join_conf _ _ _ _ _ Hjoin) as Hconf.
  destruct (acquire_roundtrip json Hjson ip single (join_text _ _ _ _ _ Hjoin)) as (b & Hmb & Hub).
  unfold Client.acquireLease. rewrite Hmb. change (Some (Ok b)) with (option_map (@Ok string) (Some b)).
  apply exchange_up; [done|].
  unfold router. rewrite decide_False by (by intros [? _]). rewrite decide_True by done.
  unfold LogWrap, LeasesAcquire_ServeHTTP. simpl default. rewrite Hub. wp_call. intros w' x Hx.
  apply (wp_exec _ _ _ _ _ _ (nobody_up _ w _ (wp_and _ _ _ _ _
    (acquire_up c base len m choices ip single w Hconf Hm Hchoices Hattempts Hv4 Hwf Hu Hroom)
    (wp_up _ _ _ (acquire_table c base len m choices ip single w Hconf Hchoices Hwf Hu))))) in Hx as [[l ->] H].
  destruct H as (_ & _ & H). destruct (H l eq_refl) as (Hip & Hlwf & _). cbn [wp].
  destruct (lease_roundtrip json Hjson l) as (b' & -> & Hl').
  { eapply lease_wf_text; [done..|]. rewrite Hip. apply Hjoin. }
  cbn [wp]. unfold answer. simpl. rewrite Hl'. exists l. split; [done|].
  eapply lease_wf_valid; [done..|]. rewrite Hip. apply Hjoin.
Qed.

Local Abbreviation wired := (main_daemon codec json url).
Local Abbreviation daemon_up := (fun X e => exec start_up_step (wired X e)).

Lemma kernel_up_wp {A} (p : prog netlinkE A) w Q :
  wp (device_up_step (cfg_VTEPName cfg)) p (sw_kern w) (fun k x => Q (with_kern k w) x) ->
  wp daemon_up (on_kernel p) w Q.
Proof using Type.
  apply (wp_zoom daemon_up (device_up_step (cfg_VTEPName cfg)) (fun X => @OnKernel X)); [|done|by intros []].
  intros X e w0 w' x Hx. by apply exec_trigger in Hx.
Qed.

(** The configuration was accepted by [Validate], its interface is there, and its
    subnets are smaller than the overlay network. *)
Hypothesis Hvalid : client_config_valid cfg.
Hypothesis Hiface : interface_found.
Hypothesis Hlen : len < m.

Lemma find_addr_up toFind addrs :
  (forall a, a ∈ addrs -> is_Ok (ParseCIDR a) = true) ->
  exists b, find_addr toFind addrs = Ok b /\
    (forall a addr net, a ∈ addrs -> ParseCIDR a = Ok (addr, net) -> IP_String addr = IP_String toFind -> b = true).
Proof using Type.
  clear. induction addrs as [|a addrs IH]; intros Hok; cbn [find_addr].
  { exists false. split; [done|]. intros a ? ? Ha. by apply not_elem_of_nil in Ha. }
  pose proof (Hok a (list_elem_of_here _ _)) as Ha. destruct (ParseCIDR a) as [[addr net]|] eqn:Hp; [|done].
  case_decide as Hd; [by exists true|].
  destruct IH as (b & -> & Hb); [intros a' Ha'; apply Hok; by apply list_elem_of_further|].
  exists b. split; [done|]. intros a' addr' net' [-> |Ha']%elem_of_cons Hp' E; [|by eapply Hb].
  rewrite Hp in Hp'. by injection Hp' as <- <-.
Qed.

Lemma locate_loop_up toFind todo w :
  (forall i a, i ∈ todo -> a ∈ addrs_of i -> is_Ok (ParseCIDR a) = true) ->
  (exists i a addr net, i ∈ todo /\ a ∈ addrs_of i /\ ParseCIDR a = Ok (addr, net) /\
     IP_String addr = IP_String toFind) ->
  wp net_up_step (locate_loop toFind todo) w (fun w' x => w' = w /\ is_Ok x = true).
Proof using Type.
  induction todo as [|i todo IH]; intros Hok (j & a & addr & net & Hj & Ha & Hp & E); cbn [locate_loop].
  { by apply not_elem_of_nil in Hj. }
  wp_call. intros w' x [-> ->].
  destruct (find_addr_up toFind (addrs_of i)) as (b & -> & Hb).
  { intros a' Ha'. apply (Hok i a'); [apply list_elem_of_here|done]. }
  destruct b; [done|]. apply IH.
  - intros i' a' Hi'. apply Hok. by apply list_elem_of_further.
  - exists j, a, addr, net. apply elem_of_cons in Hj as [-> |Hj]; [|done].
    by specialize (Hb a addr net Ha Hp E).
Qed.

Lemma Create_up l w :
  Validate l = Ok tt ->
  wp daemon_up (on_net (Create cfg l)) w (fun w' x => w' = w /\ exists conf, x = Ok conf /\ VTEPName conf = cfg_VTEPName cfg).
Proof using Hjoin Hvalid Hiface Hlen.
  intros Hv. unfold Validate in Hv. case_decide as Hip; [done|].
  destruct (ParseCIDR (OverlaySubnet l)) as [[addr net]|] eqn:Hs; [|done].
  destruct (ParseMAC (OverlayHardwareAddr l)) as [mac|] eqn:Hmac; [|done].
  pose proof (join_ip _ _ _ _ _ Hjoin) as Hparse.
  destruct Hjoin as [_ (ip0 & onet & Honet & Hsize & _) Hpl _ _].
  apply (wp_embed daemon_up net_up_step (fun X => @OnNet X)).
  { intros X e w1 w2 x Hx. by apply exec_trigger in Hx. }
  unfold Create. rewrite decide_False by apply (valid_cfg_VTEPName _ Hvalid).
  replace (cfg_VTEPPort cfg <? 1) with false by (pose proof (valid_cfg_VTEPPort _ Hvalid); lia).
  rewrite decide_False by done. apply wp_bind_err.
  apply wp_mono with (fun w' x => w' = w /\ is_Ok x = true).
  { case_decide as Hname.
    - wp_call. intros w' x [-> Hx]. by destruct x.
    - destruct Hiface as [?|[Hok Hex]]; [done|]. unfold locateInterface. apply wp_bind_err.
      wp_call. intros w' x [-> ->]. eapply wp_mono; [by apply locate_loop_up|].
      intros w' x [-> Hx]. by destruct x. }
  intros w' x [-> Hx]. destruct x as [i|]; [|done].
  rewrite Hs, Hmac, Honet, Hsize. replace (cfg_SubnetPrefixLength cfg <=? len) with false by lia.
  split; [done|]. by eexists.
Qed.

Lemma acquireLease_up w :
  rows_ok (network c) (sw_store w) -> room c (cfg_SingleIPOnly cfg) ip (sw_store w) ->
  (m < 32 \/ ip ∈ map row_underlay_ip (w_table (sw_store w))) -> sw_device w = None ->
  wp daemon_up (acquireLease cfg) w (fun w' x =>
    (exists l, x = Ok l /\ Validate l = Ok tt) /\
    exists v a, sw_device w' = Some v /\ dev_addrs v = [a]).
Proof using All.
  intros Hok Hroom Hm Hd. unfold acquireLease. apply wp_bind_err.
  apply wp_mono with (fun w1 x => sw_device w1 = None /\ exists l, x = Ok l /\ Validate l = Ok tt).
  { destruct (cfg_SingleIPOnly cfg); apply wp_trigger; intros w' x Hx;
      pattern w', x; refine (wp_exec _ _ _ _ _ _ _ Hx);
      apply (wp_zoom start_up_step http_up (fun X => @StartHttp X) sw_store with_store);
      try done; try (by intros []); (eapply wp_mono; [by apply acquireLease_http_up|]); by intros v y Hy. }
  intros w1 x1 (Hd1 & l & -> & Hl).
  replace (cfg_HealthCheckPort cfg =? 0) with false by (pose proof (valid_cfg_HealthCheckPort _ Hvalid); lia).
  apply wp_bind_err. eapply wp_mono; [by apply Create_up|]. intros w2 x2 (-> & conf & -> & Hname).
  apply wp_bind_err, kernel_up_wp. eapply wp_mono; [by apply CreateVTEP_up|].
  intros k x3 (-> & v & a & Hv & Ha). cbn [wp]. split; [by eexists|]. by exists v, a.
Qed.

Lemma daemon_start_up marshal w :
  (forall i, is_Ok (marshal i) = true) ->
  rows_ok (network c) (sw_store w) -> room c (cfg_SingleIPOnly cfg) ip (sw_store w) ->
  (m < 32 \/ ip ∈ map row_underlay_ip (w_table (sw_store w))) -> sw_device w = None ->
  wp daemon_up (daemon_start cfg marshal) w (fun _ x => is_Ok x = true).
Proof using All.
  intros Hmarshal Hok Hroom Hm Hd. unfold daemon_start.
  destruct (join_net _ _ _ _ _ Hjoin) as (ip0 & onet & -> & _).
  apply wp_bind_err. unfold establishLease, discoverLocalLease. apply wp_bind, wp_bind_err, kernel_up_wp.
  eapply wp_mono; [apply device_up, GetVTEPState_wp|]. intros k x1 (_ & Hk & Hx1). rewrite Hd in Hk.
  destruct x1 as [[[hw ip'] mtu]|e]; [destruct Hx1 as (v & _ & _ & E & _); congruence|].
  eapply wp_mono; [by apply acquireLease_up|]. intros w2 x2 ((l & -> & Hl) & v & a & Hv & Ha).
  apply wp_bind_err. unfold getNetworkInfo. apply wp_bind_err, kernel_up_wp.
  eapply wp_mono; [by eapply GetVTEPState_up|]. intros k3 x3 [Hx3 _].
  destruct x3 as [[[hw' ip3] mtu]|]; [|done]. cbn [wp]. unfold buildHealthCheckServer.
  specialize (Hmarshal {| Info_OverlaySubnet := OverlaySubnet l; Info_MTU := mtu |}).
  destruct (marshal _) as [bytes|]; [|done]. cbn [bind_err bind].
  unfold Validate in Hl. case_decide; [done|].
  destruct (ParseCIDR (OverlaySubnet l)) as [[ip4 subnet]|]; [|done].
  wp_call. intros w4 x4 Hx4%exec_trigger. simpl in Hx4. destruct Hx4 as [_ Hx4]. by destruct x4.
Qed.

End StartUp.

(** C14. On a network that works, with nobody else at the controller, the first start of
    a cell succeeds: with an accepted configuration that belongs to the controller's
    network, has subnets smaller than it, an IPv4 underlay IP, and an interface that is
    named or carries that IP; with at least one attempt configured, a well-formed table
    and no device yet; and when the cell has a lease already, or else the subnets are
    shorter than 32 bits ([len < m < 32]; for 32 see [prefix_32_never_reclaims]) and a
    subnet of the kind it asks for is free or expired. *)
Theorem first_start_succeeds {M} cfg c base len m choices json not_found (codec : MapCodec M) ifaces addrs_of
    marshal w :
  joins cfg c base len m -> len < m -> client_config_valid cfg -> interface_found (cfg := cfg) ifaces addrs_of ->
  To4 (ParseIP (cfg_UnderlayIP cfg)) <> [] -> legal_choices choices -> 0 < AcquireSubnetLeaseAttempts c ->
  JsonLaws json -> (forall i, is_Ok (marshal i) = true) ->
  rows_ok (network c) (sw_store w) -> room c (cfg_SingleIPOnly cfg) (cfg_UnderlayIP cfg) (sw_store w) ->
  (m < 32 \/ cfg_UnderlayIP cfg ∈ map row_underlay_ip (w_table (sw_store w))) ->
  sw_device w = None ->
  wp (start_up_step (cfg := cfg) (c := c) choices json not_found ifaces addrs_of)
    (interp (main_daemon codec json (cfg_ConnectivityServerURL cfg)) (daemon_start cfg marshal)) w
    (fun _ x => is_Ok x = true).
Proof. intros. apply wp_interp. by eapply daemon_start_up. Qed.

(** ** At concrete inputs *)

Lemma small_start_holding : holding (c := small_controller) (cell_lease "10.0.0.1") (cw_store (cell_world_of small_start)).
Proof.
  destruct small_start_ok as [Hrows _]. split; [split; [done|]|apply list_elem_of_here].
  repeat constructor; vm_compute; reflexivity.
Qed.

(** A controller over the table itself, a network that delivers and a kernel in
    memory keep the contracts of this file. *)
Definition up_store : handler storeE traced := fun X e w =>
  let '(v, x) := table_store X e w in ({| current := v; past := current w :: past w |}, x).

Definition up_api : handler apiE traced := fun X e w =>
  match e in apiE X return traced * X with
  | Api_AcquireSubnetLease ip single =>
      run up_store (AcquireSubnetLease small_controller any_choices ip single) w
  | Api_ReleaseSubnetLease ip => run up_store (ReleaseSubnetLease ip) w
  | Api_RenewSubnetLease l => run up_store (RenewSubnetLease l) w
  | Api_RoutableLeases => run up_store (RoutableLeases small_controller) w
  | Api_CheckDatabase => (w, Ok tt)
  end.

Definition up_link : handler httpE traced :=
  link canonical_json "https://silk:4103" not_found_page up_api.

Lemma up_api_step rely X (e : apiE X) w :
  api_up_step (c := small_controller) rely any_choices X e w (fst (up_api X e w)) (snd (up_api X e w)).
Proof.
  assert (forall A (p : prog storeE A),
    exec (busy_up_step rely) p w (fst (run up_store p w)) (snd (run up_store p w))) as Hrun.
  { intros A p. apply (exec_sound (busy_up_step rely) up_store (fun _ => True) id); [|done].
    intros Y f w' _. split; [done|]. pose proof (table_store_up Y f w') as Hs. unfold up_store, id.
    destruct (table_store Y f w') as [v x]. do 2 eexists. split; [apply rtc_refl|].
    split; [|apply rtc_refl]. by split. }
  destruct e; cbn [up_api api_up_step]; try apply Hrun. by split; [apply rtc_refl|].
Qed.

Lemma up_link_step rely X (e : httpE X) w :
  http_up_step (c := small_controller) rely any_choices canonical_json "https://silk:4103" not_found_page
    X e w (fst (up_link X e w)) (snd (up_link X e w)).
Proof.
  destruct e as [|method url body]; [done|]. unfold up_link, link. cbn [http_up_step].
  destruct (strip_prefix _ url) as [path|]; [|done]. set (prg := router _ _ _ _ _).
  pose proof (exec_sound (api_up_step (c := small_controller) rely any_choices) up_api (fun _ => True) id prg w
    (fun X e w _ => conj I (up_api_step rely X e w)) I) as Hx.
  destruct (run up_api prg w) as [w' r]. exists r. split; [exact Hx|done].
Qed.

Definition up_cell : handler cycleE cell_world := fun X e cw =>
  match e in cycleE X return cell_world * X with
  | OnHttp e =>
      let '(w, x) := up_link _ e (cw_store cw) in
      (put_store (w, (cw_now cw, confirm "https://silk:4103" (cw_now cw) e x (cw_confirmed cw))) cw, x)
  | OnNetlink e => let '(k, x) := kernel_handle _ e (cw_kernel cw) in (put_kernel k cw, x)
  | OnPlanner e =>
      match e in plannerE X return cell_world * X with
      | Now => (put_now (cw_now cw + 1) cw, cw_now cw + 1)
      | Select => (cw, Elapsed)
      | IncrementCounter _ | SendValue _ _ _ => (cw, tt)
      | Client_RenewSubnetLease _ => (cw, Ok tt)
      | Client_GetActiveLeases => (cw, Ok [])
      | Converger_Converge _ => (cw, Ok tt)
      end
  end.

Lemma up_cell_step rely X (e : cycleE X) cw :
  cycle_up_step (c := small_controller) rely any_choices canonical_json "https://silk:4103" not_found_page
    X e cw (fst (up_cell X e cw)) (snd (up_cell X e cw)).
Proof.
  destruct e as [X e|X e|X e]; cbn [up_cell].
  - pose proof (up_link_step rely X e (cw_store cw)). destruct (up_link X e (cw_store cw)). done.
  - pose proof (kernel_handle_keyed X e (cw_kernel cw)) as Hk.
    assert (obliged e (snd (kernel_handle X e (cw_kernel cw)))) by by destruct e.
    destruct (kernel_handle X e (cw_kernel cw)). done.
  - by destruct e.
Qed.

Local Abbreviation small_planner := (main_planner canonical_json "https://silk:4103" small_converger).

Lemma up_cell_run rely {A} (p : prog cycleE A) cw Q :
  wp (cycle_up_step (c := small_controller) rely any_choices canonical_json "https://silk:4103" not_found_page)
    p cw Q -> Q (fst (run up_cell p cw)) (snd (run up_cell p cw)).
Proof.
  intros H. exact (proj1 (wp_sound _ up_cell (fun _ => True) id p cw Q
    (fun X e s _ => conj I (up_cell_step rely X e s)) I H)).
Qed.

(** The daemon of the small network runs for three turns. *)
Lemma working_daemon_keeps_running_witness :
  let start := cell_world_of small_start in
  snd (snd (run up_cell (interp small_planner (DoCycle (cell_lease "10.0.0.1") fresh_detector)) start)) = Ok tt /\
  let '(cw', r) := run up_cell (interp small_planner (Run (cell_lease "10.0.0.1") 3 fresh_detector)) start in
  (r = OutOfFuel \/ r = Returns (Ok tt)) /\ cell_lease "10.0.0.1" ∈ map lease_of (w_table (cw_store cw')).
Proof.
  intros start.
  destruct (working_daemon_keeps_running small_controller 184483840 30 31
    (considerate small_controller (cell_lease "10.0.0.1")) any_choices canonical_json
    "https://silk:4103" not_found_page (cell_lease "10.0.0.1") small_converger 3 fresh_detector
    start small_configured canonical_json_laws (considerate_keeps _ _) small_start_holding) as [H1 H2].
  apply up_cell_run in H1, H2. split.
  - destruct (run up_cell (interp small_planner (DoCycle _ _)) start) as [cw' [fed' x]]. exact H1.
  - destruct (run up_cell (interp small_planner (Run _ _ _)) start) as [cw' r]. exact H2.
Defined.

Lemma start_config_valid : client_config_valid start_config.
Proof. split; vm_compute; discriminate. Qed.

Lemma new_cell_room : room small_controller false "10.0.0.1" (sw_store (start_world_of new_cell)).
Proof.
  right. left. exists "10.255.0.2/31". split; [|apply not_elem_of_nil].
  apply (bool_decide_unpack _). vm_compute. exact I.
Qed.

Definition up_daemon : handler startE start_world := fun X e w =>
  match e in startE X return start_world * X with
  | StartHttp e => let '(s, x) := up_link _ e (sw_store w) in (with_store s w, x)
  | StartNetlink e => let '(k, x) := small_device false _ e (sw_kern w) in (with_kern k w, x)
  | StartNet e => (w, restarted_net e)
  | StartFile e => let '(f, x) := small_file _ e (sw_file w) in (with_file f w, x)
  end.

Lemma small_device_obliged X (e : netlinkE X) k :
  device_obliged "silk-vtep" e (snd k) (snd (small_device false X e k)).
Proof.
  destruct k as [k d]. destruct e; simpl; try done; repeat case_decide; destruct d; simpl; try done; intros;
    destruct_or?; try done; by match goal with H : is_Some None |- _ => destruct H end.
Qed.

Lemma up_daemon_step X (e : startE X) w :
  start_up_step (cfg := start_config) (c := small_controller) any_choices canonical_json not_found_page
    [] (fun _ => []) X e w (fst (up_daemon X e w)) (snd (up_daemon X e w)).
Proof.
  destruct e as [X e|X e|X e|X e]; cbn [up_daemon].
  - pose proof (up_link_step nobody X e (sw_store w)). destruct (up_link X e (sw_store w)). done.
  - pose proof (small_device_step false X e (sw_kern w)) as Hd.
    pose proof (small_device_obliged X e (sw_kern w)).
    destruct (small_device false X e (sw_kern w)). done.
  - by destruct e.
  - by destruct e.
Qed.

Lemma first_start_succeeds_witness :
  is_Ok (snd (run up_daemon
    (interp (main_daemon binary_codec canonical_json "https://silk:4103") (daemon_start start_config subnet_json))
    (start_world_of new_cell))) = true.
Proof.
  exact (proj1 (wp_sound _ up_daemon (fun _ => True) id _ (start_world_of new_cell) _
    (fun X e s _ => conj I (up_daemon_step X e s)) I
    (first_start_succeeds start_config small_controller 184483840 30 31 any_choices canonical_json
    not_found_page binary_codec [] (fun _ => []) subnet_json (start_world_of new_cell) start_joins ltac:(lia)
    start_config_valid ltac:(left; discriminate) ltac:(vm_compute; discriminate) any_choices_legal eq_refl canonical_json_laws
    (fun _ => eq_refl) new_rows_ok new_cell_room ltac:(left; lia) eq_refl))).
Defined.
