(* ===== verification/Doubles.v ===== *)
(** * Test doubles

    The packages fakes hold one generated struct per interface, with which the unit
    tests replace the interface: per method a stub, the arguments of the calls so
    far, an answer for every call and answers for particular calls; and the
    invocations of all methods by name. All of them are instances of one scheme,
    which is modelled here for any set of methods; the files Fakes* have the instances. A
    stub is a function of the arguments. The mutexes make each of the operations
    below atomic. *)

From Stdlib Require Import ZArith Lia Eqdep_dec.
From S2P Require Import Prelude GoFmt.

(** ** One method *)

Record double (A R : Type) := Double {
  Stub : option (A -> R);
  argsForCall : list A;
  returns : R;
  returnsOnCall : gmap Z R
}.
Arguments Double {A R}.
Arguments Stub {A R}.
Arguments argsForCall {A R}.
Arguments returns {A R}.
Arguments returnsOnCall {A R}.

Section Method.
Context {A R : Type}.
Implicit Types d : double A R.

(** The answer to the call with the given number. *)
Definition answer d (i : Z) (a : A) : R :=
  match Stub d with
  | Some stub => stub a
  | None => match returnsOnCall d !! i with Some ret => ret | None => returns d end
  end.

Definition double_record d (a : A) : double A R :=
  Double (Stub d) (argsForCall d ++ [a]) (returns d) (returnsOnCall d).

Definition double_CallCount d : Z := Z.of_nat (length (argsForCall d)).

Definition double_ArgsForCall d (i : Z) : outcome A :=
  match (if 0 <=? i then argsForCall d !! Z.to_nat i else None) with
  | Some a => Returns a
  | None => Panics ("runtime error: index out of range [" +:+ itoa i +:+ "] with length "
                    +:+ itoa (Z.of_nat (length (argsForCall d))))
  end.

Definition double_Returns d (r : R) : double A R :=
  Double None (argsForCall d) r (returnsOnCall d).

Definition double_ReturnsOnCall d (i : Z) (r : R) : double A R :=
  Double None (argsForCall d) (returns d) (<[i := r]> (returnsOnCall d)).

Definition double_SetStub d (stub : option (A -> R)) : double A R :=
  Double stub (argsForCall d) (returns d) (returnsOnCall d).

End Method.

(** ** All methods of an interface *)

Class Methods (M : Type) := {
  Args : M -> Type;
  Res : M -> Type;
  method_name : M -> string;
  zero_result : forall m, Res m;
  #[global] method_dec :: EqDecision M;
  #[global] method_name_inj :: Inj (=) (=) method_name
}.

(** An interface with one method. *)
Global Instance unit_inj {B} (f : unit -> B) : Inj (=) (=) f.
Proof. by intros [] []. Qed.

Definition one_method (A R : Type) (name : string) (zero : R) : Methods unit := {|
  Args _ := A;
  Res _ := R;
  method_name _ := name;
  zero_result _ := zero
|}.

(** A call: the method with its arguments. *)
Definition invocation (M : Type) `{Methods M} : Type := {m : M & Args m}.

Record fake (M : Type) `{Methods M} := {
  double_of : forall m : M, double (Args m) (Res m);
  invocations : gmap string (list (invocation M))
}.
Arguments double_of {M _}.
Arguments invocations {M _}.

Section Fake.
Context {M : Type} `{Methods M}.
Implicit Types f : fake M.

Definition new_fake : fake M :=
  {| double_of m := Double None [] (zero_result m) ∅; invocations := ∅ |}.

(** The struct with another double for the method [m]. *)
Definition set_double f (m : M) (d : double (Args m) (Res m)) : fake M := {|
  double_of m' :=
    match decide (m = m') with
    | left e => match e in _ = m' return double (Args m') (Res m') with eq_refl => d end
    | right _ => double_of f m'
    end;
  invocations := invocations f
|}.

Definition recordInvocation f (key : string) (args : invocation M) : fake M :=
  {| double_of := double_of f;
     invocations := <[key := default [] (invocations f !! key) ++ [args]]> (invocations f) |}.

Definition invoke f (m : M) (a : Args m) : fake M * Res m :=
  let d := double_of f m in
  (recordInvocation (set_double f m (double_record d a)) (method_name m) (existT m a),
   answer d (double_CallCount d) a).

Definition CallCount f (m : M) : Z := double_CallCount (double_of f m).
Definition ArgsForCall f (m : M) (i : Z) : outcome (Args m) := double_ArgsForCall (double_of f m) i.
Definition set_Returns f (m : M) (r : Res m) : fake M :=
  set_double f m (double_Returns (double_of f m) r).
Definition set_ReturnsOnCall f (m : M) (i : Z) (r : Res m) : fake M :=
  set_double f m (double_ReturnsOnCall (double_of f m) i r).
Definition set_Stub f (m : M) (stub : option (Args m -> Res m)) : fake M :=
  set_double f m (double_SetStub (double_of f m) stub).
Definition Invocations f : gmap string (list (invocation M)) := invocations f.

(** The functions a method [m] contributes to the fake; a method without
    parameters has no [ArgsForCall]. *)
Record method_functions0 (m : M) := {
  fn_call : fake M -> Args m -> fake M * Res m;
  fn_CallCount : fake M -> Z;
  fn_Returns : fake M -> Res m -> fake M;
  fn_ReturnsOnCall : fake M -> Z -> Res m -> fake M
}.

Record method_functions (m : M) := {
  fn_base : method_functions0 m;
  fn_ArgsForCall : fake M -> Z -> outcome (Args m)
}.

Definition functions0 (m : M) : method_functions0 m := {|
  fn_call f a := invoke f m a;
  fn_CallCount f := CallCount f m;
  fn_Returns f r := set_Returns f m r;
  fn_ReturnsOnCall f i r := set_ReturnsOnCall f m i r
|}.

Definition functions (m : M) : method_functions m := {|
  fn_base := functions0 m;
  fn_ArgsForCall f i := ArgsForCall f m i
|}.

(** A method without results has no [Returns]. *)
Record void_functions0 (m : M) := {
  vfn_call : fake M -> Args m -> fake M;
  vfn_CallCount : fake M -> Z
}.

Record void_functions (m : M) := {
  vfn_base : void_functions0 m;
  vfn_ArgsForCall : fake M -> Z -> outcome (Args m)
}.

Definition functions_void0 (m : M) : void_functions0 m := {|
  vfn_call f a := fst (invoke f m a);
  vfn_CallCount f := CallCount f m
|}.

Definition functions_void (m : M) : void_functions m := {|
  vfn_base := functions_void0 m;
  vfn_ArgsForCall f i := ArgsForCall f m i
|}.

(** ** Facts *)

Lemma double_of_set_eq f m d : double_of (set_double f m d) m = d.
Proof.
  simpl. destruct (decide (m = m)) as [e|Hne]; [|done].
  rewrite (UIP_dec method_dec e eq_refl). done.
Qed.

Lemma double_of_set_ne f m d m' : m <> m' -> double_of (set_double f m d) m' = double_of f m'.
Proof. intros Hne. simpl. by destruct (decide (m = m')). Qed.

(** The arguments of the calls of [m] in a list of calls. *)
Definition args_of (m : M) (t : list (invocation M)) : list (Args m) :=
  omap (fun '(existT m' a) =>
    match decide (m' = m) with
    | left e => Some (match e in _ = m return Args m with eq_refl => a end)
    | right _ => None
    end) t.

Lemma args_of_app m t1 t2 : args_of m (t1 ++ t2) = args_of m t1 ++ args_of m t2.
Proof. apply omap_app. Qed.

Lemma args_of_eq m a : args_of m [existT m a] = [a].
Proof.
  simpl. destruct (decide (m = m)) as [e|]; [|done]. by rewrite (UIP_dec method_dec e eq_refl).
Qed.

Lemma args_of_ne m m' a : m' <> m -> args_of m [existT m' a] = [].
Proof. intros Hne. simpl. by destruct (decide (m' = m)). Qed.

(** The invocations by name agree with the calls recorded per method. *)
Definition consistent f : Prop := forall m,
  default [] (invocations f !! method_name m) = map (existT m) (argsForCall (double_of f m)).

Lemma consistent_new : consistent new_fake.
Proof. intros m. simpl. by rewrite lookup_empty. Qed.

Lemma consistent_set f m d :
  argsForCall d = argsForCall (double_of f m) -> consistent f -> consistent (set_double f m d).
Proof.
  intros Hd Hc m'. specialize (Hc m'). destruct (decide (m = m')) as [<-|Hne].
  - by rewrite double_of_set_eq, Hd.
  - by rewrite double_of_set_ne.
Qed.

Lemma double_of_invoke f m a m' :
  double_of (invoke f m a).1 m' = double_of (set_double f m (double_record (double_of f m) a)) m'.
Proof. done. Qed.

Lemma consistent_invoke f m a : consistent f -> consistent (invoke f m a).1.
Proof.
  intros Hc m'. rewrite double_of_invoke. cbn [invoke fst recordInvocation invocations].
  destruct (decide (m = m')) as [<-|Hne].
  - rewrite lookup_insert_eq, double_of_set_eq. simpl. by rewrite Hc, map_app.
  - rewrite lookup_insert_ne by (by intros ?%(inj method_name)).
    rewrite double_of_set_ne by done. apply Hc.
Qed.

(** [Returns] holds for the calls without an answer of their own, whatever was
    stubbed before; [ReturnsOnCall] for its call. *)
Lemma Returns_answers f m r i a :
  answer (double_of (set_Returns f m r) m) i a = default r (returnsOnCall (double_of f m) !! i).
Proof.
  unfold set_Returns. rewrite double_of_set_eq. unfold answer. simpl. by destruct (_ !! i).
Qed.

Lemma ReturnsOnCall_answers f m i r j a :
  answer (double_of (set_ReturnsOnCall f m i r) m) j a =
    if decide (j = i) then r
    else default (returns (double_of f m)) (returnsOnCall (double_of f m) !! j).
Proof.
  unfold set_ReturnsOnCall. rewrite double_of_set_eq. unfold answer. simpl. case_decide as Hj.
  - subst. by rewrite lookup_insert_eq.
  - rewrite lookup_insert_ne by done. by destruct (_ !! j).
Qed.

Lemma consistent_arranged f m :
  consistent f ->
  (forall r, consistent (set_Returns f m r)) /\
  (forall i r, consistent (set_ReturnsOnCall f m i r)) /\
  (forall stub, consistent (set_Stub f m stub)).
Proof. intros Hc. split_and!; intros; by apply consistent_set. Qed.

End Fake.

(** ** Code under test

    An interface [E] whose calls are calls of the methods [M]. *)

Record call_of (M : Type) `{Methods M} (X : Type) := {
  call_method : M;
  call_args : Args call_method;
  call_result : Res call_method -> X
}.
Arguments call_method {M _ X}.
Arguments call_args {M _ X}.
Arguments call_result {M _ X}.

Class Doubled (E : Type -> Type) (M : Type) `{Methods M} := as_call : forall X, E X -> call_of M X.

Section Tested.
Context {E : Type -> Type} {M : Type} `{Doubled E M}.

Definition fake_handle : handler E (fake M) := fun X e f =>
  let c := as_call X e in
  let '(f', r) := invoke f (call_method c) (call_args c) in
  (f', call_result c r).

(** The reference: the program gets the answers arranged before it starts, the
    [i]-th call of a method its [i]-th answer, and leaves the list of its calls. *)
Fixpoint scripted {A} (script : forall m : M, Z -> Args m -> Res m) (t : list (invocation M))
    (p : prog E A) : list (invocation M) * A :=
  match p with
  | Ret a => (t, a)
  | Vis X e k =>
      let c := as_call X e in
      let m := call_method c in
      scripted script (t ++ [existT m (call_args c)])
        (k (call_result c (script m (Z.of_nat (length (args_of m t))) (call_args c))))
  end.

(** The answers arranged in a fake for its next calls: the stub's if there is one, else
    the one for that call, counted from the first call ever, else the one for all. *)
Definition arranged (f : fake M) (m : M) (i : Z) (a : Args m) : Res m :=
  match Stub (double_of f m) with
  | Some stub => stub a
  | None =>
      default (returns (double_of f m))
        (returnsOnCall (double_of f m) !! (Z.of_nat (length (argsForCall (double_of f m))) + i))
  end.

(** The fake after the calls [t]. *)
Record has_recorded (f f' : fake M) (t : list (invocation M)) : Prop := {
  rec_args m : argsForCall (double_of f' m) = argsForCall (double_of f m) ++ args_of m t;
  rec_stub m : Stub (double_of f' m) = Stub (double_of f m);
  rec_returns m : returns (double_of f' m) = returns (double_of f m);
  rec_on_call m : returnsOnCall (double_of f' m) = returnsOnCall (double_of f m)
}.

Lemma has_recorded_nil f : has_recorded f f [].
Proof. split; intros m; [by rewrite app_nil_r|done..]. Qed.

Lemma has_recorded_snoc f f' t m a :
  has_recorded f f' t -> has_recorded f (invoke f' m a).1 (t ++ [existT m a]).
Proof.
  intros [Ha Hs Hr Ho]. split; intros m'; rewrite double_of_invoke;
    destruct (decide (m = m')) as [<-|Hne];
    rewrite ?double_of_set_eq, ?double_of_set_ne by done; auto.
  - simpl. rewrite Ha, args_of_app, args_of_eq. by rewrite app_assoc.
  - rewrite args_of_app, args_of_ne by done. by rewrite app_nil_r.
Qed.

(** A fake in use answers as arranged at the start. *)
Lemma recorded_answer f f' t m a :
  has_recorded f f' t ->
  answer (double_of f' m) (CallCount f' m) a = arranged f m (Z.of_nat (length (args_of m t))) a.
Proof.
  intros [Ha Hs Hr Ho]. unfold arranged, answer, CallCount, double_CallCount.
  rewrite Ha, Hs, Hr, Ho, length_app. by rewrite Nat2Z.inj_add.
Qed.

Lemma run_recorded {A} (p : prog E A) f f' t :
  has_recorded f f' t -> consistent f' ->
  let '(t', b) := scripted (arranged f) t p in
  let '(f'', a) := run fake_handle p f' in
  a = b /\ has_recorded f f'' t' /\ consistent f''.
Proof.
  revert f' t. induction p as [a|X e k IH]; intros f' t Hrec Hc; [done|].
  cbn [run scripted]. unfold fake_handle at 1.
  destruct (invoke f' _ _) as [f2 r] eqn:Hi. injection Hi as Hf2 Hr.
  rewrite (recorded_answer f f' t) in Hr by done. rewrite <- Hr.
  pose proof (has_recorded_snoc f f' t _ (call_args (as_call X e)) Hrec) as Hrec'.
  pose proof (consistent_invoke f' _ (call_args (as_call X e)) Hc) as Hc'.
  cbn [invoke fst] in Hrec', Hc'. rewrite Hf2 in Hrec', Hc'. by apply IH.
Qed.

(** Code run against a test double gets, for every call, the answer that was
    arranged for it (its stub's, else the one for that call, else the one for all
    calls), exactly as under a fixed script; afterwards the double holds exactly
    the code's calls, in order: by method what [CallCount] and [ArgsForCall] read,
    and by name what [Invocations] gives; the arrangements are still in place. *)
Theorem double_plays_script {A} (p : prog E A) (f : fake M) :
  consistent f ->
  let '(t, b) := scripted (arranged f) [] p in
  let '(f', a) := run fake_handle p f in
  a = b /\ has_recorded f f' t /\ consistent f' /\
  forall m, CallCount f' m = CallCount f m + Z.of_nat (length (args_of m t)) /\
    (forall i a, args_of m t !! i = Some a ->
       ArgsForCall f' m (CallCount f m + Z.of_nat i) = Returns a) /\
    default [] (Invocations f' !! method_name m) =
      default [] (Invocations f !! method_name m) ++ map (existT m) (args_of m t).
Proof.
  intros Hc. pose proof (run_recorded p f f [] (has_recorded_nil f) Hc) as Hrun.
  destruct (scripted _ _ p) as [t b], (run fake_handle p f) as [f' a].
  destruct Hrun as (-> & Hrec & Hc'). do 3 (split; [done|]). intros m.
  pose proof (rec_args _ _ _ Hrec m) as Ha. split_and!.
  - unfold CallCount, double_CallCount. rewrite Ha, length_app. lia.
  - intros i x Hx. unfold ArgsForCall, double_ArgsForCall, CallCount, double_CallCount.
    destruct (Z.leb_spec 0 (Z.of_nat (length (argsForCall (double_of f m))) + Z.of_nat i)); [|lia].
    rewrite <- Nat2Z.inj_add, Nat2Z.id, Ha, lookup_app_r, Nat.add_comm, Nat.add_sub, Hx by lia. done.
  - unfold Invocations. rewrite Hc', Hc, Ha. by rewrite map_app.
Qed.

End Tested.
