(* ===== verification/Fakes.v ===== *)
(** * Two of the generated fakes

    src/controller/leaser/fakes/database_handler.go, which stands for the database
    in the tests of the lease controller, and src/cni/lib/fakes/linkOperations.go,
    which stands for the operations on links in those of the CNI library. A result
    of a fake is the tuple its test gives it: a value and an error, both present
    or not. *)

From Stdlib Require Import ZArith Lia.
From S2P Require Import Prelude GoFmt GoNet HwAddr CidrPool Types Sql Store LeaseFacts LeaseController.
From S2P Require Import Concurrency LeaseWitnesses Netlink CniConfig Doubles.

(** ** fakes.DatabaseHandler *)

Inductive DatabaseHandler_method :=
| DH_AddEntry | DH_DeleteEntry | DH_LeaseForUnderlayIP | DH_LastRenewedAtForUnderlayIP
| DH_RenewLeaseForUnderlayIP | DH_All | DH_AllBlockSubnets | DH_AllSingleIPSubnets | DH_AllActive
| DH_OldestExpiredBlockSubnet | DH_OldestExpiredSingleIP.

Definition DatabaseHandler_Args (m : DatabaseHandler_method) : Type :=
  match m with
  | DH_AddEntry => Lease
  | DH_DeleteEntry | DH_LeaseForUnderlayIP | DH_LastRenewedAtForUnderlayIP
  | DH_RenewLeaseForUnderlayIP => string
  | DH_All | DH_AllBlockSubnets | DH_AllSingleIPSubnets => unit
  | DH_AllActive | DH_OldestExpiredBlockSubnet | DH_OldestExpiredSingleIP => Z
  end.

Definition DatabaseHandler_Res (m : DatabaseHandler_method) : Type :=
  match m with
  | DH_AddEntry | DH_DeleteEntry | DH_RenewLeaseForUnderlayIP => option error
  | DH_LeaseForUnderlayIP | DH_OldestExpiredBlockSubnet | DH_OldestExpiredSingleIP =>
      option Lease * option error
  | DH_LastRenewedAtForUnderlayIP => Z * option error
  | DH_All | DH_AllBlockSubnets | DH_AllSingleIPSubnets | DH_AllActive => list Lease * option error
  end.

Definition DatabaseHandler_name (m : DatabaseHandler_method) : string :=
  match m with
  | DH_AddEntry => "AddEntry"
  | DH_DeleteEntry => "DeleteEntry"
  | DH_LeaseForUnderlayIP => "LeaseForUnderlayIP"
  | DH_LastRenewedAtForUnderlayIP => "LastRenewedAtForUnderlayIP"
  | DH_RenewLeaseForUnderlayIP => "RenewLeaseForUnderlayIP"
  | DH_All => "All"
  | DH_AllBlockSubnets => "AllBlockSubnets"
  | DH_AllSingleIPSubnets => "AllSingleIPSubnets"
  | DH_AllActive => "AllActive"
  | DH_OldestExpiredBlockSubnet => "OldestExpiredBlockSubnet"
  | DH_OldestExpiredSingleIP => "OldestExpiredSingleIP"
  end.

(** Go's zero values: no error, nil pointers and slices, 0. *)
Definition DatabaseHandler_zero (m : DatabaseHandler_method) : DatabaseHandler_Res m :=
  match m with
  | DH_AddEntry | DH_DeleteEntry | DH_RenewLeaseForUnderlayIP => None
  | DH_LeaseForUnderlayIP | DH_OldestExpiredBlockSubnet | DH_OldestExpiredSingleIP => (None, None)
  | DH_LastRenewedAtForUnderlayIP => (0, None)
  | DH_All | DH_AllBlockSubnets | DH_AllSingleIPSubnets | DH_AllActive => ([], None)
  end.

Global Instance DatabaseHandler_method_dec : EqDecision DatabaseHandler_method.
Proof. solve_decision. Defined.

Global Instance DatabaseHandler_name_inj : Inj (=) (=) DatabaseHandler_name.
Proof. by intros [] []. Qed.

Global Instance DatabaseHandler_methods : Methods DatabaseHandler_method := {
  Args := DatabaseHandler_Args;
  Res := DatabaseHandler_Res;
  method_name := DatabaseHandler_name;
  zero_result := DatabaseHandler_zero
}.

Definition DatabaseHandler : Type := fake DatabaseHandler_method.

Definition DatabaseHandler_AddEntry := functions DH_AddEntry.
Definition DatabaseHandler_DeleteEntry := functions DH_DeleteEntry.
Definition DatabaseHandler_LeaseForUnderlayIP := functions DH_LeaseForUnderlayIP.
Definition DatabaseHandler_LastRenewedAtForUnderlayIP := functions DH_LastRenewedAtForUnderlayIP.
Definition DatabaseHandler_RenewLeaseForUnderlayIP := functions DH_RenewLeaseForUnderlayIP.
Definition DatabaseHandler_All := functions0 DH_All.
Definition DatabaseHandler_AllBlockSubnets := functions0 DH_AllBlockSubnets.
Definition DatabaseHandler_AllSingleIPSubnets := functions0 DH_AllSingleIPSubnets.
Definition DatabaseHandler_AllActive := functions DH_AllActive.
Definition DatabaseHandler_OldestExpiredBlockSubnet := functions DH_OldestExpiredBlockSubnet.
Definition DatabaseHandler_OldestExpiredSingleIP := functions DH_OldestExpiredSingleIP.
Definition DatabaseHandler_Invocations (f : DatabaseHandler) := Invocations f.
Definition DatabaseHandler_recordInvocation (f : DatabaseHandler) := recordInvocation f.

(** The lease controller tests its calls' errors before their values. *)
Definition to_result {A} (r : A * option error) : result A :=
  match r with (_, Some e) => Err e | (a, None) => Ok a end.

Definition to_error (r : option error) : result unit :=
  match r with Some e => Err e | None => Ok tt end.

Global Instance storeE_doubled : Doubled storeE DatabaseHandler_method := fun X e =>
  match e in storeE X return call_of DatabaseHandler_method X with
  | AddEntry l => Build_call_of _ _ _ DH_AddEntry l to_error
  | DeleteEntry ip => Build_call_of _ _ _ DH_DeleteEntry ip to_error
  | LeaseForUnderlayIP ip => Build_call_of _ _ _ DH_LeaseForUnderlayIP ip to_result
  | LastRenewedAtForUnderlayIP ip => Build_call_of _ _ _ DH_LastRenewedAtForUnderlayIP ip to_result
  | RenewLeaseForUnderlayIP ip => Build_call_of _ _ _ DH_RenewLeaseForUnderlayIP ip to_error
  | All => Build_call_of _ _ _ DH_All tt to_result
  | AllBlockSubnets => Build_call_of _ _ _ DH_AllBlockSubnets tt to_result
  | AllSingleIPSubnets => Build_call_of _ _ _ DH_AllSingleIPSubnets tt to_result
  | AllActive d => Build_call_of _ _ _ DH_AllActive d to_result
  | OldestExpiredBlockSubnet t => Build_call_of _ _ _ DH_OldestExpiredBlockSubnet t to_result
  | OldestExpiredSingleIP t => Build_call_of _ _ _ DH_OldestExpiredSingleIP t to_result
  end.

(** ** fakes.LinkOperations *)

Inductive LinkOperations_method :=
| LO_DisableIPv6 | LO_StaticNeighborNoARP | LO_SetPointToPointAddress | LO_RenameLink
| LO_DeleteLinkByName | LO_RouteAddAll | LO_EnableIPv4Forwarding | LO_EnableReversePathFiltering.

Definition LinkOperations_Args (m : LinkOperations_method) : Type :=
  match m with
  | LO_DisableIPv6 | LO_DeleteLinkByName | LO_EnableReversePathFiltering => string
  | LO_StaticNeighborNoARP => Link * IP * HardwareAddr
  | LO_SetPointToPointAddress => Link * IP * IP
  | LO_RenameLink => string * string
  | LO_RouteAddAll => list CniRoute * IP
  | LO_EnableIPv4Forwarding => unit
  end.

Definition LinkOperations_name (m : LinkOperations_method) : string :=
  match m with
  | LO_DisableIPv6 => "DisableIPv6"
  | LO_StaticNeighborNoARP => "StaticNeighborNoARP"
  | LO_SetPointToPointAddress => "SetPointToPointAddress"
  | LO_RenameLink => "RenameLink"
  | LO_DeleteLinkByName => "DeleteLinkByName"
  | LO_RouteAddAll => "RouteAddAll"
  | LO_EnableIPv4Forwarding => "EnableIPv4Forwarding"
  | LO_EnableReversePathFiltering => "EnableReversePathFiltering"
  end.

Global Instance LinkOperations_method_dec : EqDecision LinkOperations_method.
Proof. solve_decision. Defined.

Global Instance LinkOperations_name_inj : Inj (=) (=) LinkOperations_name.
Proof. by intros [] []. Qed.

Global Instance LinkOperations_methods : Methods LinkOperations_method := {
  Args := LinkOperations_Args;
  Res _ := option error;
  method_name := LinkOperations_name;
  zero_result _ := None
}.

Definition LinkOperations : Type := fake LinkOperations_method.

Definition LinkOperations_DisableIPv6 := functions LO_DisableIPv6.
Definition LinkOperations_StaticNeighborNoARP := functions LO_StaticNeighborNoARP.
Definition LinkOperations_SetPointToPointAddress := functions LO_SetPointToPointAddress.
Definition LinkOperations_RenameLink := functions LO_RenameLink.
Definition LinkOperations_DeleteLinkByName := functions LO_DeleteLinkByName.
Definition LinkOperations_RouteAddAll := functions LO_RouteAddAll.
Definition LinkOperations_EnableIPv4Forwarding := functions0 LO_EnableIPv4Forwarding.
Definition LinkOperations_EnableReversePathFiltering := functions LO_EnableReversePathFiltering.
Definition LinkOperations_Invocations (f : LinkOperations) := Invocations f.
Definition LinkOperations_recordInvocation (f : LinkOperations) := recordInvocation f.

(** ** A test of the lease controller

    The cell has no lease; the first attempt to add one fails, the second does
    not. *)

Definition arranged_database : DatabaseHandler :=
  fn_ReturnsOnCall _ (fn_base _ DatabaseHandler_AddEntry) new_fake 0 (Some (Errorf "guava")).

Lemma arranged_consistent : consistent arranged_database.
Proof. apply consistent_set; [done|]. apply consistent_new. Qed.

Definition tested : prog storeE (result (option Lease)) :=
  AcquireSubnetLease small_controller any_choices "10.0.0.1" false.

Lemma double_plays_script_witness :
  let '(f', a) := run fake_handle tested arranged_database in
  a = Ok (Some (cell_lease "10.0.0.1")) /\
  CallCount f' DH_AddEntry = 2 /\
  ArgsForCall f' DH_AddEntry 1 = Returns (cell_lease "10.0.0.1") /\
  ArgsForCall f' DH_AddEntry 2 = Panics "runtime error: index out of range [2] with length 2" /\
  consistent f'.
Proof.
  pose proof (double_plays_script tested arranged_database arranged_consistent) as Hplay.
  destruct (scripted (arranged arranged_database) [] tested) as [t b] eqn:Ht.
  destruct (run fake_handle tested arranged_database) as [f' a] eqn:Hr.
  destruct Hplay as (-> & Hrec & Hc & Hm).
  vm_compute in Ht. injection Ht as <- <-. split; [reflexivity|].
  destruct (Hm DH_AddEntry) as (Hn & Hargs & _). split; [exact Hn|].
  split; [exact (Hargs 1%nat _ eq_refl)|]. split; [|exact Hc].
  unfold ArgsForCall, double_ArgsForCall. by rewrite (rec_args _ _ _ Hrec).
Defined.
