(* ===== verification/FakesNetlink.v ===== *)
(** * The fakes of the netlink adapter

    src/daemon/vtep/fakes/netlinkAdapter.go and src/cni/lib/fakes/netlinkAdapter.go:
    the daemon's and the CNI library's views of the adapter, as the unit tests
    replace them. The fakes keep what they are given and never look into it, so the
    types of the netlink library are arguments; a result is the tuple its test
    gives it, with nil for what is absent. *)

From Stdlib Require Import ZArith.
From S2P Require Import Prelude GoNet Doubles.

Section NetlinkFakes.
Context {Link Addr Route Neigh Qdisc Filter Float : Type} (zero_float : Float).

(** ** The daemon's *)

Inductive VtepNetlink_method :=
| VN_LinkSetUp | VN_LinkAdd | VN_LinkByName | VN_LinkByIndex | VN_LinkSetHardwareAddr
| VN_AddrAddScopeLink | VN_AddrList | VN_RouteAdd | VN_RouteReplace | VN_RouteList | VN_RouteDel
| VN_LinkDel | VN_NeighSet | VN_ARPList | VN_FDBList | VN_NeighDel.

Definition VtepNetlink_Args (m : VtepNetlink_method) : Type :=
  match m with
  | VN_LinkSetUp => Link
  | VN_LinkAdd => Link
  | VN_LinkByName => string
  | VN_LinkByIndex => Z
  | VN_LinkSetHardwareAddr => Link * HardwareAddr
  | VN_AddrAddScopeLink => Link * Addr
  | VN_AddrList => Link * Z
  | VN_RouteAdd => Route
  | VN_RouteReplace => Route
  | VN_RouteList => Link * Z
  | VN_RouteDel => Route
  | VN_LinkDel => Link
  | VN_NeighSet => Neigh
  | VN_ARPList => Z
  | VN_FDBList => Z
  | VN_NeighDel => Neigh
  end.

Definition VtepNetlink_Res (m : VtepNetlink_method) : Type :=
  match m with
  | VN_LinkSetUp => option error
  | VN_LinkAdd => option error
  | VN_LinkByName => option Link * option error
  | VN_LinkByIndex => option Link * option error
  | VN_LinkSetHardwareAddr => option error
  | VN_AddrAddScopeLink => option error
  | VN_AddrList => list Addr * option error
  | VN_RouteAdd => option error
  | VN_RouteReplace => option error
  | VN_RouteList => list Route * option error
  | VN_RouteDel => option error
  | VN_LinkDel => option error
  | VN_NeighSet => option error
  | VN_ARPList => list Neigh * option error
  | VN_FDBList => list Neigh * option error
  | VN_NeighDel => option error
  end.

Definition VtepNetlink_zero (m : VtepNetlink_method) : VtepNetlink_Res m :=
  match m with
  | VN_LinkSetUp => None
  | VN_LinkAdd => None
  | VN_LinkByName => (None, None)
  | VN_LinkByIndex => (None, None)
  | VN_LinkSetHardwareAddr => None
  | VN_AddrAddScopeLink => None
  | VN_AddrList => ([], None)
  | VN_RouteAdd => None
  | VN_RouteReplace => None
  | VN_RouteList => ([], None)
  | VN_RouteDel => None
  | VN_LinkDel => None
  | VN_NeighSet => None
  | VN_ARPList => ([], None)
  | VN_FDBList => ([], None)
  | VN_NeighDel => None
  end.

Definition VtepNetlink_name (m : VtepNetlink_method) : string :=
  match m with
  | VN_LinkSetUp => "LinkSetUp"
  | VN_LinkAdd => "LinkAdd"
  | VN_LinkByName => "LinkByName"
  | VN_LinkByIndex => "LinkByIndex"
  | VN_LinkSetHardwareAddr => "LinkSetHardwareAddr"
  | VN_AddrAddScopeLink => "AddrAddScopeLink"
  | VN_AddrList => "AddrList"
  | VN_RouteAdd => "RouteAdd"
  | VN_RouteReplace => "RouteReplace"
  | VN_RouteList => "RouteList"
  | VN_RouteDel => "RouteDel"
  | VN_LinkDel => "LinkDel"
  | VN_NeighSet => "NeighSet"
  | VN_ARPList => "ARPList"
  | VN_FDBList => "FDBList"
  | VN_NeighDel => "NeighDel"
  end.

#[local] Instance VtepNetlink_method_dec : EqDecision VtepNetlink_method.
Proof. solve_decision. Defined.

#[local] Instance VtepNetlink_name_inj : Inj (=) (=) VtepNetlink_name.
Proof. by intros [] []. Qed.

#[local] Instance VtepNetlink_methods : Methods VtepNetlink_method := {
  Args := VtepNetlink_Args;
  Res := VtepNetlink_Res;
  method_name := VtepNetlink_name;
  zero_result := VtepNetlink_zero
}.

Definition VtepNetlink : Type := fake VtepNetlink_method.

Definition VtepNetlink_LinkSetUp := functions VN_LinkSetUp.
Definition VtepNetlink_LinkAdd := functions VN_LinkAdd.
Definition VtepNetlink_LinkByName := functions VN_LinkByName.
Definition VtepNetlink_LinkByIndex := functions VN_LinkByIndex.
Definition VtepNetlink_LinkSetHardwareAddr := functions VN_LinkSetHardwareAddr.
Definition VtepNetlink_AddrAddScopeLink := functions VN_AddrAddScopeLink.
Definition VtepNetlink_AddrList := functions VN_AddrList.
Definition VtepNetlink_RouteAdd := functions VN_RouteAdd.
Definition VtepNetlink_RouteReplace := functions VN_RouteReplace.
Definition VtepNetlink_RouteList := functions VN_RouteList.
Definition VtepNetlink_RouteDel := functions VN_RouteDel.
Definition VtepNetlink_LinkDel := functions VN_LinkDel.
Definition VtepNetlink_NeighSet := functions VN_NeighSet.
Definition VtepNetlink_ARPList := functions VN_ARPList.
Definition VtepNetlink_FDBList := functions VN_FDBList.
Definition VtepNetlink_NeighDel := functions VN_NeighDel.
Definition VtepNetlink_Invocations (f : VtepNetlink) := Invocations f.
Definition VtepNetlink_recordInvocation (f : VtepNetlink) := recordInvocation f.

(** ** The CNI library's *)

Inductive CniNetlink_method :=
| CN_LinkByName | CN_ParseAddr | CN_AddrAddScopeLink | CN_LinkSetHardwareAddr
| CN_NeighAddPermanentIPv4 | CN_LinkSetARPOff | CN_LinkSetName | CN_LinkSetUp | CN_LinkDel
| CN_LinkAdd | CN_LinkSetNsFd | CN_RouteAdd | CN_QdiscAdd | CN_FilterAdd | CN_AddrList
| CN_TickInUsec.

Definition CniNetlink_Args (m : CniNetlink_method) : Type :=
  match m with
  | CN_LinkByName => string
  | CN_ParseAddr => string
  | CN_AddrAddScopeLink => Link * Addr
  | CN_LinkSetHardwareAddr => Link * HardwareAddr
  | CN_NeighAddPermanentIPv4 => Z * IP * HardwareAddr
  | CN_LinkSetARPOff => Link
  | CN_LinkSetName => Link * string
  | CN_LinkSetUp => Link
  | CN_LinkDel => Link
  | CN_LinkAdd => Link
  | CN_LinkSetNsFd => Link * Z
  | CN_RouteAdd => Route
  | CN_QdiscAdd => Qdisc
  | CN_FilterAdd => Filter
  | CN_AddrList => Link * Z
  | CN_TickInUsec => unit
  end.

Definition CniNetlink_Res (m : CniNetlink_method) : Type :=
  match m with
  | CN_LinkByName => option Link * option error
  | CN_ParseAddr => option Addr * option error
  | CN_AddrAddScopeLink => option error
  | CN_LinkSetHardwareAddr => option error
  | CN_NeighAddPermanentIPv4 => option error
  | CN_LinkSetARPOff => option error
  | CN_LinkSetName => option error
  | CN_LinkSetUp => option error
  | CN_LinkDel => option error
  | CN_LinkAdd => option error
  | CN_LinkSetNsFd => option error
  | CN_RouteAdd => option error
  | CN_QdiscAdd => option error
  | CN_FilterAdd => option error
  | CN_AddrList => list Addr * option error
  | CN_TickInUsec => Float
  end.

Definition CniNetlink_zero (m : CniNetlink_method) : CniNetlink_Res m :=
  match m with
  | CN_LinkByName => (None, None)
  | CN_ParseAddr => (None, None)
  | CN_AddrAddScopeLink => None
  | CN_LinkSetHardwareAddr => None
  | CN_NeighAddPermanentIPv4 => None
  | CN_LinkSetARPOff => None
  | CN_LinkSetName => None
  | CN_LinkSetUp => None
  | CN_LinkDel => None
  | CN_LinkAdd => None
  | CN_LinkSetNsFd => None
  | CN_RouteAdd => None
  | CN_QdiscAdd => None
  | CN_FilterAdd => None
  | CN_AddrList => ([], None)
  | CN_TickInUsec => zero_float
  end.

Definition CniNetlink_name (m : CniNetlink_method) : string :=
  match m with
  | CN_LinkByName => "LinkByName"
  | CN_ParseAddr => "ParseAddr"
  | CN_AddrAddScopeLink => "AddrAddScopeLink"
  | CN_LinkSetHardwareAddr => "LinkSetHardwareAddr"
  | CN_NeighAddPermanentIPv4 => "NeighAddPermanentIPv4"
  | CN_LinkSetARPOff => "LinkSetARPOff"
  | CN_LinkSetName => "LinkSetName"
  | CN_LinkSetUp => "LinkSetUp"
  | CN_LinkDel => "LinkDel"
  | CN_LinkAdd => "LinkAdd"
  | CN_LinkSetNsFd => "LinkSetNsFd"
  | CN_RouteAdd => "RouteAdd"
  | CN_QdiscAdd => "QdiscAdd"
  | CN_FilterAdd => "FilterAdd"
  | CN_AddrList => "AddrList"
  | CN_TickInUsec => "TickInUsec"
  end.

#[local] Instance CniNetlink_method_dec : EqDecision CniNetlink_method.
Proof. solve_decision. Defined.

#[local] Instance CniNetlink_name_inj : Inj (=) (=) CniNetlink_name.
Proof. by intros [] []. Qed.

#[local] Instance CniNetlink_methods : Methods CniNetlink_method := {
  Args := CniNetlink_Args;
  Res := CniNetlink_Res;
  method_name := CniNetlink_name;
  zero_result := CniNetlink_zero
}.

Definition CniNetlink : Type := fake CniNetlink_method.

Definition CniNetlink_LinkByName := functions CN_LinkByName.
Definition CniNetlink_ParseAddr := functions CN_ParseAddr.
Definition CniNetlink_AddrAddScopeLink := functions CN_AddrAddScopeLink.
Definition CniNetlink_LinkSetHardwareAddr := functions CN_LinkSetHardwareAddr.
Definition CniNetlink_NeighAddPermanentIPv4 := functions CN_NeighAddPermanentIPv4.
Definition CniNetlink_LinkSetARPOff := functions CN_LinkSetARPOff.
Definition CniNetlink_LinkSetName := functions CN_LinkSetName.
Definition CniNetlink_LinkSetUp := functions CN_LinkSetUp.
Definition CniNetlink_LinkDel := functions CN_LinkDel.
Definition CniNetlink_LinkAdd := functions CN_LinkAdd.
Definition CniNetlink_LinkSetNsFd := functions CN_LinkSetNsFd.
Definition CniNetlink_RouteAdd := functions CN_RouteAdd.
Definition CniNetlink_QdiscAdd := functions CN_QdiscAdd.
Definition CniNetlink_FilterAdd := functions CN_FilterAdd.
Definition CniNetlink_AddrList := functions CN_AddrList.
Definition CniNetlink_TickInUsec := functions0 CN_TickInUsec.
Definition CniNetlink_Invocations (f : CniNetlink) := Invocations f.
Definition CniNetlink_recordInvocation (f : CniNetlink) := recordInvocation f.

End NetlinkFakes.
