(* ===== verification/FakesController.v ===== *)
(** * The fakes of the controller's packages

    The generated fakes of src/controller: the database connection and the
    migration, what the handlers call, what the lease controller calls besides the
    database, and what the metrics read. Each is an instance of the scheme of
    Doubles.v. A fake keeps what it is given without looking into it, so the types
    of other libraries are arguments; a result is the tuple its test gives it, with
    nil for what is absent. *)

From Stdlib Require Import ZArith.
From S2P Require Import Prelude GoFmt GoNet Types Doubles.

(** fakes.Db, src/controller/database/fakes/db.go *)
Module Database_Db.
Section Database_Db.
Context {Any DB Result Row Rows : Type}.

Inductive method := m_Exec | m_Rebind | m_Query | m_QueryRow | m_DriverName | m_RawConnection.

Definition method_Args (m : method) : Type :=
  match m with
  | m_Exec => string * list Any
  | m_Rebind => string
  | m_Query => string * list Any
  | m_QueryRow => string * list Any
  | m_DriverName => unit
  | m_RawConnection => unit
  end.

Definition method_Res (m : method) : Type :=
  match m with
  | m_Exec => option Result * option error
  | m_Rebind => string
  | m_Query => option Rows * option error
  | m_QueryRow => option Row
  | m_DriverName => string
  | m_RawConnection => option DB
  end.

Definition method_zero (m : method) : method_Res m :=
  match m with
  | m_Exec => (None, None)
  | m_Rebind => ""
  | m_Query => (None, None)
  | m_QueryRow => None
  | m_DriverName => ""
  | m_RawConnection => None
  end.

Definition method_label (m : method) : string :=
  match m with
  | m_Exec => "Exec"
  | m_Rebind => "Rebind"
  | m_Query => "Query"
  | m_QueryRow => "QueryRow"
  | m_DriverName => "DriverName"
  | m_RawConnection => "RawConnection"
  end.

#[local] Instance Database_Db_dec : EqDecision method.
Proof. solve_decision. Defined.

#[local] Instance Database_Db_inj : Inj (=) (=) method_label.
Proof. by intros [] []. Qed.

Definition methods : Methods method := {|
  Args := method_Args;
  Res := method_Res;
  method_name := method_label;
  zero_result := method_zero
|}.
#[local] Existing Instance methods.

Definition Db : Type := fake method.
Definition Exec := functions m_Exec.
Definition Rebind := functions m_Rebind.
Definition Query := functions m_Query.
Definition QueryRow := functions m_QueryRow.
Definition DriverName := functions0 m_DriverName.
Definition RawConnection := functions0 m_RawConnection.
Definition Invocations (f : Db) := Doubles.Invocations f.
Definition recordInvocation (f : Db) := Doubles.recordInvocation f.

End Database_Db.
End Database_Db.

(** fakes.SqlResult, src/controller/database/fakes/sqlResult.go *)
Module Database_SqlResult.

Inductive method := m_LastInsertId | m_RowsAffected.

Definition method_Args (m : method) : Type :=
  match m with
  | m_LastInsertId => unit
  | m_RowsAffected => unit
  end.

Definition method_Res (m : method) : Type :=
  match m with
  | m_LastInsertId => Z * option error
  | m_RowsAffected => Z * option error
  end.

Definition method_zero (m : method) : method_Res m :=
  match m with
  | m_LastInsertId => (0, None)
  | m_RowsAffected => (0, None)
  end.

Definition method_label (m : method) : string :=
  match m with
  | m_LastInsertId => "LastInsertId"
  | m_RowsAffected => "RowsAffected"
  end.

#[local] Instance Database_SqlResult_dec : EqDecision method.
Proof. solve_decision. Defined.

#[local] Instance Database_SqlResult_inj : Inj (=) (=) method_label.
Proof. by intros [] []. Qed.

Definition methods : Methods method := {|
  Args := method_Args;
  Res := method_Res;
  method_name := method_label;
  zero_result := method_zero
|}.
#[local] Existing Instance methods.

Definition SqlResult : Type := fake method.
Definition LastInsertId := functions0 m_LastInsertId.
Definition RowsAffected := functions0 m_RowsAffected.
Definition Invocations (f : SqlResult) := Doubles.Invocations f.
Definition recordInvocation (f : SqlResult) := Doubles.recordInvocation f.

End Database_SqlResult.

(** fakes.DatabaseMigrator, src/controller/database/fakes/database_migrator.go *)
Module Database_DatabaseMigrator.

Definition methods : Methods unit := one_method unit (Z * option error) "Migrate" (0, None).
#[local] Existing Instance methods.

Definition DatabaseMigrator : Type := fake unit.
Definition Migrate := functions0 tt.
Definition Invocations (f : DatabaseMigrator) := Doubles.Invocations f.
Definition recordInvocation (f : DatabaseMigrator) := Doubles.recordInvocation f.

End Database_DatabaseMigrator.

(** fakes.MigrateAdapter, src/controller/database/fakes/migrateAdapter.go *)
Module Database_MigrateAdapter.
Section Database_MigrateAdapter.
Context {Db MigrationDirection MigrationSource : Type}.

Definition methods : Methods unit := one_method (Db * string * MigrationSource * MigrationDirection) (Z * option error) "Exec" (0, None).
#[local] Existing Instance methods.

Definition MigrateAdapter : Type := fake unit.
Definition Exec := functions tt.
Definition Invocations (f : MigrateAdapter) := Doubles.Invocations f.
Definition recordInvocation (f : MigrateAdapter) := Doubles.recordInvocation f.

End Database_MigrateAdapter.
End Database_MigrateAdapter.

(** fakes.ErrorResponse, src/controller/handlers/fakes/error_response.go *)
Module Handlers_ErrorResponse.
Section Handlers_ErrorResponse.
Context {Logger ResponseWriter : Type}.

Inductive method := m_InternalServerError | m_BadRequest | m_Conflict.

Definition method_Args (m : method) : Type :=
  match m with
  | m_InternalServerError => Logger * ResponseWriter * option error * string
  | m_BadRequest => Logger * ResponseWriter * option error * string
  | m_Conflict => Logger * ResponseWriter * option error * string
  end.

Definition method_Res (m : method) : Type :=
  match m with
  | m_InternalServerError => unit
  | m_BadRequest => unit
  | m_Conflict => unit
  end.

Definition method_zero (m : method) : method_Res m :=
  match m with
  | m_InternalServerError => tt
  | m_BadRequest => tt
  | m_Conflict => tt
  end.

Definition method_label (m : method) : string :=
  match m with
  | m_InternalServerError => "InternalServerError"
  | m_BadRequest => "BadRequest"
  | m_Conflict => "Conflict"
  end.

#[local] Instance Handlers_ErrorResponse_dec : EqDecision method.
Proof. solve_decision. Defined.

#[local] Instance Handlers_ErrorResponse_inj : Inj (=) (=) method_label.
Proof. by intros [] []. Qed.

Definition methods : Methods method := {|
  Args := method_Args;
  Res := method_Res;
  method_name := method_label;
  zero_result := method_zero
|}.
#[local] Existing Instance methods.

Definition ErrorResponse : Type := fake method.
Definition InternalServerError := functions_void m_InternalServerError.
Definition BadRequest := functions_void m_BadRequest.
Definition Conflict := functions_void m_Conflict.
Definition Invocations (f : ErrorResponse) := Doubles.Invocations f.
Definition recordInvocation (f : ErrorResponse) := Doubles.recordInvocation f.

End Handlers_ErrorResponse.
End Handlers_ErrorResponse.

(** fakes.LeaseAcquirer, src/controller/handlers/fakes/lease_acquirer.go *)
Module Handlers_LeaseAcquirer.

Definition methods : Methods unit := one_method (string * bool) (option Lease * option error) "AcquireSubnetLease" (None, None).
#[local] Existing Instance methods.

Definition LeaseAcquirer : Type := fake unit.
Definition AcquireSubnetLease := functions tt.
Definition Invocations (f : LeaseAcquirer) := Doubles.Invocations f.
Definition recordInvocation (f : LeaseAcquirer) := Doubles.recordInvocation f.

End Handlers_LeaseAcquirer.

(** fakes.LeaseReleaser, src/controller/handlers/fakes/lease_releaser.go *)
Module Handlers_LeaseReleaser.

Definition methods : Methods unit := one_method string (option error) "ReleaseSubnetLease" None.
#[local] Existing Instance methods.

Definition LeaseReleaser : Type := fake unit.
Definition ReleaseSubnetLease := functions tt.
Definition Invocations (f : LeaseReleaser) := Doubles.Invocations f.
Definition recordInvocation (f : LeaseReleaser) := Doubles.recordInvocation f.

End Handlers_LeaseReleaser.

(** fakes.LeaseRenewer, src/controller/handlers/fakes/lease_renewer.go *)
Module Handlers_LeaseRenewer.

Definition methods : Methods unit := one_method Lease (option error) "RenewSubnetLease" None.
#[local] Existing Instance methods.

Definition LeaseRenewer : Type := fake unit.
Definition RenewSubnetLease := functions tt.
Definition Invocations (f : LeaseRenewer) := Doubles.Invocations f.
Definition recordInvocation (f : LeaseRenewer) := Doubles.recordInvocation f.

End Handlers_LeaseRenewer.

(** fakes.LeaseRepository, src/controller/handlers/fakes/lease_repository.go *)
Module Handlers_LeaseRepository.

Definition methods : Methods unit := one_method unit (list Lease * option error) "RoutableLeases" ([], None).
#[local] Existing Instance methods.

Definition LeaseRepository : Type := fake unit.
Definition RoutableLeases := functions0 tt.
Definition Invocations (f : LeaseRepository) := Doubles.Invocations f.
Definition recordInvocation (f : LeaseRepository) := Doubles.recordInvocation f.

End Handlers_LeaseRepository.

(** fakes.DatabaseChecker, src/controller/handlers/fakes/database_checker.go *)
Module Handlers_DatabaseChecker.

Definition methods : Methods unit := one_method unit (option error) "CheckDatabase" None.
#[local] Existing Instance methods.

Definition DatabaseChecker : Type := fake unit.
Definition CheckDatabase := functions0 tt.
Definition Invocations (f : DatabaseChecker) := Doubles.Invocations f.
Definition recordInvocation (f : DatabaseChecker) := Doubles.recordInvocation f.

End Handlers_DatabaseChecker.

(** fakes.HardwareAddressGenerator, src/controller/handlers/fakes/hardwareAddressGenerator.go *)
Module Handlers_HardwareAddressGenerator.

Definition methods : Methods unit := one_method IP (HardwareAddr * option error) "GenerateForVTEP" ([], None).
#[local] Existing Instance methods.

Definition HardwareAddressGenerator : Type := fake unit.
Definition GenerateForVTEP := functions tt.
Definition Invocations (f : HardwareAddressGenerator) := Doubles.Invocations f.
Definition recordInvocation (f : HardwareAddressGenerator) := Doubles.recordInvocation f.

End Handlers_HardwareAddressGenerator.

(** fakes.CIDRPool, src/controller/leaser/fakes/cidr_pool.go *)
Module Leaser_CIDRPool.

Inductive method := m_GetAvailableBlock | m_GetAvailableSingleIP | m_IsMember.

Definition method_Args (m : method) : Type :=
  match m with
  | m_GetAvailableBlock => list string
  | m_GetAvailableSingleIP => list string
  | m_IsMember => string
  end.

Definition method_Res (m : method) : Type :=
  match m with
  | m_GetAvailableBlock => string
  | m_GetAvailableSingleIP => string
  | m_IsMember => bool
  end.

Definition method_zero (m : method) : method_Res m :=
  match m with
  | m_GetAvailableBlock => ""
  | m_GetAvailableSingleIP => ""
  | m_IsMember => false
  end.

Definition method_label (m : method) : string :=
  match m with
  | m_GetAvailableBlock => "GetAvailableBlock"
  | m_GetAvailableSingleIP => "GetAvailableSingleIP"
  | m_IsMember => "IsMember"
  end.

#[local] Instance Leaser_CIDRPool_dec : EqDecision method.
Proof. solve_decision. Defined.

#[local] Instance Leaser_CIDRPool_inj : Inj (=) (=) method_label.
Proof. by intros [] []. Qed.

Definition methods : Methods method := {|
  Args := method_Args;
  Res := method_Res;
  method_name := method_label;
  zero_result := method_zero
|}.
#[local] Existing Instance methods.

Definition CIDRPool : Type := fake method.
Definition GetAvailableBlock := functions m_GetAvailableBlock.
Definition GetAvailableSingleIP := functions m_GetAvailableSingleIP.
Definition IsMember := functions m_IsMember.
Definition Invocations (f : CIDRPool) := Doubles.Invocations f.
Definition recordInvocation (f : CIDRPool) := Doubles.recordInvocation f.

End Leaser_CIDRPool.

(** fakes.LeaseValidator, src/controller/leaser/fakes/lease_validator.go *)
Module Leaser_LeaseValidator.

Definition methods : Methods unit := one_method Lease (option error) "Validate" None.
#[local] Existing Instance methods.

Definition LeaseValidator : Type := fake unit.
Definition Validate := functions tt.
Definition Invocations (f : LeaseValidator) := Doubles.Invocations f.
Definition recordInvocation (f : LeaseValidator) := Doubles.recordInvocation f.

End Leaser_LeaseValidator.

(** fakes.HardwareAddressGenerator, src/controller/leaser/fakes/hardwareAddressGenerator.go *)
Module Leaser_HardwareAddressGenerator.

Definition methods : Methods unit := one_method IP (HardwareAddr * option error) "GenerateForVTEP" ([], None).
#[local] Existing Instance methods.

Definition HardwareAddressGenerator : Type := fake unit.
Definition GenerateForVTEP := functions tt.
Definition Invocations (f : HardwareAddressGenerator) := Doubles.Invocations f.
Definition recordInvocation (f : HardwareAddressGenerator) := Doubles.recordInvocation f.

End Leaser_HardwareAddressGenerator.

(** fakes.DatabaseHandler, src/controller/server_metrics/fakes/databaseHandler.go *)
Module Metrics_DatabaseHandler.

Inductive method := m_All | m_AllActive.

Definition method_Args (m : method) : Type :=
  match m with
  | m_All => unit
  | m_AllActive => Z
  end.

Definition method_Res (m : method) : Type :=
  match m with
  | m_All => list Lease * option error
  | m_AllActive => list Lease * option error
  end.

Definition method_zero (m : method) : method_Res m :=
  match m with
  | m_All => ([], None)
  | m_AllActive => ([], None)
  end.

Definition method_label (m : method) : string :=
  match m with
  | m_All => "All"
  | m_AllActive => "AllActive"
  end.

#[local] Instance Metrics_DatabaseHandler_dec : EqDecision method.
Proof. solve_decision. Defined.

#[local] Instance Metrics_DatabaseHandler_inj : Inj (=) (=) method_label.
Proof. by intros [] []. Qed.

Definition methods : Methods method := {|
  Args := method_Args;
  Res := method_Res;
  method_name := method_label;
  zero_result := method_zero
|}.
#[local] Existing Instance methods.

Definition DatabaseHandler : Type := fake method.
Definition All := functions0 m_All.
Definition AllActive := functions m_AllActive.
Definition Invocations (f : DatabaseHandler) := Doubles.Invocations f.
Definition recordInvocation (f : DatabaseHandler) := Doubles.recordInvocation f.

End Metrics_DatabaseHandler.

(** fakes.CIDRPool, src/controller/server_metrics/fakes/cidrPool.go *)
Module Metrics_CIDRPool.

Definition methods : Methods unit := one_method unit Z "BlockPoolSize" 0.
#[local] Existing Instance methods.

Definition CIDRPool : Type := fake unit.
Definition BlockPoolSize := functions0 tt.
Definition Invocations (f : CIDRPool) := Doubles.Invocations f.
Definition recordInvocation (f : CIDRPool) := Doubles.recordInvocation f.

End Metrics_CIDRPool.
