(* ===== verification/FakesDaemon.v ===== *)
(** * The fakes of the daemon's packages

    The generated fakes of src/daemon/planner, of the net adapter in
    src/daemon/vtep, and of src/lib: the datastore, its serializer, its file and
    its lock. Each is an instance of the scheme of Doubles.v; the types of other
    libraries are arguments. *)

From Stdlib Require Import ZArith.
From S2P Require Import Prelude GoFmt GoNet Types Vtep Datastore Doubles.

(** fakes.ControllerClient, src/daemon/planner/fakes/controller_client.go *)
Module Planner_ControllerClient.

Inductive method := m_GetActiveLeases | m_RenewSubnetLease.

Definition method_Args (m : method) : Type :=
  match m with
  | m_GetActiveLeases => unit
  | m_RenewSubnetLease => Lease
  end.

Definition method_Res (m : method) : Type :=
  match m with
  | m_GetActiveLeases => list Lease * option error
  | m_RenewSubnetLease => option error
  end.

Definition method_zero (m : method) : method_Res m :=
  match m with
  | m_GetActiveLeases => ([], None)
  | m_RenewSubnetLease => None
  end.

Definition method_label (m : method) : string :=
  match m with
  | m_GetActiveLeases => "GetActiveLeases"
  | m_RenewSubnetLease => "RenewSubnetLease"
  end.

#[local] Instance Planner_ControllerClient_dec : EqDecision method.
Proof. solve_decision. Defined.

#[local] Instance Planner_ControllerClient_inj : Inj (=) (=) method_label.
Proof. by intros [] []. Qed.

Definition methods : Methods method := {|
  Args := method_Args;
  Res := method_Res;
  method_name := method_label;
  zero_result := method_zero
|}.
#[local] Existing Instance methods.

Definition ControllerClient : Type := fake method.
Definition GetActiveLeases := functions0 m_GetActiveLeases.
Definition RenewSubnetLease := functions m_RenewSubnetLease.
Definition Invocations (f : ControllerClient) := Doubles.Invocations f.
Definition recordInvocation (f : ControllerClient) := Doubles.recordInvocation f.

End Planner_ControllerClient.

(** fakes.Converger, src/daemon/planner/fakes/converger.go *)
Module Planner_Converger.

Definition methods : Methods unit := one_method (list Lease) (option error) "Converge" None.
#[local] Existing Instance methods.

Definition Converger : Type := fake unit.
Definition Converge := functions tt.
Definition Invocations (f : Converger) := Doubles.Invocations f.
Definition recordInvocation (f : Converger) := Doubles.recordInvocation f.

End Planner_Converger.

(** fakes.FatalErrorDetector, src/daemon/planner/fakes/fatalErrorDetector.go *)
Module Planner_FatalErrorDetector.

Inductive method := m_GotSuccess | m_IsFatal.

Definition method_Args (m : method) : Type :=
  match m with
  | m_GotSuccess => unit
  | m_IsFatal => option error
  end.

Definition method_Res (m : method) : Type :=
  match m with
  | m_GotSuccess => unit
  | m_IsFatal => bool
  end.

Definition method_zero (m : method) : method_Res m :=
  match m with
  | m_GotSuccess => tt
  | m_IsFatal => false
  end.

Definition method_label (m : method) : string :=
  match m with
  | m_GotSuccess => "GotSuccess"
  | m_IsFatal => "IsFatal"
  end.

#[local] Instance Planner_FatalErrorDetector_dec : EqDecision method.
Proof. solve_decision. Defined.

#[local] Instance Planner_FatalErrorDetector_inj : Inj (=) (=) method_label.
Proof. by intros [] []. Qed.

Definition methods : Methods method := {|
  Args := method_Args;
  Res := method_Res;
  method_name := method_label;
  zero_result := method_zero
|}.
#[local] Existing Instance methods.

Definition FatalErrorDetector : Type := fake method.
Definition GotSuccess := functions_void0 m_GotSuccess.
Definition IsFatal := functions m_IsFatal.
Definition Invocations (f : FatalErrorDetector) := Doubles.Invocations f.
Definition recordInvocation (f : FatalErrorDetector) := Doubles.recordInvocation f.

End Planner_FatalErrorDetector.

(** fakes.MetricSender, src/daemon/planner/fakes/metricSender.go *)
Module Planner_MetricSender.
Section Planner_MetricSender.
Context {Float : Type}.

Inductive method := m_SendValue | m_IncrementCounter.

Definition method_Args (m : method) : Type :=
  match m with
  | m_SendValue => string * Float * string
  | m_IncrementCounter => string
  end.

Definition method_Res (m : method) : Type :=
  match m with
  | m_SendValue => unit
  | m_IncrementCounter => unit
  end.

Definition method_zero (m : method) : method_Res m :=
  match m with
  | m_SendValue => tt
  | m_IncrementCounter => tt
  end.

Definition method_label (m : method) : string :=
  match m with
  | m_SendValue => "SendValue"
  | m_IncrementCounter => "IncrementCounter"
  end.

#[local] Instance Planner_MetricSender_dec : EqDecision method.
Proof. solve_decision. Defined.

#[local] Instance Planner_MetricSender_inj : Inj (=) (=) method_label.
Proof. by intros [] []. Qed.

Definition methods : Methods method := {|
  Args := method_Args;
  Res := method_Res;
  method_name := method_label;
  zero_result := method_zero
|}.
#[local] Existing Instance methods.

Definition MetricSender : Type := fake method.
Definition SendValue := functions_void m_SendValue.
Definition IncrementCounter := functions_void m_IncrementCounter.
Definition Invocations (f : MetricSender) := Doubles.Invocations f.
Definition recordInvocation (f : MetricSender) := Doubles.recordInvocation f.

End Planner_MetricSender.
End Planner_MetricSender.

(** fakes.NetAdapter, src/daemon/vtep/fakes/netAdapter.go *)
Module Vtep_NetAdapter.
Section Vtep_NetAdapter.
Context {NetAddr : Type}.

Inductive method := m_Interfaces | m_InterfaceAddrs | m_InterfaceByName.

Definition method_Args (m : method) : Type :=
  match m with
  | m_Interfaces => unit
  | m_InterfaceAddrs => Interface
  | m_InterfaceByName => string
  end.

Definition method_Res (m : method) : Type :=
  match m with
  | m_Interfaces => list Interface * option error
  | m_InterfaceAddrs => list NetAddr * option error
  | m_InterfaceByName => option Interface * option error
  end.

Definition method_zero (m : method) : method_Res m :=
  match m with
  | m_Interfaces => ([], None)
  | m_InterfaceAddrs => ([], None)
  | m_InterfaceByName => (None, None)
  end.

Definition method_label (m : method) : string :=
  match m with
  | m_Interfaces => "Interfaces"
  | m_InterfaceAddrs => "InterfaceAddrs"
  | m_InterfaceByName => "InterfaceByName"
  end.

#[local] Instance Vtep_NetAdapter_dec : EqDecision method.
Proof. solve_decision. Defined.

#[local] Instance Vtep_NetAdapter_inj : Inj (=) (=) method_label.
Proof. by intros [] []. Qed.

Definition methods : Methods method := {|
  Args := method_Args;
  Res := method_Res;
  method_name := method_label;
  zero_result := method_zero
|}.
#[local] Existing Instance methods.

Definition NetAdapter : Type := fake method.
Definition Interfaces := functions0 m_Interfaces.
Definition InterfaceAddrs := functions m_InterfaceAddrs.
Definition InterfaceByName := functions m_InterfaceByName.
Definition Invocations (f : NetAdapter) := Doubles.Invocations f.
Definition recordInvocation (f : NetAdapter) := Doubles.recordInvocation f.

End Vtep_NetAdapter.
End Vtep_NetAdapter.

(** fakes.Datastore, src/lib/fakes/datastore.go *)
Module Lib_Datastore.
Section Lib_Datastore.
Context {Metadata : Type}.

Inductive method := m_Add | m_Delete | m_ReadAll.

Definition method_Args (m : method) : Type :=
  match m with
  | m_Add => string * string * option Metadata
  | m_Delete => string
  | m_ReadAll => unit
  end.

Definition method_Res (m : method) : Type :=
  match m with
  | m_Add => option error
  | m_Delete => Container Metadata * option error
  | m_ReadAll => option (gmap string (Container Metadata)) * option error
  end.

Definition method_zero (m : method) : method_Res m :=
  match m with
  | m_Add => None
  | m_Delete => (zero_Container, None)
  | m_ReadAll => (None, None)
  end.

Definition method_label (m : method) : string :=
  match m with
  | m_Add => "Add"
  | m_Delete => "Delete"
  | m_ReadAll => "ReadAll"
  end.

#[local] Instance Lib_Datastore_dec : EqDecision method.
Proof. solve_decision. Defined.

#[local] Instance Lib_Datastore_inj : Inj (=) (=) method_label.
Proof. by intros [] []. Qed.

Definition methods : Methods method := {|
  Args := method_Args;
  Res := method_Res;
  method_name := method_label;
  zero_result := method_zero
|}.
#[local] Existing Instance methods.

Definition Datastore : Type := fake method.
Definition Add := functions m_Add.
Definition Delete := functions m_Delete.
Definition ReadAll := functions0 m_ReadAll.
Definition Invocations (f : Datastore) := Doubles.Invocations f.
Definition recordInvocation (f : Datastore) := Doubles.recordInvocation f.

End Lib_Datastore.
End Lib_Datastore.

(** fakes.Serializer, src/lib/fakes/serializer.go *)
Module Lib_Serializer.
Section Lib_Serializer.
Context {Any OverwriteableFile_ ReadSeeker : Type}.

Inductive method := m_DecodeAll | m_EncodeAndOverwrite.

Definition method_Args (m : method) : Type :=
  match m with
  | m_DecodeAll => ReadSeeker * Any
  | m_EncodeAndOverwrite => OverwriteableFile_ * Any
  end.

Definition method_Res (m : method) : Type :=
  match m with
  | m_DecodeAll => option error
  | m_EncodeAndOverwrite => option error
  end.

Definition method_zero (m : method) : method_Res m :=
  match m with
  | m_DecodeAll => None
  | m_EncodeAndOverwrite => None
  end.

Definition method_label (m : method) : string :=
  match m with
  | m_DecodeAll => "DecodeAll"
  | m_EncodeAndOverwrite => "EncodeAndOverwrite"
  end.

#[local] Instance Lib_Serializer_dec : EqDecision method.
Proof. solve_decision. Defined.

#[local] Instance Lib_Serializer_inj : Inj (=) (=) method_label.
Proof. by intros [] []. Qed.

Definition methods : Methods method := {|
  Args := method_Args;
  Res := method_Res;
  method_name := method_label;
  zero_result := method_zero
|}.
#[local] Existing Instance methods.

Definition Serializer : Type := fake method.
Definition DecodeAll := functions m_DecodeAll.
Definition EncodeAndOverwrite := functions m_EncodeAndOverwrite.
Definition Invocations (f : Serializer) := Doubles.Invocations f.
Definition recordInvocation (f : Serializer) := Doubles.recordInvocation f.

End Lib_Serializer.
End Lib_Serializer.

(** fakes.FileLocker, src/lib/fakes/file_locker.go *)
Module Lib_FileLocker.
Section Lib_FileLocker.
Context {LockedFile : Type}.

Definition methods : Methods unit := one_method unit (option LockedFile * option error) "Open" (None, None).
#[local] Existing Instance methods.

Definition FileLocker : Type := fake unit.
Definition Open := functions0 tt.
Definition Invocations (f : FileLocker) := Doubles.Invocations f.
Definition recordInvocation (f : FileLocker) := Doubles.recordInvocation f.

End Lib_FileLocker.
End Lib_FileLocker.

(** fakes.OverwriteableFile, src/lib/fakes/overwriteable_file.go *)
Module Lib_OverwriteableFile.

Inductive method := m_Read | m_Write | m_Seek | m_Truncate.

Definition method_Args (m : method) : Type :=
  match m with
  | m_Read => string
  | m_Write => string
  | m_Seek => Z * Z
  | m_Truncate => Z
  end.

Definition method_Res (m : method) : Type :=
  match m with
  | m_Read => Z * option error
  | m_Write => Z * option error
  | m_Seek => Z * option error
  | m_Truncate => option error
  end.

Definition method_zero (m : method) : method_Res m :=
  match m with
  | m_Read => (0, None)
  | m_Write => (0, None)
  | m_Seek => (0, None)
  | m_Truncate => None
  end.

Definition method_label (m : method) : string :=
  match m with
  | m_Read => "Read"
  | m_Write => "Write"
  | m_Seek => "Seek"
  | m_Truncate => "Truncate"
  end.

#[local] Instance Lib_OverwriteableFile_dec : EqDecision method.
Proof. solve_decision. Defined.

#[local] Instance Lib_OverwriteableFile_inj : Inj (=) (=) method_label.
Proof. by intros [] []. Qed.

Definition methods : Methods method := {|
  Args := method_Args;
  Res := method_Res;
  method_name := method_label;
  zero_result := method_zero
|}.
#[local] Existing Instance methods.

Definition OverwriteableFile : Type := fake method.
Definition Read := functions m_Read.
Definition Write := functions m_Write.
Definition Seek := functions m_Seek.
Definition Truncate := functions m_Truncate.
Definition Invocations (f : OverwriteableFile) := Doubles.Invocations f.
Definition recordInvocation (f : OverwriteableFile) := Doubles.recordInvocation f.

End Lib_OverwriteableFile.
