(* ===== verification/FakesCni.v ===== *)
(** * The fakes of the CNI plugin's packages

    The generated fakes of src/cni/config, src/cni/lib and src/cni/netinfo besides
    those of Fakes.v and FakesNetlink.v. Each is an instance of the scheme of
    Doubles.v; the types of other libraries, the function passed to [Do] among
    them, are arguments. *)

From Stdlib Require Import ZArith.
From S2P Require Import Prelude GoFmt GoNet Types CniConfig Doubles.

Definition zero_NetworkInfo : NetworkInfo := {| Info_OverlaySubnet := ""; Info_MTU := 0 |}.

(** fakes.DeviceNameGenerator, src/cni/config/fakes/deviceNameGenerator.go *)
Module Config_DeviceNameGenerator.

Inductive method := m_GenerateForHost | m_GenerateTemporaryForContainer.

Definition method_Args (m : method) : Type :=
  match m with
  | m_GenerateForHost => IP
  | m_GenerateTemporaryForContainer => IP
  end.

Definition method_Res (m : method) : Type :=
  match m with
  | m_GenerateForHost => string * option error
  | m_GenerateTemporaryForContainer => string * option error
  end.

Definition method_zero (m : method) : method_Res m :=
  match m with
  | m_GenerateForHost => ("", None)
  | m_GenerateTemporaryForContainer => ("", None)
  end.

Definition method_label (m : method) : string :=
  match m with
  | m_GenerateForHost => "GenerateForHost"
  | m_GenerateTemporaryForContainer => "GenerateTemporaryForContainer"
  end.

#[local] Instance Config_DeviceNameGenerator_dec : EqDecision method.
Proof. solve_decision. Defined.

#[local] Instance Config_DeviceNameGenerator_inj : Inj (=) (=) method_label.
Proof. by intros [] []. Qed.

Definition methods : Methods method := {|
  Args := method_Args;
  Res := method_Res;
  method_name := method_label;
  zero_result := method_zero
|}.
#[local] Existing Instance methods.

Definition DeviceNameGenerator : Type := fake method.
Definition GenerateForHost := functions m_GenerateForHost.
Definition GenerateTemporaryForContainer := functions m_GenerateTemporaryForContainer.
Definition Invocations (f : DeviceNameGenerator) := Doubles.Invocations f.
Definition recordInvocation (f : DeviceNameGenerator) := Doubles.recordInvocation f.

End Config_DeviceNameGenerator.

(** fakes.HardwareAddressGenerator, src/cni/config/fakes/hardwareAddressGenerator.go *)
Module Config_HardwareAddressGenerator.

Inductive method := m_GenerateForContainer | m_GenerateForHost.

Definition method_Args (m : method) : Type :=
  match m with
  | m_GenerateForContainer => IP
  | m_GenerateForHost => IP
  end.

Definition method_Res (m : method) : Type :=
  match m with
  | m_GenerateForContainer => HardwareAddr * option error
  | m_GenerateForHost => HardwareAddr * option error
  end.

Definition method_zero (m : method) : method_Res m :=
  match m with
  | m_GenerateForContainer => ([], None)
  | m_GenerateForHost => ([], None)
  end.

Definition method_label (m : method) : string :=
  match m with
  | m_GenerateForContainer => "GenerateForContainer"
  | m_GenerateForHost => "GenerateForHost"
  end.

#[local] Instance Config_HardwareAddressGenerator_dec : EqDecision method.
Proof. solve_decision. Defined.

#[local] Instance Config_HardwareAddressGenerator_inj : Inj (=) (=) method_label.
Proof. by intros [] []. Qed.

Definition methods : Methods method := {|
  Args := method_Args;
  Res := method_Res;
  method_name := method_label;
  zero_result := method_zero
|}.
#[local] Existing Instance methods.

Definition HardwareAddressGenerator : Type := fake method.
Definition GenerateForContainer := functions m_GenerateForContainer.
Definition GenerateForHost := functions m_GenerateForHost.
Definition Invocations (f : HardwareAddressGenerator) := Doubles.Invocations f.
Definition recordInvocation (f : HardwareAddressGenerator) := Doubles.recordInvocation f.

End Config_HardwareAddressGenerator.

(** fakes.NamespaceAdapter, src/cni/config/fakes/namespaceAdapter.go *)
Module Config_NamespaceAdapter.
Section Config_NamespaceAdapter.
Context {NetNS : Type}.

Inductive method := m_GetNS | m_GetCurrentNS.

Definition method_Args (m : method) : Type :=
  match m with
  | m_GetNS => string
  | m_GetCurrentNS => unit
  end.

Definition method_Res (m : method) : Type :=
  match m with
  | m_GetNS => option NetNS * option error
  | m_GetCurrentNS => option NetNS * option error
  end.

Definition method_zero (m : method) : method_Res m :=
  match m with
  | m_GetNS => (None, None)
  | m_GetCurrentNS => (None, None)
  end.

Definition method_label (m : method) : string :=
  match m with
  | m_GetNS => "GetNS"
  | m_GetCurrentNS => "GetCurrentNS"
  end.

#[local] Instance Config_NamespaceAdapter_dec : EqDecision method.
Proof. solve_decision. Defined.

#[local] Instance Config_NamespaceAdapter_inj : Inj (=) (=) method_label.
Proof. by intros [] []. Qed.

Definition methods : Methods method := {|
  Args := method_Args;
  Res := method_Res;
  method_name := method_label;
  zero_result := method_zero
|}.
#[local] Existing Instance methods.

Definition NamespaceAdapter : Type := fake method.
Definition GetNS := functions m_GetNS.
Definition GetCurrentNS := functions0 m_GetCurrentNS.
Definition Invocations (f : NamespaceAdapter) := Doubles.Invocations f.
Definition recordInvocation (f : NamespaceAdapter) := Doubles.recordInvocation f.

End Config_NamespaceAdapter.
End Config_NamespaceAdapter.

(** fakes.NetNS, src/cni/config/fakes/netNS.go *)
Module Config_NetNS.
Section Config_NetNS.
Context {ToRun : Type}.

Inductive method := m_Do | m_Set | m_Path | m_Fd | m_Close.

Definition method_Args (m : method) : Type :=
  match m with
  | m_Do => ToRun
  | m_Set => unit
  | m_Path => unit
  | m_Fd => unit
  | m_Close => unit
  end.

Definition method_Res (m : method) : Type :=
  match m with
  | m_Do => option error
  | m_Set => option error
  | m_Path => string
  | m_Fd => Z
  | m_Close => option error
  end.

Definition method_zero (m : method) : method_Res m :=
  match m with
  | m_Do => None
  | m_Set => None
  | m_Path => ""
  | m_Fd => 0
  | m_Close => None
  end.

Definition method_label (m : method) : string :=
  match m with
  | m_Do => "Do"
  | m_Set => "Set"
  | m_Path => "Path"
  | m_Fd => "Fd"
  | m_Close => "Close"
  end.

#[local] Instance Config_NetNS_dec : EqDecision method.
Proof. solve_decision. Defined.

#[local] Instance Config_NetNS_inj : Inj (=) (=) method_label.
Proof. by intros [] []. Qed.

Definition methods : Methods method := {|
  Args := method_Args;
  Res := method_Res;
  method_name := method_label;
  zero_result := method_zero
|}.
#[local] Existing Instance methods.

Definition NetNS : Type := fake method.
Definition Do := functions m_Do.
Definition Set_ := functions0 m_Set.
Definition Path := functions0 m_Path.
Definition Fd := functions0 m_Fd.
Definition Close := functions0 m_Close.
Definition Invocations (f : NetNS) := Doubles.Invocations f.
Definition recordInvocation (f : NetNS) := Doubles.recordInvocation f.

End Config_NetNS.
End Config_NetNS.

(** fakes.Common, src/cni/lib/fakes/common.go *)
Module Lib_Common.

Definition methods : Methods unit := one_method (string * DualAddress * DualAddress) (option error) "BasicSetup" None.
#[local] Existing Instance methods.

Definition Common : Type := fake unit.
Definition BasicSetup := functions tt.
Definition Invocations (f : Common) := Doubles.Invocations f.
Definition recordInvocation (f : Common) := Doubles.recordInvocation f.

End Lib_Common.

(** fakes.DeviceNameGenerator, src/cni/lib/fakes/deviceNameGenerator.go *)
Module Lib_DeviceNameGenerator.

Definition methods : Methods unit := one_method IP (string * option error) "GenerateForHostIFB" ("", None).
#[local] Existing Instance methods.

Definition DeviceNameGenerator : Type := fake unit.
Definition GenerateForHostIFB := functions tt.
Definition Invocations (f : DeviceNameGenerator) := Doubles.Invocations f.
Definition recordInvocation (f : DeviceNameGenerator) := Doubles.recordInvocation f.

End Lib_DeviceNameGenerator.

(** fakes.NamespaceAdapter, src/cni/lib/fakes/namespaceAdapter.go *)
Module Lib_NamespaceAdapter.
Section Lib_NamespaceAdapter.
Context {NetNS : Type}.

Inductive method := m_GetNS | m_GetCurrentNS.

Definition method_Args (m : method) : Type :=
  match m with
  | m_GetNS => string
  | m_GetCurrentNS => unit
  end.

Definition method_Res (m : method) : Type :=
  match m with
  | m_GetNS => option NetNS * option error
  | m_GetCurrentNS => option NetNS * option error
  end.

Definition method_zero (m : method) : method_Res m :=
  match m with
  | m_GetNS => (None, None)
  | m_GetCurrentNS => (None, None)
  end.

Definition method_label (m : method) : string :=
  match m with
  | m_GetNS => "GetNS"
  | m_GetCurrentNS => "GetCurrentNS"
  end.

#[local] Instance Lib_NamespaceAdapter_dec : EqDecision method.
Proof. solve_decision. Defined.

#[local] Instance Lib_NamespaceAdapter_inj : Inj (=) (=) method_label.
Proof. by intros [] []. Qed.

Definition methods : Methods method := {|
  Args := method_Args;
  Res := method_Res;
  method_name := method_label;
  zero_result := method_zero
|}.
#[local] Existing Instance methods.

Definition NamespaceAdapter : Type := fake method.
Definition GetNS := functions m_GetNS.
Definition GetCurrentNS := functions0 m_GetCurrentNS.
Definition Invocations (f : NamespaceAdapter) := Doubles.Invocations f.
Definition recordInvocation (f : NamespaceAdapter) := Doubles.recordInvocation f.

End Lib_NamespaceAdapter.
End Lib_NamespaceAdapter.

(** fakes.NetNS, src/cni/lib/fakes/netNS.go *)
Module Lib_NetNS.
Section Lib_NetNS.
Context {ToRun : Type}.

Inductive method := m_Do | m_Set | m_Path | m_Fd | m_Close.

Definition method_Args (m : method) : Type :=
  match m with
  | m_Do => ToRun
  | m_Set => unit
  | m_Path => unit
  | m_Fd => unit
  | m_Close => unit
  end.

Definition method_Res (m : method) : Type :=
  match m with
  | m_Do => option error
  | m_Set => option error
  | m_Path => string
  | m_Fd => Z
  | m_Close => option error
  end.

Definition method_zero (m : method) : method_Res m :=
  match m with
  | m_Do => None
  | m_Set => None
  | m_Path => ""
  | m_Fd => 0
  | m_Close => None
  end.

Definition method_label (m : method) : string :=
  match m with
  | m_Do => "Do"
  | m_Set => "Set"
  | m_Path => "Path"
  | m_Fd => "Fd"
  | m_Close => "Close"
  end.

#[local] Instance Lib_NetNS_dec : EqDecision method.
Proof. solve_decision. Defined.

#[local] Instance Lib_NetNS_inj : Inj (=) (=) method_label.
Proof. by intros [] []. Qed.

Definition methods : Methods method := {|
  Args := method_Args;
  Res := method_Res;
  method_name := method_label;
  zero_result := method_zero
|}.
#[local] Existing Instance methods.

Definition NetNS : Type := fake method.
Definition Do := functions m_Do.
Definition Set_ := functions0 m_Set.
Definition Path := functions0 m_Path.
Definition Fd := functions0 m_Fd.
Definition Close := functions0 m_Close.
Definition Invocations (f : NetNS) := Doubles.Invocations f.
Definition recordInvocation (f : NetNS) := Doubles.recordInvocation f.

End Lib_NetNS.
End Lib_NetNS.

(** fakes.SysctlAdapter, src/cni/lib/fakes/sysctlAdapter.go *)
Module Lib_SysctlAdapter.

Definition methods : Methods unit := one_method (string * list string) (string * option error) "Sysctl" ("", None).
#[local] Existing Instance methods.

Definition SysctlAdapter : Type := fake unit.
Definition Sysctl := functions tt.
Definition Invocations (f : SysctlAdapter) := Doubles.Invocations f.
Definition recordInvocation (f : SysctlAdapter) := Doubles.recordInvocation f.

End Lib_SysctlAdapter.

(** fakes.NetInfo, src/cni/netinfo/fakes/netinfo.go *)
Module Netinfo_NetInfo.

Definition methods : Methods unit := one_method unit (NetworkInfo * option error) "Get" (zero_NetworkInfo, None).
#[local] Existing Instance methods.

Definition NetInfo : Type := fake unit.
Definition Get := functions0 tt.
Definition Invocations (f : NetInfo) := Doubles.Invocations f.
Definition recordInvocation (f : NetInfo) := Doubles.recordInvocation f.

End Netinfo_NetInfo.
